(* ===== verification/_CoqProject ===== *)
-Q . S2P
Prelude.v
Str.v
Path.v
Json.v
JsonText.v
Manifest.v
Cache.v
Config.v
AuditLog.v
Backend.v
Redact.v
Proto.v
Os.v
Registry.v
Bootstrap.v
Server.v
Fetch.v
Secrecy.v
Admin.v
Client.v
Schema.v
SchemaText.v
Conn.v
EndToEnd.v
Daemon.v
Main.v
Concurrent.v
Typing.v
Races.v
Loops.v
Lifecycle.v
Shutdown.v
Whole.v
Harness.v
Drivers.v
LogText.v
Recovery.v
Killtest.v
Load.v
Fuzz.v
UnitTests.v
ServerTests.v
