(* ===== verification/Prelude.v ===== *)
(** * remo-broker: verification library

    remo-broker is a daemon that hands secrets to development containers.  A
    project is registered over the admin socket; its manifest lists the secrets
    it may read; its containers ask for them over a socket of the project's own;
    the daemon answers from a per-project cache or from a backend (fnox-core)
    and writes one audit event per request.  This library models the Rust
    sources (src/src) as executable definitions and proves what the daemon
    promises.

    ** The parts and where they are modelled

    - [Prelude]: Rust's [Result] ([result], [x ← m; k] for [?]), the state
      monad of the stateful components ([ST]), machine integers, [Duration] and
      [Instant] in nanoseconds.
    - [Str], [Path], [Json]: what the sources use of Rust's strings (UTF-8
      decoding, [trim], [lines], [{:?}]), paths, I/O errors and JSON trees.
    - [Os]: the calls to the kernel.  Each call to the outside (clock, file,
      network, backend) takes the number of the interaction, and what the
      outside answers is a function of that number, so theorems hold for every
      behaviour of the environment, failures included.
    - [Manifest] (manifest.rs): discovery, validation, errors.
    - [Cache] (cache.rs): the bounded cache with expiry.
    - [Config] (config.rs): layered settings and their ranges.
    - [AuditLog] (audit.rs): events, the file writer, the writer task with its
      degraded buffer, the bounded channel.
    - [Backend] (backend.rs): the swappable session.
    - [Proto] (proto/): requests, responses, error codes and their JSON.
    - [Registry] (registry.rs): projects on a heap, the map of names, socket
      files; register, unregister, reload, snapshot.
    - [Bootstrap] (bootstrap.rs): tokens from a file, the environment or the
      metadata service, with the HTTP client.
    - [Server] (server.rs): the state the handlers share ([ServerState]) and
      every handler of both sockets.
    - [Conn] (server.rs): the connection loops, line framing and the size cap.
    - [Daemon] (server.rs): what [Server::run] does before and after its accept
      loop.
    - [Main] (main.rs): command line, startup, the whole process.
    - [Concurrent] (server.rs, registry.rs): the handlers cut into atomic steps
      and interleaved.
    - [Loops] (server.rs): the accept loops ([run_project_socket], the loop of
      [Server::run]) with their stop signals, and [drain_join_set].
    - [Lifecycle] (server.rs): everything together: the admin loop, requests,
      project loops, [get]s, the signal task, the audit writer and every step of
      [Server::run], with the clock; a run is a list of labelled steps.
    - [Client] (proto/): the decoding of responses.
    - [JsonText]: a reader of JSON text that inverts the printer of [Json]; with
      it the text of requests and responses can be evaluated.
    - [Redact] (cache.rs, backend.rs): the [Debug] output.
    - [Schema] (manifest.rs, config.rs): the published JSON Schema as data with
      its validator, TOML documents, and what serde and a client make of them;
      [SchemaText]: the schema as the text of schema/remo-broker.v1.json.
    - [Harness] (examples/): what the kill test and the soak test make of what
      they find on disk and count.
    - [Drivers] (examples/, benches/): the drivers as clients of the modelled
      daemon: connections, requests, starting it; [LogText]: the lines their
      requests leave in the audit log.
    - [Recovery], [Killtest] (examples/killtest.rs): a round of the kill test
      against the daemon, and its [main].
    - [Load] (examples/soak.rs, benches/latency.rs): the soak test and the
      latency benchmark against the daemon.
    - [Fuzz] (proto/mod.rs): the fuzz tests with their generator.
    - [UnitTests], [ServerTests]: the unit tests of the sources, translated and
      evaluated, as a check of the definitions against the code.
    - [Fetch], [Admin], [Secrecy]: theorems about the handlers; [EndToEnd]: about
      [Conn]; [Typing] and [Races]: about [Concurrent]; [Shutdown] and [Whole]:
      about [Lifecycle].

    ** What the theorems show

    - Who gets a secret: [Fetch.get_denied], [Fetch.get_value_authorized],
      [Fetch.project_isolation], [Admin.reload_takes_effect], and under every
      interleaving [Concurrent.concurrent_get_authorized], and with the accept
      loops and the shutdown [Whole.life_safe].
    - What is recorded: [Fetch.get_audited] (one event, its fields fixed by what
      happened), [Secrecy.audit_noninterference] (values never reach the log),
      [Concurrent.concurrent_audit_accounting], and from the channel to the disk
      [AuditLog.audit_conservation], [AuditLog.writer_accounts] (which event goes
      where, and in which order), [AuditLog.degraded_recovers].  An event written
      from the buffer may follow later ones ([AuditLog.buffered_overtaken]), which
      nothing promises otherwise.  Read back by
      the kill test, the log passes its check ([Harness.log_check_passes]).
      [Redact.debug_blind]: nor do values reach the [Debug] output.
    - The cache: refinement of an unbounded store with expiry
      ([Cache.cache_refines_store], [Cache.cache_complete]), its bounds
      ([Cache.insert_bounded], end to end [Main.cache_memory_bounded]) and its
      place before the backend ([Fetch.fetched_then_cached]).
    - The registry and the daemon: the invariant kept by every request
      ([Admin.server_invariant]), well-formedness under every interleaving
      ([Typing.concurrent_well_formed]), the effect and the failures of each
      admin operation ([Registry], [Admin]), the admin socket and startup
      ([Daemon], [Main]).
    - Stopping: a loop that is told to stop while it waits exits
      ([Loops.stop_ends_loop]), SIGTERM is obeyed ([Lifecycle.sigterm_obeyed]),
      once its deadline has passed the shutdown, in whatever phase, waits for
      nothing, whatever the others do, and alone it does what [Daemon.shutdown]
      does ([Lifecycle.shutdown_bounded]), and if no admin request comes in
      between it leaves nothing behind ([Shutdown.quiet_shutdown_clean]).
    - Parsing and protocol: manifest validation characterised in both
      directions, with the one documented rule it does not check
      ([Manifest.validate_iff]), round trips of requests, responses
      ([Client.wire_roundtrip]), HTTP responses and URLs, framing and the size
      cap; every response is well-typed ([Client.responses_typed]).  Where
      the verdicts of the published schema and of the broker on a TOML document
      differ, exactly ([Schema.schema_agrees]).
    - From bytes to bytes: a conversation on either socket refines serving its
      requests ([EndToEnd.bytes_refine_requests]), and no input whatsoever
      derails the daemon ([EndToEnd.any_bytes_safe]).
    - A check of the translation: run without interruption, the steps of
      [Concurrent] are the handlers of [Server]
      ([Concurrent.handler_steps_refine]).
    - The drivers: the kill test's search and verdict are exact
      ([Harness.grep_exact], [Harness.killtest_verdict]), the soak test does not
      complain about a good run ([Harness.soak_sound]).  Run against the modelled
      daemon, the kill test passes, the daemon coming back after every kill with
      nothing on disk that should not be there, unless a torn write left a line
      that is not JSON ([Killtest.killtest_passes]); and the soak test, for every
      setting of its knobs, has every request answered with one event per [get]
      and complains about memory or missing lines only, or panics at a knob it
      cannot use ([Load.soak_passes]).  The fuzz harness itself never panics
      ([Fuzz.fuzz_inputs_fit]).
    - Where the code does not do what it says: [Registry.cache_bounds_not_capped],
      [Daemon.admin_socket_displaced], [Races.unregister_register_race],
      [Bootstrap.imds_empty_credentials], [AuditLog.torn_write_merges],
      [Lifecycle.sigterm_missed], [Loops.stop_lost],
      [Shutdown.late_register_hangs], [Loops.connections_never_reaped]; the
      benchmark of cache misses measures hits ([Load.cold_bench_is_warm]).

    ** Fuel and bounds

    [Str.utf8_items] uses the number of bytes as fuel, one per character read;
    [Str.escape_unicode] six hexadecimal digits, enough for a code point;
    [Conn.connection] one round per byte and one more, since a round reads at
    least one byte ([Conn.loop_fuel] shows that more changes nothing);
    [Concurrent.run_steps] seven steps for a [get] and [Concurrent.admin_fuel]
    for an admin request, which [Concurrent.handler_steps_refine] shows to be
    enough; [Loops.reap] one step per task of the set, each of which
    removes one.  [JsonText.read] allows two calls per byte and one more
    ([JsonText.read_compact] shows it to be enough for every printed text);
    [Schema.schema_fuel] is eight, two more than the schema is deep;
    [Fuzz.fill_chunks] the length of the buffer, of which each round fills eight
    bytes.  Runs of [Loops] and [Lifecycle] are lists of steps and need no
    fuel; [Lifecycle.steps_left] is the number of steps within which [run]
    returns once its deadline has passed, counted by phase.  The cast to [u32] of remaining
    seconds, the saturating conversions of TTLs and latencies and the 64-bit
    counters are written out.

    ** What is not modelled

    The text of JSON and TOML (classes [SerdeJson], [TomlManifest],
    [TomlConfig]), fnox-core ([FnoxCore]), the network and the environment
    ([Outside]), RFC 3339 formatting ([Rfc3339]), Unicode's table of printable
    characters ([UnicodeTables]), the standard library's [Debug] formats
    ([DebugFmt]) and hash-map order ([hash_iter], [HashOrder]) are parameters;
    so is tokio's [Notify] ([Loops.TokioNotify]), with its documented behaviour
    as laws.  Theorems about bytes on the wire ([EndToEnd] and the drivers) ask
    of [serde_json] that it prints compactly and reads back what it prints
    ([EndToEnd.SerdeText]), which [JsonText] satisfies.  tokio's [JoinSet] is the
    set of its running and finished tasks; its scheduler appears as the
    arbitrary order of steps, and an aborted task is gone at once.  Paths are
    UTF-8.  In the drivers, when a kill falls, how far a worker or the audit
    writer gets, what the disk does, the memory in use and the order of directory
    listings are data, over which the theorems quantify; the drivers' requests
    are served one at a time, in any order (their overlap is the subject of
    [Concurrent] and [Lifecycle]); waiting for a socket is a look at it once the daemon has set up.
    Not modelled: tracing, sd_notify, zeroization, real time and criterion's
    measuring, the temporary directories and mock servers of the unit tests
    (their contents are data), and the crate root, which declares modules. *)

From stdpp Require Export base option list gmap strings.
From Stdlib Require Export ZArith Lia Ascii.

(** ** Rust's [Result] *)

Inductive result (E A : Type) : Type :=
  | Ok (a : A)
  | Err (e : E).
Arguments Ok {E A} a.
Arguments Err {E A} e.

Declare Scope broker_scope.
Delimit Scope broker_scope with broker.
Open Scope broker_scope.

(** [Result] is a monad: [x ← m; k] is the [?] operator. *)
#[export] Instance result_ret E : MRet (result E) := @Ok E.
#[export] Instance result_bind E : MBind (result E) := λ A B k m,
  match m with Ok a => k a | Err e => Err e end.
#[export] Instance result_fmap E : FMap (result E) := λ A B f m,
  match m with Ok a => Ok (f a) | Err e => Err e end.

#[export] Instance result_eq_dec `{EqDecision E, EqDecision A} :
  EqDecision (result E A).
Proof. solve_decision. Defined.

(** [Result::map_err]. *)
Definition map_err {E F A} (f : E → F) (m : result E A) : result F A :=
  match m with Ok a => Ok a | Err e => Err (f e) end.

(** [Option::ok_or_else]. *)
Definition ok_or {E A} (e : E) (o : option A) : result E A :=
  match o with Some a => Ok a | None => Err e end.

(** [Result::ok]. *)
Definition ok {E A} (m : result E A) : option A :=
  match m with Ok a => Some a | Err _ => None end.

Definition is_ok {E A} (m : result E A) : bool :=
  match m with Ok _ => true | Err _ => false end.

(** An early return: [ensure b e] is [if !b { return Err(e) }]. *)
Definition ensure {E} (b : bool) (e : E) : result E unit :=
  if b then Ok tt else Err e.

(** [Option::or] and [Option::unwrap_or]. *)
Definition opt_or {A} (a b : option A) : option A :=
  match a with Some x => Some x | None => b end.

Definition unwrap_or {A} (a : option A) (d : A) : A := default d a.

(** ** The state monad of the stateful components *)

Definition ST (S A : Type) : Type := S → A * S.

#[export] Instance ST_ret S : MRet (ST S) := λ A a s, (a, s).
#[export] Instance ST_bind S : MBind (ST S) := λ A B k m s,
  let '(a, s') := m s in k a s'.

Definition gets {S A} (f : S → A) : ST S A := λ s, (f s, s).
Definition modify {S} (f : S → S) : ST S unit := λ s, (tt, f s).

(** [x ←? m; k]: [m] is a stateful call returning a [Result], [?] leaves with
    its error and keeps the state reached. *)
Definition bind_res {S E A B} (m : ST S (result E A))
    (k : A → ST S (result E B)) : ST S (result E B) := λ s,
  match m s with
  | (Ok a, s') => k a s'
  | (Err e, s') => (Err e, s')
  end.
Notation "x ←? m ; k" := (bind_res m (λ x, k))
  (at level 20, m at level 100, k at level 200, only parsing) : broker_scope.
Notation "' x ←? m ; k" := (bind_res m (λ x, k))
  (at level 20, x pattern, m at level 100, k at level 200, only parsing)
  : broker_scope.

(** ** Machine integers *)

Open Scope Z_scope.

Definition u16_max : Z := 2 ^ 16 - 1.
Definition u32_max : Z := 2 ^ 32 - 1.
Definition u64_max : Z := 2 ^ 64 - 1.

(** [x as u32] and the wrap-around of [AtomicU64::fetch_add]. *)
Definition as_u32 (x : Z) : Z := x mod 2 ^ 32.
Definition wrap_u64 (x : Z) : Z := x mod 2 ^ 64.

Definition is_u32 (x : Z) : Prop := 0 ≤ x ≤ u32_max.
#[export] Instance is_u32_dec x : Decision (is_u32 x).
Proof. unfold is_u32. apply _. Defined.

(** [u32::try_from(x).unwrap_or(u32::MAX)]. *)
Definition saturate_u32 (x : Z) : Z := if bool_decide (is_u32 x) then x else u32_max.

(** [(lo..=hi).contains(&x)]. *)
Definition in_range (lo hi x : Z) : bool := (lo <=? x) && (x <=? hi).

(** ** Time: [Duration] in nanoseconds, [Instant] on the monotonic clock *)

Definition Duration : Type := Z.
Definition Instant : Type := Z.

Definition NANOS_PER_SEC : Z := 1000000000.
Definition NANOS_PER_MILLI : Z := 1000000.

Definition from_secs (s : Z) : Duration := s * NANOS_PER_SEC.
Definition from_millis (ms : Z) : Duration := ms * NANOS_PER_MILLI.
Definition as_secs (d : Duration) : Z := d / NANOS_PER_SEC.
Definition as_millis (d : Duration) : Z := d / NANOS_PER_MILLI.

(** [Instant::duration_since] and [Duration::saturating_sub] saturate at zero. *)
Definition duration_since (now earlier : Instant) : Duration := Z.max 0 (now - earlier).
Definition saturating_sub (a b : Duration) : Duration := Z.max 0 (a - b).

(** ** Lemmas and automation *)

Create HintDb broker.
Create Rewrite HintDb broker.

Lemma as_u32_small x : is_u32 x → as_u32 x = x.
Proof. unfold is_u32, u32_max, as_u32. intros. apply Z.mod_small. lia. Qed.

Lemma saturate_u32_small x : is_u32 x → saturate_u32 x = x.
Proof. intros. unfold saturate_u32. by rewrite bool_decide_true. Qed.

Lemma saturate_u32_bounds x : is_u32 (saturate_u32 x).
Proof.
  unfold saturate_u32. case_bool_decide; [done|]. unfold is_u32, u32_max. lia.
Qed.

Lemma as_secs_from_secs s : as_secs (from_secs s) = s.
Proof. unfold as_secs, from_secs, NANOS_PER_SEC. apply Z.div_mul. lia. Qed.

Lemma as_secs_le d s : d ≤ from_secs s → as_secs d ≤ s.
Proof.
  unfold as_secs, from_secs, NANOS_PER_SEC. intros.
  apply Z.div_le_upper_bound; lia.
Qed.

Lemma as_secs_nonneg d : 0 ≤ d → 0 ≤ as_secs d.
Proof. unfold as_secs, NANOS_PER_SEC. intros. apply Z.div_pos; lia. Qed.

Lemma in_range_spec lo hi x : in_range lo hi x = true ↔ lo ≤ x ≤ hi.
Proof. unfold in_range. rewrite andb_true_iff, !Z.leb_le. done. Qed.

Lemma in_range_false lo hi x : in_range lo hi x = false ↔ x < lo ∨ hi < x.
Proof.
  unfold in_range. rewrite andb_false_iff, !Z.leb_gt. done.
Qed.

Lemma ensure_Ok {E} b (e : E) u : ensure b e = Ok u ↔ b = true.
Proof. unfold ensure. destruct b, u; naive_solver. Qed.

Lemma bind_Ok {E A B} (m : result E A) (k : A → result E B) b :
  (m ≫= k) = Ok b ↔ ∃ a, m = Ok a ∧ k a = Ok b.
Proof. destruct m; simpl; naive_solver. Qed.

Lemma bind_Err {E A B} (m : result E A) (k : A → result E B) e :
  (m ≫= k) = Err e ↔ m = Err e ∨ ∃ a, m = Ok a ∧ k a = Err e.
Proof. destruct m; simpl; naive_solver. Qed.

#[export] Hint Rewrite @ensure_Ok @bind_Ok in_range_spec andb_true_iff
  orb_true_iff negb_true_iff Z.leb_le Z.ltb_lt Z.eqb_eq bool_decide_eq_true : broker.

(** ** Running a component inside a larger state *)

Definition zoom {S T A} (get : S → T) (set : T → S → S) (m : ST T A) : ST S A := λ s,
  let '(a, t) := m (get s) in (a, set t s).

Lemma ST_bind_unfold {S A B} (m : ST S A) (k : A → ST S B) s :
  (m ≫= k) s = k (m s).1 (m s).2.
Proof. unfold mbind, ST_bind. by destruct (m s). Qed.

Lemma bind_res_unfold {S E A B} (m : ST S (result E A)) (k : A → ST S (result E B)) s :
  bind_res m k s =
  match (m s).1 with Ok a => k a (m s).2 | Err e => (Err e, (m s).2) end.
Proof. unfold bind_res. by destruct (m s) as [[] ?]. Qed.

(** ** Interleaving two sequences *)

(** [interleaved l1 l2 l]: [l] is [l1] and [l2] merged, each in its order. *)
Inductive interleaved {A} : list A → list A → list A → Prop :=
  | interleaved_nil : interleaved [] [] []
  | interleaved_l x l1 l2 l : interleaved l1 l2 l → interleaved (l1 ++ [x]) l2 (l ++ [x])
  | interleaved_r x l1 l2 l : interleaved l1 l2 l → interleaved l1 (l2 ++ [x]) (l ++ [x]).
#[export] Hint Constructors interleaved : broker.

Lemma interleaved_app_l {A} (k l1 l2 l : list A) :
  interleaved l1 l2 l → interleaved (l1 ++ k) l2 (l ++ k).
Proof.
  intros Hl. induction k as [|x k IH] using rev_ind; [by rewrite !app_nil_r|].
  rewrite !app_assoc. by apply interleaved_l.
Qed.

Lemma interleaved_app_r {A} (k l1 l2 l : list A) :
  interleaved l1 l2 l → interleaved l1 (l2 ++ k) (l ++ k).
Proof.
  intros Hl. induction k as [|x k IH] using rev_ind; [by rewrite !app_nil_r|].
  rewrite !app_assoc. by apply interleaved_r.
Qed.

Lemma interleaved_Permutation {A} (l1 l2 l : list A) : interleaved l1 l2 l → l ≡ₚ l1 ++ l2.
Proof. induction 1 as [|x l1 l2 l _ IH|x l1 l2 l _ IH]; [done|..]; rewrite IH; solve_Permutation. Qed.
