(* ===== verification/Str.v ===== *)
(** * Rust strings

    A Rust [String] is a [string] read as its UTF-8 bytes.  This file models
    the parts of [core::str], [core::char] and [core::fmt] the broker uses:
    UTF-8 decoding (strict and lossy), [chars().count()], [trim], [lines],
    [split_whitespace], [rsplit_once], [strip_prefix], [parse::<u16>] and the
    [{:?}] form of a string. *)

From S2P Require Import Prelude.
From stdpp Require Import pretty.
Open Scope Z_scope.

(** ** Bytes *)

Definition bytes (s : string) : list ascii := String.list_ascii_of_string s.
Definition of_bytes (bs : list ascii) : string := String.string_of_list_ascii bs.
Definition byte_val (b : ascii) : Z := Z.of_N (N_of_ascii b).
Definition byte_of (v : Z) : ascii := ascii_of_N (Z.to_N v).

(** [str::len] is the number of bytes. *)
Definition len (s : string) : Z := Z.of_nat (String.length s).

Definition is_ascii_lowercase (b : ascii) : bool := in_range 97 122 (byte_val b).
Definition is_ascii_uppercase (b : ascii) : bool := in_range 65 90 (byte_val b).
Definition is_ascii_digit (b : ascii) : bool := in_range 48 57 (byte_val b).
Definition is_ascii_alphanumeric (b : ascii) : bool :=
  is_ascii_lowercase b || is_ascii_uppercase b || is_ascii_digit b.

Lemma bytes_of_bytes bs : bytes (of_bytes bs) = bs.
Proof. apply String.list_ascii_of_string_of_list_ascii. Qed.

Lemma of_bytes_bytes s : of_bytes (bytes s) = s.
Proof. apply String.string_of_list_ascii_of_string. Qed.

Lemma length_bytes s : length (bytes s) = String.length s.
Proof. induction s; simpl; [done|]. by f_equal. Qed.

Lemma bytes_app s t : bytes (s +:+ t) = bytes s ++ bytes t.
Proof.
  induction s; [done|]. change (String a s +:+ t) with (String a (s +:+ t)).
  simpl. by f_equal.
Qed.

Lemma bytes_inj s t : bytes s = bytes t → s = t.
Proof. intros H. rewrite <-(of_bytes_bytes s), H. apply of_bytes_bytes. Qed.

Lemma byte_val_range b : 0 ≤ byte_val b ≤ 255.
Proof. destruct b as [[] [] [] [] [] [] [] []]; by vm_compute. Qed.

(** ** UTF-8

    [utf8_step] is one iteration of [core::str::validations]: the byte length
    of the next character, or of the maximal ill-formed prefix that
    [from_utf8_lossy] replaces by U+FFFD. *)

Inductive utf8_item : Type :=
  | UChar (enc : list ascii)
  | UBad (raw : list ascii).

#[export] Instance utf8_item_eq_dec : EqDecision utf8_item.
Proof. solve_decision. Defined.

Definition is_cont (b : ascii) : bool := in_range 128 191 (byte_val b).

Definition utf8_char_width (b : ascii) : nat :=
  let v := byte_val b in
  if v <? 128 then 1%nat
  else if in_range 194 223 v then 2%nat
  else if in_range 224 239 v then 3%nat
  else if in_range 240 244 v then 4%nat
  else 0%nat.

(** The second byte of a three- or four-byte sequence, which excludes
    overlong forms, surrogates and values past U+10FFFF. *)
Definition second_ok (first second : ascii) : bool :=
  let s := byte_val second in
  let f := byte_val first in
  if f =? 224 then in_range 160 191 s
  else if f =? 237 then in_range 128 159 s
  else if f =? 240 then in_range 144 191 s
  else if f =? 244 then in_range 128 143 s
  else in_range 128 191 s.

Definition utf8_step (b : ascii) (rest : list ascii) : utf8_item * list ascii :=
  match utf8_char_width b with
  | 1%nat => (UChar [b], rest)
  | 2%nat =>
      match rest with
      | b1 :: r => if is_cont b1 then (UChar [b; b1], r) else (UBad [b], rest)
      | [] => (UBad [b], [])
      end
  | 3%nat =>
      match rest with
      | b1 :: r1 =>
          if second_ok b b1 then
            match r1 with
            | b2 :: r2 =>
                if is_cont b2 then (UChar [b; b1; b2], r2) else (UBad [b; b1], r1)
            | [] => (UBad [b; b1], [])
            end
          else (UBad [b], rest)
      | [] => (UBad [b], [])
      end
  | 4%nat =>
      match rest with
      | b1 :: r1 =>
          if second_ok b b1 then
            match r1 with
            | b2 :: r2 =>
                if is_cont b2 then
                  match r2 with
                  | b3 :: r3 =>
                      if is_cont b3 then (UChar [b; b1; b2; b3], r3)
                      else (UBad [b; b1; b2], r2)
                  | [] => (UBad [b; b1; b2], [])
                  end
                else (UBad [b; b1], r1)
            | [] => (UBad [b; b1], [])
            end
          else (UBad [b], rest)
      | [] => (UBad [b], [])
      end
  | _ => (UBad [b], rest)
  end.

(** Every step consumes a byte, so the number of bytes is enough fuel. *)
Fixpoint utf8_items_fuel (fuel : nat) (bs : list ascii) : list utf8_item :=
  match fuel, bs with
  | S fuel, b :: rest =>
      let '(it, rest') := utf8_step b rest in it :: utf8_items_fuel fuel rest'
  | _, _ => []
  end.

Definition utf8_items (bs : list ascii) : list utf8_item :=
  utf8_items_fuel (length bs) bs.

Definition item_raw (it : utf8_item) : list ascii :=
  match it with UChar r => r | UBad r => r end.

Definition is_char (it : utf8_item) : bool :=
  match it with UChar _ => true | UBad _ => false end.

(** [std::str::from_utf8]. *)
Definition from_utf8 (bs : list ascii) : option string :=
  if forallb is_char (utf8_items bs) then Some (of_bytes bs) else None.

(** [String::from_utf8_lossy]: U+FFFD is EF BF BD. *)
Definition replacement : list ascii := [byte_of 239; byte_of 191; byte_of 189].
Definition item_lossy (it : utf8_item) : list ascii :=
  match it with UChar r => r | UBad _ => replacement end.
Definition from_utf8_lossy (bs : list ascii) : string :=
  of_bytes (concat (map item_lossy (utf8_items bs))).

(** [chars()] and [chars().count()]. *)
Definition code_point (enc : list ascii) : Z :=
  match enc with
  | [b] => byte_val b
  | [b; b1] => (byte_val b - 192) * 64 + (byte_val b1 - 128)
  | [b; b1; b2] =>
      (byte_val b - 224) * 4096 + (byte_val b1 - 128) * 64 + (byte_val b2 - 128)
  | [b; b1; b2; b3] =>
      (byte_val b - 240) * 262144 + (byte_val b1 - 128) * 4096 +
      (byte_val b2 - 128) * 64 + (byte_val b3 - 128)
  | _ => 65533
  end.

Definition chars (s : string) : list Z :=
  map (λ it, code_point (item_lossy it)) (utf8_items (bytes s)).
Definition chars_count (s : string) : Z := Z.of_nat (length (utf8_items (bytes s))).

(** ** Whitespace: [char::is_whitespace] (the Unicode [White_Space] property) *)

Definition is_whitespace (c : Z) : bool :=
  in_range 9 13 c || (c =? 32) || (c =? 133) || (c =? 160) || (c =? 5760) ||
  in_range 8192 8202 c || (c =? 8232) || (c =? 8233) || (c =? 8239) ||
  (c =? 8287) || (c =? 12288).

Definition item_ws (it : utf8_item) : bool := is_whitespace (code_point (item_raw it)).

Fixpoint drop_ws (l : list utf8_item) : list utf8_item :=
  match l with
  | it :: l' => if item_ws it then drop_ws l' else l
  | [] => []
  end.

Definition items_str (l : list utf8_item) : string := of_bytes (concat (map item_raw l)).

(** [str::trim]. *)
Definition trim (s : string) : string :=
  items_str (reverse (drop_ws (reverse (drop_ws (utf8_items (bytes s)))))).

(** [str::split_whitespace]: the maximal runs of non-whitespace. *)
Fixpoint split_ws_items (l : list utf8_item) (cur : list utf8_item) : list (list utf8_item) :=
  match l with
  | [] => match cur with [] => [] | _ => [reverse cur] end
  | it :: l' =>
      if item_ws it then
        match cur with [] => split_ws_items l' [] | _ => reverse cur :: split_ws_items l' [] end
      else split_ws_items l' (it :: cur)
  end.
Definition split_whitespace (s : string) : list string :=
  map items_str (split_ws_items (utf8_items (bytes s)) []).

(** ** Splitting on an ASCII byte *)

(** [split(c)]: always at least one piece. *)
Fixpoint split_on (c : ascii) (bs : list ascii) : list (list ascii) :=
  match bs with
  | [] => [[]]
  | b :: rest =>
      if decide (b = c) then [] :: split_on c rest
      else match split_on c rest with
           | p :: ps => (b :: p) :: ps
           | [] => [[b]]
           end
  end.

Definition NL : ascii := "010"%char.
Definition CR : ascii := "013"%char.

Definition strip_cr (l : list ascii) : list ascii :=
  match reverse l with
  | c :: r => if decide (c = CR) then reverse r else l
  | [] => []
  end.

(** [str::lines]: each piece ended by LF loses it and a CR before it; a last
    piece with no LF is kept whole unless empty. *)
Fixpoint lines_of (pieces : list (list ascii)) : list (list ascii) :=
  match pieces with
  | [] => []
  | [last] => match last with [] => [] | _ => [last] end
  | p :: ps => strip_cr p :: lines_of ps
  end.
Definition lines (s : string) : list string := map of_bytes (lines_of (split_on NL (bytes s))).

(** [str::strip_prefix] on bytes. *)
Fixpoint strip_prefix (p bs : list ascii) : option (list ascii) :=
  match p, bs with
  | [], _ => Some bs
  | x :: p', y :: bs' => if decide (x = y) then strip_prefix p' bs' else None
  | _ :: _, [] => None
  end.

(** [str::rsplit_once(c)]: split at the last [c]. *)
Fixpoint rsplit_once (c : ascii) (bs : list ascii) : option (list ascii * list ascii) :=
  match bs with
  | [] => None
  | b :: rest =>
      match rsplit_once c rest with
      | Some (l, r) => Some (b :: l, r)
      | None => if decide (b = c) then Some ([], rest) else None
      end
  end.

(** ** Numbers *)

Definition digit_val (b : ascii) : option Z :=
  if is_ascii_digit b then Some (byte_val b - 48) else None.

(** [u16::from_str]: an optional [+], then one or more digits, with the
    checked multiply and add of [from_str_radix]. *)
Fixpoint parse_digits (max acc : Z) (bs : list ascii) : option Z :=
  match bs with
  | [] => Some acc
  | b :: rest =>
      match digit_val b with
      | Some d =>
          let acc' := acc * 10 + d in
          if acc' <=? max then parse_digits max acc' rest else None
      | None => None
      end
  end.

Definition parse_uint (max : Z) (bs : list ascii) : option Z :=
  let digits := match bs with "+"%char :: r => r | _ => bs end in
  match digits with [] => None | _ => parse_digits max 0 digits end.

Definition parse_u16 : list ascii → option Z := parse_uint u16_max.

(** Decimal [Display] of an integer. *)
Definition dec (n : Z) : string := pretty n.

(** ** The [{:?}] form of a string

    [shown] stands for the Unicode tables of [core::unicode]: whether a
    non-ASCII character is printed as it is or as an escape. *)

Class UnicodeTables := shown : Z → bool.

Definition hex_digit (d : Z) : ascii :=
  if d <? 10 then byte_of (48 + d) else byte_of (87 + d).
Fixpoint hex_fuel (fuel : nat) (n : Z) (acc : list ascii) : list ascii :=
  match fuel with
  | O => acc
  | S fuel =>
      let acc' := hex_digit (n mod 16) :: acc in
      if n / 16 =? 0 then acc' else hex_fuel fuel (n / 16) acc'
  end.
(** A code point has at most six hexadecimal digits. *)
Definition escape_unicode (c : Z) : list ascii :=
  bytes "\u{" ++ hex_fuel 6 c [] ++ bytes "}".

Definition escape_debug `{UnicodeTables} (it : utf8_item) : list ascii :=
  let enc := item_lossy it in
  let c := code_point enc in
  if c =? 0 then bytes "\0"
  else if c =? 9 then bytes "\t"
  else if c =? 10 then bytes "\n"
  else if c =? 13 then bytes "\r"
  else if c =? 34 then ["092"%char; "034"%char]
  else if c =? 92 then ["092"%char; "092"%char]
  else if c <? 128 then
    if in_range 32 126 c then enc else escape_unicode c
  else if shown c then enc else escape_unicode c.

Definition debug_str `{UnicodeTables} (s : string) : string :=
  of_bytes (["034"%char] ++ concat (map escape_debug (utf8_items (bytes s))) ++ ["034"%char]).

(** ** Facts about UTF-8 decoding *)

Lemma utf8_step_raw b rest it rest' :
  utf8_step b rest = (it, rest') →
  item_raw it ++ rest' = b :: rest ∧ (length rest' ≤ length rest)%nat.
Proof.
  unfold utf8_step.
  repeat (case_match; simplify_eq/=; auto); intros; simplify_eq/=; auto with lia.
Qed.

Lemma utf8_items_fuel_raw fuel bs :
  (length bs ≤ fuel)%nat → concat (map item_raw (utf8_items_fuel fuel bs)) = bs.
Proof.
  revert bs. induction fuel as [|fuel IH]; intros [|b rest] Hlen; simpl in *; try done; [lia|].
  destruct (utf8_step b rest) as [it rest'] eqn:Hs.
  apply utf8_step_raw in Hs as [Hraw Hle]. simpl.
  rewrite IH by lia. done.
Qed.

(** Decoding loses nothing: the pieces put back together are the input. *)
Lemma utf8_items_raw bs : concat (map item_raw (utf8_items bs)) = bs.
Proof. by apply utf8_items_fuel_raw. Qed.

Definition is_ascii (b : ascii) : Prop := byte_val b < 128.
#[export] Instance is_ascii_dec b : Decision (is_ascii b).
Proof. unfold is_ascii. apply _. Defined.

Lemma utf8_step_ascii b rest : is_ascii b → utf8_step b rest = (UChar [b], rest).
Proof.
  unfold is_ascii, utf8_step, utf8_char_width. intros H.
  by rewrite (proj2 (Z.ltb_lt _ _) H).
Qed.

Lemma utf8_items_fuel_ascii fuel bs :
  Forall is_ascii bs → (length bs ≤ fuel)%nat →
  utf8_items_fuel fuel bs = map (λ b, UChar [b]) bs.
Proof.
  revert bs. induction fuel as [|fuel IH]; intros [|b rest] Ha Hlen; simpl in *; try done; [lia|].
  inversion Ha; subst. rewrite utf8_step_ascii by done. rewrite IH by (done || lia). done.
Qed.

(** On ASCII input every byte is one character. *)
Lemma utf8_items_ascii bs :
  Forall is_ascii bs → utf8_items bs = map (λ b, UChar [b]) bs.
Proof. intros. by apply utf8_items_fuel_ascii. Qed.

Lemma from_utf8_lossy_valid bs :
  forallb is_char (utf8_items bs) = true → from_utf8_lossy bs = of_bytes bs.
Proof.
  intros Hv. unfold from_utf8_lossy. f_equal. rewrite <-(utf8_items_raw bs) at 2.
  f_equal. apply map_ext_in. intros it Hin.
  rewrite forallb_forall in Hv. specialize (Hv it Hin). by destruct it.
Qed.

Lemma forallb_is_char_ascii bs :
  Forall is_ascii bs → forallb is_char (utf8_items bs) = true.
Proof. intros Ha. rewrite utf8_items_ascii by done. by induction bs; inversion Ha; simpl; auto. Qed.

Lemma from_utf8_ascii bs : Forall is_ascii bs → from_utf8 bs = Some (of_bytes bs).
Proof. intros Ha. unfold from_utf8. by rewrite forallb_is_char_ascii. Qed.

Lemma chars_count_ascii s :
  Forall is_ascii (bytes s) → chars_count s = len s.
Proof.
  intros Ha. unfold chars_count, len. rewrite utf8_items_ascii by done.
  by rewrite length_map, length_bytes.
Qed.

(** ** Facts about splitting *)

Lemma split_on_app_sep c a b :
  c ∉ a → split_on c (a ++ c :: b) = a :: split_on c b.
Proof.
  induction a as [|x a IH]; intros Hc; simpl.
  - by rewrite decide_True.
  - rewrite decide_False by set_solver. rewrite IH by set_solver. done.
Qed.

Lemma split_on_no_sep c a : c ∉ a → split_on c a = [a].
Proof.
  induction a as [|x a IH]; intros Hc; simpl; [done|].
  rewrite decide_False by set_solver. by rewrite IH by set_solver.
Qed.

Lemma split_on_concat c ls :
  Forall (λ l, c ∉ l) ls → split_on c (concat (map (λ l, l ++ [c]) ls)) = ls ++ [[]].
Proof.
  induction 1 as [|l ls Hl Hls IH]; simpl; [done|].
  rewrite <-app_assoc. simpl. rewrite split_on_app_sep by done. by rewrite IH.
Qed.

Lemma split_on_nonempty c a : split_on c a ≠ [].
Proof. destruct a; simpl; [done|]. case_decide; [done|]. by destruct (split_on c a0). Qed.

Lemma split_on_app c a b : split_on c (a ++ c :: b) = split_on c a ++ split_on c b.
Proof.
  induction a as [|x a IH]; simpl; [by rewrite decide_True|].
  case_decide; [by rewrite IH|]. rewrite IH.
  pose proof (split_on_nonempty c a). by destruct (split_on c a).
Qed.

(** ** Facts about prefixes, words and numbers *)

Lemma strip_prefix_app p r : strip_prefix p (p ++ r) = Some r.
Proof. induction p as [|x p IH]; simpl; [done|]. by rewrite decide_True. Qed.

Lemma strip_prefix_Some p bs r : strip_prefix p bs = Some r ↔ bs = p ++ r.
Proof.
  split; [|intros ->; apply strip_prefix_app].
  revert bs. induction p as [|x p IH]; intros [|y bs] Hs; simplify_eq/=; try done.
  case_decide; simplify_eq/=. f_equal. by apply IH.
Qed.

Lemma split_ws_items_word w l cur :
  Forall (λ it, item_ws it = false) w →
  split_ws_items (w ++ l) cur = split_ws_items l (reverse w ++ cur).
Proof.
  revert cur. induction w as [|it w IH]; intros cur Hw; [done|].
  inversion Hw as [|?? Hit Hw']; subst. simpl. rewrite Hit, IH by done.
  by rewrite reverse_cons, <-app_assoc.
Qed.

(** A word followed by a space is one item of [split_whitespace]. *)
Lemma split_ws_items_space w sp l :
  w ≠ [] → Forall (λ it, item_ws it = false) w → item_ws sp = true →
  split_ws_items (w ++ sp :: l) [] = w :: split_ws_items l [].
Proof.
  intros Hne Hw Hsp. rewrite split_ws_items_word by done. rewrite app_nil_r. simpl. rewrite Hsp.
  rewrite <-(reverse_involutive w) at 2.
  destruct (reverse w) as [|it w'] eqn:Hr; [|by simpl].
  apply (f_equal reverse) in Hr. by rewrite reverse_involutive in Hr.
Qed.

Definition is_graphic (b : ascii) : bool := in_range 33 126 (byte_val b).

Lemma is_graphic_ascii bs : forallb is_graphic bs = true → Forall is_ascii bs.
Proof.
  rewrite forallb_forall, Forall_forall. intros Hg b Hb%list_elem_of_In.
  apply Hg in Hb. unfold is_graphic, is_ascii in *. rewrite in_range_spec in Hb. lia.
Qed.

Lemma is_graphic_not_ws b : is_graphic b = true → item_ws (UChar [b]) = false.
Proof. destruct b as [[] [] [] [] [] [] [] []]; vm_compute; congruence. Qed.

Definition ascii_items (bs : list ascii) : list utf8_item := map (λ b, UChar [b]) bs.

Lemma items_str_ascii bs : items_str (ascii_items bs) = of_bytes bs.
Proof.
  unfold items_str, ascii_items. f_equal. rewrite map_map. simpl.
  induction bs; simpl; [done|]. by f_equal.
Qed.

(** The second word of a line of three. *)
Lemma split_whitespace_second w1 w2 rest :
  w1 ≠ [] → w2 ≠ [] → forallb is_graphic w1 = true → forallb is_graphic w2 = true →
  Forall is_ascii rest →
  split_whitespace (of_bytes (w1 ++ " "%char :: w2 ++ " "%char :: rest)) !! 1%nat =
    Some (of_bytes w2).
Proof.
  intros H1 H2 G1 G2 Hr. unfold split_whitespace. rewrite bytes_of_bytes.
  assert (Hws : ∀ w, forallb is_graphic w = true → Forall (λ it, item_ws it = false) (ascii_items w)).
  { intros w Hw. unfold ascii_items. rewrite Forall_fmap. apply Forall_forall. intros b Hb. simpl.
    apply is_graphic_not_ws. rewrite forallb_forall in Hw. by apply Hw, list_elem_of_In. }
  rewrite utf8_items_ascii.
  2:{ rewrite !Forall_app, !Forall_cons, Forall_app, Forall_cons.
      split_and!; try done; by apply is_graphic_ascii. }
  rewrite map_app, map_cons, map_app, map_cons. fold (ascii_items w1) (ascii_items w2).
  rewrite split_ws_items_space; [|by destruct w1|by apply Hws|done]. simpl.
  rewrite split_ws_items_space; [|by destruct w2|by apply Hws|done]. simpl.
  by rewrite items_str_ascii.
Qed.

Lemma digit_of_N_val n : (n < 10)%N → digit_val (pretty_N_char n) = Some (Z.of_N n).
Proof.
  intros Hn. assert (Hc : n ∈ (0 :: 1 :: 2 :: 3 :: 4 :: 5 :: 6 :: 7 :: 8 :: 9 :: [])%N).
  { rewrite !elem_of_cons. lia. }
  repeat (apply elem_of_cons in Hc as [->|Hc]; [done|]). by apply elem_of_nil in Hc.
Qed.

Lemma parse_pretty_go max x s :
  Z.of_N x ≤ max →
  parse_digits max 0 (bytes (pretty_N_go x s)) = parse_digits max (Z.of_N x) (bytes s).
Proof.
  revert s. induction (N.lt_wf_0 x) as [x _ IH]; intros s Hx.
  destruct (decide (x = 0%N)) as [->|Hne]; [by rewrite pretty_N_go_0|].
  rewrite pretty_N_go_step by lia. rewrite IH.
  2: apply N.div_lt; lia.
  2: { pose proof (N.Div0.div_le_upper_bound x 10 x ltac:(lia)). lia. }
  cbn [bytes String.list_ascii_of_string parse_digits].
  rewrite digit_of_N_val by (apply N.mod_lt; lia).
  assert (Z.of_N (x `div` 10) * 10 + Z.of_N (x `mod` 10) = Z.of_N x) as ->.
  { pose proof (N.div_mod x 10 ltac:(lia)). lia. }
  by rewrite (proj2 (Z.leb_le _ _) Hx).
Qed.

Lemma pretty_N_char_digit n : is_ascii_digit (pretty_N_char n) = true.
Proof. unfold pretty_N_char. repeat case_match; done. Qed.

Lemma pretty_go_digits x s :
  forallb is_ascii_digit (bytes s) = true →
  forallb is_ascii_digit (bytes (pretty_N_go x s)) = true.
Proof.
  revert s. induction (N.lt_wf_0 x) as [x _ IH]; intros s Hs.
  destruct (decide (x = 0%N)) as [->|Hne]; [by rewrite pretty_N_go_0|].
  rewrite pretty_N_go_step by lia. apply IH; [apply N.div_lt; lia|].
  simpl. by rewrite pretty_N_char_digit.
Qed.

(** Decimal [Display] gives digits, and parsing them gives the number back. *)
Lemma dec_go n : 0 < n → dec n = pretty_N_go (Z.to_N n) "".
Proof. intros Hn. destruct n as [|p|p]; [lia| |lia]. done. Qed.

Lemma dec_digits n : 0 ≤ n → forallb is_ascii_digit (bytes (dec n)) = true.
Proof.
  intros Hn. destruct (decide (n = 0)) as [->|]; [done|].
  rewrite dec_go by lia. by apply pretty_go_digits.
Qed.

(** A number below a power of ten has that many digits at most. *)
Lemma pretty_go_length k x s :
  (x < 10 ^ N.of_nat k)%N → (length (bytes (pretty_N_go x s)) ≤ k + length (bytes s))%nat.
Proof.
  revert x s. induction k as [|k IH]; intros x s Hx.
  { assert (x = 0%N) as -> by (simpl in Hx; lia). by rewrite pretty_N_go_0. }
  destruct (decide (x = 0%N)) as [->|Hne]; [rewrite pretty_N_go_0; lia|].
  rewrite pretty_N_go_step by lia. rewrite Nat2N.inj_succ, N.pow_succ_r' in Hx.
  etrans; [apply IH, N.Div0.div_lt_upper_bound; lia|]. simpl. lia.
Qed.

Lemma dec_length k n : (0 < k)%nat → 0 ≤ n < 10 ^ Z.of_nat k → (length (bytes (dec n)) ≤ k)%nat.
Proof.
  intros Hk [H0 Hn]. destruct (decide (n = 0)) as [->|]; [simpl; lia|]. rewrite dec_go by lia.
  etrans; [apply (pretty_go_length k)|simpl; lia].
  apply N2Z.inj_lt. rewrite N2Z.inj_pow, nat_N_Z, Z2N.id by lia. exact Hn.
Qed.

Lemma parse_digits_dec max n : 0 ≤ n ≤ max → parse_digits max 0 (bytes (dec n)) = Some n.
Proof.
  intros Hn. destruct (decide (n = 0)) as [->|].
  - change (bytes (dec 0)) with ["0"%char]. cbn [parse_digits]. change (digit_val "0") with (Some 0).
    simpl. by case_match; [|lia].
  - rewrite dec_go by lia. rewrite parse_pretty_go; rewrite Z2N.id by lia; [done|lia].
Qed.

Lemma dec_nonempty n : 0 ≤ n → bytes (dec n) ≠ [].
Proof.
  intros Hn Hb. destruct (decide (n = 0)) as [->|]; [done|].
  pose proof (parse_digits_dec n n ltac:(lia)) as Hp. rewrite Hb in Hp. simplify_eq/=.
Qed.

Lemma parse_dec max n : 0 ≤ n ≤ max → parse_uint max (bytes (dec n)) = Some n.
Proof.
  intros Hn. pose proof (dec_digits n ltac:(lia)) as Hd. pose proof (dec_nonempty n ltac:(lia)).
  pose proof (parse_digits_dec max n Hn) as Hp. unfold parse_uint.
  destruct (bytes (dec n)) as [|b bs]; [done|]. simpl in Hd.
  apply andb_true_iff in Hd as [Hb _]. destruct (decide (b = "+"%char)) as [->|]; [done|].
  destruct b as [[] [] [] [] [] [] [] []]; done.
Qed.
