(* ===== verification/Path.v ===== *)
(** * Paths and I/O errors

    [std::path] on Unix, with a path as its bytes, and [std::io::Error] as the
    source inspects it: the kind, and the text [Display] gives. *)

From S2P Require Import Prelude Str.
Open Scope Z_scope.

Definition SEP : ascii := "/"%char.

Definition is_absolute (p : string) : bool :=
  match p with String c _ => bool_decide (c = SEP) | EmptyString => false end.

(** [Path::join]: an absolute argument replaces the path; otherwise it is
    appended, with a separator unless the path is empty or ends in one. *)
Definition needs_sep (p : string) : bool :=
  match last (bytes p) with
  | Some c => negb (bool_decide (c = SEP))
  | None => false
  end.

Definition join (p q : string) : string :=
  if is_absolute q then q
  else if needs_sep p then p +:+ "/" +:+ q
  else p +:+ q.

(** [Path::components], without the root: empty pieces and [.] vanish, except
    a leading [.] of a relative path, which counts as [CurDir]. *)
Inductive component : Type := CurDir | ParentDir | Normal (name : list ascii).

Definition parse_component (first : bool) (piece : list ascii) : option component :=
  if decide (piece = []) then None
  else if decide (piece = bytes ".") then (if first then Some CurDir else None)
  else if decide (piece = bytes "..") then Some ParentDir
  else Some (Normal piece).

Definition components (p : string) : list component :=
  match split_on SEP (bytes p) with
  | [] => []
  | hd :: tl =>
      option_list (parse_component (negb (is_absolute p)) hd) ++
      omap (parse_component false) tl
  end.

(** [Path::file_name]: the last component when it is a normal one. *)
Definition file_name (p : string) : option (list ascii) :=
  match last (components p) with
  | Some (Normal n) => Some n
  | _ => None
  end.

(** [project_path.file_name().and_then(|s| s.to_str())]. *)
Definition file_name_str (p : string) : option string := file_name p ≫= from_utf8.

(** [Path::display]. *)
Definition display (p : string) : string := from_utf8_lossy (bytes p).

(** ** [std::io::Error] *)

Inductive ErrorKind : Type :=
  | NotFound
  | PermissionDenied
  | AlreadyExists
  | InvalidData
  | OtherKind.

#[export] Instance ErrorKind_eq_dec : EqDecision ErrorKind.
Proof. solve_decision. Defined.

Record IoError : Type := mkIoError { io_kind : ErrorKind; io_msg : string }.

#[export] Instance IoError_eq_dec : EqDecision IoError.
Proof. solve_decision. Defined.

(** The two file-system reads the broker makes of files it does not own. *)
Record Disk : Type := mkDisk {
  is_file : string → bool;
  read_to_string : string → result IoError string;
}.

Example join_rel : join "/projects/a" ".remo/broker.toml" = "/projects/a/.remo/broker.toml".
Proof. reflexivity. Qed.
Example join_trailing : join "/run/" "a.sock" = "/run/a.sock".
Proof. reflexivity. Qed.
Example file_name_plain : file_name_str "/projects/myrepo" = Some "myrepo".
Proof. reflexivity. Qed.
Example file_name_dots :
  (file_name_str "/p/a/.", file_name_str "/p/a/", file_name_str "/p/a/..",
   file_name_str "/", file_name_str ".") = (Some "a", Some "a", None, None, None).
Proof. reflexivity. Qed.

(** ** Facts about joining a file name to a directory *)

Definition plain_name (q : string) : Prop :=
  SEP ∉ bytes q ∧ q ≠ "" ∧ q ≠ "." ∧ q ≠ "..".

Lemma plain_name_not_absolute q : plain_name q → is_absolute q = false.
Proof.
  intros (Hs & _). destruct q as [|c q]; [done|]. simpl. apply bool_decide_false.
  intros ->. set_solver.
Qed.

Lemma parse_component_plain b q : plain_name q → parse_component b (bytes q) = Some (Normal (bytes q)).
Proof.
  intros (_ & H0 & H1 & H2). unfold parse_component.
  rewrite !decide_False; [done| | |]; intros Hq; [apply H2|apply H1|apply H0];
    by apply bytes_inj.
Qed.

Lemma join_plain p q : plain_name q →
  join p q = p +:+ q ∨ join p q = p +:+ "/" +:+ q.
Proof.
  intros Hq. unfold join. rewrite plain_name_not_absolute by done.
  destruct (needs_sep p); auto.
Qed.

Lemma last_snoc_component l b q :
  plain_name q →
  last (l ++ omap (parse_component b) [bytes q]) = Some (Normal (bytes q)).
Proof. intros Hq. cbn [omap list_omap]. rewrite parse_component_plain by done. apply last_snoc. Qed.

Lemma file_name_slash p q :
  plain_name q → file_name (p +:+ "/" +:+ q) = Some (bytes q).
Proof.
  intros Hq. unfold file_name, components.
  assert (split_on SEP (bytes (p +:+ "/" +:+ q)) = split_on SEP (bytes p) ++ [bytes q]) as ->.
  { rewrite !bytes_app. change (bytes "/") with [SEP]. simpl.
    rewrite split_on_app. f_equal. apply split_on_no_sep, Hq. }
  pose proof (split_on_nonempty SEP (bytes p)). destruct (split_on SEP (bytes p)) as [|hd tl]; [done|].
  simpl. rewrite omap_app, app_assoc, last_snoc_component by done. done.
Qed.

(** The file name of a plain name joined to a directory is that name: the
    result is a direct child of the directory. *)
Lemma file_name_join p q : plain_name q → file_name (join p q) = Some (bytes q).
Proof.
  intros Hq. unfold join. rewrite plain_name_not_absolute by done.
  destruct (needs_sep p) eqn:Hn; [by apply file_name_slash|].
  unfold needs_sep in Hn. destruct (last (bytes p)) as [c|] eqn:Hl.
  - apply negb_false_iff, bool_decide_eq_true in Hn. subst c.
    apply last_Some in Hl as [l Hl].
    assert (p +:+ q = of_bytes l +:+ "/" +:+ q) as ->; [|by apply file_name_slash].
    apply bytes_inj. rewrite !bytes_app, bytes_of_bytes, Hl, <-app_assoc. done.
  - apply last_None in Hl. assert (p = "") as -> by (by apply bytes_inj).
    change ("" +:+ q) with q. unfold file_name, components.
    rewrite split_on_no_sep by apply Hq. rewrite parse_component_plain by done. done.
Qed.

Lemma join_inj p q q' :
  plain_name q → plain_name q' → join p q = join p q' → q = q'.
Proof.
  intros Hq Hq' Heq. apply bytes_inj, (inj Some).
  by rewrite <-(file_name_join p q), <-(file_name_join p q'), Heq.
Qed.
