(* ===== verification/Json.v ===== *)
(** * JSON values

    The tree serde builds for a value, before [serde_json] turns it into text.
    Text is the third-party half: [SerdeJson] is the printer and parser as
    parameters, with the one documented fact the broker's framing relies on
    (compact output is a single line).  [compact] is a printer that has it. *)

From S2P Require Import Prelude Str.
From stdpp Require Import pretty.
Open Scope Z_scope.

Inductive json : Type :=
  | JNull
  | JBool (b : bool)
  | JNum (n : Z)
  | JStr (s : string)
  | JArr (l : list json)
  | JObj (fields : list (string * json)).

(** Fields marked [skip_serializing_if = "Option::is_none"] that are [None]
    are left out. *)
Definition field (k : string) (v : json) : list (string * json) := [(k, v)].
Definition opt_field (k : string) (v : option json) : list (string * json) :=
  match v with Some j => [(k, j)] | None => [] end.

(** The keys of an object, and its first value for a key. *)
Definition json_keys (j : json) : list string :=
  match j with JObj fs => fs.*1 | _ => [] end.
Fixpoint assoc (k : string) (fs : list (string * json)) : option json :=
  match fs with
  | [] => None
  | (k', v) :: fs => if decide (k = k') then Some v else assoc k fs
  end.

Definition json_field (k : string) (j : json) : option json :=
  match j with JObj fs => assoc k fs | _ => None end.

Class SerdeJson := mkSerdeJson {
  to_string : json → string;
  from_slice : list ascii → option json;
  to_string_one_line : ∀ j, NL ∉ bytes (to_string j);
}.

(** ** A compact printer *)

Definition escape_byte (b : ascii) : list ascii :=
  let v := byte_val b in
  if v =? 34 then ["092"%char; "034"%char]
  else if v =? 92 then ["092"%char; "092"%char]
  else if v =? 8 then bytes "\b"
  else if v =? 9 then bytes "\t"
  else if v =? 10 then bytes "\n"
  else if v =? 12 then bytes "\f"
  else if v =? 13 then bytes "\r"
  else if v <? 32 then bytes "\u00" ++ [hex_digit (v / 16); hex_digit (v mod 16)]
  else [b].

Definition quoted (s : string) : list ascii :=
  "034"%char :: concat (map escape_byte (bytes s)) ++ ["034"%char].

Fixpoint sep_by (sep : list ascii) (l : list (list ascii)) : list ascii :=
  match l with
  | [] => []
  | [x] => x
  | x :: l => x ++ sep ++ sep_by sep l
  end.

Fixpoint compact (j : json) : list ascii :=
  match j with
  | JNull => bytes "null"
  | JBool b => bytes (if b then "true" else "false")
  | JNum n => bytes (dec n)
  | JStr s => quoted s
  | JArr l => bytes "[" ++ sep_by (bytes ",") (map compact l) ++ bytes "]"
  | JObj fs =>
      bytes "{" ++
      sep_by (bytes ",") (map (λ kv, quoted kv.1 ++ bytes ":" ++ compact kv.2) fs) ++
      bytes "}"
  end.

Definition no_nl (bs : list ascii) : Prop := NL ∉ bs.

Lemma no_nl_literal bs : forallb (λ b, negb (bool_decide (b = NL))) bs = true → no_nl bs.
Proof.
  rewrite forallb_forall. intros Hf Hin. apply list_elem_of_In, Hf in Hin.
  by rewrite bool_decide_true in Hin.
Qed.

Lemma no_nl_app a b : no_nl a → no_nl b → no_nl (a ++ b).
Proof. unfold no_nl. set_solver. Qed.

Lemma no_nl_concat l : Forall no_nl l → no_nl (concat l).
Proof.
  induction 1; simpl; [unfold no_nl; set_solver|]. by apply no_nl_app.
Qed.

Lemma no_nl_sep_by sep l : no_nl sep → Forall no_nl l → no_nl (sep_by sep l).
Proof.
  intros Hs. induction 1 as [|x l Hx Hl IH]; simpl; [unfold no_nl; set_solver|].
  destruct l; [done|]. auto using no_nl_app.
Qed.

Lemma escape_byte_no_nl b : no_nl (escape_byte b).
Proof.
  apply no_nl_literal. by destruct b as [[] [] [] [] [] [] [] []].
Qed.

Lemma quoted_no_nl s : no_nl (quoted s).
Proof.
  unfold quoted. change (?x :: ?l) with ([x] ++ l).
  repeat apply no_nl_app; try by apply no_nl_literal.
  apply no_nl_concat, Forall_forall. intros x (b & -> & _)%list_elem_of_fmap.
  apply escape_byte_no_nl.
Qed.

Lemma pretty_go_no_nl x s : no_nl (bytes s) → no_nl (bytes (pretty_N_go x s)).
Proof.
  revert s. induction x as [x IH] using (well_founded_induction N.lt_wf_0). intros s Hs.
  assert (x = 0 ∨ 0 < x)%N as [->|Hx] by lia; [by rewrite pretty_N_go_0|].
  rewrite pretty_N_go_step by done. apply IH; [apply N.div_lt; lia|].
  change (bytes (String ?c s)) with ([c] ++ bytes s). apply no_nl_app; [|done].
  apply no_nl_literal. unfold pretty_N_char. by repeat case_match.
Qed.

Lemma dec_no_nl n : no_nl (bytes (dec n)).
Proof.
  assert (∀ m : N, no_nl (bytes (pretty m))) as HN.
  { intros m. unfold pretty, pretty_N. case_decide; [|by apply pretty_go_no_nl, no_nl_literal].
    by apply no_nl_literal. }
  unfold dec. destruct n as [|p|p]; [by apply no_nl_literal|apply (HN (N.pos p))|].
  unfold pretty, pretty_Z. rewrite bytes_app. apply no_nl_app; [|apply HN].
  by apply no_nl_literal.
Qed.

(** Induction over the nested tree. *)
Lemma json_ind' (P : json → Prop) :
  P JNull → (∀ b, P (JBool b)) → (∀ n, P (JNum n)) → (∀ s, P (JStr s)) →
  (∀ l, Forall P l → P (JArr l)) →
  (∀ fs, Forall (λ kv : string * json, P kv.2) fs → P (JObj fs)) →
  ∀ j, P j.
Proof.
  intros Hnull Hbool Hnum Hstr Harr Hobj. fix IH 1. intros [|b|n|s|l|fs].
  - exact Hnull.
  - exact (Hbool b).
  - exact (Hnum n).
  - exact (Hstr s).
  - apply Harr. induction l as [|x l IHl]; constructor; [exact (IH x)|exact IHl].
  - apply Hobj. induction fs as [|x fs IHfs]; constructor; [exact (IH x.2)|exact IHfs].
Qed.

Lemma compact_no_nl j : no_nl (compact j).
Proof.
  induction j as [|b|n|s|l IH|fs IH] using json_ind'; cbn [compact].
  - by apply no_nl_literal.
  - destruct b; by apply no_nl_literal.
  - apply dec_no_nl.
  - apply quoted_no_nl.
  - apply (no_nl_app (bytes "[")); [by apply no_nl_literal|].
    apply no_nl_app; [|by apply no_nl_literal].
    apply no_nl_sep_by; [by apply no_nl_literal|]. by apply Forall_fmap.
  - apply (no_nl_app (bytes "{")); [by apply no_nl_literal|].
    apply no_nl_app; [|by apply no_nl_literal].
    apply no_nl_sep_by; [by apply no_nl_literal|]. apply Forall_fmap.
    eapply Forall_impl; [exact IH|]. intros [k v] Hv. cbn [fst snd] in *.
    apply (no_nl_app (quoted k)); [apply quoted_no_nl|].
    by apply (no_nl_app (bytes ":")); [apply no_nl_literal|].
Qed.

(** The printer above as an instance, with a parser that accepts nothing: for
    the witnesses of statements about output. *)
Definition compact_json : SerdeJson.
Proof.
  refine (mkSerdeJson (λ j, of_bytes (compact j)) (λ _, None) _).
  intros j. rewrite bytes_of_bytes. apply compact_no_nl.
Defined.
