(* ===== verification/JsonText.v ===== *)
(** * JSON text

    [serde_json] is a parameter of the development ([Json.SerdeJson]).  This
    file has the reader that goes with the printer [Json.compact], so that the
    statements about whole connections and the tests of the sources can be
    evaluated on the texts that really cross a socket: [read] takes bytes to a
    tree, and reading back what [compact] printed gives the tree
    ([read_compact]).  Numbers are integers (no fraction, no exponent) in
    canonical form, the only ones the protocol has. *)

From S2P Require Import Prelude Str Json.
Open Scope Z_scope.

(** ** Tokens *)

Definition QUOTE : ascii := "034"%char.
Definition BACKSLASH : ascii := "092"%char.

Definition is_json_ws (b : ascii) : bool :=
  let v := byte_val b in (v =? 32) || (v =? 9) || (v =? 10) || (v =? 13).

Fixpoint skip_ws (bs : list ascii) : list ascii :=
  match bs with
  | b :: r => if is_json_ws b then skip_ws r else bs
  | [] => []
  end.

Definition hex_val (b : ascii) : option Z :=
  let v := byte_val b in
  if in_range 48 57 v then Some (v - 48)
  else if in_range 97 102 v then Some (v - 87)
  else if in_range 65 70 v then Some (v - 55)
  else None.

(** The UTF-8 of a code point below U+10000; a surrogate has none. *)
Definition encode_bmp (c : Z) : option (list ascii) :=
  if c <? 128 then Some [byte_of c]
  else if c <? 2048 then Some [byte_of (192 + c / 64); byte_of (128 + c mod 64)]
  else if in_range 55296 57343 c then None
  else Some [byte_of (224 + c / 4096); byte_of (128 + (c / 64) mod 64); byte_of (128 + c mod 64)].

Definition unescape (b : ascii) : option ascii :=
  let v := byte_val b in
  if v =? 34 then Some b
  else if v =? 92 then Some b
  else if v =? 47 then Some b
  else if v =? 98 then Some (byte_of 8)
  else if v =? 102 then Some (byte_of 12)
  else if v =? 110 then Some (byte_of 10)
  else if v =? 114 then Some (byte_of 13)
  else if v =? 116 then Some (byte_of 9)
  else None.

Definition hex4 (a b c d : ascii) : option (list ascii) :=
  x ← hex_val a; y ← hex_val b; z ← hex_val c; w ← hex_val d;
  encode_bmp (x * 4096 + y * 256 + z * 16 + w).

Definition push (p : list ascii) (o : option (list ascii * list ascii)) :
    option (list ascii * list ascii) :=
  '(s, r) ← o; Some (p ++ s, r).

(** The inside of a string, up to the closing quote. *)
Fixpoint read_chars (bs : list ascii) : option (list ascii * list ascii) :=
  match bs with
  | [] => None
  | b :: r =>
      if byte_val b =? 34 then Some ([], r)
      else if byte_val b =? 92 then
        match r with
        | [] => None
        | e :: r1 =>
            if byte_val e =? 117 then
              match r1 with
              | h1 :: h2 :: h3 :: h4 :: r2 => p ← hex4 h1 h2 h3 h4; push p (read_chars r2)
              | _ => None
              end
            else c ← unescape e; push [c] (read_chars r1)
        end
      else if byte_val b <? 32 then None
      else push [b] (read_chars r)
  end.

Fixpoint span_digits (bs : list ascii) : list ascii * list ascii :=
  match bs with
  | b :: r => if is_ascii_digit b then let '(ds, r') := span_digits r in (b :: ds, r') else ([], bs)
  | [] => ([], [])
  end.

Fixpoint digits_val (acc : Z) (ds : list ascii) : Z :=
  match ds with
  | [] => acc
  | d :: ds => digits_val (acc * 10 + (byte_val d - 48)) ds
  end.

(** A number is accepted in the form [dec] writes it. *)
Definition read_num (bs : list ascii) : option (Z * list ascii) :=
  let '(sign, r) :=
    match bs with
    | b :: r => if byte_val b =? 45 then ([b], r) else ([], bs)
    | [] => ([], [])
    end in
  let '(ds, r') := span_digits r in
  let n := match sign with [] => digits_val 0 ds | _ => - digits_val 0 ds end in
  if decide (bytes (dec n) = sign ++ ds) then Some (n, r') else None.

(** ** Values *)

Definition read_literal (bs : list ascii) : option (json * list ascii) :=
  match strip_prefix (bytes "null") bs with
  | Some r => Some (JNull, r)
  | None =>
      match strip_prefix (bytes "true") bs with
      | Some r => Some (JBool true, r)
      | None =>
          match strip_prefix (bytes "false") bs with
          | Some r => Some (JBool false, r)
          | None => '(n, r) ← read_num bs; Some (JNum n, r)
          end
      end
  end.

(** [value], [items] (after the opening bracket of a non-empty array) and
    [members] (after the opening brace of a non-empty object). *)
Fixpoint value (fuel : nat) (bs : list ascii) : option (json * list ascii) :=
  match fuel with
  | O => None
  | S f =>
      match skip_ws bs with
      | [] => None
      | b :: r =>
          if byte_val b =? 34 then '(s, r') ← read_chars r; Some (JStr (of_bytes s), r')
          else if byte_val b =? 91 then
            match skip_ws r with
            | b1 :: r1 =>
                if byte_val b1 =? 93 then Some (JArr [], r1)
                else '(l, r') ← items f (b1 :: r1); Some (JArr l, r')
            | [] => None
            end
          else if byte_val b =? 123 then
            match skip_ws r with
            | b1 :: r1 =>
                if byte_val b1 =? 125 then Some (JObj [], r1)
                else '(l, r') ← members f (b1 :: r1); Some (JObj l, r')
            | [] => None
            end
          else read_literal (b :: r)
      end
  end
with items (fuel : nat) (bs : list ascii) : option (list json * list ascii) :=
  match fuel with
  | O => None
  | S f =>
      '(v, r) ← value f bs;
      match skip_ws r with
      | b :: r1 =>
          if byte_val b =? 44 then '(vs, r') ← items f r1; Some (v :: vs, r')
          else if byte_val b =? 93 then Some ([v], r1)
          else None
      | [] => None
      end
  end
with members (fuel : nat) (bs : list ascii) : option (list (string * json) * list ascii) :=
  match fuel with
  | O => None
  | S f =>
      match skip_ws bs with
      | q :: r =>
          if byte_val q =? 34 then
            '(k, r1) ← read_chars r;
            match skip_ws r1 with
            | c :: r2 =>
                if byte_val c =? 58 then
                  '(v, r3) ← value f r2;
                  match skip_ws r3 with
                  | b :: r4 =>
                      if byte_val b =? 44 then
                        '(kvs, r') ← members f r4; Some ((of_bytes k, v) :: kvs, r')
                      else if byte_val b =? 125 then Some ([(of_bytes k, v)], r4)
                      else None
                  | [] => None
                  end
                else None
            | [] => None
            end
          else None
      | [] => None
      end
  end.

(** A text is one value with whitespace around it.  Two calls per byte are
    enough: a call either reads a byte or is followed by one that does. *)
Definition read (bs : list ascii) : option json :=
  '(j, r) ← value (2 * length bs + 1) bs;
  match skip_ws r with [] => Some j | _ => None end.

Definition read_str (s : string) : option json := read (bytes s).

(** ** Reading back what [compact] printed *)

Lemma read_chars_escape b t : read_chars (escape_byte b ++ t) = push [b] (read_chars t).
Proof. by destruct b as [[] [] [] [] [] [] [] []]. Qed.

Lemma read_chars_quoted bs t :
  read_chars (concat (map escape_byte bs) ++ QUOTE :: t) = Some (bs, t).
Proof.
  induction bs as [|b bs IH]; [done|]. simpl. rewrite <-app_assoc, read_chars_escape.
  by rewrite IH.
Qed.

Lemma span_digits_app ds t :
  forallb is_ascii_digit ds = true →
  match t with b :: _ => is_ascii_digit b = false | [] => True end →
  span_digits (ds ++ t) = (ds, t).
Proof.
  intros Hds Ht. induction ds as [|d ds IH]; simpl in *.
  - destruct t; simpl; [done|]. by rewrite Ht.
  - apply andb_true_iff in Hds as [-> Hds]. by rewrite (IH Hds).
Qed.

Lemma parse_digits_val max acc ds v : parse_digits max acc ds = Some v → digits_val acc ds = v.
Proof.
  revert acc. induction ds as [|d ds IH]; intros acc; simpl; [by intros [= ->]|].
  unfold digit_val. destruct (is_ascii_digit d); [|done]. case_match; [apply IH|done].
Qed.

Lemma digits_val_dec n : 0 ≤ n → digits_val 0 (bytes (dec n)) = n.
Proof. intros Hn. eapply (parse_digits_val n), parse_digits_dec. lia. Qed.

Lemma dec_neg p : dec (Z.neg p) = "-" +:+ dec (Z.pos p).
Proof. done. Qed.

Lemma read_num_dec n t :
  match t with b :: _ => is_ascii_digit b = false | [] => True end →
  read_num (bytes (dec n) ++ t) = Some (n, t).
Proof.
  intros Ht. unfold read_num. destruct (decide (0 ≤ n)) as [Hn|Hn].
  - pose proof (dec_digits n Hn) as Hd. pose proof (dec_nonempty n Hn) as Hne.
    pose proof (digits_val_dec n Hn) as Hv.
    destruct (bytes (dec n)) as [|b ds] eqn:Hb; [done|]. cbn [app].
    rewrite (proj2 (Z.eqb_neq (byte_val b) 45)).
    + change (b :: ds ++ t) with ((b :: ds) ++ t). rewrite span_digits_app by done.
      cbv iota beta. rewrite Hv. by rewrite decide_True by done.
    + simpl in Hd. apply andb_true_iff in Hd as [Hd _]. unfold is_ascii_digit in Hd.
      rewrite in_range_spec in Hd. lia.
  - destruct n as [|p|p]; [lia|lia|]. rewrite dec_neg.
    rewrite bytes_app. change (bytes "-") with ["-"%char]. cbn [app].
    change (byte_val "-" =? 45) with true. cbv iota.
    rewrite span_digits_app by (done || by apply dec_digits). cbv iota.
    rewrite digits_val_dec by lia. by rewrite decide_True.
Qed.

(** The first byte of a printed value is not whitespace. *)
Lemma skip_ws_cons b r : is_json_ws b = false → skip_ws (b :: r) = b :: r.
Proof. intros Hb. simpl. by rewrite Hb. Qed.

(** The first byte of a printed number is a digit or a sign. *)
Lemma dec_head n t :
  ∃ b r, bytes (dec n) ++ t = b :: r ∧ (byte_val b = 45 ∨ 48 ≤ byte_val b ≤ 57).
Proof.
  destruct (decide (0 ≤ n)) as [Hn|Hn].
  - pose proof (dec_digits n Hn) as Hd. pose proof (dec_nonempty n Hn).
    destruct (bytes (dec n)) as [|b ds]; [done|]. exists b, (ds ++ t). split; [done|].
    simpl in Hd. apply andb_true_iff in Hd as [Hd _]. unfold is_ascii_digit in Hd.
    rewrite in_range_spec in Hd. by right.
  - destruct n as [|p|p]; [lia|lia|]. rewrite dec_neg. eexists _, _. split; [done|by left].
Qed.

Lemma read_literal_num b r :
  byte_val b = 45 ∨ 48 ≤ byte_val b ≤ 57 →
  read_literal (b :: r) = '(n, r') ← read_num (b :: r); Some (JNum n, r').
Proof.
  intros Hb. unfold read_literal. simpl.
  rewrite !decide_False; [done|intros <-; vm_compute in Hb; naive_solver..].
Qed.

Lemma num_byte_not_ws b : byte_val b = 45 ∨ 48 ≤ byte_val b ≤ 57 → is_json_ws b = false.
Proof. intros Hb. unfold is_json_ws. by rewrite !(proj2 (Z.eqb_neq _ _)) by lia. Qed.

(** What may follow a value: nothing, or a byte that is no digit. *)
Definition stops (t : list ascii) : Prop :=
  match t with b :: _ => is_ascii_digit b = false | [] => True end.

Definition reads_back (j : json) : Prop := ∀ f t,
  (2 * length (compact j) ≤ f)%nat → stops t → value f (compact j ++ t) = Some (j, t).

Lemma compact_nonempty j : (1 ≤ length (compact j))%nat.
Proof.
  destruct j as [|[]|n|s|l|fs]; cbn [compact]; try (simpl; lia).
  destruct (dec_head n []) as (b & r & Hb & _). rewrite app_nil_r in Hb. rewrite Hb. simpl. lia.
Qed.

Lemma compact_head j :
  ∃ b r, compact j = b :: r ∧ is_json_ws b = false ∧ byte_val b ≠ 93.
Proof.
  destruct j as [|[]|n|s|l|fs]; cbn [compact]; try (by eexists _, _).
  destruct (dec_head n []) as (b & r & Hb & Hv). rewrite app_nil_r in Hb. rewrite Hb.
  exists b, r. split_and!; [done|by apply num_byte_not_ws|lia].
Qed.

Lemma value_num n : reads_back (JNum n).
Proof.
  intros f t Hf Ht. pose proof (compact_nonempty (JNum n)). destruct f as [|f]; [lia|].
  cbn [compact]. destruct (dec_head n t) as (b & r & Hb & Hv). cbn [value].
  rewrite Hb, skip_ws_cons by (by apply num_byte_not_ws).
  rewrite !(proj2 (Z.eqb_neq (byte_val b) _)) by lia.
  rewrite read_literal_num by done. by rewrite <-Hb, read_num_dec.
Qed.

Lemma value_str s : reads_back (JStr s).
Proof.
  intros [|f] t Hf Ht; [simpl in Hf; lia|]. cbn [compact value]. unfold quoted. simpl app.
  rewrite skip_ws_cons by done. change (byte_val "034" =? 34) with true. cbv iota.
  rewrite <-app_assoc. change (["034"%char] ++ t) with (QUOTE :: t).
  rewrite read_chars_quoted. simpl. by rewrite of_bytes_bytes.
Qed.

(** A printed list of values, read by [items]. *)
Lemma items_sep l t f :
  Forall reads_back l → l ≠ [] →
  (2 * length (sep_by (bytes ",") (map compact l)) + 1 ≤ f)%nat →
  items f (sep_by (bytes ",") (map compact l) ++ "]"%char :: t) = Some (l, t).
Proof.
  intros Hl. revert f. induction Hl as [|v l Hv Hl IH]; intros f Hne Hf; [done|].
  destruct f as [|f]; [lia|]. destruct l as [|v' l].
  - cbn [map sep_by items] in *. by rewrite Hv by (done || lia).
  - cbn [map sep_by] in *. rewrite !length_app in Hf. rewrite <-!app_assoc. cbn [items].
    rewrite Hv by (done || lia).
    change (bytes "," ++ ?x) with (","%char :: x). cbn [mbind option_bind].
    rewrite skip_ws_cons by done. change (byte_val "," =? 44) with true. cbv iota.
    rewrite IH; [done|done|]. simpl in Hf |- *. lia.
Qed.

(** A printed list of members, read by [members]. *)
Lemma members_sep l t f :
  let pr := λ kv : string * json, quoted kv.1 ++ bytes ":" ++ compact kv.2 in
  Forall (λ kv, reads_back kv.2) l → l ≠ [] →
  (2 * length (sep_by (bytes ",") (map pr l)) + 1 ≤ f)%nat →
  members f (sep_by (bytes ",") (map pr l) ++ "}"%char :: t) = Some (l, t).
Proof.
  intros pr Hl. revert f. induction Hl as [|[k v] l Hv Hl IH]; intros f Hne Hf; [done|].
  assert (Hone : ∀ f t', (2 * length (pr (k, v)) ≤ f)%nat → stops t' →
    members (S f) (pr (k, v) ++ t') =
      match skip_ws t' with
      | b :: r4 =>
          if byte_val b =? 44 then '(kvs, r') ← members f r4; Some ((k, v) :: kvs, r')
          else if byte_val b =? 125 then Some ([(k, v)], r4) else None
      | [] => None
      end).
  { clear Hf IH. intros g t' Hg Ht. unfold pr, quoted in *. cbn [fst snd] in *.
    rewrite !length_app in Hg. rewrite <-!app_assoc. cbn [members]. simpl app.
    rewrite skip_ws_cons by done. change (byte_val "034" =? 34) with true. cbv iota.
    rewrite <-app_assoc. simpl app.
    change ("034"%char :: ?x) with (QUOTE :: x). rewrite read_chars_quoted. cbn [mbind option_bind].
    rewrite skip_ws_cons by done. change (byte_val ":" =? 58) with true. cbv iota.
    rewrite Hv by (done || lia). cbn. by rewrite of_bytes_bytes. }
  destruct f as [|f]; [lia|]. destruct l as [|kv' l].
  - cbn [map sep_by] in *. rewrite Hone by (done || lia). by rewrite skip_ws_cons.
  - cbn [map sep_by] in *. rewrite !length_app in Hf. rewrite <-!app_assoc.
    rewrite Hone by (done || lia).
    change (bytes "," ++ ?x) with (","%char :: x).
    rewrite skip_ws_cons by done. change (byte_val "," =? 44) with true. cbv iota.
    rewrite IH; [done|done|]. simpl in Hf |- *. lia.
Qed.

Lemma value_arr l : Forall reads_back l → reads_back (JArr l).
Proof.
  intros Hl [|f] t Hf Ht; [simpl in Hf; lia|]. cbn [compact] in *.
  change (bytes "[" ++ ?x) with ("["%char :: x) in *. cbn [value app].
  rewrite skip_ws_cons by done. change (byte_val "[" =? 34) with false.
  change (byte_val "[" =? 91) with true. cbv iota.
  destruct (decide (l = [])) as [->|Hne]; [done|].
  cbn [length] in Hf. rewrite !length_app in Hf. rewrite <-app_assoc. change (bytes "]" ++ t) with ("]"%char :: t).
  destruct l as [|v l]; [done|]. inversion Hl; subst.
  destruct (compact_head v) as (b & r & Hb & Hw & H93).
  pose proof (items_sep (v :: l) t f Hl Hne ltac:(lia)) as Hit.
  destruct (sep_by (bytes ",") (map compact (v :: l))) as [|b' r'] eqn:Hs.
  - exfalso. cbn [map sep_by] in Hs. rewrite Hb in Hs. by destruct l.
  - assert (b' = b) as ->. { cbn [map sep_by] in Hs. rewrite Hb in Hs. by destruct l; simplify_eq/=. }
    cbn [app] in Hit |- *. rewrite skip_ws_cons by done. rewrite (proj2 (Z.eqb_neq _ _) H93). by rewrite Hit.
Qed.

Lemma value_obj fs : Forall (λ kv : string * json, reads_back kv.2) fs → reads_back (JObj fs).
Proof.
  intros Hl [|f] t Hf Ht; [simpl in Hf; lia|]. cbn [compact] in *.
  change (bytes "{" ++ ?x) with ("{"%char :: x) in *. cbn [value app].
  rewrite skip_ws_cons by done. change (byte_val "{" =? 34) with false.
  change (byte_val "{" =? 91) with false. change (byte_val "{" =? 123) with true. cbv iota.
  destruct (decide (fs = [])) as [->|Hne]; [done|].
  cbn [length] in Hf. rewrite !length_app in Hf. rewrite <-app_assoc. change (bytes "}" ++ t) with ("}"%char :: t).
  pose proof (members_sep fs t f Hl Hne ltac:(lia)) as Hit. cbv zeta in Hit.
  destruct fs as [|[k v] fs]; [done|].
  destruct (sep_by (bytes ",") (map _ ((k, v) :: fs))) as [|b r] eqn:Hs.
  - exfalso. cbn [map sep_by] in Hs. unfold quoted in Hs. by destruct fs.
  - assert (b = QUOTE) as ->. { cbn [map sep_by] in Hs. unfold quoted in Hs. by destruct fs; simplify_eq/=. }
    cbn [app] in Hit |- *. rewrite skip_ws_cons by done.
    change (byte_val QUOTE =? 125) with false. cbv iota. by rewrite Hit.
Qed.

Lemma value_compact j : reads_back j.
Proof.
  induction j as [|b|n|s|l IH|fs IH] using json_ind'.
  - intros [|f] t Hf Ht; [simpl in Hf; lia|]. done.
  - intros [|f] t Hf Ht; [destruct b; simpl in Hf; lia|]. by destruct b.
  - apply value_num.
  - apply value_str.
  - by apply value_arr.
  - by apply value_obj.
Qed.

(** The text of a tree, followed by whitespace, reads as the tree. *)
Lemma read_compact j ws : forallb is_json_ws ws = true → read (compact j ++ ws) = Some j.
Proof.
  intros Hws. unfold read. rewrite value_compact.
  - simpl. assert (skip_ws ws = []) as ->; [|done].
    induction ws as [|b ws IH]; [done|]. simpl in *. apply andb_true_iff in Hws as [-> Hws]. auto.
  - rewrite length_app. lia.
  - destruct ws as [|b ws]; [done|]. simpl in *. apply andb_true_iff in Hws as [Hb _].
    clear -Hb. destruct b as [[] [] [] [] [] [] [] []]; vm_compute in *; congruence.
Qed.

Lemma read_compact_line j : read (bytes (of_bytes (compact j)) ++ [NL]) = Some j.
Proof. rewrite bytes_of_bytes. by apply read_compact. Qed.

(** The printer and the reader as an instance of [SerdeJson]. *)
Definition text_json : SerdeJson.
Proof.
  refine (mkSerdeJson (λ j, of_bytes (compact j)) read _).
  intros j. rewrite bytes_of_bytes. apply compact_no_nl.
Defined.

(** Texts are written here with a single quote for the double quote. *)
Definition dq (s : string) : string :=
  of_bytes (map (λ b, if decide (b = "'"%char) then QUOTE else b) (bytes s)).

(** The reader on texts as a client may write them. *)
Example read_spaced :
  read_str (dq "{ 'a' : [ 1 , -20 ] , 'b\u0041' : null }") =
    Some (JObj [("a", JArr [JNum 1; JNum (-20)]); ("bA", JNull)]) ∧
  read_str "01" = None ∧ read_str "[1,]" = None ∧ read_str "[] []" = None.
Proof. by vm_compute. Qed.
