(* ===== verification/Manifest.v ===== *)
(** * Project manifests ([src/manifest.rs])

    The raw form serde builds from [remo-broker.toml], the validated
    [Manifest], the validation rules in their order, and the discovery of the
    manifest file under a project directory.  The TOML parser is a parameter
    ([TomlManifest]); a [toml::de::Error] is its rendered text. *)

From S2P Require Import Prelude Str Path.
Open Scope Z_scope.

(** ** Constants and data *)

Definition SUPPORTED_SCHEMA_VERSIONS : list Z := [1].

Definition MANIFEST_CANDIDATES : list string :=
  [".devcontainer/remo-broker.toml"; ".remo/broker.toml"].

Definition PROJECT_NAME_MAX_LEN : Z := 64.
Definition DESCRIPTION_MAX_LEN : Z := 256.
Definition SECRET_NAME_MAX_LEN : Z := 128.
Definition CACHE_TTL_MAX : Z := 86400.
Definition CACHE_MAX_ENTRIES_MAX : Z := 1024.

Inductive ManifestError : Type :=
  | ManifestNotFound (project_path : string)
  | ManifestIo (path : string) (source : IoError)
  | ManifestParse (path : string) (source : string)
  | UnsupportedSchemaVersion (v : Z)
  | InvalidProjectName (name : string)
  | NameDirMismatch (name dir : string)
  | DescriptionTooLong (n : Z)
  | InvalidSecretName (name : string)
  | DuplicateSecret (name : string)
  | ManifestCacheTtlOutOfRange (value : Z)
  | ManifestCacheMaxEntriesOutOfRange (value : Z).

#[export] Instance ManifestError_eq_dec : EqDecision ManifestError.
Proof. solve_decision. Defined.

Record ProjectSection : Type := mkProjectSection {
  project_name : string;
  project_description : option string;
}.

Record Allowlist : Type := mkAllowlist { secrets : list string }.

Record CacheSection : Type := mkCacheSection {
  ttl_seconds : option Z;
  max_entries : option Z;
}.

Definition CacheSection_default : CacheSection := mkCacheSection None None.

Record Manifest : Type := mkManifest {
  schema_version : Z;
  project : ProjectSection;
  allowlist : Allowlist;
  cache : CacheSection;
}.

Record RawProject : Type := mkRawProject {
  raw_name : string;
  raw_description : option string;
}.

Record RawAllowlist : Type := mkRawAllowlist { raw_secrets : list string }.

Record RawCache : Type := mkRawCache {
  raw_ttl_seconds : option Z;
  raw_max_entries : option Z;
}.

Record RawManifest : Type := mkRawManifest {
  raw_schema_version : Z;
  raw_project : RawProject;
  raw_allowlist : RawAllowlist;
  raw_cache : option RawCache;
}.

(** [toml::from_str::<RawManifest>]. *)
Class TomlManifest := toml_manifest : string → result string RawManifest.

(** ** Name checks *)

Definition is_valid_project_name (s : string) : bool :=
  if bool_decide (s = "") || (PROJECT_NAME_MAX_LEN <? len s) then false
  else match bytes s with
       | [] => false
       | first :: rest =>
           if negb (is_ascii_lowercase first) && negb (is_ascii_digit first) then false
           else forallb (λ b, is_ascii_lowercase b || is_ascii_digit b ||
                              bool_decide (b = "_"%char) || bool_decide (b = "-"%char)) rest
       end.

Definition is_valid_secret_name (s : string) : bool :=
  if bool_decide (s = "") || (SECRET_NAME_MAX_LEN <? len s) then false
  else forallb (λ b, is_ascii_alphanumeric b || bool_decide (b = "_"%char)) (bytes s).

(** ** Validation *)

(** The loop over [allowlist.secrets] with its [seen] set. *)
Fixpoint check_secrets (seen : gset string) (names : list string) : result ManifestError unit :=
  match names with
  | [] => Ok tt
  | name :: rest =>
      if negb (is_valid_secret_name name) then Err (InvalidSecretName name)
      else if bool_decide (name ∈ seen) then Err (DuplicateSecret name)
      else check_secrets ({[name]} ∪ seen) rest
  end.

Definition validate_cache (c : option RawCache) : result ManifestError CacheSection :=
  match c with
  | None => Ok CacheSection_default
  | Some c =>
      _ ← match c.(raw_ttl_seconds) with
          | Some ttl => ensure (in_range 1 CACHE_TTL_MAX ttl) (ManifestCacheTtlOutOfRange ttl)
          | None => Ok tt
          end;
      _ ← match c.(raw_max_entries) with
          | Some max => ensure (in_range 1 CACHE_MAX_ENTRIES_MAX max)
                               (ManifestCacheMaxEntriesOutOfRange max)
          | None => Ok tt
          end;
      Ok (mkCacheSection c.(raw_ttl_seconds) c.(raw_max_entries))
  end.

Definition check_dir_name (name : string) (project_dir_name : option string)
    : result ManifestError unit :=
  match project_dir_name with
  | Some dir => ensure (bool_decide (name = dir)) (NameDirMismatch name dir)
  | None => Ok tt
  end.

Definition check_description (description : option string) : result ManifestError unit :=
  match description with
  | Some desc => ensure (negb (DESCRIPTION_MAX_LEN <? chars_count desc))
                        (DescriptionTooLong (chars_count desc))
  | None => Ok tt
  end.

Definition validate (raw : RawManifest) (project_dir_name : option string)
    : result ManifestError Manifest :=
  let name := raw.(raw_project).(raw_name) in
  let description := raw.(raw_project).(raw_description) in
  _ ← ensure (bool_decide (raw.(raw_schema_version) ∈ SUPPORTED_SCHEMA_VERSIONS))
             (UnsupportedSchemaVersion raw.(raw_schema_version));
  _ ← ensure (is_valid_project_name name) (InvalidProjectName name);
  _ ← check_dir_name name project_dir_name;
  _ ← check_description description;
  _ ← check_secrets ∅ raw.(raw_allowlist).(raw_secrets);
  cache ← validate_cache raw.(raw_cache);
  Ok {| schema_version := raw.(raw_schema_version);
        project := mkProjectSection name description;
        allowlist := mkAllowlist raw.(raw_allowlist).(raw_secrets);
        cache := cache |}.

(** ** Discovery and loading *)

Definition discover (disk : Disk) (project_path : string) : option string :=
  List.find disk.(is_file) (map (join project_path) MANIFEST_CANDIDATES).

Definition from_toml_str `{TomlManifest} (toml_src : string) (project_dir_name : option string)
    : result ManifestError Manifest :=
  raw ← map_err (ManifestParse "<inline>") (toml_manifest toml_src);
  validate raw project_dir_name.

Definition load `{TomlManifest} (disk : Disk) (project_path : string)
    : result ManifestError (Manifest * string) :=
  path ← ok_or (ManifestNotFound project_path) (discover disk project_path);
  src ← map_err (ManifestIo path) (disk.(read_to_string) path);
  raw ← map_err (ManifestParse path) (toml_manifest src);
  manifest ← validate raw (file_name_str project_path);
  Ok (manifest, path).

(** [Display] of a [ManifestError]. *)
Definition display_manifest_error `{UnicodeTables} (e : ManifestError) : string :=
  match e with
  | ManifestNotFound p =>
      "no manifest under " +:+ display p +:+
      ": expected .devcontainer/remo-broker.toml or .remo/broker.toml"
  | ManifestIo path source => "failed to read " +:+ display path +:+ ": " +:+ io_msg source
  | ManifestParse path source =>
      "failed to parse TOML in " +:+ display path +:+ ": " +:+ source
  | UnsupportedSchemaVersion v =>
      "unsupported schema_version: " +:+ dec v +:+ " (supported: [1])"
  | InvalidProjectName name =>
      "invalid project.name " +:+ debug_str name +:+
      ": must match ^[a-z0-9][a-z0-9_-]{0,63}$"
  | NameDirMismatch name dir =>
      "project.name " +:+ debug_str name +:+
      " does not match project directory basename " +:+ debug_str dir
  | DescriptionTooLong n =>
      "project.description too long: " +:+ dec n +:+ " chars (max 256)"
  | InvalidSecretName name =>
      "invalid allowlist secret name " +:+ debug_str name +:+
      ": must match ^[A-Za-z0-9_]{1,128}$"
  | DuplicateSecret name => "duplicate secret name in allowlist: " +:+ debug_str name
  | ManifestCacheTtlOutOfRange v =>
      "cache.ttl_seconds out of range: " +:+ dec v +:+ " (must be 1..=86400)"
  | ManifestCacheMaxEntriesOutOfRange v =>
      "cache.max_entries out of range: " +:+ dec v +:+ " (must be 1..=1024)"
  end.

(** ** The documented rules

    [docs/manifest-schema.md] gives the two name patterns as regular
    expressions; this is the fragment of them it uses. *)

Inductive re : Type :=
  | Cls (p : ascii → bool)
  | Seq (r1 r2 : re)
  | Rep (r : re) (lo hi : nat).

Inductive re_match : re → list ascii → Prop :=
  | match_cls p b : p b = true → re_match (Cls p) [b]
  | match_seq r1 r2 s1 s2 :
      re_match r1 s1 → re_match r2 s2 → re_match (Seq r1 r2) (s1 ++ s2)
  | match_rep r lo hi ss :
      (lo ≤ length ss ≤ hi)%nat → (∀ s, s ∈ ss → re_match r s) →
      re_match (Rep r lo hi) (concat ss).

Definition cls_az09 (b : ascii) : bool := is_ascii_lowercase b || is_ascii_digit b.
Definition cls_name (b : ascii) : bool :=
  is_ascii_lowercase b || is_ascii_digit b ||
  bool_decide (b = "_"%char) || bool_decide (b = "-"%char).
Definition cls_secret (b : ascii) : bool :=
  is_ascii_alphanumeric b || bool_decide (b = "_"%char).

(** [^[a-z0-9][a-z0-9_-]{0,63}$] and [^[A-Za-z0-9_]{1,128}$]. *)
Definition project_name_re : re := Seq (Cls cls_az09) (Rep (Cls cls_name) 0 63).
Definition secret_name_re : re := Rep (Cls cls_secret) 1 128.

Lemma re_match_cls_inv p s : re_match (Cls p) s ↔ ∃ b, s = [b] ∧ p b = true.
Proof.
  split; [inversion 1; subst; eauto|]. intros (b & -> & Hb). by constructor.
Qed.

Lemma concat_singletons {A} (l : list A) : concat (map (λ b, [b]) l) = l.
Proof. induction l; simpl; [done|]. by f_equal. Qed.

(** A counted repetition of a class is a length bound and a [Forall]. *)
Lemma re_match_rep_cls p lo hi s :
  re_match (Rep (Cls p) lo hi) s ↔ (lo ≤ length s ≤ hi)%nat ∧ forallb p s = true.
Proof.
  split.
  - inversion 1 as [| |? ? ? ss Hlen Hall]; subst; clear H.
    assert (length (concat ss) = length ss ∧ forallb p (concat ss) = true) as [-> ->]; [|done].
    clear Hlen. induction ss as [|s ss IH]; [done|]. simpl.
    destruct (proj1 (re_match_cls_inv p s)) as (b & -> & Hb).
    { apply Hall. left. }
    destruct IH as [Hl Hf]. { intros. apply Hall. by right. }
    simpl. by rewrite Hl, Hb.
  - intros [Hlen Hf]. rewrite <-(concat_singletons s).
    constructor.
    + rewrite length_map. done.
    + intros t (b & -> & Hb)%list_elem_of_fmap. constructor.
      rewrite forallb_forall in Hf. apply Hf. by apply list_elem_of_In.
Qed.

Lemma string_nil_bytes s : s = "" ↔ bytes s = [].
Proof. split; [by intros ->|]. by destruct s. Qed.

Lemma project_name_iff s :
  is_valid_project_name s = true ↔ re_match project_name_re (bytes s).
Proof.
  unfold is_valid_project_name, project_name_re, len, PROJECT_NAME_MAX_LEN.
  rewrite <-length_bytes. split.
  - case_bool_decide as Hs; [done|]. simpl. case_match eqn:Hl; [done|].
    apply Z.ltb_ge in Hl. destruct (bytes s) as [|b rest]; [done|].
    destruct (negb _ && _) eqn:Hb; [done|]. intros Hr.
    change (b :: rest) with ([b] ++ rest). constructor.
    + constructor. unfold cls_az09. destruct (is_ascii_lowercase b), (is_ascii_digit b); done.
    + apply re_match_rep_cls. simpl in Hl. split; [lia|done].
  - intros Hm. remember (bytes s) as bs eqn:Hbs. inversion Hm as [|? ? s1 s2 H1 H2 Hr Heq|]; subst r1 r2.
    apply re_match_cls_inv in H1 as (b & -> & Hb).
    apply re_match_rep_cls in H2 as [Hlen Hf].
    rewrite bool_decide_false by (rewrite string_nil_bytes, <-Hbs, <-Heq; done).
    simpl. rewrite (proj2 (Z.ltb_ge _ _)) by (simpl; lia).
    unfold cls_az09 in Hb.
    by destruct (is_ascii_lowercase b), (is_ascii_digit b).
Qed.

Lemma secret_name_iff s :
  is_valid_secret_name s = true ↔ re_match secret_name_re (bytes s).
Proof.
  unfold is_valid_secret_name, secret_name_re, len, SECRET_NAME_MAX_LEN.
  rewrite <-length_bytes, re_match_rep_cls. fold cls_secret. split.
  - case_bool_decide as Hs; [done|]. simpl. case_match eqn:Hl; [done|].
    apply Z.ltb_ge in Hl. intros Hf. split; [|done].
    destruct (bytes s) eqn:Hb; [|simpl in *; lia]. by apply string_nil_bytes in Hb.
  - intros [Hlen Hf]. rewrite bool_decide_false.
    2:{ rewrite string_nil_bytes. intros Hn. rewrite Hn in Hlen. simpl in Hlen. lia. }
    simpl. rewrite (proj2 (Z.ltb_ge _ _)) by lia. done.
Qed.

Definition valid_secret (n : string) : Prop := re_match secret_name_re (bytes n).

(** The rules of [docs/manifest-schema.md] on what serde has accepted, one
    predicate each. *)
Section rules.
Context (raw : RawManifest) (dir : option string).

Let name := raw.(raw_project).(raw_name).

Definition rule_version : Prop := raw.(raw_schema_version) ∈ SUPPORTED_SCHEMA_VERSIONS.
Definition rule_name : Prop := re_match project_name_re (bytes name).
Definition rule_dir : Prop := ∀ d, dir = Some d → name = d.
Definition rule_description : Prop :=
  ∀ d, raw.(raw_project).(raw_description) = Some d → chars_count d ≤ 256.
Definition rule_secrets : Prop :=
  Forall valid_secret raw.(raw_allowlist).(raw_secrets) ∧
  NoDup raw.(raw_allowlist).(raw_secrets).
Definition rule_ttl : Prop :=
  ∀ c t, raw.(raw_cache) = Some c → c.(raw_ttl_seconds) = Some t → 1 ≤ t ≤ 86400.
Definition rule_max_entries : Prop :=
  ∀ c n, raw.(raw_cache) = Some c → c.(raw_max_entries) = Some n → 1 ≤ n ≤ 1024.

(** Rule 6 says more than the ranges: the cache fields do not exceed the
    broker-wide defaults.  [validate], which does not know them, has no such
    check, and neither has its caller ([Registry.cache_bounds_not_capped]). *)
Definition rule_defaults (default_ttl default_max : Z) : Prop :=
  ∀ c, raw.(raw_cache) = Some c →
    (∀ t, c.(raw_ttl_seconds) = Some t → t ≤ default_ttl) ∧
    (∀ n, c.(raw_max_entries) = Some n → n ≤ default_max).

(** The rules the code enforces: all but [rule_defaults]. *)
Record valid_manifest : Prop := mk_valid_manifest {
  vm_version : rule_version;
  vm_name : rule_name;
  vm_dir : rule_dir;
  vm_description : rule_description;
  vm_secrets : rule_secrets;
  vm_ttl : rule_ttl;
  vm_max_entries : rule_max_entries;
}.

(** All the documented rules, under broker-wide defaults. *)
Definition documented_manifest (default_ttl default_max : Z) : Prop :=
  rule_version ∧ rule_name ∧ rule_dir ∧ rule_description ∧ rule_secrets ∧
  (rule_ttl ∧ rule_max_entries ∧ rule_defaults default_ttl default_max).

(** The first entry of the allowlist that breaks a rule, with the entries
    before it all fine. *)
Inductive secret_violation : list string → ManifestError → Prop :=
  | sv_invalid pre n post :
      Forall valid_secret pre → NoDup pre → ¬ valid_secret n →
      secret_violation (pre ++ n :: post) (InvalidSecretName n)
  | sv_duplicate pre n post :
      Forall valid_secret pre → NoDup pre → valid_secret n → n ∈ pre →
      secret_violation (pre ++ n :: post) (DuplicateSecret n).

(** The first rule that fails, in the order of the source. *)
Inductive first_violation : ManifestError → Prop :=
  | fv_version : ¬ rule_version →
      first_violation (UnsupportedSchemaVersion raw.(raw_schema_version))
  | fv_name : rule_version → ¬ rule_name → first_violation (InvalidProjectName name)
  | fv_dir d : rule_version → rule_name → dir = Some d → name ≠ d →
      first_violation (NameDirMismatch name d)
  | fv_description d : rule_version → rule_name → rule_dir →
      raw.(raw_project).(raw_description) = Some d → 256 < chars_count d →
      first_violation (DescriptionTooLong (chars_count d))
  | fv_secrets e : rule_version → rule_name → rule_dir → rule_description →
      secret_violation raw.(raw_allowlist).(raw_secrets) e → first_violation e
  | fv_ttl c t : rule_version → rule_name → rule_dir → rule_description → rule_secrets →
      raw.(raw_cache) = Some c → c.(raw_ttl_seconds) = Some t → ¬ (1 ≤ t ≤ 86400) →
      first_violation (ManifestCacheTtlOutOfRange t)
  | fv_max_entries c n : rule_version → rule_name → rule_dir → rule_description →
      rule_secrets → rule_ttl →
      raw.(raw_cache) = Some c → c.(raw_max_entries) = Some n → ¬ (1 ≤ n ≤ 1024) →
      first_violation (ManifestCacheMaxEntriesOutOfRange n).

(** What a valid raw manifest becomes. *)
Definition manifest_of : Manifest := {|
  schema_version := raw.(raw_schema_version);
  project := mkProjectSection name raw.(raw_project).(raw_description);
  allowlist := mkAllowlist raw.(raw_allowlist).(raw_secrets);
  cache := match raw.(raw_cache) with
           | Some c => mkCacheSection c.(raw_ttl_seconds) c.(raw_max_entries)
           | None => CacheSection_default
           end |}.
End rules.

(** ** The allowlist loop *)

Lemma check_secrets_cases seen names :
  match check_secrets seen names with
  | Ok _ => Forall valid_secret names ∧ NoDup names ∧ (∀ n, n ∈ names → n ∉ seen)
  | Err e => ∃ pre n post, names = pre ++ n :: post ∧
      Forall valid_secret pre ∧ NoDup pre ∧ (∀ x, x ∈ pre → x ∉ seen) ∧
      ((¬ valid_secret n ∧ e = InvalidSecretName n) ∨
       (valid_secret n ∧ (n ∈ pre ∨ n ∈ seen) ∧ e = DuplicateSecret n))
  end.
Proof.
  revert seen. induction names as [|n names IH]; intros seen; simpl.
  { split_and!; [constructor|constructor|]. intros n Hn. by apply not_elem_of_nil in Hn. }
  destruct (is_valid_secret_name n) eqn:Hv; simpl.
  2:{ exists [], n, names. split_and!; [done|done|constructor| |].
      - intros x Hx. by apply not_elem_of_nil in Hx.
      - left. split; [|done]. unfold valid_secret. by rewrite <-secret_name_iff, Hv. }
  apply secret_name_iff in Hv. case_bool_decide as Hin.
  { exists [], n, names. split_and!; [done|done|constructor| |].
    - intros x Hx. by apply not_elem_of_nil in Hx.
    - right. auto. }
  specialize (IH ({[n]} ∪ seen)). destruct (check_secrets _ names) as [|e].
  - destruct IH as (Hf & Hnd & Hsee). split_and!.
    + by constructor.
    + constructor; [|done]. intros Hx. apply (Hsee n Hx). set_solver.
    + intros x [->|Hx]%elem_of_cons; [done|]. specialize (Hsee x Hx). set_solver.
  - destruct IH as (pre & m & post & -> & Hf & Hnd & Hsee & Hcase).
    exists (n :: pre), m, post. split_and!; [done|by constructor| | |].
    + constructor; [|done]. intros Hx. apply (Hsee n Hx). set_solver.
    + intros x [->|Hx]%elem_of_cons; [done|]. specialize (Hsee x Hx). set_solver.
    + destruct Hcase as [|(? & Hm & ?)]; [by left|right]. split; [done|].
      rewrite elem_of_cons. set_solver.
Qed.

Lemma secret_violation_not_ok names e :
  secret_violation names e → ¬ (Forall valid_secret names ∧ NoDup names).
Proof.
  intros Hsv [Hf Hnd]. inversion Hsv as [pre n post|pre n post]; subst.
  - apply Forall_app in Hf as [_ Hf]. by inversion Hf.
  - apply NoDup_app in Hnd as (_ & Hx & _). eapply Hx; [done|]. left.
Qed.

Lemma check_secrets_Ok names u :
  check_secrets ∅ names = Ok u ↔ Forall valid_secret names ∧ NoDup names.
Proof.
  pose proof (check_secrets_cases ∅ names) as Hc. destruct u.
  destruct (check_secrets ∅ names) as [[]|e]; [naive_solver|].
  split; [done|]. intros Hok. destruct Hc as (pre & n & post & -> & ? & ? & _ & Hcase).
  exfalso. eapply (secret_violation_not_ok (pre ++ n :: post) e); [|done].
  destruct Hcase as [[? ->]|(? & Hm & ->)]; constructor; set_solver.
Qed.

Lemma check_secrets_Err names e :
  check_secrets ∅ names = Err e → secret_violation names e.
Proof.
  intros He. pose proof (check_secrets_cases ∅ names) as Hc. rewrite He in Hc.
  destruct Hc as (pre & n & post & -> & ? & ? & _ & Hcase).
  destruct Hcase as [[? ->]|(? & Hm & ->)]; constructor; set_solver.
Qed.

(** ** Validation decides the documented rules *)

Lemma secret_violation_check names e :
  secret_violation names e → check_secrets ∅ names = Err e.
Proof.
  assert (∀ pre seen n post err, Forall valid_secret pre → NoDup pre →
    (∀ x, x ∈ pre → x ∉ seen) →
    (∀ seen', (∀ x, x ∈ seen' ↔ x ∈ pre ∨ x ∈ seen) →
       check_secrets seen' (n :: post) = Err err) →
    check_secrets seen (pre ++ n :: post) = Err err) as Haux.
  { induction pre as [|p pre IH]; intros seen n post err Hf Hnd Hs Hk.
    { apply Hk. intros x. rewrite elem_of_nil. tauto. }
    inversion Hf; inversion Hnd; subst. cbn [app check_secrets].
    rewrite (proj2 (secret_name_iff p)) by done. simpl.
    rewrite bool_decide_false by (apply Hs; left).
    apply IH; [done|done| |].
    - intros x Hx Hin. apply elem_of_union in Hin as [->%elem_of_singleton|Hin]; [done|].
      apply (Hs x); [by right|done].
    - intros seen' Hseen. apply Hk. intros x. rewrite Hseen, elem_of_cons. set_solver. }
  destruct 1 as [pre n post Hf Hnd Hn|pre n post Hf Hnd Hn Hin];
    (apply Haux; [done..|set_solver|]); intros seen' Hseen; cbn [check_secrets].
  - destruct (is_valid_secret_name n) eqn:Hv; [|done]. by apply secret_name_iff in Hv.
  - rewrite (proj2 (secret_name_iff n)) by done. simpl.
    rewrite bool_decide_true; [done|]. apply Hseen. auto.
Qed.

(** Each stage of [validate] against the rule it decides. *)
Lemma check_dir_name_cases raw dir :
  match check_dir_name raw.(raw_project).(raw_name) dir with
  | Ok _ => rule_dir raw dir
  | Err e => ∃ d, dir = Some d ∧ raw.(raw_project).(raw_name) ≠ d ∧
                  e = NameDirMismatch raw.(raw_project).(raw_name) d
  end.
Proof.
  unfold check_dir_name, rule_dir, ensure. destruct dir as [d|]; [|done].
  case_bool_decide; naive_solver.
Qed.

Lemma check_description_cases raw :
  match check_description raw.(raw_project).(raw_description) with
  | Ok _ => rule_description raw
  | Err e => ∃ d, raw.(raw_project).(raw_description) = Some d ∧ 256 < chars_count d ∧
                  e = DescriptionTooLong (chars_count d)
  end.
Proof.
  unfold check_description, rule_description, ensure, DESCRIPTION_MAX_LEN.
  destruct (raw_description _) as [d|]; [|done].
  destruct (256 <? chars_count d) eqn:H; simpl; [apply Z.ltb_lt in H|apply Z.ltb_ge in H];
    naive_solver.
Qed.

Lemma validate_cache_cases raw :
  match validate_cache raw.(raw_cache) with
  | Ok c => rule_ttl raw ∧ rule_max_entries raw ∧ c = (manifest_of raw).(cache)
  | Err e =>
      (∃ c t, raw.(raw_cache) = Some c ∧ c.(raw_ttl_seconds) = Some t ∧
              ¬ (1 ≤ t ≤ 86400) ∧ e = ManifestCacheTtlOutOfRange t) ∨
      (rule_ttl raw ∧ ∃ c n, raw.(raw_cache) = Some c ∧ c.(raw_max_entries) = Some n ∧
              ¬ (1 ≤ n ≤ 1024) ∧ e = ManifestCacheMaxEntriesOutOfRange n)
  end.
Proof.
  unfold validate_cache, rule_ttl, rule_max_entries, ensure, CACHE_TTL_MAX, CACHE_MAX_ENTRIES_MAX.
  simpl. destruct (raw_cache raw) as [c|] eqn:Hc; [|naive_solver].
  destruct (raw_ttl_seconds c) as [t|] eqn:Ht;
    [destruct (in_range 1 86400 t) eqn:Hrt; [apply in_range_spec in Hrt|]|]; simpl;
    (destruct (raw_max_entries c) as [n|] eqn:Hn;
      [destruct (in_range 1 1024 n) eqn:Hrn; [apply in_range_spec in Hrn|]|]); simpl;
    rewrite ?in_range_false in *.
  all: try (left; exists c, t; split_and!; done || lia).
  all: try (right; split; [|exists c, n]; naive_solver lia).
  all: naive_solver lia.
Qed.

Lemma validate_cases raw dir :
  match validate raw dir with
  | Ok m => valid_manifest raw dir ∧ m = manifest_of raw
  | Err e => first_violation raw dir e
  end.
Proof.
  unfold validate.
  destruct (bool_decide _) eqn:H1; simpl; [apply bool_decide_eq_true in H1|apply bool_decide_eq_false in H1].
  2:{ by constructor. }
  destruct (is_valid_project_name _) eqn:H2; simpl.
  2:{ constructor; [done|]. unfold rule_name. by rewrite <-project_name_iff, H2. }
  apply project_name_iff in H2.
  pose proof (check_dir_name_cases raw dir) as H3. destruct (check_dir_name _ dir); simpl.
  2:{ destruct H3 as (d & -> & Hne & ->). by apply fv_dir. }
  pose proof (check_description_cases raw) as H4. destruct (check_description _); simpl.
  2:{ destruct H4 as (d & ? & ? & ->). by apply fv_description. }
  destruct (check_secrets ∅ _) as [u|e] eqn:H5; simpl.
  2:{ apply fv_secrets; [done..|]. by apply check_secrets_Err. }
  apply check_secrets_Ok in H5.
  pose proof (validate_cache_cases raw) as H6. destruct (validate_cache _); simpl.
  - destruct H6 as (? & ? & ->). split; [by constructor|done].
  - destruct H6 as [(c & t & ? & ? & ? & ->)|(? & c & n & ? & ? & ? & ->)].
    + by eapply fv_ttl.
    + by eapply fv_max_entries.
Qed.

(** Closes a goal where a rule is both assumed and violated. *)
Ltac rule_contra :=
  exfalso;
  match goal with
  | H : rule_dir _ _ |- _ => by specialize (H _ ltac:(eassumption))
  | H : rule_description _ |- _ => specialize (H _ ltac:(eassumption)); lia
  | H : rule_secrets _ |- _ => by eapply secret_violation_not_ok in H
  | H : rule_ttl _, E : raw_ttl_seconds ?c = Some ?t |- _ =>
      by specialize (H c t ltac:(assumption) E)
  | H : rule_max_entries _, E : raw_max_entries ?c = Some ?n |- _ =>
      by specialize (H c n ltac:(assumption) E)
  end.

Lemma first_violation_not_valid raw dir e :
  first_violation raw dir e → ¬ valid_manifest raw dir.
Proof. intros Hfv []. destruct Hfv; done || rule_contra. Qed.

(** A later rule is only reported when the earlier ones hold, so there is one
    first violation at most. *)
Lemma first_violation_functional raw dir e1 e2 :
  first_violation raw dir e1 → first_violation raw dir e2 → e1 = e2.
Proof.
  intros H1 H2. destruct H1; destruct H2; try done; try congruence; try rule_contra.
  repeat match goal with H : secret_violation _ _ |- _ => apply secret_violation_check in H end.
  congruence.
Qed.

Lemma documented_valid raw dir default_ttl default_max :
  documented_manifest raw dir default_ttl default_max ↔
  valid_manifest raw dir ∧ rule_defaults raw default_ttl default_max.
Proof.
  unfold documented_manifest. split.
  - intros (? & ? & ? & ? & ? & ? & ? & ?). split; [by split|done].
  - intros [[] ?]. done.
Qed.

(** C20: [Manifest::validate] is characterised in both directions.  It accepts
    exactly the manifests that satisfy [valid_manifest]: supported version,
    project-name pattern, name equal to the directory basename, description
    length, secret-name pattern, no duplicates, cache ranges; what it returns
    carries the raw fields unchanged; it rejects with exactly the error of the
    first rule broken, in the order of the source.  These are the rules of
    docs/manifest-schema.md with one exception: the documented manifests are
    those accepted that also keep the cache fields within the broker-wide
    defaults (rule 6), which [validate] does not check. *)
Theorem validate_iff raw dir :
  (∀ m, validate raw dir = Ok m ↔ valid_manifest raw dir ∧ m = manifest_of raw) ∧
  (∀ e, validate raw dir = Err e ↔ first_violation raw dir e) ∧
  (∀ default_ttl default_max, documented_manifest raw dir default_ttl default_max ↔
     is_ok (validate raw dir) = true ∧ rule_defaults raw default_ttl default_max).
Proof.
  setoid_rewrite documented_valid.
  pose proof (validate_cases raw dir) as Hc. destruct (validate raw dir) as [m'|e'].
  - destruct Hc as [Hv Hm]. split_and!; [naive_solver| |naive_solver].
    intros e. split; [done|]. intros Hfv. by apply first_violation_not_valid in Hfv.
  - pose proof (first_violation_not_valid _ _ _ Hc) as Hnv. split_and!; [naive_solver| |naive_solver].
    intros x. split; [by intros [= <-]|]. intros Hfv. f_equal. by eapply first_violation_functional.
Qed.

(** ** Loading *)

Section load.
Context `{TomlManifest}.

Lemma load_Ok disk project_path m path :
  load disk project_path = Ok (m, path) →
  discover disk project_path = Some path ∧
  ∃ src raw, disk.(read_to_string) path = Ok src ∧ toml_manifest src = Ok raw ∧
    validate raw (file_name_str project_path) = Ok m.
Proof.
  unfold load. intros (p & Hp & (src & Hs & (raw & Hr & (m' & Hv & Heq)%bind_Ok)%bind_Ok)%bind_Ok)%bind_Ok.
  destruct (discover disk project_path) as [p'|]; simplify_eq/=.
  destruct (read_to_string disk path) as [s'|]; simplify_eq/=.
  destruct (toml_manifest src) as [r'|] eqn:Ht; simplify_eq/=. eauto 10.
Qed.

(** [NotFound] means that no candidate is a file. *)
Lemma load_not_found disk project_path p :
  load disk project_path = Err (ManifestNotFound p) → discover disk project_path = None.
Proof.
  unfold load. destruct (discover disk project_path) as [path|]; [|done]. simpl.
  destruct (read_to_string disk path) as [src|]; [|done]. simpl. unfold from_toml_str.
  destruct (toml_manifest src) as [raw|]; [|done]. simpl.
  pose proof (validate_cases raw (file_name_str project_path)) as Hc.
  destruct (validate _ _) as [m|e]; [done|]. intros [= ->]. inversion Hc; subst.
  by match goal with Hs : secret_violation _ _ |- _ => inversion Hs end.
Qed.

(** The committed manifest has priority over the synthesized one. *)
Lemma discover_priority disk project_path :
  discover disk project_path =
    (if disk.(is_file) (join project_path ".devcontainer/remo-broker.toml")
     then Some (join project_path ".devcontainer/remo-broker.toml")
     else if disk.(is_file) (join project_path ".remo/broker.toml")
     then Some (join project_path ".remo/broker.toml") else None).
Proof. done. Qed.

(** A manifest [Manifest::load] returns is valid for the directory it was
    asked about, comes from the first candidate path that is a file (the
    committed one before the synthesized one), and its name is the basename of
    the project directory whenever that directory has one. *)
Theorem load_sound disk project_path m path :
  load disk project_path = Ok (m, path) →
  discover disk project_path = Some path ∧ disk.(is_file) path = true ∧
  (path = join project_path ".devcontainer/remo-broker.toml" ∨
   disk.(is_file) (join project_path ".devcontainer/remo-broker.toml") = false ∧
   path = join project_path ".remo/broker.toml") ∧
  (∃ raw, valid_manifest raw (file_name_str project_path) ∧ m = manifest_of raw) ∧
  (∀ d, file_name_str project_path = Some d → m.(project).(project_name) = d).
Proof.
  intros (Hd & src & raw & _ & _ & Hv)%load_Ok.
  pose proof (validate_cases raw (file_name_str project_path)) as Hc. rewrite Hv in Hc.
  destruct Hc as [Hvm ->]. split; [done|].
  rewrite discover_priority in Hd. repeat (case_match; simplify_eq/=); split_and!; eauto;
    intros; by eapply vm_dir.
Qed.

End load.

(** A parser that knows one text, for the witnesses. *)
Definition demo_raw : RawManifest :=
  mkRawManifest 1 (mkRawProject "myrepo" None) (mkRawAllowlist ["GITHUB_TOKEN"; "NPM_TOKEN"])
    (Some (mkRawCache (Some 600) (Some 16))).
Definition demo_toml : TomlManifest := λ src,
  if decide (src = "demo") then Ok demo_raw else Err "expected demo".
Definition demo_disk : Disk := mkDisk
  (λ p, bool_decide (p = "/projects/myrepo/.remo/broker.toml"))
  (λ p, if decide (p = "/projects/myrepo/.remo/broker.toml") then Ok "demo"
        else Err (mkIoError NotFound "No such file or directory (os error 2)")).

Lemma load_sound_witness :
  discover demo_disk "/projects/myrepo" = Some "/projects/myrepo/.remo/broker.toml" ∧
  (manifest_of demo_raw).(project).(project_name) = "myrepo".
Proof.
  pose proof (@load_sound demo_toml demo_disk "/projects/myrepo" (manifest_of demo_raw)
    "/projects/myrepo/.remo/broker.toml" ltac:(vm_compute; reflexivity)) as (H1 & _ & _ & _ & H5).
  split; [exact H1|]. apply H5. vm_compute. reflexivity.
Defined.
