(* ===== verification/Cache.v ===== *)
(** * The per-project secret cache ([src/cache.rs])

    [BoundedCache] with its operations, each one atomic under the cache mutex
    and taking the [Instant::now()] it reads.  The order in which a [HashMap]
    iterates is unspecified and may differ from call to call: the one
    operation that iterates takes it as an argument ([hash_iter]). *)

From S2P Require Import Prelude.
Open Scope Z_scope.

(** ** [HashMap] iteration order *)

Record hash_iter (V : Type) : Type := mkHashIter {
  hi_iter : gmap string V → list (string * V);
  hi_perm : ∀ m, hi_iter m ≡ₚ map_to_list m;
}.
Arguments mkHashIter {V} _ _.
Arguments hi_iter {V} _ _.
Arguments hi_perm {V} _ _.

(** One possible order, for evaluation. *)
Definition default_iter {V} : hash_iter V := mkHashIter map_to_list (λ m, reflexivity _).

(** ** State *)

Record CacheEntry : Type := mkCacheEntry {
  ce_value : string;
  ce_fetched_at : Instant;
  ce_ttl : Duration;
}.

#[export] Instance CacheEntry_eq_dec : EqDecision CacheEntry.
Proof. solve_decision. Defined.

Record BoundedCache : Type := mkBoundedCache {
  c_map : gmap string CacheEntry;
  c_max_entries : Z;
  c_default_ttl : Duration;
}.

Record CacheHit : Type := mkCacheHit {
  hit_value : string;
  hit_ttl_seconds : Z;
}.

Definition set_map (f : gmap string CacheEntry → gmap string CacheEntry) (c : BoundedCache)
    : BoundedCache :=
  mkBoundedCache (f c.(c_map)) c.(c_max_entries) c.(c_default_ttl).

(** ** Operations *)

Definition is_expired (e : CacheEntry) (now : Instant) : bool :=
  e.(ce_ttl) <=? duration_since now e.(ce_fetched_at).

Definition remaining_ttl (e : CacheEntry) (now : Instant) : Duration :=
  saturating_sub e.(ce_ttl) (duration_since now e.(ce_fetched_at)).

Definition new (max_entries : Z) (default_ttl : Duration) : BoundedCache :=
  mkBoundedCache ∅ max_entries default_ttl.

Definition get (now : Instant) (name : string) : ST BoundedCache (option CacheHit) := λ c,
  match c.(c_map) !! name with
  | None => (None, c)
  | Some entry =>
      if is_expired entry now then (None, set_map (delete name) c)
      else
        let ttl_seconds := as_u32 (as_secs (remaining_ttl entry now)) in
        (Some (mkCacheHit entry.(ce_value) ttl_seconds), c)
  end.

(** [Iterator::min_by_key]: the first of the smallest elements. *)
Fixpoint min_by_key {A} (key : A → Z) (l : list A) : option A :=
  match l with
  | [] => None
  | x :: l' =>
      match min_by_key key l' with
      | None => Some x
      | Some y => if key x <=? key y then Some x else Some y
      end
  end.

Definition evict_oldest (it : hash_iter CacheEntry) (m : gmap string CacheEntry)
    : gmap string CacheEntry :=
  match min_by_key (λ ke, ce_fetched_at (snd ke)) (hi_iter it m) with
  | Some (k, _) => delete k m
  | None => m
  end.

Definition insert (it : hash_iter CacheEntry) (now : Instant) (name value : string)
    (ttl : option Duration) : ST BoundedCache unit := λ c,
  let ttl := unwrap_or ttl c.(c_default_ttl) in
  let replaced := bool_decide (is_Some (c.(c_map) !! name)) in
  let m := delete name c.(c_map) in
  let m :=
    if negb replaced && (c.(c_max_entries) <=? Z.of_nat (size m))
    then evict_oldest it m else m in
  (tt, mkBoundedCache (<[name := mkCacheEntry value now ttl]> m)
         c.(c_max_entries) c.(c_default_ttl)).

Definition clear : ST BoundedCache unit := modify (set_map (λ _, ∅)).

Definition len (c : BoundedCache) : Z := Z.of_nat (size c.(c_map)).

Definition is_empty (c : BoundedCache) : bool := bool_decide (size c.(c_map) = 0%nat).

Definition default_ttl (c : BoundedCache) : Duration := c.(c_default_ttl).

Definition set_config (max_entries : Z) (default_ttl : Duration) : ST BoundedCache unit :=
  modify (λ c, mkBoundedCache c.(c_map) max_entries default_ttl).

(** ** Eviction *)

Lemma min_by_key_spec {A} (key : A → Z) l :
  match min_by_key key l with
  | Some x => x ∈ l ∧ ∀ y, y ∈ l → key x ≤ key y
  | None => l = []
  end.
Proof.
  induction l as [|x l IH]; simpl; [done|].
  destruct (min_by_key key l) as [y|].
  - destruct IH as [Hin Hmin]. destruct (key x <=? key y) eqn:Hle.
    + apply Z.leb_le in Hle. split; [left|].
      intros z [->|Hz]%elem_of_cons; [lia|]. specialize (Hmin z Hz). lia.
    + apply Z.leb_gt in Hle. split; [by right|].
      intros z [->|Hz]%elem_of_cons; [lia|]. by apply Hmin.
  - subst. split; [left|]. intros z [->|Hz]%elem_of_cons; [lia|by apply not_elem_of_nil in Hz].
Qed.

(** Whatever the iteration order, eviction removes one entry and no entry is
    older than it; on an empty map it does nothing. *)
Lemma evict_oldest_spec it m :
  (m = ∅ ∧ evict_oldest it m = ∅) ∨
  ∃ k e, m !! k = Some e ∧ evict_oldest it m = delete k m ∧
    ∀ k' e', m !! k' = Some e' → e.(ce_fetched_at) ≤ e'.(ce_fetched_at).
Proof.
  unfold evict_oldest. pose proof (min_by_key_spec (λ ke, ce_fetched_at (snd ke)) (hi_iter it m)) as Hm.
  destruct (min_by_key _ _) as [[k e]|].
  - destruct Hm as [Hin Hmin]. right. exists k, e.
    rewrite (hi_perm it m), elem_of_map_to_list in Hin. split_and!; [done|done|].
    intros k' e' Hk'. apply (Hmin (k', e')). by rewrite (hi_perm it m), elem_of_map_to_list.
  - left. assert (m = ∅) as ->; [|done]. apply map_to_list_empty_iff.
    apply Permutation_nil. by rewrite <-(hi_perm it m), Hm.
Qed.

Lemma evict_oldest_subseteq it m : evict_oldest it m ⊆ m.
Proof.
  destruct (evict_oldest_spec it m) as [[-> ->]|(k & e & _ & -> & _)]; [done|].
  apply delete_subseteq.
Qed.

Lemma evict_oldest_size it m : m ≠ ∅ → S (size (evict_oldest it m)) = size m.
Proof.
  intros Hne. destruct (evict_oldest_spec it m) as [[-> _]|(k & e & Hk & -> & _)]; [done|].
  rewrite map_size_delete_Some by eauto. 
  assert (size m ≠ 0%nat) by (by apply map_size_non_empty_iff). lia.
Qed.

(** ** Single operations *)

Definition insert_evicts (name : string) (c : BoundedCache) : Prop :=
  c.(c_map) !! name = None ∧ c.(c_max_entries) ≤ Z.of_nat (size c.(c_map)).

(** The entries [insert] keeps beside the new one. *)
Definition kept (it : hash_iter CacheEntry) (name : string) (c : BoundedCache)
    : gmap string CacheEntry :=
  if bool_decide (insert_evicts name c) then evict_oldest it c.(c_map)
  else delete name c.(c_map).

Lemma insert_kept it now name value ttl c :
  (insert it now name value ttl c).2 =
  mkBoundedCache (<[name := mkCacheEntry value now (unwrap_or ttl c.(c_default_ttl))]> (kept it name c))
    c.(c_max_entries) c.(c_default_ttl).
Proof.
  unfold insert, kept, insert_evicts. simpl. f_equal. f_equal.
  destruct (c_map c !! name) as [e|] eqn:Hn.
  - rewrite (bool_decide_true (is_Some _)) by eauto.
    cbn [negb andb]. by rewrite bool_decide_false by naive_solver.
  - rewrite (bool_decide_false (is_Some _)) by (by intros [? ?]). cbn [negb andb].
    rewrite delete_id by done. destruct (_ <=? _) eqn:Hle.
    + apply Z.leb_le in Hle. by rewrite bool_decide_true.
    + apply Z.leb_gt in Hle. by rewrite bool_decide_false by lia.
Qed.

Lemma kept_subseteq it name c : kept it name c ⊆ c.(c_map).
Proof.
  unfold kept. case_bool_decide; [apply evict_oldest_subseteq|apply delete_subseteq].
Qed.

Lemma kept_lookup_None it name c : kept it name c !! name = None.
Proof.
  unfold kept. case_bool_decide as Hev; [|apply lookup_delete_eq].
  eapply lookup_weaken_None; [apply Hev|apply evict_oldest_subseteq].
Qed.

Lemma insert_lookup it now name value ttl c :
  c_map (insert it now name value ttl c).2 !! name =
  Some (mkCacheEntry value now (unwrap_or ttl c.(c_default_ttl))).
Proof. rewrite insert_kept. simpl. apply lookup_insert_eq. Qed.

Lemma insert_size it now name value ttl c :
  size (c_map (insert it now name value ttl c).2) = S (size (kept it name c)).
Proof. rewrite insert_kept. simpl. apply map_size_insert_None, kept_lookup_None. Qed.

(** An insert never grows the cache past its bound: with
    [max_entries >= 1], the size after it is at most the larger of the bound
    and the size before, so a cache within its bound stays within it. *)
Theorem insert_bounded it now name value ttl c :
  1 ≤ c.(c_max_entries) →
  len (insert it now name value ttl c).2 ≤ Z.max c.(c_max_entries) (len c).
Proof.
  intros Hmax. unfold len. rewrite insert_size. unfold kept. case_bool_decide as Hev.
  - destruct Hev as [Hn Hfull]. rewrite evict_oldest_size; [lia|].
    apply map_size_non_empty_iff. lia.
  - destruct (c_map c !! name) as [e|] eqn:Hn.
    + rewrite map_size_delete_Some by eauto. lia.
    + rewrite delete_id by done. unfold insert_evicts in Hev. 
      assert (Z.of_nat (size (c_map c)) < c_max_entries c); [|lia].
      apply Z.nle_gt. naive_solver.
Qed.

(** Inserting a new name into a full cache removes exactly one entry, one
    that no other entry is older than; every other entry is kept unchanged and
    the new one is present. Re-inserting a present name, or inserting below
    the bound, removes nothing else. *)
Theorem insert_eviction it now name value ttl c :
  let c' := (insert it now name value ttl c).2 in
  c'.(c_map) !! name = Some (mkCacheEntry value now (unwrap_or ttl c.(c_default_ttl))) ∧
  if bool_decide (insert_evicts name c ∧ c.(c_map) ≠ ∅) then
    ∃ k e, c.(c_map) !! k = Some e ∧ k ≠ name ∧
      (∀ k' e', c.(c_map) !! k' = Some e' → e.(ce_fetched_at) ≤ e'.(ce_fetched_at)) ∧
      c'.(c_map) !! k = None ∧
      ∀ k', k' ≠ k → k' ≠ name → c'.(c_map) !! k' = c.(c_map) !! k'
  else ∀ k', k' ≠ name → c'.(c_map) !! k' = c.(c_map) !! k'.
Proof.
  cbv zeta. split; [apply insert_lookup|]. rewrite insert_kept. cbn [c_map]. unfold kept.
  case_bool_decide as Hev; [destruct Hev as [Hev Hne]; rewrite bool_decide_true by done|].
  - destruct (evict_oldest_spec it (c_map c)) as [[? _]|(k & e & Hk & Hevict & Hold)]; [done|].
    exists k, e. assert (k ≠ name) by (destruct Hev as [Hn _]; congruence).
    rewrite Hevict. split_and!; [done..| |].
    + rewrite lookup_insert_ne by done. apply lookup_delete_eq.
    + intros k' Hk' Hn'. rewrite lookup_insert_ne, lookup_delete_ne by done. done.
  - intros k' Hk'. rewrite lookup_insert_ne by done. case_bool_decide.
    + assert (c_map c = ∅) as -> by (destruct (decide (c_map c = ∅)); naive_solver).
      destruct (evict_oldest_spec it ∅) as [[_ ->]|(k & e & Hk & _)]; [done|].
      by rewrite lookup_empty in Hk.
    + by rewrite lookup_delete_ne.
Qed.

(** The seconds a hit reports never exceed the time left, and are not
    truncated by the [u32] cast while TTLs are below 2^32 seconds. *)
Lemma remaining_ttl_bounds e now :
  is_expired e now = false → 0 < remaining_ttl e now ≤ e.(ce_ttl).
Proof.
  unfold is_expired, remaining_ttl, saturating_sub, duration_since.
  rewrite Z.leb_gt. lia.
Qed.

(** A hit returns the stored value, only strictly within its TTL, and
    reports whole remaining seconds: at most what is left and less than one
    second short of it. An entry whose TTL has run out is reported as a miss
    and leaves the map; a miss on a live map changes nothing else. *)
Theorem get_spec now name c r c' :
  get now name c = (r, c') →
  (∀ e, c.(c_map) !! name = Some e → e.(ce_ttl) ≤ from_secs u32_max) →
  match r with
  | Some hit => c' = c ∧ ∃ e, c.(c_map) !! name = Some e ∧ hit.(hit_value) = e.(ce_value) ∧
      now - e.(ce_fetched_at) < e.(ce_ttl) ∧
      from_secs hit.(hit_ttl_seconds) ≤ remaining_ttl e now < from_secs (hit.(hit_ttl_seconds) + 1)
  | None => c'.(c_map) = delete name c.(c_map) ∧
      ∀ e, c.(c_map) !! name = Some e → e.(ce_ttl) ≤ duration_since now e.(ce_fetched_at)
  end.
Proof.
  unfold get. intros Hget Httl. destruct (c_map c !! name) as [e|] eqn:He; simplify_eq/=.
  2:{ split; [by rewrite delete_id|done]. }
  specialize (Httl e eq_refl).
  destruct (is_expired e now) eqn:Hex; simplify_eq/=.
  - split; [done|]. intros ? [= <-]. by apply Z.leb_le.
  - split; [done|]. exists e. pose proof (remaining_ttl_bounds e now Hex) as Hrem.
    apply Z.leb_gt in Hex. split_and!; [done..| | |].
    + unfold duration_since in Hex. lia.
    + rewrite as_u32_small.
      * unfold as_secs, from_secs, NANOS_PER_SEC.
        pose proof (Z.mul_div_le (remaining_ttl e now) 1000000000). lia.
      * split; [apply as_secs_nonneg; lia|]. apply as_secs_le. lia.
    + rewrite as_u32_small.
      * unfold as_secs, from_secs, NANOS_PER_SEC.
        pose proof (Z.mul_succ_div_gt (remaining_ttl e now) 1000000000). lia.
      * split; [apply as_secs_nonneg; lia|]. apply as_secs_le. lia.
Qed.

(** ** Refinement: the bounded cache against an unbounded store

    The contract of the cache: a store that keeps the last value inserted
    under each name for as long as its TTL lasts.  The bounded cache may
    forget entries, but never invents, swaps or resurrects one. *)

Inductive cache_op : Type :=
  | OpGet (name : string)
  | OpInsert (it : hash_iter CacheEntry) (name value : string) (ttl : option Duration)
  | OpClear
  | OpSetConfig (max_entries : Z) (default_ttl : Duration).

Definition exec (now : Instant) (op : cache_op) : ST BoundedCache (option CacheHit) :=
  match op with
  | OpGet name => get now name
  | OpInsert it name value ttl => insert it now name value ttl;; mret None
  | OpClear => clear;; mret None
  | OpSetConfig max ttl => set_config max ttl;; mret None
  end.

Fixpoint run (ops : list (Instant * cache_op)) : ST BoundedCache (list (option CacheHit)) :=
  match ops with
  | [] => mret []
  | (now, op) :: ops => r ← exec now op; rs ← run ops; mret (r :: rs)
  end.

Record store : Type := mkStore {
  s_map : gmap string CacheEntry;
  s_default_ttl : Duration;
}.

Definition store_new (ttl : Duration) : store := mkStore ∅ ttl.

Definition store_get (now : Instant) (name : string) (s : store) : option CacheHit :=
  e ← s.(s_map) !! name;
  if is_expired e now then None
  else Some (mkCacheHit e.(ce_value) (as_u32 (as_secs (remaining_ttl e now)))).

Definition store_exec (now : Instant) (op : cache_op) : ST store (option CacheHit) := λ s,
  match op with
  | OpGet name => (store_get now name s, s)
  | OpInsert _ name value ttl =>
      (None, mkStore (<[name := mkCacheEntry value now (unwrap_or ttl s.(s_default_ttl))]> s.(s_map))
               s.(s_default_ttl))
  | OpClear => (None, mkStore ∅ s.(s_default_ttl))
  | OpSetConfig _ ttl => (None, mkStore s.(s_map) ttl)
  end.

Fixpoint store_run (ops : list (Instant * cache_op)) : ST store (list (option CacheHit)) :=
  match ops with
  | [] => mret []
  | (now, op) :: ops => r ← store_exec now op; rs ← store_run ops; mret (r :: rs)
  end.

(** The simulation relation: every cached entry is the store's entry. *)
Definition sim (c : BoundedCache) (s : store) : Prop :=
  c.(c_map) ⊆ s.(s_map) ∧ c.(c_default_ttl) = s.(s_default_ttl).

Definition hit_agrees (r s : option CacheHit) : Prop := r = None ∨ r = s.

Lemma get_sim now name c s :
  sim c s → sim (get now name c).2 s ∧ hit_agrees (get now name c).1 (store_get now name s).
Proof.
  intros [Hsub Httl]. unfold get, store_get, hit_agrees.
  destruct (c_map c !! name) as [e|] eqn:He; simpl; [|split; [done|by left]].
  rewrite (lookup_weaken _ _ _ _ He Hsub). simpl.
  destruct (is_expired e now); simpl; split; try by (left + right).
  - split; [|done]. simpl. etrans; [apply delete_subseteq|done].
  - done.
Qed.

Lemma insert_sim it now name value ttl c s :
  sim c s →
  sim (insert it now name value ttl c).2
      (mkStore (<[name := mkCacheEntry value now (unwrap_or ttl s.(s_default_ttl))]> s.(s_map))
               s.(s_default_ttl)).
Proof.
  intros [Hsub Httl]. rewrite insert_kept. split; [|done]. simpl. rewrite Httl.
  apply insert_mono. etrans; [apply kept_subseteq|done].
Qed.

Lemma exec_sim now op c s :
  sim c s →
  sim (exec now op c).2 (store_exec now op s).2 ∧
  hit_agrees (exec now op c).1 (store_exec now op s).1.
Proof.
  intros Hsim. destruct op as [name|it name value ttl| |max ttl]; simpl.
  - by apply get_sim.
  - split; [by apply (insert_sim it now name value ttl)|by left].
  - destruct Hsim. split; [|by left]. split; [apply map_empty_subseteq|done].
  - destruct Hsim. split; [|by left]. done.
Qed.

Lemma run_cons now op ops c :
  run ((now, op) :: ops) c =
  ((exec now op c).1 :: (run ops (exec now op c).2).1, (run ops (exec now op c).2).2).
Proof. simpl. rewrite ST_bind_unfold, ST_bind_unfold. done. Qed.

Lemma store_run_cons now op ops s :
  store_run ((now, op) :: ops) s =
  ((store_exec now op s).1 :: (store_run ops (store_exec now op s).2).1,
   (store_run ops (store_exec now op s).2).2).
Proof. simpl. rewrite ST_bind_unfold, ST_bind_unfold. done. Qed.

Lemma run_sim ops c s :
  sim c s → Forall2 hit_agrees (run ops c).1 (store_run ops s).1.
Proof.
  revert c s. induction ops as [|[now op] ops IH]; intros c s Hsim; [constructor|].
  rewrite run_cons, store_run_cons. destruct (exec_sim now op c s Hsim) as [Hsim' Hr].
  constructor; [done|]. by apply IH.
Qed.

(** C18: over any sequence of operations, whatever the bound, the
    configuration changes and the iteration order, every hit of the bounded
    cache is the hit the unbounded store gives at that moment: the value last
    inserted under that name, still within its TTL, with the same remaining
    seconds. The cache can only miss where the store hits, never the reverse. *)
Theorem cache_refines_store ops max ttl :
  Forall2 hit_agrees (run ops (new max ttl)).1 (store_run ops (store_new ttl)).1.
Proof. apply run_sim. split; [apply map_empty_subseteq|done]. Qed.

(** ** No needless misses

    With a clock that does not go back and no more names than the bound, the
    cache forgets nothing that is still alive. *)

(** The clock readings of a sequence, from [t] on, do not decrease. *)
Fixpoint times_from (t : Instant) (ops : list (Instant * cache_op)) : Prop :=
  match ops with
  | [] => True
  | (now, _) :: ops => t ≤ now ∧ times_from now ops
  end.

(** An operation that stays within [names] and keeps the bound above them. *)
Definition op_fits (names : gset string) (op : cache_op) : Prop :=
  match op with
  | OpInsert _ name _ _ => name ∈ names
  | OpSetConfig max _ => Z.of_nat (size names) ≤ max
  | OpGet _ | OpClear => True
  end.

Record full_sim (names : gset string) (t : Instant) (c : BoundedCache) (s : store) : Prop := {
  fs_sim : sim c s;
  fs_live : ∀ name e, s.(s_map) !! name = Some e → c.(c_map) !! name = Some e ∨ is_expired e t = true;
  fs_dom : dom c.(c_map) ⊆ names;
  fs_max : Z.of_nat (size names) ≤ c.(c_max_entries);
}.

Lemma is_expired_mono e t t' : t ≤ t' → is_expired e t = true → is_expired e t' = true.
Proof. unfold is_expired, duration_since. rewrite !Z.leb_le. lia. Qed.

Lemma full_sim_mono names t t' c s :
  t ≤ t' → full_sim names t c s → full_sim names t' c s.
Proof.
  intros Ht []. split; auto. intros name e He.
  destruct (fs_live0 name e He); eauto using is_expired_mono.
Qed.

(** Room for one more name of [names]: no eviction takes place. *)
Lemma no_eviction names c name :
  dom c.(c_map) ⊆ names → name ∈ names → Z.of_nat (size names) ≤ c.(c_max_entries) →
  ¬ insert_evicts name c.
Proof.
  intros Hdom Hname Hmax [Hn Hfull].
  assert (size ({[name]} ∪ dom (c_map c)) ≤ size names)%nat as Hle.
  { apply subseteq_size. set_solver. }
  rewrite size_union in Hle.
  - rewrite size_singleton, size_dom in Hle. lia.
  - apply disjoint_singleton_l. by apply not_elem_of_dom.
Qed.

Lemma get_full names t now name c s :
  t ≤ now → full_sim names t c s →
  full_sim names now (get now name c).2 s ∧ (get now name c).1 = store_get now name s.
Proof.
  intros Ht Hfs. apply (full_sim_mono _ _ now) in Hfs as [Hsim Hlive Hdom Hmax]; [|done].
  pose proof (get_sim now name c s Hsim) as [Hsim' _].
  unfold get, store_get in *. destruct (c_map c !! name) as [e|] eqn:He.
  - rewrite (lookup_weaken _ _ _ _ He (proj1 Hsim)). simpl.
    destruct (is_expired e now) eqn:Hex; (split; [|done]); split; simpl in *; auto.
    + intros n' e' He'. destruct (Hlive n' e' He') as [Hc|]; [|by right].
      destruct (decide (n' = name)) as [->|Hne]; [right; congruence|].
      left. by rewrite lookup_delete_ne.
    + rewrite dom_delete_L. set_solver.
  - split; [done|]. simpl. destruct (s_map s !! name) as [e|] eqn:Hs; [|done].
    destruct (Hlive name e Hs) as [|Hex]; [congruence|]. simpl. by rewrite Hex.
Qed.

Lemma insert_full names t now it name value ttl c s :
  t ≤ now → name ∈ names → full_sim names t c s →
  full_sim names now (insert it now name value ttl c).2
    (store_exec now (OpInsert it name value ttl) s).2.
Proof.
  intros Ht Hname Hfs. apply (full_sim_mono _ _ now) in Hfs as [Hsim Hlive Hdom Hmax]; [|done].
  pose proof (insert_sim it now name value ttl c s Hsim) as Hsim'.
  rewrite insert_kept in *. pose proof (no_eviction names c name Hdom Hname Hmax) as Hno.
  unfold kept in *. rewrite bool_decide_false in * by done. destruct Hsim as [_ Httl].
  split; simpl in *; auto.
  - intros n' e'. rewrite Httl. destruct (decide (n' = name)) as [->|Hne].
    + rewrite !lookup_insert_eq. auto.
    + rewrite !lookup_insert_ne, lookup_delete_ne by done. auto.
  - rewrite dom_insert_L, dom_delete_L. set_solver.
Qed.

Lemma exec_full names t now op c s :
  t ≤ now → op_fits names op → full_sim names t c s →
  full_sim names now (exec now op c).2 (store_exec now op s).2 ∧
  (exec now op c).1 = (store_exec now op s).1.
Proof.
  intros Ht Hop Hfs. destruct op as [name|it name value ttl| |max ttl].
  - by eapply get_full.
  - split; [|done]. by eapply insert_full.
  - split; [|done]. destruct Hfs as [[? ?] ? ? ?]. split; [done| |set_solver|done].
    intros name e. simpl. by rewrite lookup_empty.
  - split; [|done]. apply (full_sim_mono _ _ now) in Hfs as [[? ?] ? ? ?]; [|done].
    by split.
Qed.

Lemma run_full names t ops c s :
  times_from t ops → Forall (λ to, op_fits names to.2) ops → full_sim names t c s →
  (run ops c).1 = (store_run ops s).1.
Proof.
  revert t c s. induction ops as [|[now op] ops IH]; intros t c s Hts Hops Hfs; [done|].
  destruct Hts as [Ht Hts]. inversion Hops; subst. rewrite run_cons, store_run_cons.
  destruct (exec_full names t now op c s) as [Hfs' Hr]; [done..|]. simpl. f_equal; [done|].
  by eapply IH.
Qed.

(** C19: when the sequence uses at most [max_entries] distinct names and the
    clock does not go back, the bounded cache answers exactly like the
    unbounded store: every live value is a hit, so the broker makes no backend
    call the TTLs do not call for. *)
Theorem cache_complete names ops t max ttl :
  times_from t ops → Forall (λ to, op_fits names to.2) ops → Z.of_nat (size names) ≤ max →
  (run ops (new max ttl)).1 = (store_run ops (store_new ttl)).1.
Proof.
  intros Hts Hops Hmax. apply (run_full names t); [done..|].
  split; [|intros n e; simpl; by rewrite lookup_empty|set_solver|done].
  split; [apply map_empty_subseteq|done].
Qed.

(** ** Witnesses *)

Definition demo_cache : BoundedCache :=
  mkBoundedCache {[ "A" := mkCacheEntry "1" 0 (from_secs 60);
                    "B" := mkCacheEntry "2" 5 (from_secs 60) ]} 2 (from_secs 60).

Lemma insert_bounded_witness :
  len (insert default_iter 7 "C" "3" None demo_cache).2 ≤ 2.
Proof.
  pose proof (insert_bounded default_iter 7 "C" "3" None demo_cache ltac:(vm_compute; congruence)) as H.
  exact H.
Defined.

Lemma get_spec_witness :
  ∃ e, c_map demo_cache !! "A" = Some e ∧ "1" = e.(ce_value) ∧ 1000000000 - 0 < from_secs 60.
Proof.
  pose proof (get_spec 1000000000 "A" demo_cache (Some (mkCacheHit "1" 59)) demo_cache
    ltac:(vm_compute; reflexivity)
    ltac:(intros e He; vm_compute in He; injection He as <-; vm_compute; congruence))
    as (_ & e & He & Hv & _).
  exists e. split; [exact He|]. split; [exact Hv|]. vm_compute. reflexivity.
Defined.

Definition demo_ops : list (Instant * cache_op) :=
  [(0, OpInsert default_iter "A" "1" None); (1, OpInsert default_iter "B" "2" (Some (from_secs 5)));
   (from_secs 4, OpGet "B"); (from_secs 6, OpGet "B"); (from_secs 7, OpGet "A")].

Lemma cache_complete_witness :
  (run demo_ops (new 2 (from_secs 60))).1 = (store_run demo_ops (store_new (from_secs 60))).1.
Proof.
  apply (cache_complete {["A"; "B"]} demo_ops 0).
  - vm_compute. repeat split; congruence.
  - repeat constructor; set_solver.
  - vm_compute. congruence.
Defined.
