(* ===== verification/Config.v ===== *)
(** * Daemon configuration ([src/config.rs])

    The layers a setting comes from (CLI override, file, built-in default),
    their validation, and the loading of the file.  The TOML parser is a
    parameter ([TomlConfig]). *)

From S2P Require Import Prelude Str Path.
Open Scope Z_scope.

Definition DEFAULT_CONFIG_PATH : string := "/etc/remo-broker/config.toml".
Definition DEFAULT_BOOTSTRAP_TOKEN_PATH : string := "/etc/remo-broker/bootstrap-token".
Definition DEFAULT_SOCKET_DIR : string := "/run/remo-broker".
Definition DEFAULT_AUDIT_LOG_PATH : string := "/var/log/remo-broker/audit.log".
Definition DEFAULT_CACHE_TTL_SECONDS : Z := 900.
Definition DEFAULT_CACHE_MAX_ENTRIES : Z := 32.
Definition DEFAULT_BACKEND_FETCH_TIMEOUT_MS : Z := 5000.
Definition BOOTSTRAP_ENV_VAR : string := "REMO_BROKER_BOOTSTRAP_TOKEN".

Inductive ConfigError : Type :=
  | ConfigFileNotFound (path : string)
  | ConfigIo (path : string) (source : IoError)
  | ConfigParse (path : string) (source : string)
  | CacheTtlOutOfRange (v : Z)
  | CacheMaxEntriesOutOfRange (v : Z)
  | BackendTimeoutZero.

#[export] Instance ConfigError_eq_dec : EqDecision ConfigError.
Proof. solve_decision. Defined.

Inductive BootstrapSource : Type :=
  | SourceFile (path : string)
  | SourceImds
  | SourceEnv.

#[export] Instance BootstrapSource_eq_dec : EqDecision BootstrapSource.
Proof. solve_decision. Defined.

Inductive BootstrapSourceKind : Type := KindFile | KindImds | KindEnv.

#[export] Instance BootstrapSourceKind_eq_dec : EqDecision BootstrapSourceKind.
Proof. solve_decision. Defined.

Record Config : Type := mkConfig {
  bootstrap : BootstrapSource;
  socket_dir : string;
  audit_log_path : string;
  cache_default_ttl : Duration;
  cache_default_max_entries : Z;
  backend_fetch_timeout : Duration;
  fnox_config_path : option string;
}.

#[export] Instance Config_eq_dec : EqDecision Config.
Proof. solve_decision. Defined.

Record Overrides : Type := mkOverrides {
  o_bootstrap_source : option BootstrapSourceKind;
  o_bootstrap_token_path : option string;
  o_socket_dir : option string;
  o_audit_log_path : option string;
  o_cache_default_ttl_seconds : option Z;
  o_cache_default_max_entries : option Z;
  o_backend_fetch_timeout_ms : option Z;
  o_fnox_config_path : option string;
}.

Definition Overrides_default : Overrides :=
  mkOverrides None None None None None None None None.

Record RawConfig : Type := mkRawConfig {
  r_bootstrap_source : option BootstrapSourceKind;
  r_bootstrap_token_path : option string;
  r_socket_dir : option string;
  r_audit_log_path : option string;
  r_cache_default_ttl_seconds : option Z;
  r_cache_default_max_entries : option Z;
  r_backend_fetch_timeout_ms : option Z;
  r_fnox_config_path : option string;
}.

Definition RawConfig_default : RawConfig :=
  mkRawConfig None None None None None None None None.

(** [toml::from_str::<RawConfig>]. *)
Class TomlConfig := toml_config : string → result string RawConfig.

(** [overrides.x.or(raw.x).unwrap_or(default)]. *)
Definition layered {A} (o r : option A) (d : A) : A := unwrap_or (opt_or o r) d.

Definition resolve (raw : RawConfig) (overrides : Overrides) : result ConfigError Config :=
  let source_kind :=
    layered overrides.(o_bootstrap_source) raw.(r_bootstrap_source) KindFile in
  let token_path :=
    layered overrides.(o_bootstrap_token_path) raw.(r_bootstrap_token_path)
      DEFAULT_BOOTSTRAP_TOKEN_PATH in
  let bootstrap :=
    match source_kind with
    | KindFile => SourceFile token_path
    | KindImds => SourceImds
    | KindEnv => SourceEnv
    end in
  let socket_dir := layered overrides.(o_socket_dir) raw.(r_socket_dir) DEFAULT_SOCKET_DIR in
  let audit_log_path :=
    layered overrides.(o_audit_log_path) raw.(r_audit_log_path) DEFAULT_AUDIT_LOG_PATH in
  let cache_default_ttl_seconds :=
    layered overrides.(o_cache_default_ttl_seconds) raw.(r_cache_default_ttl_seconds)
      DEFAULT_CACHE_TTL_SECONDS in
  _ ← ensure (in_range 1 86400 cache_default_ttl_seconds)
             (CacheTtlOutOfRange cache_default_ttl_seconds);
  let cache_default_max_entries :=
    layered overrides.(o_cache_default_max_entries) raw.(r_cache_default_max_entries)
      DEFAULT_CACHE_MAX_ENTRIES in
  _ ← ensure (in_range 1 1024 cache_default_max_entries)
             (CacheMaxEntriesOutOfRange cache_default_max_entries);
  let backend_fetch_timeout_ms :=
    layered overrides.(o_backend_fetch_timeout_ms) raw.(r_backend_fetch_timeout_ms)
      DEFAULT_BACKEND_FETCH_TIMEOUT_MS in
  _ ← ensure (negb (backend_fetch_timeout_ms =? 0)) BackendTimeoutZero;
  let fnox_config_path := opt_or overrides.(o_fnox_config_path) raw.(r_fnox_config_path) in
  Ok {| bootstrap := bootstrap;
        socket_dir := socket_dir;
        audit_log_path := audit_log_path;
        cache_default_ttl := from_secs cache_default_ttl_seconds;
        cache_default_max_entries := cache_default_max_entries;
        backend_fetch_timeout := from_millis backend_fetch_timeout_ms;
        fnox_config_path := fnox_config_path |}.

(** [impl Default for Config]: [Err] stands for the [expect] panicking. *)
Definition Config_default : result ConfigError Config :=
  resolve RawConfig_default Overrides_default.

Definition from_toml_str `{TomlConfig} (toml_src : string) (overrides : Overrides)
    : result ConfigError Config :=
  raw ← map_err (ConfigParse "<inline>") (toml_config toml_src);
  resolve raw overrides.

Definition load `{TomlConfig} (disk : Disk) (path : option string) (overrides : Overrides)
    : result ConfigError Config :=
  let '(resolved_path, required) :=
    match path with
    | Some p => (p, true)
    | None => (DEFAULT_CONFIG_PATH, false)
    end in
  raw ← match disk.(read_to_string) resolved_path with
        | Ok src => map_err (ConfigParse resolved_path) (toml_config src)
        | Err e =>
            if decide (e.(io_kind) = NotFound) then
              if required : bool then Err (ConfigFileNotFound resolved_path)
              else Ok RawConfig_default
            else Err (ConfigIo resolved_path e)
        end;
  resolve raw overrides.

(** ** Properties *)

(** The three numeric settings as the layers give them. *)
Definition ttl_setting (raw : RawConfig) (o : Overrides) : Z :=
  layered o.(o_cache_default_ttl_seconds) raw.(r_cache_default_ttl_seconds) 900.
Definition max_setting (raw : RawConfig) (o : Overrides) : Z :=
  layered o.(o_cache_default_max_entries) raw.(r_cache_default_max_entries) 32.
Definition timeout_setting (raw : RawConfig) (o : Overrides) : Z :=
  layered o.(o_backend_fetch_timeout_ms) raw.(r_backend_fetch_timeout_ms) 5000.

Lemma resolve_cases raw o :
  resolve raw o =
    if negb (in_range 1 86400 (ttl_setting raw o)) then Err (CacheTtlOutOfRange (ttl_setting raw o))
    else if negb (in_range 1 1024 (max_setting raw o)) then Err (CacheMaxEntriesOutOfRange (max_setting raw o))
    else if timeout_setting raw o =? 0 then Err BackendTimeoutZero
    else Ok {|
      bootstrap := match layered o.(o_bootstrap_source) raw.(r_bootstrap_source) KindFile with
                   | KindFile => SourceFile (layered o.(o_bootstrap_token_path)
                                               raw.(r_bootstrap_token_path) DEFAULT_BOOTSTRAP_TOKEN_PATH)
                   | KindImds => SourceImds
                   | KindEnv => SourceEnv
                   end;
      socket_dir := layered o.(o_socket_dir) raw.(r_socket_dir) DEFAULT_SOCKET_DIR;
      audit_log_path := layered o.(o_audit_log_path) raw.(r_audit_log_path) DEFAULT_AUDIT_LOG_PATH;
      cache_default_ttl := from_secs (ttl_setting raw o);
      cache_default_max_entries := max_setting raw o;
      backend_fetch_timeout := from_millis (timeout_setting raw o);
      fnox_config_path := opt_or o.(o_fnox_config_path) raw.(r_fnox_config_path) |}.
Proof.
  unfold resolve, ttl_setting, max_setting, timeout_setting, DEFAULT_CACHE_TTL_SECONDS,
    DEFAULT_CACHE_MAX_ENTRIES, DEFAULT_BACKEND_FETCH_TIMEOUT_MS, ensure.
  destruct (in_range 1 86400 _); simpl; [|done].
  destruct (in_range 1 1024 _); simpl; [|done]. by destruct (_ =? 0).
Qed.

(** A validated configuration: what the rest of the daemon relies on. *)
Record config_wf (c : Config) : Prop := {
  cw_ttl : from_secs 1 ≤ c.(cache_default_ttl) ≤ from_secs 86400;
  cw_max : 1 ≤ c.(cache_default_max_entries) ≤ 1024;
  cw_timeout : c.(backend_fetch_timeout) ≠ 0;
}.

Lemma resolve_wf raw o c : resolve raw o = Ok c → config_wf c.
Proof.
  rewrite resolve_cases.
  destruct (in_range 1 86400 _) eqn:Ht; cbn [negb]; [apply in_range_spec in Ht|done].
  destruct (in_range 1 1024 _) eqn:Hm; cbn [negb]; [apply in_range_spec in Hm|done].
  destruct (_ =? 0) eqn:Hz; [done|apply Z.eqb_neq in Hz].
  intros [= <-]. split; cbn [cache_default_ttl cache_default_max_entries backend_fetch_timeout];
    unfold from_secs, from_millis, NANOS_PER_SEC, NANOS_PER_MILLI; lia.
Qed.

Lemma load_wf `{TomlConfig} disk path o c : load disk path o = Ok c → config_wf c.
Proof.
  unfold load. destruct path; intros (raw & _ & Hr)%bind_Ok; by eapply resolve_wf.
Qed.

(** A configuration the daemon starts with is within its documented
    ranges, wherever its settings came from: TTL of 1 to 86400 s, 1 to 1024
    cache entries, a non-zero backend timeout. *)
Theorem config_load_in_range `{TomlConfig} disk path o c :
  load disk path o = Ok c →
  from_secs 1 ≤ c.(cache_default_ttl) ≤ from_secs 86400 ∧
  1 ≤ c.(cache_default_max_entries) ≤ 1024 ∧ c.(backend_fetch_timeout) ≠ 0.
Proof. intros Hl. by destruct (load_wf _ _ _ _ Hl). Qed.

(** The layered lookup: the first layer that has a value wins. *)
Lemma layered_override {A} (x : A) r d : layered (Some x) r d = x.
Proof. done. Qed.
Lemma layered_file {A} (x : A) d : layered None (Some x) d = x.
Proof. done. Qed.
Lemma layered_none {A} (d : A) : layered None None d = d.
Proof. done. Qed.

(** A CLI override beats the file and the default for every key, and a
    key no layer sets gets the documented default: an override of all eight
    keys gives a configuration independent of the file. *)
Theorem overrides_win raw raw' ks tp sd al ttl max tmo fx :
  let o := mkOverrides (Some ks) (Some tp) (Some sd) (Some al) (Some ttl) (Some max) (Some tmo) (Some fx) in
  resolve raw o = resolve raw' o ∧
  (1 ≤ ttl ≤ 86400 → 1 ≤ max ≤ 1024 → tmo ≠ 0 →
   resolve raw o = Ok (mkConfig
     (match ks with KindFile => SourceFile tp | KindImds => SourceImds | KindEnv => SourceEnv end)
     sd al (from_secs ttl) max (from_millis tmo) (Some fx))).
Proof.
  cbv zeta. split; [by rewrite !resolve_cases|]. intros Httl Hmax Htmo.
  rewrite resolve_cases. unfold ttl_setting, max_setting, timeout_setting, layered. simpl.
  rewrite (proj2 (in_range_spec 1 86400 ttl) Httl), (proj2 (in_range_spec 1 1024 max) Hmax). simpl.
  by rewrite (proj2 (Z.eqb_neq tmo 0) Htmo).
Qed.

(** [Config::default] never panics, and gives the documented values. *)
Theorem config_default_total :
  Config_default = Ok (mkConfig (SourceFile "/etc/remo-broker/bootstrap-token")
    "/run/remo-broker" "/var/log/remo-broker/audit.log" (from_secs 900) 32 (from_millis 5000) None).
Proof. reflexivity. Qed.

(** A missing file is an error only when it was named: without
    [--config] the built-in defaults (under the overrides) apply; with it, the
    daemon refuses. Any other read error is fatal in both cases. *)
Theorem load_missing_file `{TomlConfig} disk o p e :
  (disk.(read_to_string) DEFAULT_CONFIG_PATH = Err e → e.(io_kind) = NotFound →
   load disk None o = resolve RawConfig_default o) ∧
  (disk.(read_to_string) p = Err e → e.(io_kind) = NotFound →
   load disk (Some p) o = Err (ConfigFileNotFound p)) ∧
  (disk.(read_to_string) p = Err e → e.(io_kind) ≠ NotFound →
   load disk (Some p) o = Err (ConfigIo p e)) ∧
  (disk.(read_to_string) DEFAULT_CONFIG_PATH = Err e → e.(io_kind) ≠ NotFound →
   load disk None o = Err (ConfigIo DEFAULT_CONFIG_PATH e)).
Proof.
  unfold load. split_and!; intros Hr Hk; rewrite Hr; case_decide; done.
Qed.

(** ** Witnesses *)

Definition demo_config_disk : Disk := mkDisk (λ _, false)
  (λ p, if decide (p = "/tmp/c.toml") then Ok "demo"
        else Err (mkIoError NotFound "No such file or directory (os error 2)")).
Definition demo_toml_config : TomlConfig := λ src,
  if decide (src = "demo") then
    Ok (mkRawConfig (Some KindImds) None None None (Some 120) None None None)
  else Err "expected demo".
Definition demo_config : Config :=
  mkConfig SourceImds "/run/remo-broker" "/var/log/remo-broker/audit.log"
    (from_secs 120) 32 (from_millis 5000) None.

Lemma config_load_in_range_witness :
  @load demo_toml_config demo_config_disk (Some "/tmp/c.toml") Overrides_default = Ok demo_config ∧
  1 ≤ cache_default_max_entries demo_config ≤ 1024.
Proof.
  split; [vm_compute; reflexivity|].
  exact (proj1 (proj2 (@config_load_in_range demo_toml_config demo_config_disk (Some "/tmp/c.toml")
    Overrides_default demo_config ltac:(vm_compute; reflexivity)))).
Defined.

Lemma overrides_win_witness :
  resolve RawConfig_default
    (mkOverrides (Some KindEnv) (Some "/t") (Some "/s") (Some "/a") (Some 60) (Some 4) (Some 1000) (Some "/f"))
  = Ok (mkConfig SourceEnv "/s" "/a" (from_secs 60) 4 (from_millis 1000) (Some "/f")).
Proof.
  apply (proj2 (overrides_win RawConfig_default RawConfig_default KindEnv "/t" "/s" "/a" 60 4 1000 "/f"));
    lia.
Defined.

Lemma load_missing_file_witness :
  @load demo_toml_config demo_config_disk None Overrides_default
    = resolve RawConfig_default Overrides_default ∧
  @load demo_toml_config demo_config_disk (Some "/nope") Overrides_default
    = Err (ConfigFileNotFound "/nope").
Proof.
  pose proof (@load_missing_file demo_toml_config demo_config_disk Overrides_default "/nope"
    (mkIoError NotFound "No such file or directory (os error 2)")) as (H1 & H2 & _).
  split; [apply H1|apply H2]; vm_compute; reflexivity.
Defined.
