(* ===== verification/AuditLog.v ===== *)
(** * The audit log ([src/audit.rs])

    Event types and their JSON, the append-only file, the bounded channel
    between the fetch path and the writer task, and the writer loop with its
    degraded buffer.  What the operating system answers to an open or a write
    is an argument ([FileOutcome], by attempt number); timestamps are opaque
    and their RFC 3339 text is a parameter ([Rfc3339]). *)

From S2P Require Import Prelude Str Path Json.
Open Scope Z_scope.

Definition CHANNEL_CAP : Z := 1000.
Definition DEGRADED_BUFFER_CAP : Z := 1000.

(** ** Events *)

Definition Timestamp : Type := Z.

Inductive Decision' : Type := Allow | Deny.
Inductive Outcome : Type := OutcomeOk | OutcomeNotFound | OutcomeBackendError | OutcomeBackendUnreachable.

#[export] Instance Decision'_eq_dec : EqDecision Decision'.
Proof. solve_decision. Defined.
#[export] Instance Outcome_eq_dec : EqDecision Outcome.
Proof. solve_decision. Defined.

Record FetchEvent : Type := mkFetchEvent {
  fe_timestamp : Timestamp;
  fe_project : string;
  fe_secret_name : string;
  fe_decision : Decision';
  fe_outcome : Outcome;
  fe_peer_pid : option Z;
  fe_peer_uid : option Z;
  fe_latency_ms : Z;
  fe_backend : option string;
  fe_reason : option string;
}.

Record ManifestInvalidEvent : Type := mkManifestInvalidEvent {
  mi_timestamp : Timestamp;
  mi_project : string;
  mi_manifest_path : string;
  mi_error : string;
}.

Record SocketRecoveredEvent : Type := mkSocketRecoveredEvent {
  sr_timestamp : Timestamp;
  sr_project : string;
  sr_socket_path : string;
}.

Record ShutdownEvent : Type := mkShutdownEvent {
  sd_timestamp : Timestamp;
  sd_reason : string;
  sd_events_dropped : Z;
  sd_events_in_degraded_buffer : Z;
}.

Inductive AuditEvent : Type :=
  | Fetch (e : FetchEvent)
  | ManifestInvalid (e : ManifestInvalidEvent)
  | SocketRecovered (e : SocketRecoveredEvent)
  | Shutdown (e : ShutdownEvent).

#[export] Instance FetchEvent_eq_dec : EqDecision FetchEvent.
Proof. solve_decision. Defined.
#[export] Instance ManifestInvalidEvent_eq_dec : EqDecision ManifestInvalidEvent.
Proof. solve_decision. Defined.
#[export] Instance SocketRecoveredEvent_eq_dec : EqDecision SocketRecoveredEvent.
Proof. solve_decision. Defined.
#[export] Instance ShutdownEvent_eq_dec : EqDecision ShutdownEvent.
Proof. solve_decision. Defined.
#[export] Instance AuditEvent_eq_dec : EqDecision AuditEvent.
Proof. solve_decision. Defined.

(** ** JSON of an event

    [time]'s RFC 3339 form fails for years it cannot write; serde refuses a
    path that is not UTF-8. *)
Class Rfc3339 := rfc3339 : Timestamp → option string.

Definition decision_wire (d : Decision') : string :=
  match d with Allow => "allow" | Deny => "deny" end.

Definition outcome_wire (o : Outcome) : string :=
  match o with
  | OutcomeOk => "ok"
  | OutcomeNotFound => "not_found"
  | OutcomeBackendError => "backend_error"
  | OutcomeBackendUnreachable => "backend_unreachable"
  end.

Definition event_to_json `{Rfc3339} (e : AuditEvent) : option json :=
  match e with
  | Fetch f =>
      ts ← rfc3339 f.(fe_timestamp);
      Some (JObj (
        field "event" (JStr "fetch") ++
        field "timestamp" (JStr ts) ++
        field "project" (JStr f.(fe_project)) ++
        field "secret_name" (JStr f.(fe_secret_name)) ++
        field "decision" (JStr (decision_wire f.(fe_decision))) ++
        field "outcome" (JStr (outcome_wire f.(fe_outcome))) ++
        opt_field "peer_pid" (JNum <$> f.(fe_peer_pid)) ++
        opt_field "peer_uid" (JNum <$> f.(fe_peer_uid)) ++
        field "latency_ms" (JNum f.(fe_latency_ms)) ++
        opt_field "backend" (JStr <$> f.(fe_backend)) ++
        opt_field "reason" (JStr <$> f.(fe_reason))))
  | ManifestInvalid m =>
      ts ← rfc3339 m.(mi_timestamp);
      p ← from_utf8 (bytes m.(mi_manifest_path));
      Some (JObj (
        field "event" (JStr "manifest.invalid") ++
        field "timestamp" (JStr ts) ++
        field "project" (JStr m.(mi_project)) ++
        field "manifest_path" (JStr p) ++
        field "error" (JStr m.(mi_error))))
  | SocketRecovered s =>
      ts ← rfc3339 s.(sr_timestamp);
      p ← from_utf8 (bytes s.(sr_socket_path));
      Some (JObj (
        field "event" (JStr "socket.recovered") ++
        field "timestamp" (JStr ts) ++
        field "project" (JStr s.(sr_project)) ++
        field "socket_path" (JStr p)))
  | Shutdown s =>
      ts ← rfc3339 s.(sd_timestamp);
      Some (JObj (
        field "event" (JStr "shutdown") ++
        field "timestamp" (JStr ts) ++
        field "reason" (JStr s.(sd_reason)) ++
        field "events_dropped" (JNum s.(sd_events_dropped)) ++
        field "events_in_degraded_buffer" (JNum s.(sd_events_in_degraded_buffer))))
  end.

(** ** The file *)

(** What one open-append-write meets: the open fails; the write stops after
    [k] bytes with an error; or everything is written. *)
Inductive FileOutcome : Type :=
  | OpenFails (e : IoError)
  | WriteFails (k : nat) (e : IoError)
  | WriteOk.

(** The bytes appended at the path so far, and the attempts made. *)
Record LogFile : Type := mkLogFile {
  lf_bytes : list ascii;
  lf_attempts : nat;
}.

Section writer.
Context `{Rfc3339, SerdeJson}.
Context (disk : nat → FileOutcome).

Definition event_line (e : AuditEvent) : option (list ascii) :=
  j ← event_to_json e; Some (bytes (to_string j) ++ [NL]).

(** [AuditFile::write_event]. *)
Definition write_event (e : AuditEvent) : ST LogFile (result IoError unit) := λ f,
  match event_line e with
  | None => (Err (mkIoError InvalidData "serialization failed"), f)
  | Some line =>
      match disk f.(lf_attempts) with
      | OpenFails err => (Err err, mkLogFile f.(lf_bytes) (S f.(lf_attempts)))
      | WriteFails k err =>
          (Err err, mkLogFile (f.(lf_bytes) ++ take k line) (S f.(lf_attempts)))
      | WriteOk => (Ok tt, mkLogFile (f.(lf_bytes) ++ line) (S f.(lf_attempts)))
      end
  end.

(** ** The writer task *)

Record Writer : Type := mkWriter {
  w_degraded : list AuditEvent;
  w_written : Z;
  w_file : LogFile;
}.

Definition writer_init : Writer := mkWriter [] 0 (mkLogFile [] 0).

(** The inner [while let Some(buffered) = degraded.front()] loop. *)
Fixpoint drain_degraded (degraded : list AuditEvent) (written : Z) (f : LogFile) : Writer :=
  match degraded with
  | [] => mkWriter [] written f
  | buffered :: rest =>
      match write_event buffered f with
      | (Ok _, f') => drain_degraded rest (wrap_u64 (written + 1)) f'
      | (Err _, f') => mkWriter degraded written f'
      end
  end.

(** [degraded.pop_front()] at the cap, then [degraded.push_back(event)]. *)
Definition push_degraded (degraded : list AuditEvent) (e : AuditEvent) : list AuditEvent :=
  (if Z.of_nat (length degraded) =? DEGRADED_BUFFER_CAP then tail degraded else degraded) ++ [e].

(** One iteration of the outer loop, for one received event. *)
Definition handle_event (w : Writer) (e : AuditEvent) : Writer :=
  let w := drain_degraded w.(w_degraded) w.(w_written) w.(w_file) in
  match write_event e w.(w_file) with
  | (Ok _, f') => mkWriter w.(w_degraded) (wrap_u64 (w.(w_written) + 1)) f'
  | (Err _, f') => mkWriter (push_degraded w.(w_degraded) e) w.(w_written) f'
  end.

Record WriterShutdown : Type := mkWriterShutdown {
  degraded_buffer_remaining : Z;
  events_written : Z;
}.

Definition WriterShutdown_default : WriterShutdown := mkWriterShutdown 0 0.

Definition writer_shutdown (w : Writer) : WriterShutdown :=
  mkWriterShutdown (Z.of_nat (length w.(w_degraded))) w.(w_written).

(** The loop over every event received until the channel closes. *)
Definition writer_run (events : list AuditEvent) (w : Writer) : Writer :=
  foldl handle_event w events.

Definition writer_loop (events : list AuditEvent) : WriterShutdown :=
  writer_shutdown (writer_run events writer_init).

End writer.

(** ** The channel *)

Record Channel : Type := mkChannel {
  ch_queue : list AuditEvent;
  ch_rx_open : bool;
  ch_dropped : Z;
}.

Definition channel_new : Channel := mkChannel [] true 0.

(** [AuditWriter::record]: a [try_send] that never blocks. *)
Definition record (e : AuditEvent) (ch : Channel) : Channel :=
  if ch.(ch_rx_open) then
    if Z.of_nat (length ch.(ch_queue)) <? CHANNEL_CAP
    then mkChannel (ch.(ch_queue) ++ [e]) true ch.(ch_dropped)
    else mkChannel ch.(ch_queue) true (wrap_u64 (ch.(ch_dropped) + 1))
  else ch.

Definition dropped (ch : Channel) : Z := ch.(ch_dropped).

(** ** Accounting for every event *)

Section accounting.
Context `{Rfc3339, SerdeJson}.
Context (disk : nat → FileOutcome).

(** The bytes a list of events leaves in the log, one line each. *)
Definition line_of (e : AuditEvent) : list ascii := default [] (event_line e).
Definition log_bytes (log : list AuditEvent) : list ascii := concat (map line_of log).

(** No write stops half-way through a line. *)
Definition torn_free : Prop :=
  ∀ n k err, disk n = WriteFails k err → k = 0%nat.

Lemma log_bytes_app l1 l2 : log_bytes (l1 ++ l2) = log_bytes l1 ++ log_bytes l2.
Proof. unfold log_bytes. by rewrite map_app, concat_app. Qed.

Lemma log_bytes_one e : log_bytes [e] = line_of e.
Proof. unfold log_bytes. simpl. apply app_nil_r. Qed.

(** What the file holds when the events [log] were written out: their lines,
    with, between them, what torn writes left of lines of events of [tried]. *)
Inductive on_disk (tried : list AuditEvent) : list AuditEvent → list ascii → Prop :=
  | on_disk_empty : on_disk tried [] []
  | on_disk_line log b e : e ∈ tried → on_disk tried log b → on_disk tried (log ++ [e]) (b ++ line_of e)
  | on_disk_torn log b e k : e ∈ tried → on_disk tried log b → on_disk tried log (b ++ take k (line_of e)).

Lemma on_disk_mono tried tried' log b : tried ⊆ tried' → on_disk tried log b → on_disk tried' log b.
Proof. intros Hsub. induction 1; constructor; auto. Qed.

Lemma write_event_cases tried log e f :
  e ∈ tried → on_disk tried log (lf_bytes f) →
  match write_event disk e f with
  | (Ok _, f') => on_disk tried (log ++ [e]) (lf_bytes f') ∧ lf_bytes f' = lf_bytes f ++ line_of e
  | (Err _, f') => on_disk tried log (lf_bytes f') ∧ (torn_free → lf_bytes f' = lf_bytes f)
  end.
Proof.
  intros Hin Hod. pose proof (on_disk_line tried log _ e Hin Hod) as Hline.
  pose proof (λ k, on_disk_torn tried log _ e k Hin Hod) as Htorn. revert Hline Htorn.
  unfold write_event, line_of. destruct (event_line e) as [line|]; [|done]. intros Hline Htorn.
  destruct (disk (lf_attempts f)) as [err|k err|] eqn:Hd; simpl; [done| |done].
  split; [apply Htorn|]. intros Htf. rewrite (Htf _ _ _ Hd). apply app_nil_r.
Qed.

Lemma wrap_u64_add a b : wrap_u64 (wrap_u64 a + b) = wrap_u64 (a + b).
Proof. unfold wrap_u64. apply Z.add_mod_idemp_l. lia. Qed.

Lemma drain_acct tried log0 degraded n f :
  degraded ⊆ tried → on_disk tried log0 (lf_bytes f) →
  let w := drain_degraded disk degraded (wrap_u64 n) f in
  ∃ log, degraded = log ++ w.(w_degraded) ∧
    w.(w_written) = wrap_u64 (n + Z.of_nat (length log)) ∧
    on_disk tried (log0 ++ log) (lf_bytes w.(w_file)) ∧
    (torn_free → lf_bytes w.(w_file) = lf_bytes f ++ log_bytes log).
Proof.
  revert log0 n f. induction degraded as [|b rest IH]; intros log0 n f Hsub Hod; simpl.
  { exists []. rewrite !app_nil_r, Z.add_0_r. done. }
  pose proof (write_event_cases tried log0 b f (Hsub b ltac:(left)) Hod) as Hw.
  destruct (write_event disk b f) as [[[]|err] f']; destruct Hw as [Hod' Hw].
  - rewrite wrap_u64_add.
    destruct (IH (log0 ++ [b]) (n + 1) f' ltac:(set_solver) Hod') as (log & Hd & Hn & Hod2 & Hb).
    exists (b :: log). rewrite <-app_assoc in Hod2. split_and!; [simpl; by f_equal| |done|].
    + rewrite Hn. f_equal. simpl. lia.
    + intros Htf. rewrite (Hb Htf), Hw, <-app_assoc. done.
  - exists []. rewrite !app_nil_r, Z.add_0_r. done.
Qed.

(** How an event leaves the degraded buffer: written after all, or dropped to
    make room for a newer one. *)
Inductive Fate : Type := Retried | Evicted.
#[export] Instance Fate_eq_dec : EqDecision Fate.
Proof. solve_decision. Defined.

Definition fated (f : Fate) (popped : list (Fate * AuditEvent)) : list AuditEvent :=
  (filter (λ p, p.1 = f) popped).*2.

Lemma fated_app f l1 l2 : fated f (l1 ++ l2) = fated f l1 ++ fated f l2.
Proof. unfold fated. by rewrite filter_app, fmap_app. Qed.

Lemma fated_all f log : fated f ((f,.) <$> log) = log.
Proof.
  unfold fated. induction log as [|e log IH]; [done|]. rewrite fmap_cons, filter_cons_True by done.
  rewrite fmap_cons. by f_equal.
Qed.

Lemma fated_none f f' log : f ≠ f' → fated f' ((f,.) <$> log) = [].
Proof. intros Hf. unfold fated. induction log as [|e log IH]; [done|]. by rewrite fmap_cons, filter_cons_False. Qed.

Lemma popped_fated popped : popped.*2 ≡ₚ fated Retried popped ++ fated Evicted popped.
Proof.
  unfold fated. induction popped as [|[[] e] popped IH]; [done|..]; rewrite fmap_cons.
  - rewrite filter_cons_True, (filter_cons_False (λ p, p.1 = Evicted)) by done. simpl. by f_equiv.
  - rewrite filter_cons_False, (filter_cons_True (λ p, p.1 = Evicted)) by done. simpl.
    rewrite <-Permutation_middle. by f_equiv.
Qed.

Lemma snd_tagged (f : Fate) (log : list AuditEvent) : (((f,.) <$> log).*2) = log.
Proof. induction log as [|e log IH]; [done|]. rewrite !fmap_cons. by f_equal. Qed.

(** The state of the writer against what happened to the events handled so
    far.  [direct] were written at once; the others went through the buffer,
    which is a queue: [popped] have left it, in the order they entered, and
    [w_degraded] are still there.  The log is what was written at once and what
    was retried, each in its order; an event was evicted only when a full
    buffer's worth of newer ones had come behind it. *)
Record accounted (handled log : list AuditEvent) (popped : list (Fate * AuditEvent)) (w : Writer) : Prop := {
  ac_order : ∃ direct,
    interleaved direct (popped.*2 ++ w.(w_degraded)) handled ∧
    interleaved direct (fated Retried popped) log;
  ac_written : w.(w_written) = wrap_u64 (Z.of_nat (length log));
  ac_cap : Z.of_nat (length w.(w_degraded)) ≤ DEGRADED_BUFFER_CAP;
  ac_evicted : ∀ older e newer, popped = older ++ (Evicted, e) :: newer →
    DEGRADED_BUFFER_CAP ≤ Z.of_nat (length (newer.*2 ++ w.(w_degraded)));
  ac_file : on_disk handled log (lf_bytes w.(w_file));
  ac_bytes : torn_free → lf_bytes w.(w_file) = log_bytes log;
}.

Lemma accounted_perm handled log popped w :
  accounted handled log popped w → handled ≡ₚ log ++ fated Evicted popped ++ w.(w_degraded).
Proof.
  intros [(direct & Hh%interleaved_Permutation & Hl%interleaved_Permutation) _ _ _ _ _].
  rewrite Hh, Hl, popped_fated. solve_Permutation.
Qed.

Lemma evicted_split popped :
  fated Evicted popped ≠ [] → ∃ older e newer, popped = older ++ (Evicted, e) :: newer.
Proof.
  induction popped as [|[[] e] popped IH]; [done|..].
  - unfold fated. rewrite filter_cons_False by done. intros (older & x & newer & ->)%IH.
    by exists ((Retried, e) :: older), x, newer.
  - intros _. by exists [], e, popped.
Qed.

(** Nothing is evicted before more events than the buffer holds have come. *)
Lemma accounted_kept handled log popped w :
  accounted handled log popped w → Z.of_nat (length handled) ≤ DEGRADED_BUFFER_CAP → fated Evicted popped = [].
Proof.
  intros Hacc Hlen. destruct (decide (fated Evicted popped = [])) as [?|Hne]; [done|exfalso].
  apply evicted_split in Hne as (older & e & newer & Hp).
  pose proof (ac_evicted _ _ _ _ Hacc older e newer Hp) as Hfull.
  destruct (ac_order _ _ _ _ Hacc) as (direct & Hh%interleaved_Permutation%Permutation_length & _).
  rewrite Hp, fmap_app, fmap_cons in Hh. rewrite !length_app, length_cons in *. lia.
Qed.

Lemma app_snoc_split {A} (l k older newer : list A) x :
  l ++ k = older ++ x :: newer →
  (∃ mid, l = older ++ x :: mid ∧ newer = mid ++ k) ∨ ∃ mid, older = l ++ mid ∧ k = mid ++ x :: newer.
Proof.
  intros Heq. apply app_eq_app in Heq as (mid & [[-> Hx]|[-> ->]]); [|right; eauto].
  destruct mid as [|y mid]; simplify_eq/=; [right; exists []; by rewrite !app_nil_r|left; eauto].
Qed.

Lemma accounted_drain handled log popped w :
  accounted handled log popped w →
  ∃ log', accounted handled (log ++ log') (popped ++ ((Retried,.) <$> log'))
            (drain_degraded disk w.(w_degraded) w.(w_written) w.(w_file)).
Proof.
  intros Hacc. pose proof (accounted_perm _ _ _ _ Hacc) as Hperm.
  destruct Hacc as [(direct & Hh & Hl) Hw Hc He Hod Hb]. rewrite Hw.
  destruct (drain_acct handled log (w_degraded w) (Z.of_nat (length log)) (w_file w))
    as (log' & Hd & Hn & Hod' & Hb'); [intros x Hx; rewrite Hperm; set_solver|done|].
  exists log'. split.
  - exists direct. rewrite fmap_app, snd_tagged, <-app_assoc, <-Hd, fated_app, fated_all.
    split; [done|]. by apply interleaved_app_r.
  - rewrite Hn, length_app. f_equal. lia.
  - rewrite Hd, length_app in Hc. lia.
  - intros older e newer [(mid & -> & ->)|(mid & -> & Hbad)]%app_snoc_split.
    + rewrite fmap_app, snd_tagged, <-app_assoc, <-Hd. by eapply He.
    + assert ((Evicted, e) ∈ (Retried,.) <$> log') as (? & [=] & _)%list_elem_of_fmap.
      rewrite Hbad. set_solver.
  - done.
  - intros Htf. by rewrite (Hb' Htf), (Hb Htf), log_bytes_app.
Qed.

Lemma push_degraded_spec degraded e :
  Z.of_nat (length degraded) ≤ DEGRADED_BUFFER_CAP →
  ∃ gone, degraded ++ [e] = gone ++ push_degraded degraded e ∧
    (gone = [] ∨ (∃ x, gone = [x]) ∧ DEGRADED_BUFFER_CAP ≤ Z.of_nat (length (push_degraded degraded e))) ∧
    Z.of_nat (length (push_degraded degraded e)) ≤ DEGRADED_BUFFER_CAP.
Proof.
  unfold push_degraded, DEGRADED_BUFFER_CAP. intros Hc.
  destruct (_ =? 1000) eqn:Hfull.
  - apply Z.eqb_eq in Hfull. destruct degraded as [|d degraded]; [simpl in *; lia|].
    exists [d]. rewrite length_app. simpl in *. split_and!; [done|right|lia]. split; [eauto|lia].
  - apply Z.eqb_neq in Hfull. exists []. split_and!; [done|by left|].
    rewrite length_app. simpl. lia.
Qed.

Lemma accounted_push handled log popped w e f' :
  accounted handled log popped w →
  on_disk (handled ++ [e]) log (lf_bytes f') → (torn_free → lf_bytes f' = lf_bytes w.(w_file)) →
  ∃ popped', accounted (handled ++ [e]) log popped'
               (mkWriter (push_degraded w.(w_degraded) e) w.(w_written) f').
Proof.
  intros [(direct & Hh & Hl) Hw Hc He _ Hb] Hod Hf.
  destruct (push_degraded_spec (w_degraded w) e Hc) as (gone & Hg & Hroom & Hcap).
  exists (popped ++ ((Evicted,.) <$> gone)). split; simpl; [|done|done| |done|].
  - exists direct. rewrite fmap_app, snd_tagged, <-app_assoc, <-Hg, app_assoc.
    rewrite fated_app, fated_none, app_nil_r by done. split; [by apply interleaved_r|done].
  - intros older x newer [(mid & -> & ->)|(mid & -> & Hx)]%app_snoc_split.
    + rewrite fmap_app, snd_tagged, <-app_assoc, <-Hg, app_assoc, length_app.
      specialize (He _ _ _ eq_refl). lia.
    + destruct Hroom as [->|[(y & ->) Hfull]]; [by destruct mid|]. rewrite length_app. lia.
  - intros Htf. by rewrite (Hf Htf), (Hb Htf).
Qed.

Lemma accounted_handle handled log popped w e :
  accounted handled log popped w →
  ∃ log' popped', accounted (handled ++ [e]) log' popped' (handle_event disk w e).
Proof.
  intros (log1 & Hacc)%accounted_drain.
  unfold handle_event. set (w1 := drain_degraded _ _ _ _) in *. clearbody w1.
  pose proof (on_disk_mono handled (handled ++ [e]) _ _ ltac:(set_solver) (ac_file _ _ _ _ Hacc)) as Hod.
  pose proof (write_event_cases (handled ++ [e]) _ e (w_file w1) ltac:(set_solver) Hod) as Hwe.
  destruct (write_event disk e (w_file w1)) as [[[]|err] f']; destruct Hwe as [Hod' Hwe].
  - destruct Hacc as [(direct & Hh & Hl) Hw Hc He _ Hb].
    exists ((log ++ log1) ++ [e]), (popped ++ ((Retried,.) <$> log1)). split; simpl; [|..|done|].
    + exists (direct ++ [e]). split; by apply interleaved_l.
    + rewrite Hw, wrap_u64_add, (length_app _ [e]). f_equal. simpl. lia.
    + done.
    + done.
    + intros Htf. by rewrite Hwe, (Hb Htf), !log_bytes_app, log_bytes_one.
  - destruct (accounted_push _ _ _ _ e f' Hacc Hod' Hwe) as (popped' & Hacc'). eauto.
Qed.

Lemma accounted_init : accounted [] [] [] writer_init.
Proof.
  split; simpl; try done; [|by intros [] ? ? ?|constructor].
  exists []. split; constructor.
Qed.

Lemma accounted_run handled log popped w events :
  accounted handled log popped w →
  ∃ log' popped', accounted (handled ++ events) log' popped' (writer_run disk events w).
Proof.
  revert handled log popped w. induction events as [|e events IH]; intros handled log popped w Hacc.
  { rewrite app_nil_r. eauto. }
  destruct (accounted_handle _ _ _ _ e Hacc) as (log1 & ev1 & Hacc1).
  destruct (IH _ _ _ _ Hacc1) as (log2 & ev2 & Hacc2). exists log2, ev2.
  by rewrite <-app_assoc in Hacc2.
Qed.

Definition serializable (e : AuditEvent) : Prop := is_Some (event_to_json e).
#[local] Instance serializable_dec e : Decision (serializable e).
Proof. unfold serializable. apply _. Defined.

(** The text of the line of an event, without its newline. *)
Definition line_text (e : AuditEvent) : list ascii :=
  match event_to_json e with Some j => bytes (to_string j) | None => [] end.

Lemma line_of_text e : serializable e → line_of e = line_text e ++ [NL].
Proof. intros [j Hj]. unfold line_of, event_line, line_text. by rewrite Hj. Qed.

(** A log without torn writes splits back into the lines of its events. *)
Lemma log_bytes_lines log :
  Forall serializable log → split_on NL (log_bytes log) = map line_text log ++ [[]].
Proof.
  intros Hs. rewrite <-(split_on_concat NL (map line_text log)).
  - f_equal. unfold log_bytes. f_equal. rewrite map_map. apply map_ext_in.
    intros e He. apply line_of_text. rewrite Forall_forall in Hs. apply Hs. by apply list_elem_of_In.
  - apply Forall_fmap, Forall_forall. intros e _. simpl. unfold line_text.
    destruct (event_to_json e); [apply to_string_one_line|set_solver].
Qed.

Lemma accounted_serializable handled log popped w :
  accounted handled log popped w → Forall serializable handled → Forall serializable log.
Proof.
  intros Hp%accounted_perm Hs. rewrite Hp in Hs. by apply Forall_app in Hs as [? _].
Qed.

(** C17: nothing the writer receives goes missing, and the buffer is a queue:
    whatever the disk does, the events received are those written at once and
    those buffered, each in the order received; those buffered are, in order,
    those that have left the buffer and those still in it when the task exits;
    those that left were written or evicted, and evicted only with a full buffer
    of newer events behind; the log is the events written at once and the
    buffered ones written later, each of the two in order (not necessarily in
    order together).  The tallies reported are the numbers still buffered and
    written, the buffer never exceeds its cap, the file holds the lines of the
    log with at most fragments of torn lines between, and with no torn write
    it is exactly the JSON lines of the log. *)
Theorem writer_accounts events :
  Forall serializable events →
  ∃ direct popped log,
    let w := writer_run disk events writer_init in
    interleaved direct (popped.*2 ++ w.(w_degraded)) events ∧
    interleaved direct (fated Retried popped) log ∧
    (∀ older e newer, popped = older ++ (Evicted, e) :: newer →
       DEGRADED_BUFFER_CAP ≤ Z.of_nat (length (newer.*2 ++ w.(w_degraded)))) ∧
    (Z.of_nat (length events) ≤ DEGRADED_BUFFER_CAP → fated Evicted popped = []) ∧
    events ≡ₚ log ++ fated Evicted popped ++ w.(w_degraded) ∧
    writer_loop disk events = mkWriterShutdown (Z.of_nat (length w.(w_degraded)))
                                               (wrap_u64 (Z.of_nat (length log))) ∧
    Z.of_nat (length w.(w_degraded)) ≤ DEGRADED_BUFFER_CAP ∧
    on_disk events log (lf_bytes w.(w_file)) ∧
    (torn_free → split_on NL (lf_bytes w.(w_file)) = map line_text log ++ [[]]).
Proof.
  intros Hs. destruct (accounted_run [] [] [] writer_init events accounted_init) as (log & popped & Hacc).
  pose proof (accounted_serializable _ _ _ _ Hacc Hs) as Hlog.
  pose proof (accounted_perm _ _ _ _ Hacc) as Hp. pose proof (accounted_kept _ _ _ _ Hacc) as Hk.
  destruct Hacc as [(direct & Hh & Hl) Hw Hc He Hod Hb]. exists direct, popped, log. cbv zeta.
  split_and!; try done.
  - unfold writer_loop, writer_shutdown. by rewrite Hw.
  - intros Htf. rewrite (Hb Htf). by apply log_bytes_lines.
Qed.

(** ** A disk that works *)

Lemma write_event_ok e f :
  serializable e → disk (lf_attempts f) = WriteOk →
  write_event disk e f = (Ok tt, mkLogFile (lf_bytes f ++ line_of e) (S (lf_attempts f))).
Proof.
  intros Hs Hd. unfold write_event. rewrite Hd. rewrite line_of_text by done.
  destruct Hs as [j Hj]. unfold event_line, line_text. rewrite Hj. done.
Qed.

Lemma drain_ok degraded n f :
  Forall serializable degraded → (∀ i, (lf_attempts f ≤ i)%nat → disk i = WriteOk) →
  drain_degraded disk degraded (wrap_u64 n) f =
  mkWriter [] (wrap_u64 (n + Z.of_nat (length degraded)))
    (mkLogFile (lf_bytes f ++ log_bytes degraded) (lf_attempts f + length degraded)).
Proof.
  intros Hs. revert n f. induction Hs as [|e degraded He Hs IH]; intros n f Hd; simpl.
  { destruct f. simpl. by rewrite app_nil_r, Z.add_0_r, Nat.add_0_r. }
  rewrite write_event_ok by (done || by apply Hd). rewrite wrap_u64_add, IH.
  - simpl. f_equal; [f_equal; lia|]. f_equal; [by rewrite <-app_assoc|lia].
  - simpl. intros i Hi. apply Hd. lia.
Qed.

Lemma handle_ok w e n :
  w.(w_written) = wrap_u64 n → Forall serializable (w.(w_degraded) ++ [e]) →
  (∀ i, (lf_attempts w.(w_file) ≤ i)%nat → disk i = WriteOk) →
  handle_event disk w e =
  mkWriter [] (wrap_u64 (n + Z.of_nat (length (w.(w_degraded) ++ [e]))))
    (mkLogFile (lf_bytes w.(w_file) ++ log_bytes (w.(w_degraded) ++ [e]))
       (lf_attempts w.(w_file) + length (w.(w_degraded) ++ [e]))).
Proof.
  intros Hn [Hs He]%Forall_app Hd. rewrite Forall_singleton in He.
  unfold handle_event. rewrite Hn, drain_ok by done. simpl.
  rewrite write_event_ok by (done || (apply Hd; simpl; lia)). simpl.
  rewrite log_bytes_app, log_bytes_one, app_assoc, wrap_u64_add, length_app. simpl.
  f_equal; f_equal; lia.
Qed.

(** Recovery. When the disk works again, the next event flushes the
    whole degraded buffer first, in the order it was filled, and is itself
    written after it; nothing stays buffered. *)
Theorem degraded_recovers w e n :
  w.(w_written) = wrap_u64 n → Forall serializable (w.(w_degraded) ++ [e]) →
  (∀ i, (lf_attempts w.(w_file) ≤ i)%nat → disk i = WriteOk) →
  (handle_event disk w e).(w_degraded) = [] ∧
  lf_bytes (handle_event disk w e).(w_file)
    = lf_bytes w.(w_file) ++ log_bytes (w.(w_degraded) ++ [e]) ∧
  (handle_event disk w e).(w_written) = wrap_u64 (n + Z.of_nat (length (w.(w_degraded) ++ [e]))).
Proof. intros. by rewrite (handle_ok w e n). Qed.

Lemma writer_run_ok events n f :
  Forall serializable events → (∀ i, disk i = WriteOk) →
  writer_run disk events (mkWriter [] (wrap_u64 n) f) =
  mkWriter [] (wrap_u64 (n + Z.of_nat (length events)))
    (mkLogFile (lf_bytes f ++ log_bytes events) (lf_attempts f + length events)).
Proof.
  intros Hs Hd. revert n f. induction Hs as [|e events He Hs IH]; intros n f.
  { destruct f. simpl. by rewrite app_nil_r, Z.add_0_r, Nat.add_0_r. }
  change (writer_run disk (e :: events) ?w) with (writer_run disk events (handle_event disk w e)).
  rewrite (handle_ok _ e n) by (done || by apply Forall_singleton). simpl. rewrite IH. simpl.
  f_equal; [f_equal; lia|]. f_equal; [|lia].
  by rewrite log_bytes_one, <-app_assoc.
Qed.

(** While the disk works, the log is the received events in order, one
    line each, and the writer reports all of them written, none buffered. *)
Theorem writer_healthy events :
  Forall serializable events → (∀ i, disk i = WriteOk) →
  writer_loop disk events = mkWriterShutdown 0 (wrap_u64 (Z.of_nat (length events))) ∧
  split_on NL (lf_bytes (w_file (writer_run disk events writer_init))) = map line_text events ++ [[]].
Proof.
  intros Hs Hd. unfold writer_loop, writer_init. change 0 with (wrap_u64 0) at 1 3.
  rewrite writer_run_ok by done. simpl. split; [done|]. by apply log_bytes_lines.
Qed.

End accounting.

(** ** Producers and writer together

    The fetch handlers and the writer task share the channel: handlers record
    at any time, the task takes the next event and handles it, and exits once
    every sender is gone and the queue is empty.  [sy_recorded], [sy_lost] and
    [sy_late] are history: every event recorded, those refused by a full
    channel, and those recorded after the task had exited. *)

Section system.
Context `{Rfc3339, SerdeJson}.
Context (disk : nat → FileOutcome).

Record System : Type := mkSystem {
  sy_channel : Channel;
  sy_hand : option AuditEvent;
  sy_writer : Writer;
  sy_recorded : list AuditEvent;
  sy_lost : list AuditEvent;
  sy_late : list AuditEvent;
}.

(** [AuditWriter::spawn]. *)
Definition spawn : System := mkSystem channel_new None writer_init [] [] [].

Definition refused (ch : Channel) : bool :=
  ch.(ch_rx_open) && negb (Z.of_nat (length ch.(ch_queue)) <? CHANNEL_CAP).

Inductive step : System → System → Prop :=
  | step_record e s :
      step s (mkSystem (record e s.(sy_channel)) s.(sy_hand) s.(sy_writer)
                (s.(sy_recorded) ++ [e])
                (if refused s.(sy_channel) then s.(sy_lost) ++ [e] else s.(sy_lost))
                (if s.(sy_channel).(ch_rx_open) then s.(sy_late) else s.(sy_late) ++ [e]))
  | step_recv e q d s :
      s.(sy_hand) = None → s.(sy_channel) = mkChannel (e :: q) true d →
      step s (mkSystem (mkChannel q true d) (Some e) s.(sy_writer)
                s.(sy_recorded) s.(sy_lost) s.(sy_late))
  | step_handle e s :
      s.(sy_hand) = Some e →
      step s (mkSystem s.(sy_channel) None (handle_event disk s.(sy_writer) e)
                s.(sy_recorded) s.(sy_lost) s.(sy_late))
  | step_exit d s :
      s.(sy_hand) = None → s.(sy_channel) = mkChannel [] true d →
      step s (mkSystem (mkChannel [] false d) None s.(sy_writer)
                s.(sy_recorded) s.(sy_lost) s.(sy_late)).

Definition reachable (s : System) : Prop := rtc step spawn s.

Definition in_flight (s : System) : list AuditEvent :=
  option_list s.(sy_hand) ++ s.(sy_channel).(ch_queue).

Record sys_inv (s : System) : Prop := {
  si_acct : ∃ handled log popped,
    accounted disk handled log popped s.(sy_writer) ∧
    interleaved (handled ++ in_flight s) (s.(sy_lost) ++ s.(sy_late)) s.(sy_recorded);
  si_dropped : s.(sy_channel).(ch_dropped) = wrap_u64 (Z.of_nat (length s.(sy_lost)));
  si_queue : Z.of_nat (length s.(sy_channel).(ch_queue)) ≤ CHANNEL_CAP;
  si_late : s.(sy_channel).(ch_rx_open) = true → s.(sy_late) = [];
}.

Lemma record_inv e s :
  sys_inv s →
  sys_inv (mkSystem (record e s.(sy_channel)) s.(sy_hand) s.(sy_writer)
                (s.(sy_recorded) ++ [e])
                (if refused s.(sy_channel) then s.(sy_lost) ++ [e] else s.(sy_lost))
                (if s.(sy_channel).(ch_rx_open) then s.(sy_late) else s.(sy_late) ++ [e])).
Proof.
  destruct s as [[q o d] h w r l lt]. intros [(handled & log & popped & Hacc & Hr) Hd Hq Hl].
  simpl in *. unfold refused, record, in_flight in *. simpl in *.
  destruct o; simpl; [rewrite (Hl eq_refl) in *; destruct (_ <? _) eqn:Hlt; simpl|].
  - apply Z.ltb_lt in Hlt. split; simpl; [|done|rewrite length_app; simpl; lia|done].
    exists handled, log, popped. split; [done|]. unfold in_flight. simpl. rewrite !(app_assoc _ _ [e]).
    by apply interleaved_l.
  - split; simpl; [|rewrite Hd, wrap_u64_add, length_app; f_equal; simpl; lia|done..].
    exists handled, log, popped. split; [done|]. rewrite app_nil_r in *. by apply interleaved_r.
  - split; simpl; [|done..]. exists handled, log, popped. split; [done|]. rewrite app_assoc. by apply interleaved_r.
Qed.

Lemma step_inv s s' : sys_inv s → step s s' → sys_inv s'.
Proof.
  intros Hinv Hstep. destruct Hstep as [e s|e q d s Hh Hc|e s Hh|d s Hh Hc]; [by apply record_inv|..];
    destruct s as [ch h w r l lt]; simpl in *; subst;
    destruct Hinv as [(handled & log & popped & Hacc & Hr) Hd Hq Hl]; unfold in_flight in Hr; simpl in *.
  - split; simpl; [|done|lia|done]. by exists handled, log, popped.
  - split; simpl; [|done..]. destruct (accounted_handle disk _ _ _ _ e Hacc) as (log' & popped' & Hacc').
    exists (handled ++ [e]), log', popped'. split; [done|]. unfold in_flight. simpl. by rewrite <-app_assoc.
  - split; simpl; [|done|done|done]. by exists handled, log, popped.
Qed.

Lemma reachable_inv s : reachable s → sys_inv s.
Proof.
  intros Hr. assert (sys_inv spawn) as Hinit.
  { split; [|done..]. exists [], [], []. split; [apply accounted_init|constructor]. }
  unfold reachable in Hr. revert Hinit. induction Hr; eauto using step_inv.
Qed.

(** C16: over any interleaving of the fetch handlers and the writer task, every
    event recorded is in exactly one place.  Those the channel accepted, in the
    order recorded, are the ones the task has handled, the one in its hand and
    the queue; the others were refused by a full channel, before any was
    recorded after the task had exited.  Those handled are, exactly once each, in
    the log, evicted, or still buffered, with the fates [accounted] gives them:
    buffered only for want of a write, evicted only from a full buffer and
    oldest first, and the log is what the file holds.  The dropped counter is the
    number lost to a full channel, and neither the queue nor the buffer exceeds
    its cap. *)
Theorem audit_conservation s :
  reachable s →
  ∃ handled log popped,
    interleaved (handled ++ option_list s.(sy_hand) ++ s.(sy_channel).(ch_queue))
      (s.(sy_lost) ++ s.(sy_late)) s.(sy_recorded) ∧
    accounted disk handled log popped s.(sy_writer) ∧
    s.(sy_recorded) ≡ₚ log ++ fated Evicted popped ++ s.(sy_writer).(w_degraded) ++
      option_list s.(sy_hand) ++ s.(sy_channel).(ch_queue) ++ s.(sy_lost) ++ s.(sy_late) ∧
    (Z.of_nat (length handled) ≤ DEGRADED_BUFFER_CAP → fated Evicted popped = []) ∧
    dropped s.(sy_channel) = wrap_u64 (Z.of_nat (length s.(sy_lost))) ∧
    Z.of_nat (length s.(sy_channel).(ch_queue)) ≤ CHANNEL_CAP ∧
    Z.of_nat (length s.(sy_writer).(w_degraded)) ≤ DEGRADED_BUFFER_CAP ∧
    (s.(sy_channel).(ch_rx_open) = true → s.(sy_late) = []).
Proof.
  intros Hr. destruct (reachable_inv s Hr) as [(handled & log & popped & Hacc & Hrec) Hd Hq Hl].
  exists handled, log, popped. pose proof (accounted_perm disk _ _ _ _ Hacc) as Hp.
  pose proof (ac_cap _ _ _ _ _ Hacc) as Hc. split_and!; try done; [|by apply (accounted_kept disk _ _ _ _ Hacc)].
  rewrite (interleaved_Permutation _ _ _ Hrec), Hp. unfold in_flight. solve_Permutation.
Qed.

End system.

(** [record] never blocks and never reorders: it appends at the end of
    the queue while there is room and otherwise leaves the queue alone, so the
    queue holds the accepted events in the order they were recorded. *)
Theorem record_fifo e ch :
  (record e ch).(ch_queue) = ch.(ch_queue) ++
    (if ch.(ch_rx_open) && (Z.of_nat (length ch.(ch_queue)) <? CHANNEL_CAP) then [e] else []) ∧
  (record e ch).(ch_rx_open) = ch.(ch_rx_open) ∧
  ((record e ch).(ch_dropped) ≠ ch.(ch_dropped) →
   ch.(ch_rx_open) = true ∧ CHANNEL_CAP ≤ Z.of_nat (length ch.(ch_queue))).
Proof.
  unfold record. destruct ch as [q [] d]; simpl; [|by rewrite app_nil_r].
  destruct (_ <? _) eqn:Hlt; simpl; [done|]. rewrite app_nil_r. apply Z.ltb_ge in Hlt. done.
Qed.

(** C39: A torn write is not repaired. If the first write stops after [k]
    bytes of its line (a full disk) and the disk then recovers, the retry
    appends the whole line again behind the fragment: the log's first line is
    the fragment and the event run together, so it holds a line that is no
    event's JSON, while the writer reports both events written. *)
Theorem torn_write_merges `{Rfc3339, SerdeJson} disk k err e1 e2 :
  disk 0%nat = WriteFails k err → (∀ i, (0 < i)%nat → disk i = WriteOk) →
  serializable e1 → serializable e2 → (k ≤ length (line_text e1))%nat →
  split_on NL (lf_bytes (w_file (writer_run disk [e1; e2] writer_init)))
    = [take k (line_text e1) ++ line_text e1; line_text e2; []] ∧
  writer_loop disk [e1; e2] = mkWriterShutdown 0 2.
Proof.
  intros Hd0 Hd Hs1 Hs2 Hk. unfold writer_loop.
  assert (handle_event disk writer_init e1 =
    mkWriter [e1] (wrap_u64 0) (mkLogFile (take k (line_text e1)) 1)) as H1.
  { destruct Hs1 as [j Hj]. unfold handle_event, writer_init. simpl.
    unfold write_event. simpl. rewrite Hd0. unfold event_line, line_text in *. rewrite Hj in *.
    simpl. rewrite take_app_le by done. done. }
  change (writer_run disk [e1; e2] writer_init)
    with (handle_event disk (handle_event disk writer_init e1) e2).
  rewrite H1, (handle_ok disk _ e2 0).
  - simpl. split; [|done]. unfold log_bytes. simpl. rewrite !line_of_text by done.
    rewrite app_nil_r, <-!app_assoc. simpl. rewrite app_assoc.
    assert (∀ e, NL ∉ line_text e) as Hnl.
    { intros e. unfold line_text. destruct (event_to_json e); [apply to_string_one_line|set_solver]. }
    rewrite split_on_app_sep, split_on_app_sep; [done|apply Hnl|].
    rewrite not_elem_of_app. split; [|apply Hnl].
    intros Hin. apply (Hnl e1). eapply elem_of_submseteq; [done|].
    rewrite <-(take_drop k (line_text e1)) at 2. by apply submseteq_inserts_r.
  - done.
  - simpl. by repeat constructor.
  - simpl. intros i Hi. apply Hd. lia.
Qed.

(** ** Witnesses *)

Definition demo_clock : Rfc3339 := λ _, Some "2026-05-24T12:34:56.789Z".
Definition demo_fetch (n : string) : AuditEvent :=
  Fetch (mkFetchEvent 0 "myrepo" n Allow OutcomeOk (Some 12345) (Some 1000) 4 (Some "fnox") None).
Definition demo_enospc : IoError := mkIoError OtherKind "No space left on device (os error 28)".

Lemma writer_accounts_witness :
  ∃ direct (popped : list (Fate * AuditEvent)), interleaved direct (popped.*2 ++
    w_degraded (@writer_run demo_clock compact_json (λ _, OpenFails demo_enospc)
      [demo_fetch "A"; demo_fetch "B"] writer_init)) [demo_fetch "A"; demo_fetch "B"].
Proof.
  destruct (@writer_accounts demo_clock compact_json (λ _, OpenFails demo_enospc)
    [demo_fetch "A"; demo_fetch "B"] ltac:(repeat constructor; eexists; reflexivity))
    as (direct & popped & _ & Hp & _).
  exists direct, popped. exact Hp.
Defined.

(** The log is not in the order received: while the file cannot be opened twice,
    for [A] and for [A] again, [B] overtakes [A]. *)
Example buffered_overtaken :
  @writer_run demo_clock compact_json
    (λ n, match n with O | S O => OpenFails demo_enospc | _ => WriteOk end)
    [demo_fetch "A"; demo_fetch "B"; demo_fetch "C"] writer_init
  = mkWriter [] 3 (mkLogFile (@log_bytes demo_clock compact_json
      [demo_fetch "B"; demo_fetch "A"; demo_fetch "C"]) 5).
Proof. vm_compute. reflexivity. Qed.

Lemma degraded_recovers_witness :
  w_degraded (@handle_event demo_clock compact_json (λ _, WriteOk)
    (mkWriter [demo_fetch "A"] 0 (mkLogFile [] 1)) (demo_fetch "B")) = [].
Proof.
  apply (@degraded_recovers demo_clock compact_json (λ _, WriteOk)
    (mkWriter [demo_fetch "A"] 0 (mkLogFile [] 1)) (demo_fetch "B") 0).
  - reflexivity.
  - repeat constructor; eexists; reflexivity.
  - reflexivity.
Defined.

Lemma writer_healthy_witness :
  @writer_loop demo_clock compact_json (λ _, WriteOk) [demo_fetch "A"; demo_fetch "B"]
    = mkWriterShutdown 0 2.
Proof.
  apply (@writer_healthy demo_clock compact_json (λ _, WriteOk) [demo_fetch "A"; demo_fetch "B"]).
  - repeat constructor; eexists; reflexivity.
  - reflexivity.
Defined.

Definition demo_system : System :=
  mkSystem (mkChannel [demo_fetch "A"] true 0) None writer_init [demo_fetch "A"] [] [].

Lemma audit_conservation_witness :
  dropped (sy_channel demo_system) = 0.
Proof.
  destruct (@audit_conservation demo_clock compact_json (λ _, WriteOk) demo_system)
    as (_ & _ & _ & _ & _ & _ & _ & H & _).
  - eapply rtc_l; [apply (step_record _ (demo_fetch "A"))|]. apply rtc_refl.
  - exact H.
Defined.

Lemma record_fifo_witness :
  let ch := mkChannel (replicate 1000 (demo_fetch "A")) true 0 in
  CHANNEL_CAP ≤ Z.of_nat (length ch.(ch_queue)).
Proof.
  cbv zeta.
  destruct (record_fifo (demo_fetch "B") (mkChannel (replicate 1000 (demo_fetch "A")) true 0))
    as (_ & _ & H).
  apply H. vm_compute. discriminate.
Defined.

Lemma torn_write_merges_witness :
  @writer_loop demo_clock compact_json
    (λ n, match n with O => WriteFails 3 demo_enospc | S _ => WriteOk end)
    [demo_fetch "A"; demo_fetch "B"] = mkWriterShutdown 0 2.
Proof.
  apply (@torn_write_merges demo_clock compact_json
    (λ n, match n with O => WriteFails 3 demo_enospc | S _ => WriteOk end) 3 demo_enospc
    (demo_fetch "A") (demo_fetch "B")).
  - reflexivity.
  - intros [|i] Hi; [lia|reflexivity].
  - eexists; reflexivity.
  - eexists; reflexivity.
  - vm_compute. lia.
Defined.
