(* ===== verification/Backend.v ===== *)
(** * The backend session ([src/backend.rs])

    [BackendSession] is a cell holding the current [Fnox] value: [get] reads
    the cell once and works on what it read, [replace] and [adopt] store a new
    one.  [fnox_core] itself is a parameter ([FnoxCore]); what it answers may
    depend on when it is asked, so each call carries the number of the
    interaction. *)

From S2P Require Import Prelude Str Path.
Open Scope Z_scope.

Class FnoxCore (Fnox : Type) := mkFnoxCore {
  fnox_open : nat → string → result string Fnox;
  fnox_discover : nat → result string Fnox;
  fnox_get : nat → Fnox → string → result string (option string);
}.

Inductive BackendError : Type :=
  | BackendOpen (path : string) (source : string)
  | BackendDiscover (source : string).

Definition display_backend_error (e : BackendError) : string :=
  match e with
  | BackendOpen path source =>
      "failed to open fnox config at " +:+ display path +:+ ": " +:+ source
  | BackendDiscover source =>
      "failed to discover fnox config from current directory: " +:+ source
  end.

(** The [ArcSwap]: the value the next [load_full] returns. *)
Record BackendSession (Fnox : Type) : Type := mkBackendSession { inner : Fnox }.
Arguments mkBackendSession {Fnox} inner.
Arguments inner {Fnox} b.

Section backend.
Context {Fnox : Type} `{FnoxCore Fnox}.
Local Abbreviation BackendSession := (BackendSession Fnox).

Definition from_fnox (f : Fnox) : BackendSession := mkBackendSession f.

Definition open (n : nat) (path : string) : result BackendError BackendSession :=
  from_fnox <$> map_err (BackendOpen path) (fnox_open n path).

Definition discover (n : nat) : result BackendError BackendSession :=
  from_fnox <$> map_err BackendDiscover (fnox_discover n).

Definition replace (f : Fnox) : ST BackendSession unit := modify (λ _, mkBackendSession f).

Definition adopt (other : BackendSession) : ST BackendSession unit :=
  modify (λ _, mkBackendSession other.(inner)).

(** [load_full] now; the call itself runs on the loaded value. *)
Definition load_full (s : BackendSession) : Fnox := s.(inner).

Definition get (n : nat) (name : string) (s : BackendSession) : result string (option string) :=
  fnox_get n (load_full s) name.

End backend.
