(* ===== verification/Redact.v ===== *)
(** * [Debug] output ([src/cache.rs], [src/backend.rs])

    What [{:?}] prints of a cache and of a backend session, with the formats of
    the standard library's types as parameters.  No secret value gets into it:
    the text is the same whatever the values are. *)

From S2P Require Import Prelude Str Path Json Cache Backend.
Open Scope Z_scope.

(** [Debug] of [str], [Instant] and [Duration]. *)
Class DebugFmt := {
  fmt_str : string → string;
  fmt_instant : Instant → string;
  fmt_duration : Duration → string;
}.

(** [f.debug_struct(name).field(..)]: [finish()] or [finish_non_exhaustive()]. *)
Definition comma_sep (l : list string) : string := of_bytes (sep_by (bytes ", ") (map bytes l)).
Definition debug_struct (name : string) (fields : list (string * string)) (rest : list string) : string :=
  name +:+ " { " +:+ comma_sep (map (λ kv, kv.1 +:+ ": " +:+ kv.2) fields ++ rest) +:+ " }".

Section debug.
Context `{DebugFmt}.

Definition CacheEntry_fmt (e : CacheEntry) : string :=
  debug_struct "CacheEntry"
    [("value", fmt_str "[REDACTED]"); ("fetched_at", fmt_instant e.(ce_fetched_at)); ("ttl", fmt_duration e.(ce_ttl))] [].

(** The derived [Debug] of [Inner], its map listed as [entries]. *)
Definition Inner_fmt (entries : list (string * CacheEntry)) (c : BoundedCache) : string :=
  debug_struct "Inner"
    [("map", "{" +:+ comma_sep (map (λ ke, fmt_str ke.1 +:+ ": " +:+ CacheEntry_fmt ke.2) entries) +:+ "}");
     ("max_entries", dec c.(c_max_entries)); ("default_ttl", fmt_duration c.(c_default_ttl))] [].

(** The derived [Debug] of [BoundedCache]: that of a [Mutex] nobody holds. *)
Definition BoundedCache_fmt (it : hash_iter CacheEntry) (c : BoundedCache) : string :=
  debug_struct "BoundedCache"
    [("inner", debug_struct "Mutex" [("data", Inner_fmt (hi_iter it c.(c_map)) c); ("poisoned", "false")] [".."])] [].

(** [Arc::as_ptr] as its address prints. *)
Definition BackendSession_fmt (ptr : string) : string := debug_struct "BackendSession" [("inner", ptr)] [].

(** ** Redaction *)

(** The same cache with other values. *)
Definition revalue (f : string → string → string) (k : string) (e : CacheEntry) : CacheEntry :=
  mkCacheEntry (f k e.(ce_value)) e.(ce_fetched_at) e.(ce_ttl).
Definition revalue_cache (f : string → string → string) (c : BoundedCache) : BoundedCache :=
  set_map (map_imap (λ k e, Some (revalue f k e))) c.

Lemma keys_values_eq (m : gmap string CacheEntry) (f : string → string → string) (l l' : list (string * CacheEntry)) :
  l ≡ₚ map_to_list m → l' ≡ₚ map_to_list (map_imap (λ k e, Some (revalue f k e)) m) → l'.*1 = l.*1 →
  l' = map (λ ke, (ke.1, revalue f ke.1 ke.2)) l.
Proof.
  intros Hl Hl' Hk. apply list_eq. intros i. rewrite list_lookup_fmap.
  assert (Hki : (l'.*1) !! i = (l.*1) !! i) by by rewrite Hk. rewrite !list_lookup_fmap in Hki.
  destruct (l !! i) as [[k e]|] eqn:Hi, (l' !! i) as [[k' e']|] eqn:Hi'; simplify_eq/=; [|done].
  do 2 f_equal. apply list_elem_of_lookup_2 in Hi, Hi'. rewrite Hl in Hi. rewrite Hl' in Hi'.
  apply elem_of_map_to_list in Hi, Hi'. rewrite map_lookup_imap, Hi in Hi'. by simplify_eq/=.
Qed.

(** Whatever the values, the text is the same, as long as the map lists its
    keys, which decide the order, in the same order. *)
Lemma debug_blind f it it' c :
  (hi_iter it' (revalue_cache f c).(c_map)).*1 = (hi_iter it c.(c_map)).*1 →
  BoundedCache_fmt it' (revalue_cache f c) = BoundedCache_fmt it c.
Proof.
  intros Hk. unfold BoundedCache_fmt, Inner_fmt.
  rewrite (keys_values_eq c.(c_map) f (hi_iter it c.(c_map)) (hi_iter it' (revalue_cache f c).(c_map)));
    [|apply hi_perm..|done]. by rewrite map_map.
Qed.

End debug.
