(* ===== verification/Proto.v ===== *)
(** * Wire protocol ([src/proto/])

    Requests, responses and error codes of both sockets with the JSON serde
    derives for them: internally tagged enums ([tag = "op"]) in kebab-case,
    codes in snake_case, absent options left out.  Decoding follows serde's
    internally tagged visitor: the tag may be anywhere in the object, once;
    fields of the variant may not repeat; other fields are ignored; a sequence
    is read positionally. *)

From S2P Require Import Prelude Str Path Json.
Open Scope Z_scope.

Definition PROTOCOL_VERSION : Z := 1.
Definition MAX_MESSAGE_BYTES : Z := 64 * 1024.

(** ** Errors *)

Record ErrorResponse (Code : Type) : Type := mkErrorResponse {
  er_ok : bool;
  er_code : Code;
  er_message : string;
  er_retry_after_seconds : option Z;
}.
Arguments mkErrorResponse {Code} _ _ _ _.
Arguments er_ok {Code} _.
Arguments er_code {Code} _.
Arguments er_message {Code} _.
Arguments er_retry_after_seconds {Code} _.

Definition error_new {Code} (code : Code) (message : string) : ErrorResponse Code :=
  mkErrorResponse false code message None.

Definition with_retry_after {Code} (e : ErrorResponse Code) (seconds : Z) : ErrorResponse Code :=
  mkErrorResponse e.(er_ok) e.(er_code) e.(er_message) (Some seconds).

Definition error_to_json {Code} (wire : Code → string) (e : ErrorResponse Code) : json :=
  JObj (field "ok" (JBool e.(er_ok)) ++
        field "code" (JStr (wire e.(er_code))) ++
        field "message" (JStr e.(er_message)) ++
        opt_field "retry_after_seconds" (JNum <$> e.(er_retry_after_seconds))).

(** ** Project socket *)

Inductive ProjectRequest : Type :=
  | Get (name : string)
  | Ping
  | Info.

#[export] Instance ProjectRequest_eq_dec : EqDecision ProjectRequest.
Proof. solve_decision. Defined.

Inductive ProjectErrorCode : Type :=
  | Denied
  | CodeNotFound
  | BackendErrorCode
  | BackendUnreachable
  | RateLimited
  | ProjectProtocolError
  | ProjectInternalError
  | PeerUnexpected.

#[export] Instance ProjectErrorCode_eq_dec : EqDecision ProjectErrorCode.
Proof. solve_decision. Defined.

Definition project_code_wire (c : ProjectErrorCode) : string :=
  match c with
  | Denied => "denied"
  | CodeNotFound => "not_found"
  | BackendErrorCode => "backend_error"
  | BackendUnreachable => "backend_unreachable"
  | RateLimited => "rate_limited"
  | ProjectProtocolError => "protocol_error"
  | ProjectInternalError => "internal_error"
  | PeerUnexpected => "peer_unexpected"
  end.

Definition ProjectError : Type := ErrorResponse ProjectErrorCode.
Definition project_error_to_json : ProjectError → json := error_to_json project_code_wire.

Record GetResponse : Type := mkGetResponse {
  gr_ok : bool;
  gr_value : option string;
  gr_value_b64 : option string;
  gr_ttl_seconds : Z;
}.

Definition get_utf8 (value : string) (ttl_seconds : Z) : GetResponse :=
  mkGetResponse true (Some value) None ttl_seconds.
Definition get_binary (value_b64 : string) (ttl_seconds : Z) : GetResponse :=
  mkGetResponse true None (Some value_b64) ttl_seconds.

Definition get_response_to_json (r : GetResponse) : json :=
  JObj (field "ok" (JBool r.(gr_ok)) ++
        opt_field "value" (JStr <$> r.(gr_value)) ++
        opt_field "value_b64" (JStr <$> r.(gr_value_b64)) ++
        field "ttl_seconds" (JNum r.(gr_ttl_seconds))).

Record PingResponse : Type := mkPingResponse {
  pr_ok : bool;
  pr_broker_version : string;
  pr_protocol_version : Z;
  pr_project : string;
}.

Definition ping_new (broker_version project : string) : PingResponse :=
  mkPingResponse true broker_version PROTOCOL_VERSION project.

Definition ping_to_json (r : PingResponse) : json :=
  JObj (field "ok" (JBool r.(pr_ok)) ++
        field "broker_version" (JStr r.(pr_broker_version)) ++
        field "protocol_version" (JNum r.(pr_protocol_version)) ++
        field "project" (JStr r.(pr_project))).

Record InfoResponse : Type := mkInfoResponse {
  ir_ok : bool;
  ir_project : string;
  ir_allowlist : list string;
  ir_schema_version : Z;
}.

Definition info_new (project : string) (allowlist : list string) (schema_version : Z) : InfoResponse :=
  mkInfoResponse true project allowlist schema_version.

Definition info_to_json (r : InfoResponse) : json :=
  JObj (field "ok" (JBool r.(ir_ok)) ++
        field "project" (JStr r.(ir_project)) ++
        field "allowlist" (JArr (JStr <$> r.(ir_allowlist))) ++
        field "schema_version" (JNum r.(ir_schema_version))).

(** ** Admin socket *)

Inductive AdminRequest : Type :=
  | Register (name project_path : string)
  | Unregister (name : string)
  | Reload (name : string)
  | Status
  | RotateBootstrap.

#[export] Instance AdminRequest_eq_dec : EqDecision AdminRequest.
Proof. solve_decision. Defined.

Inductive AdminErrorCode : Type :=
  | CodeManifestInvalid
  | CodeManifestNotFound
  | CodeProjectUnknown
  | CodeProjectExists
  | CodeBootstrapError
  | AdminProtocolError
  | AdminInternalError.

#[export] Instance AdminErrorCode_eq_dec : EqDecision AdminErrorCode.
Proof. solve_decision. Defined.

Definition admin_code_wire (c : AdminErrorCode) : string :=
  match c with
  | CodeManifestInvalid => "manifest_invalid"
  | CodeManifestNotFound => "manifest_not_found"
  | CodeProjectUnknown => "project_unknown"
  | CodeProjectExists => "project_exists"
  | CodeBootstrapError => "bootstrap_error"
  | AdminProtocolError => "protocol_error"
  | AdminInternalError => "internal_error"
  end.

Definition AdminError : Type := ErrorResponse AdminErrorCode.
Definition admin_error_to_json : AdminError → json := error_to_json admin_code_wire.

Record RegisterResponse : Type := mkRegisterResponse { rr_ok : bool; rr_socket_path : string }.
Definition register_new (socket_path : string) : RegisterResponse := mkRegisterResponse true socket_path.
Definition register_to_json (r : RegisterResponse) : json :=
  JObj (field "ok" (JBool r.(rr_ok)) ++ field "socket_path" (JStr r.(rr_socket_path))).

Record OkResponse : Type := mkOkResponse { ok_ok : bool }.
Definition ok_new : OkResponse := mkOkResponse true.
Definition ok_to_json (r : OkResponse) : json := JObj (field "ok" (JBool r.(ok_ok))).

Record ReloadResponse : Type := mkReloadResponse { rl_ok : bool; rl_allowlist : list string }.
Definition reload_new (allowlist : list string) : ReloadResponse := mkReloadResponse true allowlist.
Definition reload_to_json (r : ReloadResponse) : json :=
  JObj (field "ok" (JBool r.(rl_ok)) ++ field "allowlist" (JArr (JStr <$> r.(rl_allowlist)))).

Inductive BootstrapMode : Type := ModeFile | ModeImds | ModeEnv.

Definition bootstrap_mode_wire (m : BootstrapMode) : string :=
  match m with ModeFile => "file" | ModeImds => "imds" | ModeEnv => "env" end.

Record ProjectStatus : Type := mkProjectStatus {
  ps_name : string;
  ps_socket_path : string;
  ps_allowlist_size : Z;
  ps_cache_entries : Z;
}.

Definition project_status_to_json (p : ProjectStatus) : json :=
  JObj (field "name" (JStr p.(ps_name)) ++
        field "socket_path" (JStr p.(ps_socket_path)) ++
        field "allowlist_size" (JNum p.(ps_allowlist_size)) ++
        field "cache_entries" (JNum p.(ps_cache_entries))).

Record StatusResponse : Type := mkStatusResponse {
  st_ok : bool;
  st_broker_version : string;
  st_protocol_version : Z;
  st_uptime_seconds : Z;
  st_bootstrap_mode : BootstrapMode;
  st_projects : list ProjectStatus;
}.

Definition status_new (broker_version : string) (uptime_seconds : Z) (mode : BootstrapMode)
    (projects : list ProjectStatus) : StatusResponse :=
  mkStatusResponse true broker_version PROTOCOL_VERSION uptime_seconds mode projects.

Definition status_to_json (r : StatusResponse) : json :=
  JObj (field "ok" (JBool r.(st_ok)) ++
        field "broker_version" (JStr r.(st_broker_version)) ++
        field "protocol_version" (JNum r.(st_protocol_version)) ++
        field "uptime_seconds" (JNum r.(st_uptime_seconds)) ++
        field "bootstrap_mode" (JStr (bootstrap_mode_wire r.(st_bootstrap_mode))) ++
        field "projects" (JArr (project_status_to_json <$> r.(st_projects)))).

Inductive BackendAuthState : Type := AuthOk.
Definition backend_auth_wire (a : BackendAuthState) : string := match a with AuthOk => "ok" end.

Record RotateBootstrapResponse : Type := mkRotateBootstrapResponse {
  rb_ok : bool;
  rb_backend_auth : BackendAuthState;
}.
Definition rotate_ok : RotateBootstrapResponse := mkRotateBootstrapResponse true AuthOk.
Definition rotate_to_json (r : RotateBootstrapResponse) : json :=
  JObj (field "ok" (JBool r.(rb_ok)) ++
        field "backend_auth" (JStr (backend_auth_wire r.(rb_backend_auth)))).

(** ** Decoding requests *)

(** The value of a key that may occur at most once; [None] when it repeats. *)
Definition values_of (k : string) (fs : list (string * json)) : list json :=
  (filter (λ kv, kv.1 = k) fs).*2.
Definition once (k : string) (fs : list (string * json)) : option (option json) :=
  match values_of k fs with
  | [] => Some None
  | [v] => Some (Some v)
  | _ => None
  end.

(** What is left of a request once its tag is taken out. *)
Inductive content : Type :=
  | CMap (fs : list (string * json))
  | CSeq (l : list json).

Definition tagged (tag : string) (j : json) : option (string * content) :=
  match j with
  | JObj fs =>
      match once tag fs with
      | Some (Some (JStr op)) => Some (op, CMap (filter (λ kv, kv.1 ≠ tag) fs))
      | _ => None
      end
  | JArr (JStr op :: rest) => Some (op, CSeq rest)
  | _ => None
  end.

Definition as_str (j : json) : option string :=
  match j with JStr s => Some s | _ => None end.

(** The string fields of a struct variant. *)
Definition str_field (fs : list (string * json)) (k : string) : option string :=
  v ← once k fs; v ≫= as_str.
Definition str_fields (ks : list string) (c : content) : option (list string) :=
  match c with
  | CMap fs => mapM (str_field fs) ks
  | CSeq l => if decide (length l = length ks) then mapM as_str l else None
  end.

(** A unit variant: the other fields of an object are ignored, a sequence must
    be at its end. *)
Definition unit_content (c : content) : option unit :=
  match c with CMap _ => Some () | CSeq [] => Some () | CSeq _ => None end.

Definition project_request_of_json (j : json) : option ProjectRequest :=
  '(op, c) ← tagged "op" j;
  if decide (op = "get") then
    l ← str_fields ["name"] c;
    match l with [name] => Some (Get name) | _ => None end
  else if decide (op = "ping") then _ ← unit_content c; Some Ping
  else if decide (op = "info") then _ ← unit_content c; Some Info
  else None.

Definition admin_request_of_json (j : json) : option AdminRequest :=
  '(op, c) ← tagged "op" j;
  if decide (op = "register") then
    l ← str_fields ["name"; "project_path"] c;
    match l with [name; path] => Some (Register name path) | _ => None end
  else if decide (op = "unregister") then
    l ← str_fields ["name"] c;
    match l with [name] => Some (Unregister name) | _ => None end
  else if decide (op = "reload") then
    l ← str_fields ["name"] c;
    match l with [name] => Some (Reload name) | _ => None end
  else if decide (op = "status") then _ ← unit_content c; Some Status
  else if decide (op = "rotate-bootstrap") then _ ← unit_content c; Some RotateBootstrap
  else None.

(** ** Encoding requests, as the derived [Serialize] does *)

Definition project_request_to_json (r : ProjectRequest) : json :=
  match r with
  | Get name => JObj (field "op" (JStr "get") ++ field "name" (JStr name))
  | Ping => JObj (field "op" (JStr "ping"))
  | Info => JObj (field "op" (JStr "info"))
  end.

Definition admin_request_to_json (r : AdminRequest) : json :=
  match r with
  | Register name path =>
      JObj (field "op" (JStr "register") ++ field "name" (JStr name) ++
            field "project_path" (JStr path))
  | Unregister name => JObj (field "op" (JStr "unregister") ++ field "name" (JStr name))
  | Reload name => JObj (field "op" (JStr "reload") ++ field "name" (JStr name))
  | Status => JObj (field "op" (JStr "status"))
  | RotateBootstrap => JObj (field "op" (JStr "rotate-bootstrap"))
  end.

(** ** Properties *)

(** A type with a wire form that decodes back. *)
Class Wire (A : Type) := mkWire {
  encode_wire : A → json;
  decode_wire : json → option A;
  decode_encode : ∀ a, decode_wire (encode_wire a) = Some a;
}.

Lemma project_request_decode_encode r :
  project_request_of_json (project_request_to_json r) = Some r.
Proof. by destruct r. Qed.

Lemma admin_request_decode_encode r :
  admin_request_of_json (admin_request_to_json r) = Some r.
Proof. by destruct r. Qed.

#[export] Instance project_request_wire : Wire ProjectRequest :=
  mkWire _ project_request_to_json project_request_of_json project_request_decode_encode.
#[export] Instance admin_request_wire : Wire AdminRequest :=
  mkWire _ admin_request_to_json admin_request_of_json admin_request_decode_encode.

(** Two requests with the same wire form are the same request. *)
Lemma encode_wire_inj `{Wire A} (a b : A) : encode_wire a = encode_wire b → a = b.
Proof. intros Heq. apply (inj Some). by rewrite <-(decode_encode a), <-(decode_encode b), Heq. Qed.

(** The keys decoding looks at. *)
Definition known_keys : list string := ["op"; "name"; "project_path"].

(** Two field lists that agree on the known keys, each used as often. *)
Definition same_fields (fs fs' : list (string * json)) : Prop :=
  ∀ k, k ∈ known_keys → values_of k fs' ≡ₚ values_of k fs.

Lemma once_perm k fs fs' : values_of k fs' ≡ₚ values_of k fs → once k fs' = once k fs.
Proof.
  unfold once. intros Hp. destruct (values_of k fs) as [|v [|v' l]].
  - apply Permutation_nil_r in Hp. by rewrite Hp.
  - apply Permutation_singleton_r in Hp. by rewrite Hp.
  - apply Permutation_length in Hp. by destruct (values_of k fs') as [|? [|??]].
Qed.

Lemma values_of_app k fs fs' : values_of k (fs ++ fs') = values_of k fs ++ values_of k fs'.
Proof. unfold values_of. by rewrite filter_app, fmap_app. Qed.

Lemma values_of_filter k t fs :
  k ≠ t → values_of k (filter (λ kv, kv.1 ≠ t) fs) = values_of k fs.
Proof.
  intros Hne. unfold values_of. induction fs as [|[k' v] fs IH]; [done|].
  rewrite (filter_cons _ (k', v) fs), (filter_cons (λ kv, kv.1 = k) (k', v) fs). simpl.
  destruct (decide (k' ≠ t)) as [Ht|Ht].
  - rewrite filter_cons. simpl. case_decide; [simpl; f_equal|]; exact IH.
  - rewrite (decide_False (P := k' = k)); [done|]. intros ->. tauto.
Qed.

Lemma values_of_unknown k fs :
  Forall (λ kv, kv.1 ∉ known_keys) fs → k ∈ known_keys → values_of k fs = [].
Proof.
  intros Hf Hk. unfold values_of. induction Hf as [|[k' v] fs Hk' Hf IH]; [done|].
  rewrite filter_cons. simpl in *. by rewrite decide_False by congruence.
Qed.

Lemma str_field_same fs fs' k :
  same_fields fs fs' → k ∈ ["name"; "project_path"] →
  str_field (filter (λ kv, kv.1 ≠ "op") fs') k = str_field (filter (λ kv, kv.1 ≠ "op") fs) k.
Proof.
  intros Hs Hk. unfold str_field. f_equal. apply once_perm.
  rewrite !values_of_filter by (intros ->; set_solver). apply Hs. set_solver.
Qed.

(** Decoding a map: the tag, then a function of the string fields. *)
Lemma tagged_same {A} fs fs' (k : string * content → option A) :
  same_fields fs fs' →
  (∀ op, k (op, CMap (filter (λ kv, kv.1 ≠ "op") fs')) = k (op, CMap (filter (λ kv, kv.1 ≠ "op") fs))) →
  (tagged "op" (JObj fs') ≫= k) = (tagged "op" (JObj fs) ≫= k).
Proof.
  intros Hs Hk. unfold tagged. rewrite (once_perm "op" fs fs') by (apply Hs; set_solver).
  destruct (once "op" fs) as [[[]|]|]; simpl; auto.
Qed.

Lemma decode_same_fields fs fs' :
  same_fields fs fs' →
  project_request_of_json (JObj fs') = project_request_of_json (JObj fs) ∧
  admin_request_of_json (JObj fs') = admin_request_of_json (JObj fs).
Proof.
  intros Hs. split; (apply tagged_same; [done|]); intros op; cbn [str_fields unit_content mapM];
    rewrite ?(str_field_same fs fs' "name"), ?(str_field_same fs fs' "project_path")
      by (done || set_solver); done.
Qed.

(** Every request decodes from the JSON it is encoded to, on both
    sockets, so no two requests share a wire form. *)
Lemma request_roundtrip :
  (∀ r, project_request_of_json (project_request_to_json r) = Some r) ∧
  (∀ r, admin_request_of_json (admin_request_to_json r) = Some r) ∧
  (∀ r r', project_request_to_json r = project_request_to_json r' → r = r') ∧
  (∀ r r', admin_request_to_json r = admin_request_to_json r' → r = r').
Proof.
  split_and!.
  - apply project_request_decode_encode.
  - apply admin_request_decode_encode.
  - exact (@encode_wire_inj _ project_request_wire).
  - exact (@encode_wire_inj _ admin_request_wire).
Qed.

(** Requests are open to additive change (docs/wire-protocol.md, section
    4): fields a version does not know are ignored wherever they stand, and
    the order of the fields does not matter. *)
Theorem request_tolerates_unknown fs extra fs' :
  fs' ≡ₚ fs ++ extra → Forall (λ kv, kv.1 ∉ known_keys) extra →
  project_request_of_json (JObj fs') = project_request_of_json (JObj fs) ∧
  admin_request_of_json (JObj fs') = admin_request_of_json (JObj fs).
Proof.
  intros Hp Hx. apply decode_same_fields. intros k Hk.
  assert (values_of k fs' ≡ₚ values_of k (fs ++ extra)) as ->.
  { unfold values_of. by rewrite Hp. }
  by rewrite values_of_app, (values_of_unknown k extra), app_nil_r.
Qed.

Lemma request_tolerates_unknown_witness :
  project_request_of_json (JObj [("extra", JNum 1); ("op", JStr "ping")]) = Some Ping.
Proof.
  rewrite (proj1 (request_tolerates_unknown [("op", JStr "ping")] [("extra", JNum 1)]
    [("extra", JNum 1); ("op", JStr "ping")] ltac:(apply Permutation_swap)
    ltac:(repeat constructor; vm_compute; set_solver))).
  reflexivity.
Defined.

(** The wire codes of each socket are pairwise different, so a client
    can tell every documented failure apart. *)
Theorem error_codes_distinct :
  (∀ a b, project_code_wire a = project_code_wire b → a = b) ∧
  (∀ a b, admin_code_wire a = admin_code_wire b → a = b).
Proof. split; intros [] []; done. Qed.
