(* ===== verification/Os.v ===== *)
(** * The operating system as the daemon sees it

    The broker talks to the kernel through a handful of calls.  Each call is
    one numbered interaction; what the outside world contributes to it (the
    clock, the contents of files the broker only reads, an I/O failure) is
    given by [Os] as a function of that number, so every theorem holds for any
    behaviour of the environment.  The directory of sockets, which the broker
    writes, is state ([Nodes]). *)

From S2P Require Import Prelude Str Path.
Open Scope Z_scope.

(** A file the broker may create or replace: a directory with its mode,
    something left behind by another process, or a bound socket with its mode
    and the listener behind it. *)
Inductive listener : Type :=
  | AdminListener
  | ProjectListener (id : nat).

#[export] Instance listener_eq_dec : EqDecision listener.
Proof. solve_decision. Defined.

Inductive node : Type :=
  | Dir (mode : Z)
  | Stale
  | Socket (mode : Z) (l : listener).

#[export] Instance node_eq_dec : EqDecision node.
Proof. solve_decision. Defined.

Abbreviation Nodes := (gmap string node).

Class Os := mkOs {
  (** [Instant::now()] and the UTC clock. *)
  os_now : nat → Instant;
  os_utc : nat → Z;
  (** The files the broker only reads. *)
  os_disk : nat → Disk;
  (** An injected failure of a socket-directory call. *)
  os_fault : nat → option IoError;
  (** The mode [bind] and [mkdir] give a new file (0777 less the umask). *)
  os_bind_mode : Z;
}.

Definition not_found : IoError := mkIoError NotFound "No such file or directory (os error 2)".
Definition is_a_directory : IoError := mkIoError OtherKind "Is a directory (os error 21)".
Definition file_exists : IoError := mkIoError AlreadyExists "File exists (os error 17)".
Definition addr_in_use : IoError := mkIoError OtherKind "Address already in use (os error 98)".

Section calls.
Context `{Os}.

(** [std::fs::remove_file]. *)
Definition remove_file (n : nat) (path : string) : ST Nodes (result IoError unit) := λ ns,
  match os_fault n with
  | Some e => (Err e, ns)
  | None =>
      match ns !! path with
      | Some (Dir _) => (Err is_a_directory, ns)
      | Some _ => (Ok tt, delete path ns)
      | None => (Err not_found, ns)
      end
  end.

(** [std::fs::create_dir_all]: fine when the directory is there already. *)
Definition create_dir_all (n : nat) (path : string) : ST Nodes (result IoError unit) := λ ns,
  match os_fault n with
  | Some e => (Err e, ns)
  | None =>
      match ns !! path with
      | Some (Dir _) => (Ok tt, ns)
      | Some _ => (Err file_exists, ns)
      | None => (Ok tt, <[path := Dir os_bind_mode]> ns)
      end
  end.

(** [UnixListener::bind]: fails when the path exists. *)
Definition bind_listener (n : nat) (path : string) (l : listener)
    : ST Nodes (result IoError unit) := λ ns,
  match os_fault n with
  | Some e => (Err e, ns)
  | None =>
      match ns !! path with
      | Some _ => (Err addr_in_use, ns)
      | None => (Ok tt, <[path := Socket os_bind_mode l]> ns)
      end
  end.

(** [std::fs::set_permissions]. *)
Definition set_permissions (n : nat) (path : string) (mode : Z)
    : ST Nodes (result IoError unit) := λ ns,
  match os_fault n with
  | Some e => (Err e, ns)
  | None =>
      match ns !! path with
      | Some (Socket _ l) => (Ok tt, <[path := Socket mode l]> ns)
      | Some (Dir _) => (Ok tt, <[path := Dir mode]> ns)
      | Some Stale => (Ok tt, ns)
      | None => (Err not_found, ns)
      end
  end.

(** The bind sequence both kinds of socket use: remove a stale file (a missing
    one is fine), bind, set the mode.  The error says which half failed. *)
Definition bind_socket (n : nat) (path : string) (mode : Z) (l : listener)
    : ST Nodes (result (IoError + IoError) unit) := λ ns,
  let '(removed, ns1) := remove_file n path ns in
  let fatal := match removed with
               | Err e => if decide (e.(io_kind) = NotFound) then None else Some e
               | Ok _ => None
               end in
  match fatal with
  | Some e => (Err (inl e), ns1)
  | None =>
      match bind_listener (S n) path l ns1 with
      | (Err e, ns2) => (Err (inl e), ns2)
      | (Ok _, ns2) =>
          match set_permissions (S (S n)) path mode ns2 with
          | (Err e, ns3) => (Err (inr e), ns3)
          | (Ok _, ns3) => (Ok tt, ns3)
          end
      end
  end.

(** A successful bind leaves exactly the new socket with the mode asked for,
    whatever was at the path before; other paths are never touched. *)
Lemma bind_socket_other n path mode l ns p :
  p ≠ path → (bind_socket n path mode l ns).2 !! p = ns !! p.
Proof.
  intros Hp. unfold bind_socket, remove_file, bind_listener, set_permissions.
  repeat (case_match; simplify_eq/=); try done;
    repeat (rewrite lookup_insert_ne || rewrite lookup_delete_ne || rewrite lookup_insert_eq in *); try done.
Qed.

Lemma bind_socket_ok n path mode l ns u :
  (bind_socket n path mode l ns).1 = Ok u →
  (bind_socket n path mode l ns).2 = <[path := Socket mode l]> ns.
Proof.
  unfold bind_socket, remove_file, bind_listener, set_permissions.
  repeat (case_match; simplify_eq/=); try done; intros _;
    rewrite ?lookup_delete_eq, ?lookup_insert_eq in *; simplify_eq/=;
    by rewrite insert_insert_eq, ?insert_delete_eq.
Qed.

(** With no I/O failure and no directory in the way, the sequence succeeds. *)
Lemma bind_socket_succeeds n path mode l ns :
  (∀ i, (n ≤ i ≤ n + 2)%nat → os_fault i = None) → (∀ m, ns !! path ≠ Some (Dir m)) →
  (bind_socket n path mode l ns).1 = Ok tt.
Proof.
  intros Hf Hd. unfold bind_socket, remove_file, bind_listener, set_permissions.
  rewrite !Hf by lia. destruct (ns !! path) as [[| |]|] eqn:Hn; simpl.
  - by destruct (Hd mode0).
  - rewrite lookup_delete_eq. simpl. by rewrite lookup_insert_eq.
  - rewrite lookup_delete_eq. simpl. by rewrite lookup_insert_eq.
  - rewrite Hn. simpl. by rewrite lookup_insert_eq.
Qed.

End calls.
