(* ===== verification/Registry.v ===== *)
(** * The project registry ([src/registry.rs])

    Registered projects live on a heap ([rs_heap]), because an [Arc<Project>]
    is shared between the registry map and the accept loop and connection
    handlers of the project and outlives its removal from the map; the map
    ([rs_map]) holds their identities.  [register], [unregister], [reload] and
    [snapshot] run each under the registry lock as written. *)

From S2P Require Import Prelude Str Path Json Os Manifest Cache.
Open Scope Z_scope.

Definition PROJECT_SOCKET_MODE : Z := 432.

Inductive RegistryError : Type :=
  | ProjectExists (name : string)
  | ProjectUnknown (name : string)
  | RegManifestNotFound (e : ManifestError)
  | RegManifestInvalid (e : ManifestError)
  | BindSocket (path : string) (source : IoError)
  | SocketPerms (path : string) (source : IoError).

#[export] Instance RegistryError_eq_dec : EqDecision RegistryError.
Proof. solve_decision. Defined.

Definition display_registry_error `{UnicodeTables} (e : RegistryError) : string :=
  match e with
  | ProjectExists name => "project " +:+ debug_str name +:+ " already registered"
  | ProjectUnknown name => "project " +:+ debug_str name +:+ " not registered"
  | RegManifestNotFound e => "manifest not found: " +:+ Manifest.display_manifest_error e
  | RegManifestInvalid e => "manifest invalid: " +:+ Manifest.display_manifest_error e
  | BindSocket path source =>
      "failed to bind project socket " +:+ display path +:+ ": " +:+ io_msg source
  | SocketPerms path source =>
      "failed to set project socket permissions on " +:+ display path +:+ ": " +:+ io_msg source
  end.

Record Project : Type := mkProject {
  p_name : string;
  p_project_path : string;
  p_socket_path : string;
  p_manifest_path : string;
  p_manifest : Manifest;
  p_cache : Cache.BoundedCache;
}.

Definition set_manifest (m : Manifest) (p : Project) : Project :=
  mkProject p.(p_name) p.(p_project_path) p.(p_socket_path) p.(p_manifest_path) m p.(p_cache).
Definition set_cache (c : Cache.BoundedCache) (p : Project) : Project :=
  mkProject p.(p_name) p.(p_project_path) p.(p_socket_path) p.(p_manifest_path) p.(p_manifest) c.

Record CacheDefaults : Type := mkCacheDefaults {
  cd_max_entries : Z;
  cd_ttl : Duration;
}.

Record ProjectRegistry : Type := mkProjectRegistry {
  rg_socket_dir : string;
  rg_cache_defaults : CacheDefaults;
}.

Record RegState : Type := mkRegState {
  rs_tick : nat;
  rs_nodes : Nodes;
  rs_heap : gmap nat Project;
  rs_next : nat;
  rs_map : gmap string nat;
}.

(** Manifest values override the daemon-wide defaults. *)
Definition resolve_cache_bounds (manifest : Manifest) (defaults : CacheDefaults) : Z * Duration :=
  (unwrap_or manifest.(Manifest.cache).(Manifest.max_entries) defaults.(cd_max_entries),
   unwrap_or (from_secs <$> manifest.(Manifest.cache).(Manifest.ttl_seconds)) defaults.(cd_ttl)).

Section registry.
Context `{Os, TomlManifest}.
Context (reg : ProjectRegistry).

Definition registry_new : RegState := mkRegState 0 ∅ ∅ 0 ∅.

Definition socket_path_for (name : string) : string :=
  join reg.(rg_socket_dir) (name +:+ ".sock").

(** The number of the next interaction with the outside. *)
Definition tick : ST RegState nat := λ s,
  (s.(rs_tick), mkRegState (S s.(rs_tick)) s.(rs_nodes) s.(rs_heap) s.(rs_next) s.(rs_map)).

Definition set_nodes (ns : Nodes) (s : RegState) : RegState :=
  mkRegState s.(rs_tick) ns s.(rs_heap) s.(rs_next) s.(rs_map).
Definition set_heap (h : gmap nat Project) (s : RegState) : RegState :=
  mkRegState s.(rs_tick) s.(rs_nodes) h s.(rs_next) s.(rs_map).

Definition load_manifest (project_path : string)
    : ST RegState (result RegistryError (Manifest * string)) :=
  n ← tick;
  mret (map_err (λ e, match e with
                      | Manifest.ManifestNotFound _ => RegManifestNotFound e
                      | _ => RegManifestInvalid e
                      end)
          (Manifest.load (os_disk n) project_path)).

(** The listener belongs to the project about to be created. *)
Definition bind_project_socket (path : string) : ST RegState (result RegistryError unit) :=
  n ← tick; _ ← tick; _ ← tick;
  id ← gets rs_next;
  r ← zoom rs_nodes set_nodes (bind_socket n path PROJECT_SOCKET_MODE (ProjectListener id));
  mret (map_err (λ e, match e with
                      | inl e => BindSocket path e
                      | inr e => SocketPerms path e
                      end) r).

(** [Arc::new(Project { .. })] and [guard.insert]. *)
Definition insert_project (name : string) (p : Project) : ST RegState nat := λ s,
  (s.(rs_next),
   mkRegState s.(rs_tick) s.(rs_nodes) (<[s.(rs_next) := p]> s.(rs_heap)) (S s.(rs_next))
     (<[name := s.(rs_next)]> s.(rs_map))).

Definition register (name project_path : string) : ST RegState (result RegistryError nat) :=
  '(manifest, manifest_path) ←? load_manifest project_path;
  let manifest_name := manifest.(Manifest.project).(Manifest.project_name) in
  if decide (manifest_name ≠ name) then
    mret (Err (RegManifestInvalid (Manifest.NameDirMismatch manifest_name name)))
  else
    let socket_path := socket_path_for name in
    m ← gets rs_map;
    match m !! name with
    | Some _ => mret (Err (ProjectExists name))
    | None =>
        _ ←? bind_project_socket socket_path;
        let '(cache_max, cache_ttl) := resolve_cache_bounds manifest reg.(rg_cache_defaults) in
        id ← insert_project name
               (mkProject name project_path socket_path manifest_path manifest
                  (Cache.new cache_max cache_ttl));
        mret (Ok id)
    end.

Definition unregister (name : string) : ST RegState (result RegistryError nat) := λ s,
  match s.(rs_map) !! name with
  | Some id => (Ok id, mkRegState s.(rs_tick) s.(rs_nodes) s.(rs_heap) s.(rs_next)
                         (delete name s.(rs_map)))
  | None => (Err (ProjectUnknown name), s)
  end.

Definition modify_project (id : nat) (f : Project → Project) : ST RegState unit :=
  modify (λ s, set_heap (alter f id s.(rs_heap)) s).

Definition get_project (name : string) : ST RegState (result RegistryError (nat * Project)) := λ s,
  match s.(rs_map) !! name ≫= λ id, p ← s.(rs_heap) !! id; Some (id, p) with
  | Some idp => (Ok idp, s)
  | None => (Err (ProjectUnknown name), s)
  end.

Definition reload (name : string) : ST RegState (result RegistryError Manifest) :=
  '(id, project) ←? get_project name;
  '(new_manifest, _) ←? load_manifest project.(p_project_path);
  let manifest_name := new_manifest.(Manifest.project).(Manifest.project_name) in
  if decide (manifest_name ≠ name) then
    mret (Err (RegManifestInvalid (Manifest.NameDirMismatch manifest_name name)))
  else
    let '(cache_max, cache_ttl) := resolve_cache_bounds new_manifest reg.(rg_cache_defaults) in
    modify_project id (λ p, set_cache (Cache.set_config cache_max cache_ttl p.(p_cache)).2 p);;
    modify_project id (set_manifest new_manifest);;
    mret (Ok new_manifest).

(** [snapshot]: the registered projects in the order the map iterates. *)
Definition snapshot (it : Cache.hash_iter nat) (s : RegState) : list (nat * Project) :=
  omap (λ ni, p ← s.(rs_heap) !! ni.2; Some (ni.2, p)) (Cache.hi_iter it s.(rs_map)).

End registry.

(** ** Project names are safe file names *)

Lemma re_project_name_bytes bs :
  re_match project_name_re bs → ∃ b rest, bs = b :: rest ∧ Forall (λ c, cls_name c = true) bs.
Proof.
  inversion 1 as [|? ? s1 s2 H1 H2|]; subst. apply re_match_cls_inv in H1 as (b & -> & Hb).
  apply re_match_rep_cls in H2 as [_ Hf]. exists b, s2. split; [done|]. simpl.
  constructor.
  - unfold cls_az09, cls_name in *. by rewrite Hb.
  - apply Forall_forall. intros c Hc. rewrite forallb_forall in Hf. by apply Hf, list_elem_of_In.
Qed.

(** A name the manifest rules admit makes a socket file name without
    separators. *)
Lemma socket_file_plain name :
  re_match project_name_re (bytes name) → plain_name (name +:+ ".sock").
Proof.
  intros (b & rest & Hb & Hf)%re_project_name_bytes. split_and!.
  - rewrite bytes_app, not_elem_of_app. split; [|by vm_compute; set_solver].
    intros Hin. rewrite Forall_forall in Hf. specialize (Hf SEP Hin). discriminate.
  - intros Heq. apply (f_equal bytes) in Heq. by rewrite bytes_app, Hb in Heq.
  - intros Heq. apply (f_equal (length ∘ bytes)) in Heq. simpl in Heq.
    rewrite bytes_app, length_app in Heq. simpl in Heq. lia.
  - intros Heq. apply (f_equal (length ∘ bytes)) in Heq. simpl in Heq.
    rewrite bytes_app, length_app in Heq. simpl in Heq. lia.
Qed.

Lemma append_sock_inj a b : a +:+ ".sock" = b +:+ ".sock" → a = b.
Proof.
  intros Heq. apply bytes_inj. apply (f_equal bytes) in Heq. rewrite !bytes_app in Heq.
  by apply app_inv_tail in Heq.
Qed.

(** ** The operations as equations *)

Section registry_facts.
Context `{Os, TomlManifest}.
Context (reg : ProjectRegistry).

Definition to_registry_error (e : ManifestError) : RegistryError :=
  match e with
  | ManifestNotFound _ => RegManifestNotFound e
  | _ => RegManifestInvalid e
  end.

Definition bind_error (path : string) (e : IoError + IoError) : RegistryError :=
  match e with inl e => BindSocket path e | inr e => SocketPerms path e end.

(** The state after [k] interactions that changed nothing else. *)
Definition ticked (k : nat) (s : RegState) : RegState :=
  mkRegState (k + s.(rs_tick)) s.(rs_nodes) s.(rs_heap) s.(rs_next) s.(rs_map).

Definition new_project (name project_path manifest_path : string) (m : Manifest) : Project :=
  mkProject name project_path (socket_path_for reg name) manifest_path m
    (Cache.new (resolve_cache_bounds m reg.(rg_cache_defaults)).1
               (resolve_cache_bounds m reg.(rg_cache_defaults)).2).

Lemma register_eq name project_path s :
  register reg name project_path s =
  match Manifest.load (os_disk s.(rs_tick)) project_path with
  | Err e => (Err (to_registry_error e), ticked 1 s)
  | Ok (m, manifest_path) =>
      if decide (m.(project).(project_name) ≠ name) then
        (Err (RegManifestInvalid (NameDirMismatch m.(project).(project_name) name)), ticked 1 s)
      else match s.(rs_map) !! name with
      | Some _ => (Err (ProjectExists name), ticked 1 s)
      | None =>
          let '(r, ns) := bind_socket (S s.(rs_tick)) (socket_path_for reg name)
                            PROJECT_SOCKET_MODE (ProjectListener s.(rs_next)) s.(rs_nodes) in
          match r with
          | Err e => (Err (bind_error (socket_path_for reg name) e), set_nodes ns (ticked 4 s))
          | Ok _ => (Ok s.(rs_next),
              mkRegState (4 + s.(rs_tick)) ns
                (<[s.(rs_next) := new_project name project_path manifest_path m]> s.(rs_heap))
                (S s.(rs_next)) (<[name := s.(rs_next)]> s.(rs_map)))
          end
      end
  end.
Proof.
  unfold register. rewrite bind_res_unfold. unfold load_manifest, tick, mbind, ST_bind, mret, ST_ret. simpl.
  destruct (load (os_disk (rs_tick s)) project_path) as [[m mp]|[]]; simpl; [|done..].
  case_decide; [done|]. simpl. destruct (rs_map s !! name); [done|].
  unfold bind_res, bind_project_socket, zoom, tick, gets, mbind, ST_bind, mret, ST_ret. simpl.
  by destruct (bind_socket _ _ _ _ _) as [[[]|e] ns].
Qed.

Lemma reload_eq name s :
  reload reg name s =
  match s.(rs_map) !! name ≫= λ id, p ← s.(rs_heap) !! id; Some (id, p) with
  | None => (Err (ProjectUnknown name), s)
  | Some (id, p) =>
      match Manifest.load (os_disk s.(rs_tick)) p.(p_project_path) with
      | Err e => (Err (to_registry_error e), ticked 1 s)
      | Ok (m, _) =>
          if decide (m.(project).(project_name) ≠ name) then
            (Err (RegManifestInvalid (NameDirMismatch m.(project).(project_name) name)), ticked 1 s)
          else
            (Ok m, set_heap (<[id := set_manifest m (set_cache
               (mkBoundedCache p.(p_cache).(c_map)
                  (resolve_cache_bounds m reg.(rg_cache_defaults)).1
                  (resolve_cache_bounds m reg.(rg_cache_defaults)).2) p)]> s.(rs_heap)) (ticked 1 s))
      end
  end.
Proof.
  unfold reload. rewrite bind_res_unfold. unfold get_project.
  destruct (rs_map s !! name) as [id|] eqn:Hid; simpl; [|done].
  destruct (rs_heap s !! id) as [p|] eqn:Hp; simpl; [|done].
  rewrite bind_res_unfold. unfold load_manifest, tick, mbind, ST_bind, mret, ST_ret. simpl.
  destruct (load (os_disk (rs_tick s)) (p_project_path p)) as [[m mp]|[]]; simpl; [|done..].
  case_decide; [done|]. unfold modify_project, modify, set_heap, ticked. simpl.
  do 2 f_equal. apply map_eq. intros i. destruct (decide (id = i)) as [<-|Hne].
  - by rewrite !lookup_alter_eq, lookup_insert_eq, Hp.
  - by rewrite !lookup_alter_ne, lookup_insert_ne.
Qed.


(** ** The registry invariant *)

(** What is true of every project the registry ever built, registered or not:
    its socket path is the one of its name, its manifest passed validation for
    its directory and carries its name, and its cache runs with the bounds the
    current manifest asks for. *)
Record project_ok (p : Project) : Prop := mk_project_ok {
  po_socket : p.(p_socket_path) = socket_path_for reg p.(p_name);
  po_valid : ∃ raw, valid_manifest raw (file_name_str p.(p_project_path)) ∧
                    p.(p_manifest) = manifest_of raw;
  po_name : p.(p_manifest).(project).(project_name) = p.(p_name);
  po_bounds : (p.(p_cache).(c_max_entries), p.(p_cache).(c_default_ttl)) =
              resolve_cache_bounds p.(p_manifest) reg.(rg_cache_defaults);
}.

Record reg_inv (s : RegState) : Prop := mk_reg_inv {
  ri_heap : ∀ id p, s.(rs_heap) !! id = Some p → project_ok p ∧ (id < s.(rs_next))%nat;
  ri_map : ∀ name id, s.(rs_map) !! name = Some id →
    ∃ p, s.(rs_heap) !! id = Some p ∧ p.(p_name) = name ∧
         s.(rs_nodes) !! socket_path_for reg name =
           Some (Socket PROJECT_SOCKET_MODE (ProjectListener id));
}.

Lemma registry_new_inv : reg_inv registry_new.
Proof. by split. Qed.

Lemma ticked_inv k s : reg_inv s → reg_inv (ticked k s).
Proof. intros []. by split. Qed.

Lemma project_ok_valid_name p : project_ok p → re_match project_name_re (bytes p.(p_name)).
Proof. intros [_ (raw & Hv & Hm) <- _]. rewrite Hm. apply (vm_name _ _ Hv). Qed.

(** Socket paths of registered projects are distinct. *)
Lemma socket_path_inj a b :
  re_match project_name_re (bytes a) → re_match project_name_re (bytes b) →
  socket_path_for reg a = socket_path_for reg b → a = b.
Proof.
  intros Ha Hb Heq. apply append_sock_inj.
  eapply join_inj; [by apply socket_file_plain..|exact Heq].
Qed.

Lemma load_new_project_ok disk name project_path m path :
  Manifest.load disk project_path = Ok (m, path) → m.(project).(project_name) = name →
  project_ok (new_project name project_path path m).
Proof.
  intros (_ & src & raw & _ & _ & Hv)%load_Ok Hn.
  pose proof (validate_cases raw (file_name_str project_path)) as Hc. rewrite Hv in Hc.
  destruct Hc as [Hvm ->]. split; simpl; eauto.
Qed.

(** Changing the file at the socket path of an unregistered, admissible name
    does not concern the registered ones. *)
Lemma inv_nodes_other s ns name k :
  reg_inv s → re_match project_name_re (bytes name) → s.(rs_map) !! name = None →
  (∀ p, p ≠ socket_path_for reg name → ns !! p = s.(rs_nodes) !! p) →
  reg_inv (set_nodes ns (ticked k s)).
Proof.
  intros [Hh Hm] Hv Hnone Hns. split; simpl; [done|]. intros n id Hid.
  destruct (Hm n id Hid) as (p & Hp & Hpn & Hsock). exists p. split_and!; [done..|].
  rewrite Hns, Hsock; [done|]. intros Heq. assert (n = name) as ->; [|congruence].
  apply socket_path_inj; [|done..]. rewrite <-Hpn. by eapply project_ok_valid_name, Hh.
Qed.

Lemma register_inv name project_path s :
  reg_inv s → reg_inv (register reg name project_path s).2.
Proof.
  intros Hinv. rewrite register_eq.
  destruct (load _ _) as [[m path]|e] eqn:Hl; simpl; [|by apply ticked_inv].
  case_decide as Hn; [by apply ticked_inv|].
  destruct (rs_map s !! name) eqn:Hfree; [by apply ticked_inv|].
  pose proof (load_new_project_ok _ _ _ _ _ Hl Hn) as Hnew.
  pose proof (project_ok_valid_name _ Hnew) as Hname. simpl in Hname.
  pose proof (bind_socket_other (S (rs_tick s)) (socket_path_for reg name) PROJECT_SOCKET_MODE
    (ProjectListener (rs_next s)) (rs_nodes s)) as Ho.
  pose proof (bind_socket_ok (S (rs_tick s)) (socket_path_for reg name) PROJECT_SOCKET_MODE
    (ProjectListener (rs_next s)) (rs_nodes s)) as Hok.
  destruct (bind_socket _ _ _ _ _) as [[u|e] ns]; simpl in *;
    [|by eapply inv_nodes_other].
  pose proof (inv_nodes_other s ns name 4 Hinv Hname Hfree Ho) as [Hh Hm]. simpl in *.
  split; simpl.
  - intros id p [[<- <-]|[? Hp]]%lookup_insert_Some; [split; [done|lia]|].
    destruct (Hh id p Hp). split; [done|lia].
  - intros n id [[<- <-]|[Hne Hid]]%lookup_insert_Some.
    + eexists. rewrite lookup_insert_eq. split_and!; [done..|].
      rewrite (Hok u eq_refl). apply lookup_insert_eq.
    + destruct (Hm n id Hid) as (p & Hp & Hpn & Hs). exists p. split_and!; [|done..].
      rewrite lookup_insert_ne; [done|]. destruct (Hh id p Hp). lia.
Qed.

Lemma unregister_inv name s : reg_inv s → reg_inv (unregister name s).2.
Proof.
  intros [Hh Hm]. unfold unregister. destruct (rs_map s !! name); [|by split].
  split; simpl; [done|]. intros n' id [? ?]%lookup_delete_Some. by apply Hm.
Qed.

(** Updating a project in place keeps the invariant when the update keeps
    [project_ok] and the name. *)
Lemma update_inv s id p p' :
  reg_inv s → s.(rs_heap) !! id = Some p → project_ok p' → p'.(p_name) = p.(p_name) →
  reg_inv (set_heap (<[id := p']> s.(rs_heap)) s).
Proof.
  intros [Hh Hm] Hp Hok Hn. split; simpl.
  - intros i q [[<- <-]|[? Hq]]%lookup_insert_Some; [|by apply Hh].
    split; [done|]. by eapply Hh.
  - intros n i Hi. destruct (Hm n i Hi) as (q & Hq & Hqn & Hs).
    destruct (decide (id = i)) as [<-|].
    + exists p'. rewrite lookup_insert_eq. split_and!; [done| |done]. congruence.
    + exists q. by rewrite lookup_insert_ne.
Qed.

Lemma reload_inv name s : reg_inv s → reg_inv (reload reg name s).2.
Proof.
  intros Hinv. rewrite reload_eq.
  destruct (rs_map s !! name) as [id|] eqn:Hid; simpl; [|done].
  destruct (rs_heap s !! id) as [p|] eqn:Hp; simpl; [|done].
  destruct (load _ _) as [[m path]|e] eqn:Hl; simpl; [|by apply ticked_inv].
  case_decide as Hn; [by apply ticked_inv|]. simpl.
  eapply (update_inv (ticked 1 s)); [by apply ticked_inv|exact Hp| |done].
  destruct (ri_map s Hinv name id Hid) as (p' & Hp' & Hpn & _).
  destruct (load_new_project_ok _ _ _ _ _ Hl Hn). simplify_eq. destruct (ri_heap s Hinv id p Hp) as [[] _].
  by split.
Qed.

(** Replacing a cache by one with the same bounds. *)
Lemma set_cache_inv s id p c :
  reg_inv s → s.(rs_heap) !! id = Some p →
  c.(c_max_entries) = p.(p_cache).(c_max_entries) →
  c.(c_default_ttl) = p.(p_cache).(c_default_ttl) →
  reg_inv (set_heap (<[id := set_cache c p]> s.(rs_heap)) s).
Proof.
  intros Hinv Hp H1 H2. eapply update_inv; [done..| |done].
  destruct (ri_heap s Hinv id p Hp) as [[] _]. split; simpl; try done. by rewrite H1, H2.
Qed.

(** [snapshot] lists the registered projects, each once. *)
Lemma snapshot_complete it s :
  reg_inv s →
  (p_name <$> (snapshot it s).*2) ≡ₚ (map_to_list s.(rs_map)).*1 ∧
  ∀ p, p ∈ (snapshot it s).*2 ↔
       ∃ id, s.(rs_map) !! p.(p_name) = Some id ∧ s.(rs_heap) !! id = Some p.
Proof.
  intros Hinv. pose proof (Cache.hi_perm it s.(rs_map)) as Hperm.
  assert (Hl : ∀ l, (∀ n i, (n, i) ∈ l → s.(rs_map) !! n = Some i) →
    p_name <$> (omap (λ ni : string * nat, p ← s.(rs_heap) !! ni.2; Some (ni.2, p)) l).*2 = l.*1).
  { induction l as [|[n i] l IH]; intros Hin; [done|]. unfold omap in *. cbn [list_omap snd].
    destruct (ri_map s Hinv n i) as (p & Hp & Hn & _); [apply Hin; left|].
    rewrite Hp. cbn [mbind option_bind]. rewrite !fmap_cons, IH by (intros; apply Hin; by right).
    simpl. by rewrite Hn. }
  split.
  - unfold snapshot. rewrite Hl; [by rewrite Hperm|].
    intros n i Hin. apply elem_of_map_to_list. by rewrite <-Hperm.
  - intros p. unfold snapshot. rewrite list_elem_of_fmap. split.
    + intros ([i q] & -> & ([n j] & Hin & Heq)%list_elem_of_omap).
      rewrite Hperm in Hin. apply elem_of_map_to_list in Hin.
      destruct (ri_map s Hinv n j Hin) as (q' & Hq & Hn & _). simpl in Heq. rewrite Hq in Heq.
      simplify_eq/=. eauto.
    + intros (id & Hid & Hp). exists (id, p). split; [done|]. apply list_elem_of_omap.
      exists (p.(p_name), id). rewrite Hperm. simpl. rewrite Hp.
      split; [by apply elem_of_map_to_list|done].
Qed.

End registry_facts.

(** ** What register and reload promise *)

Section registry_spec.
Context `{Os, TomlManifest}.
Context (reg : ProjectRegistry).

(** A project set up by a successful [register]. *)
Definition fresh_project (name project_path : string) (m : Manifest) (p : Project) : Prop :=
  p.(p_name) = name ∧ p.(p_project_path) = project_path ∧ p.(p_manifest) = m ∧
  p.(p_socket_path) = join reg.(rg_socket_dir) (name +:+ ".sock") ∧ p.(p_cache).(c_map) = ∅.

(** C26: a successful [register] requires a manifest that passes validation for
    the directory and carries the requested name; it hands out a fresh identity
    under a name that was free, with an empty cache, binds one socket with mode
    0660 that is a direct child of the socket directory, and changes no other
    file and no other project. *)
Theorem register_ok name project_path s s' id :
  reg_inv reg s → register reg name project_path s = (Ok id, s') →
  (∃ raw p, valid_manifest raw (file_name_str project_path) ∧
     raw.(raw_project).(raw_name) = name ∧
     fresh_project name project_path (manifest_of raw) p ∧
     s'.(rs_heap) = <[id := p]> s.(rs_heap)) ∧
  s.(rs_heap) !! id = None ∧ s.(rs_map) !! name = None ∧
  s'.(rs_map) = <[name := id]> s.(rs_map) ∧
  s'.(rs_nodes) = <[socket_path_for reg name := Socket 432 (ProjectListener id)]> s.(rs_nodes) ∧
  file_name (socket_path_for reg name) = Some (bytes (name +:+ ".sock")).
Proof.
  intros Hinv. rewrite register_eq.
  destruct (load _ _) as [[m path]|e] eqn:Hl; simpl; [|done].
  case_decide as Hn; [done|]. destruct (rs_map s !! name) eqn:Hfree; [done|].
  pose proof (bind_socket_ok (S (rs_tick s)) (socket_path_for reg name) PROJECT_SOCKET_MODE
    (ProjectListener (rs_next s)) (rs_nodes s)) as Hok.
  destruct (bind_socket _ _ _ _ _) as [[u|e] ns]; [|done]. intros [= <- <-]. simpl in *.
  pose proof (load_new_project_ok reg _ _ _ _ _ Hl Hn) as Hnew.
  destruct (po_valid _ _ Hnew) as (raw & Hraw & Hm). simpl in Hm. subst m.
  split_and!; [|..|done|exact (Hok u eq_refl)|].
  - eexists raw, _. split_and!; [done|done| |done]. done.
  - destruct (rs_heap s !! rs_next s) eqn:Hp; [|done].
    apply (ri_heap _ _ Hinv) in Hp as [_ ?]. lia.
  - done.
  - apply file_name_join, socket_file_plain. by apply (project_ok_valid_name reg) in Hnew.
Qed.

(** A failed [register] leaves every project and the map as they were, and
    says why: the manifest was absent, invalid or for another name, the name is
    taken, or the socket could not be set up.  In the first cases no file is
    touched; in the last one at most the socket path of that name is. *)
Theorem register_err name project_path s s' e :
  register reg name project_path s = (Err e, s') →
  s'.(rs_heap) = s.(rs_heap) ∧ s'.(rs_map) = s.(rs_map) ∧ s'.(rs_next) = s.(rs_next) ∧
  (∀ p, p ≠ socket_path_for reg name → s'.(rs_nodes) !! p = s.(rs_nodes) !! p) ∧
  match e with
  | RegManifestNotFound _ =>
      discover (os_disk s.(rs_tick)) project_path = None ∧ s'.(rs_nodes) = s.(rs_nodes)
  | RegManifestInvalid _ => s'.(rs_nodes) = s.(rs_nodes)
  | ProjectExists n => n = name ∧ is_Some (s.(rs_map) !! name) ∧ s'.(rs_nodes) = s.(rs_nodes)
  | BindSocket p _ | SocketPerms p _ => p = socket_path_for reg name ∧ s.(rs_map) !! name = None
  | ProjectUnknown _ => False
  end.
Proof.
  rewrite register_eq.
  destruct (load _ _) as [[m path]|e'] eqn:Hl; simpl.
  - case_decide as Hn; [by intros [= <- <-]|].
    destruct (rs_map s !! name) eqn:Hfree; [by intros [= <- <-]|].
    pose proof (bind_socket_other (S (rs_tick s)) (socket_path_for reg name) PROJECT_SOCKET_MODE
      (ProjectListener (rs_next s)) (rs_nodes s)) as Ho.
    destruct (bind_socket _ _ _ _ _) as [[u|e'] ns]; [done|]. intros [= <- <-].
    destruct e'; simpl in *; by eauto 10.
  - intros [= <- <-]. destruct e'; simpl; try by eauto 10.
    split_and!; try done. by eapply load_not_found.
Qed.

(** [reload] on a registered project re-reads its manifest and, when it is
    valid and still carries the project's name, replaces the allowlist and the
    cache bounds in one step, keeping every cached entry, its expiry included,
    and everything else of this and of the other projects; any failure leaves
    the projects exactly as they were. *)
Theorem reload_spec name s r s' :
  reg_inv reg s → reload reg name s = (r, s') →
  s'.(rs_map) = s.(rs_map) ∧ s'.(rs_nodes) = s.(rs_nodes) ∧
  match r with
  | Err e => s'.(rs_heap) = s.(rs_heap) ∧
             (e = ProjectUnknown name ↔ s.(rs_map) !! name = None)
  | Ok m => ∃ id p p', s.(rs_map) !! name = Some id ∧ s.(rs_heap) !! id = Some p ∧
      s'.(rs_heap) = <[id := p']> s.(rs_heap) ∧
      (∃ path, Manifest.load (os_disk s.(rs_tick)) p.(p_project_path) = Ok (m, path)) ∧
      m.(project).(project_name) = name ∧
      p' = mkProject name p.(p_project_path) p.(p_socket_path) p.(p_manifest_path) m
             (mkBoundedCache p.(p_cache).(c_map)
                (unwrap_or m.(cache).(max_entries) reg.(rg_cache_defaults).(cd_max_entries))
                (unwrap_or (from_secs <$> m.(cache).(ttl_seconds)) reg.(rg_cache_defaults).(cd_ttl)))
  end.
Proof.
  intros Hinv. rewrite reload_eq.
  destruct (rs_map s !! name) as [id|] eqn:Hid; simpl; [|by intros [= <- <-]].
  destruct (ri_map _ _ Hinv name id Hid) as (p & Hp & Hpn & _). rewrite Hp. simpl.
  destruct (load _ _) as [[m path]|e] eqn:Hl; simpl.
  - case_decide as Hn; intros [= <- <-]; [done|]. simpl. split_and!; [done..|].
    eexists id, p, _. split_and!; [done..|by eauto|done|]. rewrite <-Hpn. done.
  - intros [= <- <-]. by destruct e.
Qed.

End registry_spec.

(** C40: The cache bounds of a manifest replace the daemon's defaults also when
    they are larger: a valid manifest can raise both above what the daemon is
    configured with, up to the absolute maxima of the schema. *)
Theorem cache_bounds_not_capped defaults :
  defaults.(cd_max_entries) < 1024 → defaults.(cd_ttl) < from_secs 86400 →
  ∃ raw, valid_manifest raw None ∧
    defaults.(cd_max_entries) < (resolve_cache_bounds (manifest_of raw) defaults).1 ∧
    defaults.(cd_ttl) < (resolve_cache_bounds (manifest_of raw) defaults).2.
Proof.
  intros Hm Ht.
  pose proof (validate_cases (mkRawManifest 1 (mkRawProject "p" None) (mkRawAllowlist [])
    (Some (mkRawCache (Some 86400) (Some 1024)))) None) as Hc.
  destruct Hc as [Hv _]. eauto.
Qed.

(** ** Witnesses *)

Definition demo_os : Os := {|
  os_now n := Z.of_nat n * 1000;
  os_utc n := Z.of_nat n;
  os_disk _ := demo_disk;
  os_fault _ := None;
  os_bind_mode := 493;
|}.
Definition demo_reg : ProjectRegistry :=
  mkProjectRegistry "/run/remo-broker" (mkCacheDefaults 256 (from_secs 300)).
Definition demo_registered : RegState :=
  (@register demo_os demo_toml demo_reg "myrepo" "/projects/myrepo" registry_new).2.

Lemma demo_registered_inv : reg_inv demo_reg demo_registered.
Proof. apply register_inv, registry_new_inv. Qed.

Lemma register_ok_witness :
  demo_registered.(rs_nodes) =
    {["/run/remo-broker/myrepo.sock" := Socket 432 (ProjectListener 0)]}.
Proof.
  pose proof (@register_ok demo_os demo_toml demo_reg "myrepo" "/projects/myrepo"
    registry_new demo_registered 0 (registry_new_inv _) ltac:(vm_compute; reflexivity))
    as (_ & _ & _ & _ & H & _).
  exact H.
Defined.

Lemma register_err_witness :
  is_Some (demo_registered.(rs_map) !! "myrepo").
Proof.
  pose proof (@register_err demo_os demo_toml demo_reg "myrepo" "/projects/myrepo"
    demo_registered _ (ProjectExists "myrepo") ltac:(vm_compute; reflexivity)) as (_ & _ & _ & _ & H).
  exact (proj1 (proj2 H)).
Defined.

Lemma reload_spec_witness :
  (@reload demo_os demo_toml demo_reg "myrepo" demo_registered).2.(rs_map)
    = {["myrepo" := 0%nat]}.
Proof.
  exact (proj1 (@reload_spec demo_os demo_toml demo_reg "myrepo" demo_registered _ _
    demo_registered_inv (surjective_pairing _))).
Defined.

Lemma cache_bounds_not_capped_witness :
  ∃ raw, valid_manifest raw None ∧
    256 < (resolve_cache_bounds (manifest_of raw) demo_reg.(rg_cache_defaults)).1.
Proof.
  destruct (cache_bounds_not_capped demo_reg.(rg_cache_defaults)) as (raw & Hv & Hm & _);
    [vm_compute; reflexivity..|].
  exists raw. split; [exact Hv|exact Hm].
Defined.
