(* ===== verification/Bootstrap.v ===== *)
(** * Bootstrap tokens ([src/bootstrap.rs])

    Resolving a [BootstrapSource] into a token: a file, an environment
    variable, or three HTTP requests to the instance metadata service with the
    module's own HTTP/1.1 client.  The network and the environment are
    parameters ([Outside]); every call to them is one numbered interaction, so
    the order of the requests is part of the model. *)

From S2P Require Import Prelude Str Path Os Config.
Open Scope Z_scope.

Definition IMDS_BASE_URL : string := "http://169.254.169.254".
Definition IMDS_TOKEN_TTL_SECONDS : Z := 21600.
Definition IMDS_TIMEOUT : Duration := from_secs 2.

(** [SecretString]: the text, and its redacted [Debug]. *)
Record BootstrapToken : Type := mkBootstrapToken { expose : string }.

Definition debug_token `{UnicodeTables} (t : BootstrapToken) : string :=
  "BootstrapToken(" +:+ debug_str "[REDACTED]" +:+ ")".

Inductive BootstrapError : Type :=
  | FileNotFound (path : string)
  | FileEmpty (path : string)
  | BootstrapIo (path : string) (source : IoError)
  | EnvUnset (var : string)
  | EnvEmpty (var : string)
  | ImdsInvalidBaseUrl (url : string)
  | ImdsConnect (addr : string) (source : IoError)
  | ImdsIo (source : IoError)
  | ImdsTimeout (endpoint : string) (timeout_ms : Z)
  | ImdsHttp (endpoint : string) (status : Z) (body : string)
  | ImdsMalformedResponse (endpoint : string)
  | ImdsEmptyToken
  | ImdsNoInstanceRole.

#[export] Instance BootstrapError_eq_dec : EqDecision BootstrapError.
Proof. solve_decision. Defined.

Definition display_bootstrap_error `{UnicodeTables} (e : BootstrapError) : string :=
  match e with
  | FileNotFound path => "bootstrap token file " +:+ display path +:+ " not found"
  | FileEmpty path => "bootstrap token file " +:+ display path +:+ " is empty"
  | BootstrapIo path source =>
      "failed to read bootstrap token file " +:+ display path +:+ ": " +:+ io_msg source
  | EnvUnset var => "env var " +:+ var +:+ " is not set"
  | EnvEmpty var => "env var " +:+ var +:+ " is set but empty"
  | ImdsInvalidBaseUrl url => "imds bootstrap: invalid base url " +:+ debug_str url
  | ImdsConnect addr source =>
      "imds bootstrap: failed to connect to " +:+ addr +:+ ": " +:+ io_msg source
  | ImdsIo source => "imds bootstrap: i/o error: " +:+ io_msg source
  | ImdsTimeout endpoint ms =>
      "imds bootstrap: request to " +:+ endpoint +:+ " timed out after " +:+ dec ms +:+ " ms"
  | ImdsHttp endpoint status body =>
      "imds bootstrap: " +:+ endpoint +:+ " returned HTTP " +:+ dec status +:+ ": " +:+ body
  | ImdsMalformedResponse endpoint =>
      "imds bootstrap: malformed HTTP response from " +:+ endpoint
  | ImdsEmptyToken => "imds bootstrap: metadata token endpoint returned empty body"
  | ImdsNoInstanceRole => "imds bootstrap: no IAM instance role attached to this instance"
  end.

(** ** The outside *)

Inductive VarError : Type := NotPresent | NotUnicode.

(** A future under [tokio::time::timeout]. *)
Inductive timed (A : Type) : Type :=
  | Elapsed
  | Finished (r : result IoError A).
Arguments Elapsed {A}.
Arguments Finished {A} r.

Class Outside := mkOutside {
  env_var : nat → string → result VarError string;
  (** [TcpStream::connect((host, port))]. *)
  tcp_connect : nat → string → Z → timed unit;
  (** Write the request, read to the end of the stream. *)
  tcp_exchange : nat → string → Z → list ascii → timed (list ascii);
}.

Definition next : ST nat nat := λ n, (n, S n).

(** ** URLs and HTTP responses *)

Definition COLON : ascii := ":"%char.

Definition parse_base_url (url : string) : result BootstrapError (string * Z) :=
  stripped ← ok_or (ImdsInvalidBaseUrl url) (strip_prefix (bytes "http://") (bytes url));
  let host_and_port := default stripped (head (split_on SEP stripped)) in
  match rsplit_once COLON host_and_port with
  | Some (host, port_str) =>
      port ← ok_or (ImdsInvalidBaseUrl url) (parse_u16 port_str);
      match host with
      | [] => Err (ImdsInvalidBaseUrl url)
      | _ => Ok (of_bytes host, port)
      end
  | None =>
      match host_and_port with
      | [] => Err (ImdsInvalidBaseUrl url)
      | _ => Ok (of_bytes host_and_port, 80)
      end
  end.

Definition CRLF : list ascii := [CR; NL].
Definition CRLF2 : list ascii := CRLF ++ CRLF.

(** [windows(4).position(..)] and the two slices around it. *)
Fixpoint split_at_sep (sep raw : list ascii) : option (list ascii * list ascii) :=
  match strip_prefix sep raw with
  | Some rest => Some ([], rest)
  | None =>
      match raw with
      | [] => None
      | b :: raw' =>
          match split_at_sep sep raw' with
          | Some (h, r) => Some (b :: h, r)
          | None => None
          end
      end
  end.

Definition parse_http_response (endpoint : string) (raw : list ascii)
    : result BootstrapError string :=
  let malformed := ImdsMalformedResponse endpoint in
  '(header_bytes, body_bytes) ← ok_or malformed (split_at_sep CRLF2 raw);
  header_str ← ok_or malformed (from_utf8 header_bytes);
  status_line ← ok_or malformed (head (lines header_str));
  status ← ok_or malformed
             (w ← split_whitespace status_line !! 1%nat; parse_u16 (bytes w));
  let body := from_utf8_lossy body_bytes in
  if in_range 200 299 status then Ok body else Err (ImdsHttp endpoint status body).

(** ** Fetching *)

Section fetch.
Context `{Os, Outside}.

Definition fetch_file (path : string) : ST nat (result BootstrapError BootstrapToken) :=
  n ← next;
  mret (match (os_disk n).(read_to_string) path with
        | Ok s =>
            let trimmed := trim s in
            if decide (trimmed = "") then Err (FileEmpty path)
            else Ok (mkBootstrapToken trimmed)
        | Err e =>
            if decide (e.(io_kind) = NotFound) then Err (FileNotFound path)
            else Err (BootstrapIo path e)
        end).

Definition fetch_env_with_var (var : string) : ST nat (result BootstrapError BootstrapToken) :=
  n ← next;
  mret (match env_var n var with
        | Ok s => if decide (s = "") then Err (EnvEmpty var) else Ok (mkBootstrapToken s)
        | Err NotPresent => Err (EnvUnset var)
        | Err NotUnicode => Err (EnvEmpty var)
        end).

Definition imds_round_trip (base_url endpoint request : string) (timeout : Duration)
    : ST nat (result BootstrapError string) :=
  '(host, port) ←? mret (parse_base_url base_url);
  let addr := host +:+ ":" +:+ dec port in
  n ← next;
  match tcp_connect n host port with
  | Finished (Err source) => mret (Err (ImdsConnect addr source))
  | Elapsed => mret (Err (ImdsTimeout endpoint (as_millis timeout)))
  | Finished (Ok _) =>
      n ← next;
      match tcp_exchange n host port (bytes request) with
      | Finished (Ok raw) => mret (parse_http_response endpoint raw)
      | Finished (Err e) => mret (Err (ImdsIo e))
      | Elapsed => mret (Err (ImdsTimeout endpoint (as_millis timeout)))
      end
  end.

Definition crlf : string := of_bytes CRLF.

Definition TOKEN_ENDPOINT : string := "/latest/api/token".
Definition ROLE_ENDPOINT : string := "/latest/meta-data/iam/security-credentials/".

Definition put_request (endpoint : string) : string :=
  "PUT " +:+ endpoint +:+ " HTTP/1.1" +:+ crlf +:+
  "Host: 169.254.169.254" +:+ crlf +:+
  "X-aws-ec2-metadata-token-ttl-seconds: " +:+ dec IMDS_TOKEN_TTL_SECONDS +:+ crlf +:+
  "Content-Length: 0" +:+ crlf +:+
  "Connection: close" +:+ crlf +:+ crlf.

Definition get_request (endpoint metadata_token : string) : string :=
  "GET " +:+ endpoint +:+ " HTTP/1.1" +:+ crlf +:+
  "Host: 169.254.169.254" +:+ crlf +:+
  "X-aws-ec2-metadata-token: " +:+ metadata_token +:+ crlf +:+
  "Connection: close" +:+ crlf +:+ crlf.

Definition fetch_imds_metadata_token (base_url : string) (timeout : Duration)
    : ST nat (result BootstrapError string) :=
  body ←? imds_round_trip base_url TOKEN_ENDPOINT (put_request TOKEN_ENDPOINT) timeout;
  let token := trim body in
  if decide (token = "") then mret (Err ImdsEmptyToken) else mret (Ok token).

Definition fetch_imds_role_name (base_url metadata_token : string) (timeout : Duration)
    : ST nat (result BootstrapError string) :=
  body ←? imds_round_trip base_url ROLE_ENDPOINT (get_request ROLE_ENDPOINT metadata_token) timeout;
  let role := default "" (head (filter (λ l, l ≠ "") (map trim (lines body)))) in
  if decide (role = "") then mret (Err ImdsNoInstanceRole) else mret (Ok role).

Definition fetch_imds_role_credentials (base_url metadata_token role : string)
    (timeout : Duration) : ST nat (result BootstrapError string) :=
  let endpoint := ROLE_ENDPOINT +:+ role in
  imds_round_trip base_url endpoint (get_request endpoint metadata_token) timeout.

Definition fetch_imds_at (base_url : string) (timeout : Duration)
    : ST nat (result BootstrapError BootstrapToken) :=
  metadata_token ←? fetch_imds_metadata_token base_url timeout;
  role ←? fetch_imds_role_name base_url metadata_token timeout;
  credentials_json ←? fetch_imds_role_credentials base_url metadata_token role timeout;
  mret (Ok (mkBootstrapToken credentials_json)).

Definition fetch_token (source : BootstrapSource)
    : ST nat (result BootstrapError BootstrapToken) :=
  match source with
  | SourceFile path => fetch_file path
  | SourceEnv => fetch_env_with_var BOOTSTRAP_ENV_VAR
  | SourceImds => fetch_imds_at IMDS_BASE_URL IMDS_TIMEOUT
  end.

End fetch.

Example parse_default_url : parse_base_url IMDS_BASE_URL = Ok ("169.254.169.254", 80).
Proof. vm_compute. reflexivity. Qed.
Example parse_url_errors :
  map (λ u, is_ok (parse_base_url u))
    ["https://x"; "http://"; "http://:80"; "http://h:"; "http://h:65536"; "http://h:65535/p"]
  = [false; false; false; false; false; true].
Proof. vm_compute. reflexivity. Qed.
Example parse_http_ok :
  parse_http_response "/e" (bytes ("HTTP/1.1 200 OK" +:+ crlf +:+ "A: b" +:+ crlf +:+ crlf +:+ "hi"))
  = Ok "hi".
Proof. vm_compute. reflexivity. Qed.

(** ** Facts about the parsers *)

Lemma rsplit_once_no_sep c bs : c ∉ bs → rsplit_once c bs = None.
Proof.
  induction bs as [|b bs IH]; intros Hc; simpl; [done|].
  rewrite IH by set_solver. rewrite decide_False; [done|set_solver].
Qed.

Lemma rsplit_once_app c a b : c ∉ b → rsplit_once c (a ++ c :: b) = Some (a, b).
Proof.
  intros Hb. induction a as [|x a IH]; simpl; [|by rewrite IH].
  by rewrite rsplit_once_no_sep, decide_True.
Qed.

Lemma split_at_sep_app_one sep b raw :
  strip_prefix sep (b :: raw) = None →
  split_at_sep sep (b :: raw) = prod_map (cons b) id <$> split_at_sep sep raw.
Proof. intros Hs. simpl in *. rewrite Hs. by destruct (split_at_sep sep raw) as [[]|]. Qed.

(** A line without CR cannot hold the start of the separator. *)
Lemma split_at_sep_skip l raw :
  CR ∉ l → split_at_sep CRLF2 (l ++ raw) = prod_map (app l) id <$> split_at_sep CRLF2 raw.
Proof.
  induction l as [|b l IH]; intros Hl.
  { change ([] ++ raw) with raw. by destruct (split_at_sep CRLF2 raw) as [[]|]. }
  change ((b :: l) ++ raw) with (b :: (l ++ raw)). rewrite split_at_sep_app_one.
  - rewrite IH by set_solver. by destruct (split_at_sep CRLF2 raw) as [[]|].
  - unfold CRLF2, CRLF. cbn [app strip_prefix]. rewrite decide_False; [done|set_solver].
Qed.

(** A line break followed by the next header is not the separator either. *)
Lemma split_at_sep_break b raw :
  b ≠ CR → split_at_sep CRLF2 (CRLF ++ b :: raw) =
           prod_map (app CRLF) id <$> split_at_sep CRLF2 (b :: raw).
Proof.
  intros Hb. unfold CRLF at 1. cbn [app].
  rewrite split_at_sep_app_one, split_at_sep_app_one; cycle 1.
  - done.
  - unfold CRLF2, CRLF. cbn [app strip_prefix].
    rewrite !decide_True by done. rewrite decide_False; [done|congruence].
  - by destruct (split_at_sep CRLF2 (b :: raw)) as [[]|].
Qed.

Definition text (bs : list ascii) : Prop :=
  Forall (λ b, in_range 32 126 (byte_val b) = true) bs.
Definition header_lines (hs : list (list ascii)) : list ascii := concat (map (app CRLF) hs).

Lemma text_not b c : text b → byte_val c < 32 → c ∉ b.
Proof.
  intros Ht Hc Hin. unfold text in Ht. rewrite Forall_forall in Ht. apply Ht, in_range_spec in Hin. lia.
Qed.

Lemma text_ascii bs : text bs → Forall is_ascii bs.
Proof.
  intros Ht. eapply Forall_impl; [exact Ht|]. intros b. simpl. rewrite in_range_spec.
  unfold is_ascii. lia.
Qed.

Lemma split_at_sep_headers hs body :
  Forall (λ h, h ≠ [] ∧ text h) hs →
  split_at_sep CRLF2 (header_lines hs ++ CRLF2 ++ body) = Some (header_lines hs, body).
Proof.
  induction 1 as [|h hs [Hne Ht] Hhs IH]; [done|].
  destruct h as [|b h]; [done|]. pose proof (text_not _ CR Ht ltac:(done)) as Hcr.
  assert (header_lines ((b :: h) :: hs) = CRLF ++ b :: (h ++ header_lines hs)) as -> by done.
  assert ((CRLF ++ b :: (h ++ header_lines hs)) ++ CRLF2 ++ body =
          CRLF ++ b :: (h ++ header_lines hs ++ CRLF2 ++ body)) as ->
    by by rewrite <-app_assoc; simpl; rewrite <-app_assoc.
  rewrite split_at_sep_break by set_solver.
  change (b :: h ++ ?l) with ((b :: h) ++ l). rewrite split_at_sep_skip, IH by done. done.
Qed.

(** The first line of a header block. *)
Lemma head_lines_block l hs :
  l ≠ [] → text l → Forall (λ h, h ≠ [] ∧ text h) hs →
  head (lines (of_bytes (l ++ header_lines hs))) = Some (of_bytes l).
Proof.
  intros Hne Ht Hhs. unfold lines. rewrite bytes_of_bytes.
  pose proof (text_not _ NL Ht ltac:(done)) as Hnl.
  destruct hs as [|h hs].
  - unfold header_lines. simpl. rewrite app_nil_r, split_on_no_sep by done. simpl. by destruct l.
  - assert (l ++ header_lines (h :: hs) = (l ++ [CR]) ++ NL :: (h ++ header_lines hs)) as ->
      by by rewrite <-app_assoc.
    rewrite split_on_app_sep by (rewrite not_elem_of_app; set_solver).
    pose proof (split_on_nonempty NL (h ++ header_lines hs)).
    destruct (split_on NL (h ++ header_lines hs)); [done|]. simpl. f_equal. f_equal.
    unfold strip_cr. rewrite reverse_snoc, decide_True by done. apply reverse_involutive.
Qed.

(** ** HTTP responses *)

Record http_response : Type := mkHttpResponse {
  h_status : Z;
  h_reason : list ascii;
  h_headers : list (list ascii);
  h_body : list ascii;
}.

Record http_wf (r : http_response) : Prop := {
  hw_status : 0 ≤ r.(h_status) ≤ u16_max;
  hw_reason : text r.(h_reason);
  hw_headers : Forall (λ h, h ≠ [] ∧ text h) r.(h_headers);
}.

Definition status_line (r : http_response) : list ascii :=
  bytes "HTTP/1.1" ++ " "%char :: bytes (dec r.(h_status)) ++ " "%char :: r.(h_reason).
Definition render (r : http_response) : list ascii :=
  status_line r ++ header_lines r.(h_headers) ++ CRLF2 ++ r.(h_body).

Lemma digits_graphic bs : forallb is_ascii_digit bs = true → forallb is_graphic bs = true.
Proof.
  rewrite !forallb_forall. intros Hd b Hb. apply Hd in Hb.
  unfold is_ascii_digit, is_graphic in *. rewrite in_range_spec in *. lia.
Qed.

Lemma graphic_text bs : forallb is_graphic bs = true → text bs.
Proof.
  rewrite forallb_forall. intros Hg. apply Forall_forall. intros b Hb%list_elem_of_In.
  apply Hg in Hb. unfold is_graphic in Hb. rewrite in_range_spec in *. lia.
Qed.

Lemma status_line_text r : http_wf r → text (status_line r).
Proof.
  intros [Hs Hr _]. pose proof (digits_graphic _ (dec_digits _ (proj1 Hs))) as Hd%graphic_text.
  unfold status_line, text. rewrite Forall_app, Forall_cons, Forall_app, Forall_cons.
  split_and!; try done. by apply graphic_text.
Qed.

Lemma header_lines_ascii hs :
  Forall (λ h, h ≠ [] ∧ text h) hs → Forall is_ascii (header_lines hs).
Proof.
  induction 1 as [|h hs [_ Ht] _ IH]; [constructor|].
  unfold header_lines. cbn [map concat]. rewrite !Forall_app. split_and!; [|by apply text_ascii|done].
  by repeat constructor.
Qed.

(** The hand-written HTTP parser inverts HTTP: on any well-formed
    [HTTP/1.1] response (a status, a reason, header lines, any body) it returns
    the body, decoded leniently, exactly when the status is 2xx, and otherwise
    reports that status with that body. *)
Theorem http_response_roundtrip endpoint r :
  http_wf r →
  parse_http_response endpoint (render r) =
    if decide (200 ≤ r.(h_status) < 300) then Ok (from_utf8_lossy r.(h_body))
    else Err (ImdsHttp endpoint r.(h_status) (from_utf8_lossy r.(h_body))).
Proof.
  intros Hwf. pose proof (status_line_text r Hwf) as Ht. destruct Hwf as [Hs Hr Hh].
  pose proof (digits_graphic _ (dec_digits _ (proj1 Hs))) as Hd.
  assert (Hne : status_line r ≠ []) by by unfold status_line.
  unfold parse_http_response, render. remember (status_line r) as sl eqn:Hsl.
  rewrite split_at_sep_skip by by apply (text_not _ CR Ht).
  rewrite split_at_sep_headers by done. simpl.
  rewrite from_utf8_ascii.
  2:{ rewrite Forall_app. split; [by apply text_ascii|by apply header_lines_ascii]. }
  simpl. rewrite head_lines_block by done. simpl.
  rewrite Hsl. unfold status_line. rewrite split_whitespace_second;
    [|done|by apply dec_nonempty; lia|done|done|by apply text_ascii].
  simpl. rewrite bytes_of_bytes. unfold parse_u16. rewrite parse_dec by done. simpl.
  destruct (in_range 200 299 (h_status r)) eqn:Hin.
  - apply in_range_spec in Hin. rewrite decide_True; [done|lia].
  - apply in_range_false in Hin. rewrite decide_False; [done|lia].
Qed.

(** [parse_base_url] reads back any [http://host[:port][/path]]: the host
    and the port, 80 when none is given, whatever the path. *)
Theorem base_url_roundtrip host port path :
  host ≠ [] → SEP ∉ host → COLON ∉ host →
  (∀ p, port = Some p → 0 ≤ p ≤ u16_max) →
  (path = [] ∨ head path = Some SEP) →
  parse_base_url (of_bytes (bytes "http://" ++ host ++
      (if port is Some p then COLON :: bytes (dec p) else []) ++ path)) =
    Ok (of_bytes host, default 80 port).
Proof.
  intros Hne Hsep Hcol Hport Hpath. unfold parse_base_url. rewrite bytes_of_bytes, strip_prefix_app.
  simpl. set (hp := host ++ (if port is Some p then COLON :: bytes (dec p) else [])).
  assert (SEP ∉ hp) as Hhp.
  { unfold hp. destruct port as [p|]; [|by rewrite app_nil_r].
    apply not_elem_of_app. split; [done|]. apply not_elem_of_cons. split; [done|].
    intros Hin. pose proof (dec_digits p ltac:(by apply Hport)) as Hd.
    rewrite forallb_forall in Hd. by apply list_elem_of_In, Hd in Hin. }
  assert (head (split_on SEP (host ++ (if port is Some p then COLON :: bytes (dec p) else []) ++ path))
          = Some hp) as ->.
  { rewrite app_assoc. fold hp. destruct Hpath as [->|Hp]; [by rewrite app_nil_r, split_on_no_sep|].
    destruct path as [|c path]; simplify_eq/=. by rewrite split_on_app_sep. }
  simpl. unfold hp. destruct port as [p|].
  - rewrite rsplit_once_app.
    + unfold parse_u16. rewrite parse_dec by auto. simpl. by destruct host.
    + intros Hin. pose proof (dec_digits p ltac:(by apply Hport)) as Hd.
      rewrite forallb_forall in Hd. by apply list_elem_of_In, Hd in Hin.
  - rewrite app_nil_r, rsplit_once_no_sep by done. by destruct host.
Qed.

(** ** What a token is made of *)

Section fetch_spec.
Context `{Os, Outside}.

Definition IMDS_HOST : string := "169.254.169.254".

(** The metadata service was reached at interaction [n], was sent [request] and
    answered with a 2xx response whose body is [body]. *)
Definition answered (n : nat) (endpoint request body : string) : Prop :=
  tcp_connect n IMDS_HOST 80 = Finished (Ok tt) ∧
  ∃ raw, tcp_exchange (S n) IMDS_HOST 80 (bytes request) = Finished (Ok raw) ∧
         parse_http_response endpoint raw = Ok body.

Lemma round_trip_ok endpoint request timeout n body n' :
  imds_round_trip IMDS_BASE_URL endpoint request timeout n = (Ok body, n') ↔
  n' = (2 + n)%nat ∧ answered n endpoint request body.
Proof.
  unfold imds_round_trip, answered. rewrite bind_res_unfold, parse_default_url.
  unfold mret, ST_ret, mbind, ST_bind, next, IMDS_HOST. simpl.
  destruct (tcp_connect n _ 80) as [|[[]|e]]; simpl; [naive_solver| |naive_solver].
  destruct (tcp_exchange (S n) _ 80 _) as [|[raw|e]]; simpl.
  - split; [done|]. by intros (_ & _ & ? & ? & _).
  - split; [intros [= ? <-]; by eauto 10|]. by intros (-> & _ & raw' & [= <-] & ->).
  - split; [done|]. by intros (_ & _ & ? & ? & _).
Qed.

Lemma bind_res_Ok {S E A B} (m : ST S (result E A)) (k : A → ST S (result E B)) s b s' :
  bind_res m k s = (Ok b, s') ↔ ∃ a s1, m s = (Ok a, s1) ∧ k a s1 = (Ok b, s').
Proof. unfold bind_res. destruct (m s) as [[a|e] s1]; naive_solver. Qed.

(** The first non-blank line of the role list. *)
Definition role_of (body : string) : string :=
  default "" (head (filter (λ l, l ≠ "") (map trim (lines body)))).

Lemma metadata_token_ok timeout n tok n' :
  fetch_imds_metadata_token IMDS_BASE_URL timeout n = (Ok tok, n') ↔
  n' = (2 + n)%nat ∧ tok ≠ "" ∧
  ∃ body, answered n TOKEN_ENDPOINT (put_request TOKEN_ENDPOINT) body ∧ tok = trim body.
Proof.
  unfold fetch_imds_metadata_token. rewrite bind_res_Ok.
  setoid_rewrite round_trip_ok. unfold mret, ST_ret. split.
  - intros (body & s1 & [-> Ha] & Hk). case_decide; simplify_eq. eauto.
  - intros (-> & Hne & body & Ha & ->). exists body, (2 + n)%nat. by rewrite decide_False.
Qed.

Lemma role_name_ok tok timeout n role n' :
  fetch_imds_role_name IMDS_BASE_URL tok timeout n = (Ok role, n') ↔
  n' = (2 + n)%nat ∧ role ≠ "" ∧
  ∃ body, answered n ROLE_ENDPOINT (get_request ROLE_ENDPOINT tok) body ∧ role = role_of body.
Proof.
  unfold fetch_imds_role_name. rewrite bind_res_Ok.
  setoid_rewrite round_trip_ok. unfold mret, ST_ret. split.
  - intros (body & s1 & [-> Ha] & Hk). case_decide; simplify_eq. eauto.
  - intros (-> & Hne & body & Ha & ->). exists body, (2 + n)%nat. by rewrite decide_False.
Qed.

(** What each source yields: a file or the variable a non-empty token, the
    metadata service the body of its last answer, which the code takes as it is,
    empty or not ([imds_empty_credentials]). *)
Definition token_from (source : BootstrapSource) (n : nat) (t : string) : Prop :=
  match source with
  | SourceFile path =>
      ∃ s, (os_disk n).(read_to_string) path = Ok s ∧ t = trim s ∧ t ≠ ""
  | SourceEnv => env_var n BOOTSTRAP_ENV_VAR = Ok t ∧ t ≠ ""
  | SourceImds => ∃ tok_body role_body,
      answered n TOKEN_ENDPOINT (put_request TOKEN_ENDPOINT) tok_body ∧ trim tok_body ≠ "" ∧
      answered (2 + n) ROLE_ENDPOINT (get_request ROLE_ENDPOINT (trim tok_body)) role_body ∧
      role_of role_body ≠ "" ∧
      answered (4 + n) (ROLE_ENDPOINT +:+ role_of role_body)
        (get_request (ROLE_ENDPOINT +:+ role_of role_body) (trim tok_body)) t
  end.

Lemma fetch_imds_ok timeout n t n' :
  fetch_imds_at IMDS_BASE_URL timeout n = (Ok t, n') ↔
  n' = (6 + n)%nat ∧ token_from SourceImds n t.(expose).
Proof.
  unfold fetch_imds_at. rewrite bind_res_Ok. setoid_rewrite metadata_token_ok.
  setoid_rewrite bind_res_Ok. setoid_rewrite role_name_ok. setoid_rewrite bind_res_Ok.
  unfold fetch_imds_role_credentials. setoid_rewrite round_trip_ok. unfold mret, ST_ret. simpl. split.
  - intros (? & ? & (-> & ? & tb & ? & ->) & ? & ? & (-> & ? & rb & ? & ->) & ? & ? & [-> ?] & ?).
    simplify_eq/=. eauto 10.
  - intros (-> & tb & rb & ? & ? & ? & ? & ?). destruct t as [t].
    eexists _, _. split; [by eauto|]. eexists _, _. split; [by eauto|]. by eauto.
Qed.

(** Fetching only moves the interaction number forward. *)
Lemma round_trip_ticks base endpoint request timeout n :
  ∃ k, (imds_round_trip base endpoint request timeout n).2 = (k + n)%nat.
Proof.
  unfold imds_round_trip. rewrite bind_res_unfold. unfold mret, ST_ret, mbind, ST_bind, next. simpl.
  destruct (parse_base_url base) as [[host port]|e]; simpl; [|by exists 0%nat].
  destruct (tcp_connect _ _ _) as [|[[]|e]]; simpl; [by exists 1%nat| |by exists 1%nat].
  by exists 2%nat; destruct (tcp_exchange _ _ _ _) as [|[raw|e]].
Qed.

Lemma bind_res_ticks {E A B} (m : ST nat (result E A)) (k : A → ST nat (result E B)) :
  (∀ n, ∃ i, (m n).2 = (i + n)%nat) → (∀ a n, ∃ i, (k a n).2 = (i + n)%nat) →
  ∀ n, ∃ i, (bind_res m k n).2 = (i + n)%nat.
Proof.
  intros Hm Hk n. rewrite bind_res_unfold. destruct (Hm n) as [i Hi].
  destruct (m n) as [[a|e] n1]; simpl in *; subst; [|by exists i].
  destruct (Hk a (i + n)%nat) as [j ->]. exists (j + i)%nat. lia.
Qed.

Lemma fetch_token_ticks source n : ∃ k, (fetch_token source n).2 = (k + n)%nat.
Proof.
  destruct source as [path| |]; simpl; [by exists 1%nat| |by exists 1%nat].
  revert n. apply bind_res_ticks.
  { apply bind_res_ticks; [apply round_trip_ticks|]. intros a n. exists 0%nat. cbv zeta. by destruct (decide _). }
  intros tok. apply bind_res_ticks.
  { apply bind_res_ticks; [apply round_trip_ticks|]. intros a n. exists 0%nat. cbv zeta. by destruct (decide _). }
  intros role. apply bind_res_ticks; [apply round_trip_ticks|]. intros a n. by exists 0%nat.
Qed.

(** C30: what [fetch_token] accepts from each source: it succeeds exactly with
    the trimmed content of the file, if that is not empty; with the variable,
    untrimmed, if that is not empty; or with the body of the last of the three
    metadata requests, sent in this order (session token, role, credentials),
    the later two carrying the session token and the last one naming the role,
    each answered with 2xx.  The session token and the role must not be empty,
    but the credentials may be: an empty body is returned as the token, where
    FR-003 asks for a usable one ([imds_empty_credentials]). *)
Theorem fetch_token_ok_iff source n t :
  (∃ n', fetch_token source n = (Ok t, n')) ↔ token_from source n t.(expose).
Proof.
  destruct source as [path| |]; simpl.
  - unfold fetch_file, next, mret, ST_ret, mbind, ST_bind. destruct t as [t]. simpl.
    destruct (read_to_string _ path) as [s|e]; [case_decide|case_decide]; naive_solver.
  - setoid_rewrite fetch_imds_ok. naive_solver.
  - unfold fetch_env_with_var, next, mret, ST_ret, mbind, ST_bind. destruct t as [t]. simpl.
    destruct (env_var n _) as [s|[]]; [case_decide|..]; naive_solver.
Qed.

End fetch_spec.

(** ** A metadata service, for the witnesses *)

Definition ok_response (body : string) : list ascii :=
  render (mkHttpResponse 200 (bytes "OK") [bytes "Server: EC2ws"] (bytes body)).

(** Answers each of the three requests, and only when it carries the session
    token it handed out. *)
Definition demo_imds (credentials : string) : Outside := {|
  env_var _ _ := Err NotPresent;
  tcp_connect _ _ _ := Finished (Ok tt);
  tcp_exchange _ _ _ request := Finished (Ok (ok_response (
    if decide (request = bytes (put_request TOKEN_ENDPOINT)) then "session-token"
    else if decide (request = bytes (get_request ROLE_ENDPOINT "session-token"))
         then of_bytes (bytes "broker-role" ++ [NL])
    else if decide (request = bytes (get_request (ROLE_ENDPOINT +:+ "broker-role") "session-token"))
         then credentials
    else "")));
|}.

Definition demo_boot_os : Os := {|
  os_now _ := 0; os_utc _ := 0; os_fault _ := None; os_bind_mode := 493;
  os_disk _ := mkDisk (λ _, true) (λ _, Ok "  s3cret  ");
|}.

(** A metadata service whose last answer has an empty body makes
    [fetch_token] succeed with an empty token: the credentials body is not
    checked the way the other two bodies and the other two sources are. *)
Theorem imds_empty_credentials :
  ∃ net : Outside, ∀ (os : Os) n,
    @fetch_token os net SourceImds n = (Ok (mkBootstrapToken ""), (6 + n)%nat).
Proof. exists (demo_imds ""). intros os n. vm_compute. reflexivity. Qed.

Lemma http_response_roundtrip_witness :
  parse_http_response "/x" (render (mkHttpResponse 404 (bytes "Not Found") [bytes "A: b"] (bytes "no")))
    = Err (ImdsHttp "/x" 404 "no").
Proof.
  rewrite http_response_roundtrip; [reflexivity|].
  split; [by vm_compute|by repeat constructor|].
  by repeat constructor.
Defined.

Lemma base_url_roundtrip_witness :
  parse_base_url "http://127.0.0.1:8080/x" = Ok ("127.0.0.1", 8080).
Proof.
  apply (base_url_roundtrip (bytes "127.0.0.1") (Some 8080) (bytes "/x"));
    [done|vm_compute; set_solver|vm_compute; set_solver| |by right].
  intros p [= <-]. by vm_compute.
Defined.

Lemma fetch_token_ok_iff_witness :
  (@fetch_token demo_boot_os (demo_imds "{}") SourceImds 0%nat).1 = Ok (mkBootstrapToken "{}") ∧
  ∃ n', @fetch_token demo_boot_os (demo_imds "{}") (SourceFile "/etc/token") 0%nat =
          (Ok (mkBootstrapToken "s3cret"), n').
Proof.
  split; [vm_compute; reflexivity|].
  apply (@fetch_token_ok_iff demo_boot_os (demo_imds "{}") (SourceFile "/etc/token") 0%nat
    (mkBootstrapToken "s3cret")).
  exists "  s3cret  ". split_and!; [reflexivity|vm_compute; reflexivity|done].
Defined.
