(* ===== verification/Server.v ===== *)
(** * The daemon ([src/server.rs])

    [ServerState] is everything the handlers share: the registry with its
    projects and socket files, the sending side of the audit channel, the
    backend session and the accept-loop handles.  A handler runs in the state
    monad; each call to the outside (a clock, fnox-core, a file, the metadata
    service) takes the next interaction number.  Handlers return the JSON value
    of the response; [serde_json::to_string] is applied where the connection
    loop writes it.

    [dispatch_get] is split at its one suspension point, the call to the
    backend: [get_before] runs up to it, [get_after] from its result on. *)

From S2P Require Import Prelude Str Path Json Os Manifest Cache Config AuditLog Backend Proto Registry Bootstrap.
Open Scope Z_scope.

Definition SHUTDOWN_DRAIN : Duration := from_secs 5.
Definition ADMIN_SOCKET_NAME : string := "admin.sock".
Definition ADMIN_SOCKET_MODE : Z := 384.
Definition SOCKET_DIR_MODE : Z := 493.
Definition BROKER_VERSION : string := "0.1.0".

Inductive ServerError : Type :=
  | CreateSocketDir (path : string) (source : IoError)
  | BindAdminSocket (path : string) (source : IoError)
  | AdminSocketPerms (path : string) (source : IoError)
  | SignalHandler (source : IoError).

(** The order in which the two hash maps are iterated, at each interaction. *)
Class HashOrder := mkHashOrder {
  cache_order : nat → Cache.hash_iter CacheEntry;
  project_order : nat → Cache.hash_iter nat;
}.

(** What never changes while the daemon runs. *)
Record Server : Type := mkServer {
  sv_config : Config;
  sv_started_at : Instant;
  sv_registry : ProjectRegistry;
}.

Record ServerState (Fnox : Type) : Type := mkServerState {
  ss_reg : RegState;
  ss_audit : Channel;
  ss_backend : option (BackendSession Fnox);
  (** [project_tasks]: the accept loop each handle belongs to. *)
  ss_tasks : gmap string nat;
  (** The accept loops that have not ended. *)
  ss_loops : gset nat;
}.
Arguments mkServerState {Fnox} _ _ _ _ _.
Arguments ss_reg {Fnox} _.
Arguments ss_audit {Fnox} _.
Arguments ss_backend {Fnox} _.
Arguments ss_tasks {Fnox} _.
Arguments ss_loops {Fnox} _.

(** [peer_cred()], when the lookup worked. *)
Record Peer : Type := mkPeer { peer_pid : option Z; peer_uid : option Z }.

Definition admin_error_for `{UnicodeTables} (e : RegistryError) : AdminError :=
  let code := match e with
              | ProjectExists _ => CodeProjectExists
              | ProjectUnknown _ => CodeProjectUnknown
              | RegManifestNotFound _ => CodeManifestNotFound
              | RegManifestInvalid _ => CodeManifestInvalid
              | BindSocket _ _ | SocketPerms _ _ => AdminInternalError
              end in
  error_new code (display_registry_error e).

Definition bootstrap_mode (source : BootstrapSource) : BootstrapMode :=
  match source with
  | SourceFile _ => ModeFile
  | SourceImds => ModeImds
  | SourceEnv => ModeEnv
  end.

Definition server_new (config : Config) (now : Instant) : Server :=
  mkServer config now
    (mkProjectRegistry config.(socket_dir)
       (mkCacheDefaults config.(cache_default_max_entries) config.(cache_default_ttl))).

(** [Server::new]: nothing registered yet. *)
Definition server_init {Fnox} (backend : option (BackendSession Fnox)) : ServerState Fnox :=
  mkServerState registry_new channel_new backend ∅ ∅.

Section server.
Context {Fnox : Type} `{Os, Outside, TomlManifest, UnicodeTables, HashOrder, FnoxCore Fnox}.
Context (server : Server).
Local Abbreviation M := (ST (ServerState Fnox)).

(** ** Access to the parts of the state *)

Definition set_reg (r : RegState) (s : ServerState Fnox) : ServerState Fnox :=
  mkServerState r s.(ss_audit) s.(ss_backend) s.(ss_tasks) s.(ss_loops).
Definition set_audit (ch : Channel) (s : ServerState Fnox) : ServerState Fnox :=
  mkServerState s.(ss_reg) ch s.(ss_backend) s.(ss_tasks) s.(ss_loops).
Definition set_backend (b : option (BackendSession Fnox)) (s : ServerState Fnox) : ServerState Fnox :=
  mkServerState s.(ss_reg) s.(ss_audit) b s.(ss_tasks) s.(ss_loops).
Definition set_tasks (t : gmap string nat) (s : ServerState Fnox) : ServerState Fnox :=
  mkServerState s.(ss_reg) s.(ss_audit) s.(ss_backend) t s.(ss_loops).
Definition set_loops (l : gset nat) (s : ServerState Fnox) : ServerState Fnox :=
  mkServerState s.(ss_reg) s.(ss_audit) s.(ss_backend) s.(ss_tasks) l.

Definition in_registry {A} (m : ST RegState A) : M A := zoom ss_reg set_reg m.
Definition interaction : M nat := in_registry tick.

(** The interactions of [fetch_token] are the server's. *)
Definition in_counter {A} (m : ST nat A) : M A :=
  in_registry (zoom rs_tick (λ n r, mkRegState n r.(rs_nodes) r.(rs_heap) r.(rs_next) r.(rs_map)) m).

Definition now : M Instant := n ← interaction; mret (os_now n).
Definition now_utc : M Timestamp := n ← interaction; mret (os_utc n).
Definition audit_record (e : AuditEvent) : M unit := modify (λ s, set_audit (record e s.(ss_audit)) s).

(** Dereferencing an [Arc<Project>]; the heap never loses a project, so the
    default is not reached from a registered one. *)
Definition no_project : Project :=
  mkProject "" "" "" "" (mkManifest 1 (mkProjectSection "" None) (mkAllowlist []) CacheSection_default)
    (Cache.new 0 0).
Definition deref (id : nat) (s : ServerState Fnox) : Project :=
  default no_project (s.(ss_reg).(rs_heap) !! id).

(** A call on the cache of a project, under its mutex. *)
Definition on_cache {A} (id : nat) (m : ST BoundedCache A) : M A := λ s,
  let '(a, c) := m (deref id s).(p_cache) in
  (a, (in_registry (modify_project id (set_cache c)) s).2).

(** ** The project socket *)

Definition emit_fetch (project secret_name : string) (decision : Decision') (outcome : Outcome)
    (peer : Peer) (start : Instant) (backend reason : option string) : M unit :=
  t ← now;
  let latency_ms := saturate_u32 (as_millis (duration_since t start)) in
  timestamp ← now_utc;
  audit_record (Fetch (mkFetchEvent timestamp project secret_name decision outcome
    peer.(peer_pid) peer.(peer_uid) latency_ms backend reason)).

Definition denied_error (name : string) : ProjectError :=
  error_new Denied ("Secret " +:+ debug_str name +:+ " is not in this project's allowlist.").
Definition no_backend_error : ProjectError :=
  error_new BackendErrorCode
    "no fnox-core session is configured; rerun the daemon with --fnox-config".
Definition not_found_error (name : string) : ProjectError :=
  error_new CodeNotFound ("Secret " +:+ debug_str name +:+ " not found by fnox-core resolver.").
Definition backend_failed (msg : string) : ProjectError :=
  error_new BackendErrorCode ("fnox-core: " +:+ msg).

(** Up to [backend.get(&name)]: a response, or the session to ask. *)
Definition get_before (id : nat) (name : string) (peer : Peer) (start : Instant) : M (json + Fnox) :=
  project ← gets (deref id);
  let manifest := project.(p_manifest) in
  if negb (existsb (λ n, bool_decide (n = name)) manifest.(allowlist).(secrets)) then
    emit_fetch project.(p_name) name Deny OutcomeOk peer start None (Some "allowlist");;
    mret (inl (project_error_to_json (denied_error name)))
  else
    t ← now;
    hit ← on_cache id (Cache.get t name);
    match hit with
    | Some hit =>
        emit_fetch project.(p_name) name Allow OutcomeOk peer start (Some "cache") None;;
        mret (inl (get_response_to_json (get_utf8 hit.(hit_value) hit.(hit_ttl_seconds))))
    | None =>
        backend ← gets ss_backend;
        match backend with
        | None =>
            emit_fetch project.(p_name) name Allow OutcomeBackendError peer start None None;;
            mret (inl (project_error_to_json no_backend_error))
        | Some session => mret (inr (Backend.load_full session))
        end
    end.

(** From the answer of the backend on. *)
Definition get_after (id : nat) (name : string) (peer : Peer) (start : Instant)
    (answer : result string (option string)) : M json :=
  project ← gets (deref id);
  match answer with
  | Ok (Some plaintext) =>
      n ← interaction;
      on_cache id (Cache.insert (cache_order n) (os_now n) name plaintext None);;
      project' ← gets (deref id);
      let ttl_seconds := saturate_u32 (as_secs (Cache.default_ttl project'.(p_cache))) in
      emit_fetch project.(p_name) name Allow OutcomeOk peer start (Some "fnox") None;;
      mret (get_response_to_json (get_utf8 plaintext ttl_seconds))
  | Ok None =>
      emit_fetch project.(p_name) name Allow OutcomeNotFound peer start (Some "fnox") None;;
      mret (project_error_to_json (not_found_error name))
  | Err msg =>
      emit_fetch project.(p_name) name Allow OutcomeBackendError peer start (Some "fnox") None;;
      mret (project_error_to_json (backend_failed msg))
  end.

Definition dispatch_get (id : nat) (name : string) (peer : Peer) (start : Instant) : M json :=
  r ← get_before id name peer start;
  match r with
  | inl response => mret response
  | inr session =>
      n ← interaction;
      get_after id name peer start (fnox_get n session name)
  end.

Definition dispatch_project (id : nat) (req : ProjectRequest) (peer : Peer) (start : Instant)
    : M json :=
  project ← gets (deref id);
  match req with
  | Ping => mret (ping_to_json (ping_new BROKER_VERSION project.(p_name)))
  | Info =>
      let manifest := project.(p_manifest) in
      mret (info_to_json (info_new project.(p_name) manifest.(allowlist).(secrets)
                            manifest.(schema_version)))
  | Get name => dispatch_get id name peer start
  end.

(** ** The admin socket *)

Definition project_status (p : Project) : ProjectStatus :=
  mkProjectStatus p.(p_name) p.(p_socket_path)
    (as_u32 (Z.of_nat (length p.(p_manifest).(allowlist).(secrets))))
    (as_u32 (Cache.len p.(p_cache))).

Definition dispatch_status : M json :=
  n ← interaction;
  projects ← gets (λ s, snapshot (project_order n) s.(ss_reg));
  let project_statuses := map (λ ip, project_status ip.2) projects in
  t ← now;
  mret (status_to_json (status_new BROKER_VERSION
    (as_secs (duration_since t server.(sv_started_at)))
    (bootstrap_mode server.(sv_config).(bootstrap)) project_statuses)).

(** [tokio::spawn(run_project_socket(..))] and [project_tasks.insert]. *)
Definition spawn_loop (name : string) (id : nat) : M unit :=
  modify (λ s, set_loops ({[id]} ∪ s.(ss_loops)) (set_tasks (<[name := id]> s.(ss_tasks)) s)).

Definition dispatch_register (name project_path : string) : M json :=
  r ← in_registry (Registry.register server.(sv_registry) name project_path);
  match r with
  | Ok id =>
      project ← gets (deref id);
      spawn_loop name id;;
      mret (register_to_json (register_new project.(p_socket_path)))
  | Err e => mret (admin_error_to_json (admin_error_for e))
  end.

(** [stop.notify_waiters()], then the loop behind the handle is awaited or
    aborted: either way it has ended. *)
Definition end_loop (name : string) : M unit := modify (λ s,
  match s.(ss_tasks) !! name with
  | Some loop => set_loops (s.(ss_loops) ∖ {[loop]}) (set_tasks (delete name s.(ss_tasks)) s)
  | None => s
  end).

Definition remove_socket (path : string) : M (result IoError unit) :=
  n ← interaction;
  in_registry (zoom rs_nodes set_nodes (remove_file n path)).

Definition dispatch_unregister (name : string) : M json :=
  r ← in_registry (Registry.unregister name);
  match r with
  | Ok id =>
      project ← gets (deref id);
      end_loop name;;
      _ ← remove_socket project.(p_socket_path);
      mret (ok_to_json ok_new)
  | Err e => mret (admin_error_to_json (admin_error_for e))
  end.

Definition dispatch_reload (name : string) : M json :=
  r ← in_registry (Registry.reload server.(sv_registry) name);
  match r with
  | Ok manifest => mret (reload_to_json (reload_new manifest.(allowlist).(secrets)))
  | Err e => mret (admin_error_to_json (admin_error_for e))
  end.

Definition bootstrap_error (message : string) : json :=
  admin_error_to_json (error_new CodeBootstrapError message).

Definition dispatch_rotate_bootstrap : M json :=
  backend ← gets ss_backend;
  match backend with
  | None => mret (bootstrap_error
      "no fnox-core session is configured; restart the daemon with --fnox-config")
  | Some session =>
      token ← in_counter (fetch_token server.(sv_config).(bootstrap));
      match token with
      | Err e => mret (bootstrap_error ("bootstrap token unavailable: " +:+ display_bootstrap_error e))
      | Ok _ =>
          n ← interaction;
          match match server.(sv_config).(fnox_config_path) with
                | Some path => Backend.open n path
                | None => Backend.discover n
                end with
          | Err e =>
              mret (bootstrap_error ("failed to rebuild fnox-core session: " +:+ display_backend_error e))
          | Ok new =>
              modify (λ s, set_backend (Some (Backend.adopt new session).2) s);;
              mret (rotate_to_json rotate_ok)
          end
      end
  end.

Definition dispatch_admin (req : AdminRequest) : M json :=
  match req with
  | Status => dispatch_status
  | Register name project_path => dispatch_register name project_path
  | Unregister name => dispatch_unregister name
  | Reload name => dispatch_reload name
  | RotateBootstrap => dispatch_rotate_bootstrap
  end.

(** ** Serving requests one after the other *)

Inductive request : Type :=
  | ProjectReq (id : nat) (req : ProjectRequest) (peer : Peer)
  | AdminReq (req : AdminRequest).

(** A decoded request on a connection: the clock is read when its bytes have
    arrived. *)
Definition serve_project (id : nat) (peer : Peer) (req : ProjectRequest) : M json :=
  start ← now; dispatch_project id req peer start.

Definition serve (r : request) : M json :=
  match r with
  | ProjectReq id req peer => serve_project id peer req
  | AdminReq req => dispatch_admin req
  end.

Fixpoint serve_all (rs : list request) : M (list json) :=
  match rs with
  | [] => mret []
  | r :: rs => j ← serve r; js ← serve_all rs; mret (j :: js)
  end.

End server.

(** ** The handlers as equations *)

Section equations.
Context {Fnox : Type} `{Os, Outside, TomlManifest, UnicodeTables, HashOrder, FnoxCore Fnox}.
Local Abbreviation State := (ServerState Fnox).

Definition tick_of (s : State) : nat := s.(ss_reg).(rs_tick).

(** [k] interactions later, all else equal. *)
Definition later (k : nat) (s : State) : State := set_reg (ticked k s.(ss_reg)) s.

Definition put_cache (id : nat) (c : BoundedCache) (s : State) : State :=
  set_reg (set_heap (alter (set_cache c) id s.(ss_reg).(rs_heap)) s.(ss_reg)) s.

(** The event [emit_fetch] builds when the next interaction is [n]. *)
Definition fetch_event (n : nat) (project name : string) (d : Decision') (o : Outcome)
    (peer : Peer) (start : Instant) (backend reason : option string) : AuditEvent :=
  Fetch (mkFetchEvent (os_utc (S n)) project name d o peer.(peer_pid) peer.(peer_uid)
    (saturate_u32 (as_millis (duration_since (os_now n) start))) backend reason).

Definition recorded (e : AuditEvent) (s : State) : State := set_audit (record e s.(ss_audit)) s.

Lemma emit_fetch_eq project name d o peer start backend reason (s : State) :
  emit_fetch project name d o peer start backend reason s =
  (tt, recorded (fetch_event (tick_of s) project name d o peer start backend reason) (later 2 s)).
Proof. done. Qed.

Lemma on_cache_eq {A} id (m : ST BoundedCache A) (s : State) :
  on_cache id m s =
  ((m (deref id s).(p_cache)).1, put_cache id (m (deref id s).(p_cache)).2 s).
Proof. unfold on_cache. by destruct (m (p_cache (deref id s))). Qed.

Definition allowed (id : nat) (name : string) (s : State) : Prop :=
  name ∈ (deref id s).(p_manifest).(allowlist).(secrets).
#[global] Instance allowed_dec id name s : Decision (allowed id name s).
Proof. unfold allowed. apply _. Defined.

Lemma allowlist_any (name : string) (l : list string) :
  existsb (λ n, bool_decide (n = name)) l = bool_decide (name ∈ l).
Proof.
  apply eq_iff_eq_true. rewrite existsb_exists, bool_decide_eq_true. split.
  - intros (n & Hn & ->%bool_decide_eq_true). by apply list_elem_of_In.
  - intros Hn. exists name. rewrite bool_decide_eq_true. by rewrite <-list_elem_of_In.
Qed.

Lemma get_before_eq id name peer start (s : State) :
  get_before id name peer start s =
  let p := deref id s in
  let event n d o b r := fetch_event n p.(p_name) name d o peer start b r in
  if decide (allowed id name s) then
    let '(hit, c) := Cache.get (os_now (tick_of s)) name p.(p_cache) in
    let s1 := put_cache id c (later 1 s) in
    match hit with
    | Some h => (inl (get_response_to_json (get_utf8 h.(hit_value) h.(hit_ttl_seconds))),
                 recorded (event (tick_of s1) Allow OutcomeOk (Some "cache") None) (later 2 s1))
    | None =>
        match s.(ss_backend) with
        | None => (inl (project_error_to_json no_backend_error),
                   recorded (event (tick_of s1) Allow OutcomeBackendError None None) (later 2 s1))
        | Some session => (inr session.(inner), s1)
        end
    end
  else (inl (project_error_to_json (denied_error name)),
        recorded (event (tick_of s) Deny OutcomeOk None (Some "allowlist")) (later 2 s)).
Proof.
  unfold get_before, allowed. rewrite ST_bind_unfold. cbn [gets fst snd]. rewrite allowlist_any.
  destruct (decide (name ∈ _)) as [Hin|Hin].
  - rewrite bool_decide_true by done. cbn [negb].
    rewrite ST_bind_unfold. cbn. rewrite ST_bind_unfold, on_cache_eq. cbn.
    destruct (Cache.get _ _ _) as [[h|] c]; cbn; [done|].
    rewrite ST_bind_unfold. cbn [gets fst snd].
    change (ss_backend (put_cache id c (now s).2)) with (ss_backend s). by destruct (ss_backend s).
  - by rewrite bool_decide_false.
Qed.

(** What [insert] leaves in the cache of the project. *)
Definition inserted (id : nat) (name value : string) (s : State) : State :=
  put_cache id (Cache.insert (cache_order (tick_of s)) (os_now (tick_of s)) name value None
                  (deref id s).(p_cache)).2 (later 1 s).

Lemma get_after_eq id name peer start answer (s : State) :
  get_after id name peer start answer s =
  let p := deref id s in
  let event s d o b r := fetch_event (tick_of s) p.(p_name) name d o peer start b r in
  match answer with
  | Ok (Some v) =>
      let s1 := inserted id name v s in
      (get_response_to_json (get_utf8 v (saturate_u32 (as_secs (deref id s1).(p_cache).(c_default_ttl)))),
       recorded (event s1 Allow OutcomeOk (Some "fnox") None) (later 2 s1))
  | Ok None => (project_error_to_json (not_found_error name),
                recorded (event s Allow OutcomeNotFound (Some "fnox") None) (later 2 s))
  | Err msg => (project_error_to_json (backend_failed msg),
                recorded (event s Allow OutcomeBackendError (Some "fnox") None) (later 2 s))
  end.
Proof.
  unfold get_after. rewrite ST_bind_unfold. cbn [gets fst snd].
  destruct answer as [[v|]|msg]; [|done..].
  rewrite ST_bind_unfold. cbn -[Cache.insert]. rewrite ST_bind_unfold, on_cache_eq. done.
Qed.

Lemma dispatch_get_eq id name peer start (s : State) :
  dispatch_get id name peer start s =
  match get_before id name peer start s with
  | (inl j, s1) => (j, s1)
  | (inr session, s1) =>
      get_after id name peer start (fnox_get (tick_of s1) session name) (later 1 s1)
  end.
Proof. unfold dispatch_get, mbind, ST_bind. by destruct (get_before _ _ _ _ s) as [[] ?]. Qed.

Lemma dispatch_status_eq server (s : State) :
  dispatch_status server s =
  (status_to_json (status_new BROKER_VERSION
     (as_secs (duration_since (os_now (S (tick_of s))) server.(sv_started_at)))
     (bootstrap_mode server.(sv_config).(bootstrap))
     (map (λ ip, project_status ip.2) (snapshot (project_order (tick_of s)) s.(ss_reg)))),
   later 2 s).
Proof. done. Qed.

Lemma deref_put_cache id id' c (s : State) :
  deref id' (put_cache id c s) = if decide (id' = id) then
    match s.(ss_reg).(rs_heap) !! id with Some p => set_cache c p | None => no_project end
  else deref id' s.
Proof.
  unfold deref, put_cache. simpl. case_decide as Hid; [subst; rewrite lookup_alter_eq|].
  - by destruct (rs_heap (ss_reg s) !! id).
  - by rewrite lookup_alter_ne.
Qed.

Lemma deref_put_cache_name id c (s : State) : (deref id (put_cache id c s)).(p_name) = (deref id s).(p_name).
Proof. rewrite deref_put_cache, decide_True by done. unfold deref. by destruct (rs_heap (ss_reg s) !! id). Qed.

End equations.

(** ** A small environment, for the witnesses *)

Definition demo_unicode : UnicodeTables := λ _, true.
Definition demo_order : HashOrder := mkHashOrder (λ _, default_iter) (λ _, default_iter).
Definition demo_fnox : FnoxCore string := mkFnoxCore _
  (λ _ path, Ok path) (λ _, Ok "discovered")
  (λ _ _ name, if decide (name = "GITHUB_TOKEN") then Ok (Some "ghp_1") else Ok None).
Definition demo_server : Server :=
  server_new (mkConfig SourceImds "/run/remo-broker" "/var/log/remo-broker/audit.log"
                (from_secs 900) 32 (from_millis 5000) None) 0.
Definition demo_peer : Peer := mkPeer (Some 42) (Some 1000).

(** The daemon with the project of the manifest demo registered. *)
Definition demo_state : ServerState string :=
  (@dispatch_register string demo_os demo_toml demo_unicode demo_server "myrepo" "/projects/myrepo"
     (server_init (Some (mkBackendSession "session")))).2.
