(* ===== verification/Fetch.v ===== *)
(** * What the project socket guarantees

    Properties of [dispatch_get] and [dispatch_project] ([src/server.rs]): who
    gets a value, where it comes from, what is recorded about it and what a
    request can change. *)

From S2P Require Import Prelude Str Path Json Os Manifest Cache Config AuditLog Backend Proto Registry Bootstrap Server.
Open Scope Z_scope.

Definition succeeded (j : json) : Prop := json_field "ok" j = Some (JBool true).

Section fetch.
Context {Fnox : Type} `{Os, Outside, TomlManifest, UnicodeTables, HashOrder, FnoxCore Fnox}.
Local Abbreviation State := (ServerState Fnox).

Implicit Types (s : State) (id : nat) (name : string) (peer : Peer) (start : Instant).

Lemma get_allowed id name peer start s :
  allowed id name s →
  dispatch_get id name peer start s =
  let p := deref id s in
  let '(hit, c) := Cache.get (os_now (tick_of s)) name p.(p_cache) in
  let s1 := put_cache id c (later 1 s) in
  let event d o b := fetch_event (tick_of s1) p.(p_name) name d o peer start b None in
  match hit with
  | Some h => (get_response_to_json (get_utf8 h.(hit_value) h.(hit_ttl_seconds)),
               recorded (event Allow OutcomeOk (Some "cache")) (later 2 s1))
  | None =>
      match s.(ss_backend) with
      | None => (project_error_to_json no_backend_error,
                 recorded (event Allow OutcomeBackendError None) (later 2 s1))
      | Some session =>
          get_after id name peer start (fnox_get (tick_of s1) session.(inner) name) (later 1 s1)
      end
  end.
Proof.
  intros Ha. rewrite dispatch_get_eq, get_before_eq. cbv zeta. rewrite decide_True by done.
  destruct (Cache.get _ _ _) as [[h|] c]; [done|]. by destruct (ss_backend s).
Qed.

(** C3: a name that is not in the project's allowlist is refused: the answer is
    [denied], one [deny] event with reason [allowlist] is recorded, and nothing
    else happens.  No cache is read or changed and the backend is not asked;
    the only interactions with the outside are the two clock readings of the
    event. *)
Theorem get_denied id name peer start s :
  ¬ allowed id name s →
  dispatch_get id name peer start s =
    (project_error_to_json (denied_error name),
     recorded (fetch_event (tick_of s) (deref id s).(p_name) name Deny OutcomeOk peer start
                 None (Some "allowlist")) (later 2 s)).
Proof. intros Ha. rewrite dispatch_get_eq, get_before_eq. cbv zeta. by rewrite decide_False. Qed.

(** Where the value in a response comes from. *)
Definition value_origin id name s (v : string) (ttl : Z) : Prop :=
  (∃ e, (deref id s).(p_cache).(c_map) !! name = Some e ∧ e.(ce_value) = v ∧
        is_expired e (os_now (tick_of s)) = false ∧
        ttl = as_u32 (as_secs (remaining_ttl e (os_now (tick_of s))))) ∨
  (∃ session n, s.(ss_backend) = Some session ∧ fnox_get n session.(inner) name = Ok (Some v)).

Lemma cache_get_hit t name c h c' :
  Cache.get t name c = (Some h, c') →
  ∃ e, c.(c_map) !! name = Some e ∧ h.(hit_value) = e.(ce_value) ∧ is_expired e t = false ∧
       h.(hit_ttl_seconds) = as_u32 (as_secs (remaining_ttl e t)) ∧ c' = c.
Proof.
  unfold Cache.get. destruct (c_map c !! name) as [e|]; [|done].
  destruct (is_expired e t) eqn:He; intros [= <- <-]. eauto 10.
Qed.

(** C2: a secret leaves the daemon only when the allowlist of the manifest in
    force names it, and what leaves is the live entry of this project's own
    cache under that name, or what the current backend session answered for
    that name. *)
Theorem get_value_authorized id name peer start s :
  succeeded (dispatch_get id name peer start s).1 →
  allowed id name s ∧
  ∃ v ttl, (dispatch_get id name peer start s).1 = get_response_to_json (get_utf8 v ttl) ∧
           value_origin id name s v ttl.
Proof.
  intros Hok. destruct (decide (allowed id name s)) as [Ha|Ha].
  2:{ rewrite dispatch_get_eq, get_before_eq in Hok. cbv zeta in Hok. by rewrite decide_False in Hok. }
  split; [done|]. revert Hok. rewrite get_allowed by done. cbv zeta. unfold value_origin.
  destruct (Cache.get _ _ _) as [[h|] c] eqn:Hget.
  - intros _. apply cache_get_hit in Hget as (e & He & Hv & Hx & Ht & _). eexists _, _.
    split; [done|]. left. exists e. by rewrite Hv, Ht.
  - destruct (ss_backend s) as [session|] eqn:Hb; [|done].
    rewrite get_after_eq. cbv zeta.
    destruct (fnox_get _ _ _) as [[v|]|msg] eqn:Hf; [|done..].
    intros _. eexists _, _. split; [done|]. right. by eauto.
Qed.

(** ** What the audit log says of a [get] *)

(** The live entry of this project's cache under a name. *)
Definition live_entry id name s : option CacheEntry :=
  e ← (deref id s).(p_cache).(c_map) !! name;
  if is_expired e (os_now (tick_of s)) then None else Some e.

(** The one true event for each way a [get] can go: decision, outcome, backend
    and reason, with the response the client is sent. *)
Inductive truthful id name s : Decision' → Outcome → option string → option string → json → Prop :=
  | true_denied :
      ¬ allowed id name s →
      truthful id name s Deny OutcomeOk None (Some "allowlist") (project_error_to_json (denied_error name))
  | true_cached e :
      allowed id name s → live_entry id name s = Some e →
      truthful id name s Allow OutcomeOk (Some "cache") None
        (get_response_to_json (get_utf8 e.(ce_value) (as_u32 (as_secs (remaining_ttl e (os_now (tick_of s)))))))
  | true_no_session :
      allowed id name s → live_entry id name s = None → s.(ss_backend) = None →
      truthful id name s Allow OutcomeBackendError None None (project_error_to_json no_backend_error)
  | true_fetched session n v ttl :
      allowed id name s → live_entry id name s = None → s.(ss_backend) = Some session →
      fnox_get n session.(inner) name = Ok (Some v) →
      truthful id name s Allow OutcomeOk (Some "fnox") None (get_response_to_json (get_utf8 v ttl))
  | true_missing session n :
      allowed id name s → live_entry id name s = None → s.(ss_backend) = Some session →
      fnox_get n session.(inner) name = Ok None →
      truthful id name s Allow OutcomeNotFound (Some "fnox") None (project_error_to_json (not_found_error name))
  | true_failed session n msg :
      allowed id name s → live_entry id name s = None → s.(ss_backend) = Some session →
      fnox_get n session.(inner) name = Err msg →
      truthful id name s Allow OutcomeBackendError (Some "fnox") None (project_error_to_json (backend_failed msg)).

Lemma cache_get_live id name s :
  (Cache.get (os_now (tick_of s)) name (deref id s).(p_cache)).1 =
    (λ e, mkCacheHit e.(ce_value) (as_u32 (as_secs (remaining_ttl e (os_now (tick_of s)))))) <$> live_entry id name s.
Proof.
  unfold Cache.get, live_entry. destruct (c_map _ !! name) as [e|]; [|done]. simpl.
  by destruct (is_expired e _).
Qed.

(** One event about this project, this secret and this peer. *)
Lemma audited id name peer start s n d o b r j s' :
  dispatch_get id name peer start s =
    (j, recorded (fetch_event n (deref id s).(p_name) name d o peer start b r) s') →
  s'.(ss_audit) = s.(ss_audit) → truthful id name s d o b r j →
  ∃ e, (dispatch_get id name peer start s).2.(ss_audit) = record (Fetch e) s.(ss_audit) ∧
    e.(fe_project) = (deref id s).(p_name) ∧ e.(fe_secret_name) = name ∧
    e.(fe_peer_pid) = peer.(peer_pid) ∧ e.(fe_peer_uid) = peer.(peer_uid) ∧
    e.(fe_latency_ms) = saturate_u32 (as_millis (duration_since (os_now n) start)) ∧
    truthful id name s e.(fe_decision) e.(fe_outcome) e.(fe_backend) e.(fe_reason)
      (dispatch_get id name peer start s).1.
Proof. intros -> Ha Ht. eexists. simpl. rewrite Ha. split; [done|]. by split_and!. Qed.

(** C4: every [get], whatever its result, records exactly one event, and the
    event is the true one: it names this project, this secret and this peer,
    and its decision, outcome, backend and reason are those of what happened
    and of the response sent: [deny] exactly for a name outside the allowlist,
    [cache] exactly when the project's cache has a live entry, [fnox] exactly
    when the session was asked, with the outcome it gave, and no backend when
    there is no session. *)
Theorem get_audited id name peer start s :
  ∃ e n, (dispatch_get id name peer start s).2.(ss_audit) = record (Fetch e) s.(ss_audit) ∧
    e.(fe_project) = (deref id s).(p_name) ∧ e.(fe_secret_name) = name ∧
    e.(fe_peer_pid) = peer.(peer_pid) ∧ e.(fe_peer_uid) = peer.(peer_uid) ∧
    e.(fe_latency_ms) = saturate_u32 (as_millis (duration_since (os_now n) start)) ∧
    truthful id name s e.(fe_decision) e.(fe_outcome) e.(fe_backend) e.(fe_reason)
      (dispatch_get id name peer start s).1.
Proof.
  enough (∃ n d o b r j s', dispatch_get id name peer start s =
    (j, recorded (fetch_event n (deref id s).(p_name) name d o peer start b r) s') ∧
    s'.(ss_audit) = s.(ss_audit) ∧ truthful id name s d o b r j)
    as (n & d & o & b & r & j & s' & Hd & Ha & Ht).
  { destruct (audited id name peer start s n d o b r j s' Hd Ha Ht) as (e & He). by exists e, n. }
  destruct (decide (allowed id name s)) as [Ha|Ha].
  2:{ rewrite dispatch_get_eq, get_before_eq. cbv zeta. rewrite decide_False by done.
      do 7 eexists. split; [done|]. split; [done|by constructor]. }
  rewrite get_allowed by done. cbv zeta. pose proof (cache_get_live id name s) as Hl.
  destruct (Cache.get _ _ _) as [hit c]. cbn [fst] in Hl. subst hit.
  destruct (live_entry id name s) as [e|] eqn:He; simpl.
  { do 7 eexists. split; [done|]. split; [done|by constructor]. }
  destruct (ss_backend s) as [session|] eqn:Hb.
  2:{ do 7 eexists. split; [done|]. split; [done|by constructor]. }
  rewrite get_after_eq. cbv zeta.
  assert (p_name (deref id (later 1 (put_cache id c (later 1 s)))) = p_name (deref id s)) as ->
    by apply (deref_put_cache_name id c (later 1 s)).
  destruct (fnox_get _ _ _) as [[v|]|msg] eqn:Hf; do 7 eexists; (split; [done|]); (split; [done|]);
    by econstructor.
Qed.

(** ** What a request can change *)

(** [s'] is [s] with events appended to the audit channel, a later interaction
    number, and other contents in the cache of project [id]. *)
Record cache_only id s s' : Prop := mk_cache_only {
  co_backend : s'.(ss_backend) = s.(ss_backend);
  co_tasks : s'.(ss_tasks) = s.(ss_tasks);
  co_loops : s'.(ss_loops) = s.(ss_loops);
  co_reg : ∃ k c, s'.(ss_reg) = set_heap (alter (set_cache c) id s.(ss_reg).(rs_heap)) (ticked k s.(ss_reg)) ∧
    c.(c_max_entries) = (deref id s).(p_cache).(c_max_entries) ∧
    c.(c_default_ttl) = (deref id s).(p_cache).(c_default_ttl);
}.

Lemma set_cache_same id s :
  alter (set_cache (deref id s).(p_cache)) id s.(ss_reg).(rs_heap) = s.(ss_reg).(rs_heap).
Proof. apply alter_id. intros p Hp. unfold deref. rewrite Hp. by destruct p. Qed.

Lemma cache_only_later id k s : cache_only id s (later k s).
Proof.
  split; try done. exists k, (deref id s).(p_cache). rewrite set_cache_same. by destruct s as [[]].
Qed.

Lemma cache_only_recorded id e s s' : cache_only id s s' → cache_only id s (recorded e s').
Proof. intros []. by split. Qed.

Lemma cache_only_put id c s :
  c.(c_max_entries) = (deref id s).(p_cache).(c_max_entries) →
  c.(c_default_ttl) = (deref id s).(p_cache).(c_default_ttl) →
  cache_only id s (put_cache id c s).
Proof. intros H1' H2'. split; try done. exists 0%nat, c. by destruct s as [[]]. Qed.

Lemma cache_only_trans id s1 s2 s3 :
  cache_only id s1 s2 → cache_only id s2 s3 → cache_only id s1 s3.
Proof.
  intros [?? ? (k1 & c1 & Hr1 & Hm1 & Ht1)] [??? (k2 & c2 & Hr2 & Hm2 & Ht2)].
  split; [congruence..|].
  assert (Hd : (deref id s2).(p_cache).(c_max_entries) = (deref id s1).(p_cache).(c_max_entries) ∧
               (deref id s2).(p_cache).(c_default_ttl) = (deref id s1).(p_cache).(c_default_ttl)).
  { unfold deref at 1 3. rewrite Hr1. simpl. rewrite lookup_alter_eq.
    unfold deref in *. by destruct (rs_heap (ss_reg s1) !! id). }
  exists (k2 + k1)%nat, c2. rewrite Hr2, Hr1, Hm2, Ht2. simpl. split; [|done].
  unfold set_heap, ticked. simpl. f_equal; [lia|]. apply map_eq. intros i.
  destruct (decide (i = id)) as [->|]; [|by rewrite !lookup_alter_ne].
  rewrite !lookup_alter_eq. by destruct (rs_heap (ss_reg s1) !! id).
Qed.

Lemma cache_get_bounds t name c :
  (Cache.get t name c).2.(c_max_entries) = c.(c_max_entries) ∧
  (Cache.get t name c).2.(c_default_ttl) = c.(c_default_ttl).
Proof. unfold Cache.get. by repeat case_match. Qed.

Lemma get_before_frame id name peer start s :
  cache_only id s (get_before id name peer start s).2.
Proof.
  rewrite get_before_eq. cbv zeta. case_decide; [|apply cache_only_recorded, cache_only_later].
  pose proof (cache_get_bounds (os_now (tick_of s)) name (deref id s).(p_cache)) as [Hm Ht].
  destruct (Cache.get _ _ _) as [hit c]. simpl in *.
  assert (cache_only id s (put_cache id c (later 1 s))) as Hput.
  { eapply cache_only_trans; [apply (cache_only_later id 1)|]. by apply cache_only_put. }
  destruct hit; [|destruct (ss_backend s)]; simpl; [..|done|];
    apply cache_only_recorded; (eapply cache_only_trans; [exact Hput|]); apply cache_only_later.
Qed.

Lemma get_after_frame id name peer start answer s :
  cache_only id s (get_after id name peer start answer s).2.
Proof.
  rewrite get_after_eq. cbv zeta.
  destruct answer as [[v|]|]; simpl; apply cache_only_recorded;
    [|apply (cache_only_later id 2)..].
  eapply cache_only_trans; [|apply cache_only_later].
  eapply cache_only_trans; [apply (cache_only_later id 1)|]. by apply cache_only_put.
Qed.

Lemma dispatch_get_frame id name peer start s :
  cache_only id s (dispatch_get id name peer start s).2.
Proof.
  rewrite dispatch_get_eq. pose proof (get_before_frame id name peer start s) as Hb.
  destruct (get_before _ _ _ _ s) as [[j|f] s1]; [done|].
  eapply cache_only_trans; [exact Hb|]. eapply cache_only_trans; [apply (cache_only_later id 1)|].
  apply get_after_frame.
Qed.

Lemma dispatch_project_frame id req peer start s :
  cache_only id s (dispatch_project id req peer start s).2.
Proof.
  destruct req; [apply dispatch_get_frame|..];
    (split; [done..|]); exists 0%nat, (deref id s).(p_cache); rewrite set_cache_same;
    by destruct s as [[]].
Qed.

(** C22: a request on one project's socket touches that project's cache contents
    and the audit channel only: the project map, every other project, this
    project's manifest, paths and cache bounds, the socket files, the accept
    loops and the backend session are as before. *)
Theorem project_isolation id req peer start s :
  let s' := (dispatch_project id req peer start s).2 in
  s'.(ss_backend) = s.(ss_backend) ∧ s'.(ss_tasks) = s.(ss_tasks) ∧ s'.(ss_loops) = s.(ss_loops) ∧
  s'.(ss_reg).(rs_map) = s.(ss_reg).(rs_map) ∧ s'.(ss_reg).(rs_nodes) = s.(ss_reg).(rs_nodes) ∧
  (∀ id', id' ≠ id → s'.(ss_reg).(rs_heap) !! id' = s.(ss_reg).(rs_heap) !! id') ∧
  (∀ p, s.(ss_reg).(rs_heap) !! id = Some p → ∃ c,
     s'.(ss_reg).(rs_heap) !! id = Some (set_cache c p) ∧
     c.(c_max_entries) = p.(p_cache).(c_max_entries) ∧
     c.(c_default_ttl) = p.(p_cache).(c_default_ttl)).
Proof.
  destruct (dispatch_project_frame id req peer start s) as [Hb Ht Hl (k & c & Hr & Hm & Hd)].
  simpl. split_and!; [done..| | | |]; rewrite ?Hr; simpl; [done|done| |].
  - intros id' Hne. by rewrite lookup_alter_ne.
  - intros p Hp. rewrite lookup_alter_eq, Hp. simpl. exists c. unfold deref in *. by rewrite Hp in *.
Qed.

(** ** The cache in front of the backend *)

Lemma get_live id name peer start s e :
  allowed id name s → (deref id s).(p_cache).(c_map) !! name = Some e →
  is_expired e (os_now (tick_of s)) = false →
  (dispatch_get id name peer start s).1 =
    get_response_to_json (get_utf8 e.(ce_value) (as_u32 (as_secs (remaining_ttl e (os_now (tick_of s)))))).
Proof.
  intros Ha He Hx. rewrite get_allowed by done. cbv zeta. unfold Cache.get. by rewrite He, Hx.
Qed.

(** Once the backend has answered a [get] with a value, every later [get]
    for it that finds the project as that one left it is served from the cache
    with that value until the TTL of the project has passed since the fetch,
    whatever the backend does meanwhile, also when there is none. *)
Theorem fetched_then_cached id name peer start s p session v :
  s.(ss_reg).(rs_heap) !! id = Some p → allowed id name s →
  (Cache.get (os_now (tick_of s)) name p.(p_cache)).1 = None →
  s.(ss_backend) = Some session → fnox_get (1 + tick_of s) session.(inner) name = Ok (Some v) →
  let t0 := os_now (2 + tick_of s) in
  let ttl := p.(p_cache).(c_default_ttl) in
  let '(j1, s1) := dispatch_get id name peer start s in
  j1 = get_response_to_json (get_utf8 v (saturate_u32 (as_secs ttl))) ∧
  ∀ peer' start' (s2 : State), deref id s2 = deref id s1 →
    t0 ≤ os_now (tick_of s2) < t0 + ttl →
    (dispatch_get id name peer' start' s2).1 =
      get_response_to_json (get_utf8 v (as_u32 (as_secs (ttl - (os_now (tick_of s2) - t0))))).
Proof.
  intros Hp Ha Hmiss Hb Hf t0 ttl. rewrite get_allowed by done. cbv zeta.
  assert (Hd : deref id s = p) by (unfold deref; by rewrite Hp).
  rewrite Hd. pose proof (cache_get_bounds (os_now (tick_of s)) name p.(p_cache)) as [Hm Ht].
  destruct (Cache.get _ _ _) as [h c]. simpl in Hmiss, Hm, Ht. subst h. rewrite Hb.
  rewrite get_after_eq. cbv zeta.
  change (tick_of (put_cache id c (later 1 s))) with (1 + tick_of s)%nat. rewrite Hf.
  set (s1 := inserted id name v (later 1 (put_cache id c (later 1 s)))).
  assert (Hs1 : deref id s1 = set_cache (Cache.insert (cache_order (2 + tick_of s)) t0 name v None c).2
                                (set_cache c p)).
  { assert (Hc : (deref id (later 1 (put_cache id c (later 1 s)))).(p_cache) = c)
      by (unfold deref; simpl; by rewrite lookup_alter_eq, Hp).
    unfold s1, inserted. rewrite deref_put_cache, decide_True, Hc by done.
    cbn -[Cache.insert]. by rewrite lookup_alter_eq, Hp. }
  rewrite Hs1. split; [simpl; by rewrite Ht|].
  intros peer' start' s2 Heq Htime. change (deref id (recorded _ (later 2 s1))) with (deref id s1) in Heq.
  rewrite Hs1 in Heq.
  rewrite (get_live id name peer' start' s2 (mkCacheEntry v t0 ttl)).
  - do 4 f_equal. simpl. unfold remaining_ttl, saturating_sub, duration_since. simpl. lia.
  - unfold allowed. rewrite Heq. simpl. unfold allowed in Ha. by rewrite Hd in Ha.
  - rewrite Heq. simpl. rewrite lookup_insert_eq. by rewrite Ht.
  - unfold is_expired, duration_since. simpl. apply Z.leb_gt. lia.
Qed.

End fetch.

(** ** Witnesses *)

Local Abbreviation demo_get :=
  (@dispatch_get string demo_os demo_unicode demo_order demo_fnox 0%nat).

Lemma get_denied_witness :
  (demo_get "AWS_KEY" demo_peer 0 demo_state).1 =
    project_error_to_json (@denied_error demo_unicode "AWS_KEY").
Proof.
  rewrite (@get_denied string demo_os demo_unicode demo_order demo_fnox); [reflexivity|].
  apply (bool_decide_unpack _). vm_compute. exact I.
Defined.

Lemma get_value_authorized_witness :
  allowed 0 "GITHUB_TOKEN" demo_state.
Proof.
  apply (@get_value_authorized string demo_os demo_unicode demo_order demo_fnox
    0 "GITHUB_TOKEN" demo_peer 0 demo_state).
  vm_compute. reflexivity.
Defined.

Lemma fetched_then_cached_witness :
  (demo_get "GITHUB_TOKEN" demo_peer 0 demo_state).1 = get_response_to_json (get_utf8 "ghp_1" 600).
Proof.
  pose proof (@fetched_then_cached string demo_os demo_unicode demo_order demo_fnox
    0 "GITHUB_TOKEN" demo_peer 0 demo_state (deref 0 demo_state) (mkBackendSession "session") "ghp_1"
    ltac:(vm_compute; reflexivity) ltac:(apply (bool_decide_unpack _); vm_compute; exact I)
    ltac:(vm_compute; reflexivity) ltac:(vm_compute; reflexivity) ltac:(vm_compute; reflexivity)) as H.
  destruct (demo_get _ _ _ _) as [j1 s1]. exact (proj1 H).
Defined.
