(* ===== verification/Secrecy.v ===== *)
(** * Secret values stay out of the audit log

    [erase] blanks every secret value the daemon holds, in every cache.  Each
    handler commutes with it: run on the erased state, with a backend whose
    answers are erased too, it does the same and gives the same response, up to
    the [value] field.  Two daemons that differ in secret values only therefore
    record the same events, keep the same state and give the same answers up to
    that field. *)

From S2P Require Import Prelude Str Path Json Os Manifest Cache Config AuditLog Backend Proto Registry Bootstrap Server.
Open Scope Z_scope.

(** ** Erasure *)

Definition erase_entry (e : CacheEntry) : CacheEntry := mkCacheEntry "" e.(ce_fetched_at) e.(ce_ttl).
Definition erase_cache (c : BoundedCache) : BoundedCache := set_map (fmap erase_entry) c.
Definition erase_hit (h : CacheHit) : CacheHit := mkCacheHit "" h.(hit_ttl_seconds).
Definition erase_project (p : Project) : Project := set_cache (erase_cache p.(p_cache)) p.
Definition erase_reg (r : RegState) : RegState := set_heap (erase_project <$> r.(rs_heap)) r.
Definition erase {Fnox} (s : ServerState Fnox) : ServerState Fnox := set_reg (erase_reg s.(ss_reg)) s.

Definition erase_field (kv : string * json) : string * json :=
  if decide (kv.1 = "value") then (kv.1, JStr "") else kv.
Definition erase_response (j : json) : json :=
  match j with JObj fs => JObj (map erase_field fs) | _ => j end.

Definition erase_answer (r : result string (option string)) : result string (option string) :=
  match r with Ok (Some _) => Ok (Some "") | _ => r end.

(** The same backend with another table of answers. *)
Definition with_get {Fnox} (F : FnoxCore Fnox)
    (g : nat → Fnox → string → result string (option string)) : FnoxCore Fnox :=
  mkFnoxCore _ fnox_open fnox_discover g.

(** The iteration order of a hash map does not depend on the values in it. *)
Definition order_natural (it : hash_iter CacheEntry) : Prop :=
  ∀ m, hi_iter it (erase_entry <$> m) = prod_map id erase_entry <$> hi_iter it m.

(** ** The cache *)

Lemma cache_get_erase t name c :
  Cache.get t name (erase_cache c) =
  prod_map (fmap erase_hit) erase_cache (Cache.get t name c).
Proof.
  unfold Cache.get. simpl. rewrite lookup_fmap. destruct (c_map c !! name) as [e|]; [|done].
  simpl. change (is_expired (erase_entry e) t) with (is_expired e t).
  destruct (is_expired e t); [|done]. unfold erase_cache, set_map. simpl. by rewrite fmap_delete.
Qed.

Lemma min_by_key_erase l :
  min_by_key (λ kv : string * CacheEntry, kv.2.(ce_fetched_at)) (prod_map id erase_entry <$> l) =
  prod_map id erase_entry <$> min_by_key (λ kv, kv.2.(ce_fetched_at)) l.
Proof.
  induction l as [|[k e] l IH]; [done|]. rewrite fmap_cons. cbn [min_by_key]. rewrite IH.
  destruct (min_by_key _ l) as [[k' e']|]; [|done]. simpl. by destruct (_ <=? _).
Qed.

Lemma evict_oldest_erase it m :
  order_natural it → evict_oldest it (erase_entry <$> m) = erase_entry <$> evict_oldest it m.
Proof.
  intros Hn. unfold evict_oldest. rewrite Hn, min_by_key_erase.
  destruct (min_by_key _ _) as [[k e]|]; [|done]. simpl. by rewrite fmap_delete.
Qed.

Lemma cache_insert_erase it t name v ttl c :
  order_natural it →
  (Cache.insert it t name "" ttl (erase_cache c)).2 = erase_cache (Cache.insert it t name v ttl c).2.
Proof.
  intros Hn. rewrite !insert_kept. unfold erase_cache, set_map. simpl. f_equal.
  rewrite fmap_insert. f_equal. unfold kept, insert_evicts. simpl.
  assert (Hiff : (erase_entry <$> c_map c) !! name = None ∧
            c_max_entries c ≤ Z.of_nat (size (erase_entry <$> c_map c)) ↔
          c_map c !! name = None ∧ c_max_entries c ≤ Z.of_nat (size (c_map c)))
    by by rewrite map_size_fmap, lookup_fmap, fmap_None.
  rewrite (bool_decide_ext _ _ Hiff). case_bool_decide; [by apply evict_oldest_erase|].
  by rewrite fmap_delete.
Qed.

(** ** The project socket *)

Section project.
Context {Fnox : Type} `{Os, UnicodeTables, HashOrder}.
Context (Horder : ∀ n, order_natural (cache_order n)).
Implicit Types (s : ServerState Fnox).

Lemma deref_erase id s : deref id (erase s) = erase_project (deref id s).
Proof. unfold deref. simpl. rewrite lookup_fmap. by destruct (rs_heap (ss_reg s) !! id). Qed.

Lemma allowed_erase id name s : allowed id name (erase s) ↔ allowed id name s.
Proof. unfold allowed. by rewrite deref_erase. Qed.

Lemma put_cache_erase id c s : erase (put_cache id c s) = put_cache id (erase_cache c) (erase s).
Proof.
  unfold erase, put_cache, set_reg, erase_reg, set_heap. simpl. do 2 f_equal. apply map_eq. intros i.
  destruct (decide (i = id)) as [->|].
  - rewrite lookup_fmap, !lookup_alter_eq, lookup_fmap. by destruct (rs_heap (ss_reg s) !! id).
  - by rewrite lookup_fmap, !lookup_alter_ne, lookup_fmap.
Qed.

Lemma value_response_erase v ttl :
  erase_response (get_response_to_json (get_utf8 v ttl)) = get_response_to_json (get_utf8 "" ttl).
Proof. done. Qed.

Definition erase_step (r : json + Fnox) : json + Fnox :=
  match r with inl j => inl (erase_response j) | inr f => inr f end.

Lemma get_before_erase id name peer start s :
  get_before id name peer start (erase s) =
  prod_map erase_step erase (get_before id name peer start s).
Proof.
  rewrite !get_before_eq. cbv zeta. rewrite deref_erase. pose proof (allowed_erase id name s) as Hiff.
  destruct (decide (allowed id name (erase s))), (decide (allowed id name s)); [|tauto..|done].
  change (p_cache (erase_project (deref id s))) with (erase_cache (p_cache (deref id s))).
  rewrite cache_get_erase. change (tick_of (erase s)) with (tick_of s).
  destruct (Cache.get _ _ _) as [hit c]. cbn [prod_map fst snd].
  pose proof (put_cache_erase id c (later 1 s)) as Hp.
  change (erase (later 1 s)) with (later 1 (erase s)) in Hp. rewrite <-Hp.
  destruct hit as [h|]; [done|]. simpl. by destruct (ss_backend s).
Qed.

Lemma get_after_erase id name peer start answer s :
  get_after id name peer start (erase_answer answer) (erase s) =
  prod_map erase_response erase (get_after id name peer start answer s).
Proof.
  rewrite !get_after_eq. cbv zeta. rewrite deref_erase.
  destruct answer as [[v|]|msg]; [|done..]. simpl erase_answer. cbv iota.
  assert (Hi : inserted id name "" (erase s) = erase (inserted id name v s)).
  { unfold inserted. rewrite put_cache_erase, deref_erase.
    change (p_cache (erase_project (deref id s))) with (erase_cache (p_cache (deref id s))).
    change (tick_of (erase s)) with (tick_of s). by rewrite <-(cache_insert_erase _ _ _ v). }
  rewrite Hi, deref_erase. done.
Qed.

Lemma dispatch_get_erase `{F : FnoxCore Fnox} g g' id name peer start s :
  (∀ n f name, g' n f name = erase_answer (g n f name)) →
  @dispatch_get Fnox _ _ _ (with_get F g') id name peer start (erase s) =
  prod_map erase_response erase (@dispatch_get Fnox _ _ _ (with_get F g) id name peer start s).
Proof.
  intros Hg. rewrite !dispatch_get_eq, get_before_erase.
  destruct (get_before _ _ _ _ s) as [[j|f] s1]; [done|]. simpl.
  change (tick_of (erase s1)) with (tick_of s1). rewrite Hg.
  apply (get_after_erase id name peer start _ (later 1 s1)).
Qed.

End project.

(** ** The admin socket *)

Section admin.
Context {Fnox : Type} `{Os, Outside, TomlManifest, UnicodeTables, HashOrder}.
Context (server : Server).
Implicit Types (s : ServerState Fnox) (r : RegState).

(** An operation of the registry that does not look at values. *)
Definition value_blind {A} (m : ST RegState A) : Prop :=
  ∀ r, m (erase_reg r) = prod_map id erase_reg (m r).

Lemma in_registry_erase {A} (m : ST RegState A) s :
  value_blind m → in_registry m (erase s) = prod_map id erase (in_registry m s).
Proof.
  intros Hm. unfold in_registry, zoom. simpl. rewrite Hm. by destruct (m (ss_reg s)).
Qed.

Lemma register_blind reg name path : value_blind (register reg name path).
Proof.
  intros r. rewrite !register_eq. simpl.
  destruct (Manifest.load _ _) as [[m mp]|e]; [|done]. case_decide; [done|].
  destruct (rs_map r !! name); [done|].
  destruct (bind_socket _ _ _ _ _) as [[u|e] ns]; [|done].
  unfold erase_reg, set_heap, prod_map. simpl. by rewrite fmap_insert.
Qed.

Lemma unregister_blind name : value_blind (unregister name).
Proof. intros r. unfold unregister. simpl. by destruct (rs_map r !! name). Qed.

Lemma reload_blind reg name : value_blind (reload reg name).
Proof.
  intros r. rewrite !reload_eq. simpl.
  destruct (rs_map r !! name) as [id|]; simpl; [|done]. rewrite lookup_fmap.
  destruct (rs_heap r !! id) as [p|]; simpl; [|done].
  destruct (Manifest.load _ _) as [[m mp]|e]; [|done]. case_decide; [done|].
  unfold erase_reg, set_heap, prod_map. simpl. by rewrite fmap_insert.
Qed.

Lemma remove_socket_erase path s :
  remove_socket path (erase s) = prod_map id erase (remove_socket path s).
Proof.
  unfold remove_socket, interaction, in_registry, zoom, mbind, ST_bind. simpl.
  by destruct (remove_file _ _ _).
Qed.

Lemma end_loop_erase name s : end_loop name (erase s) = prod_map id erase (end_loop name s).
Proof. unfold end_loop, modify. simpl. by destruct (ss_tasks s !! name). Qed.

Lemma snapshot_erase it s :
  snapshot it (erase s).(ss_reg) = prod_map id erase_project <$> snapshot it s.(ss_reg).
Proof.
  unfold snapshot. simpl. induction (hi_iter it (rs_map (ss_reg s))) as [|[k i] l IH]; [done|].
  unfold omap in *. cbn [list_omap snd]. rewrite lookup_fmap.
  destruct (rs_heap (ss_reg s) !! i); simpl; [|exact IH]. f_equal. exact IH.
Qed.

Lemma project_status_erase p : project_status (erase_project p) = project_status p.
Proof. unfold project_status, Cache.len. simpl. by rewrite map_size_fmap. Qed.

Lemma dispatch_status_erase s :
  dispatch_status server (erase s) = prod_map erase_response erase (dispatch_status server s).
Proof.
  rewrite !dispatch_status_eq, snapshot_erase.
  assert (Hl : ∀ l : list (nat * Project),
    map (λ ip, project_status ip.2) (prod_map id erase_project <$> l) = map (λ ip, project_status ip.2) l).
  { intros l. induction l as [|[i p] l IH]; [done|]. simpl. rewrite project_status_erase. f_equal. exact IH. }
  by rewrite Hl.
Qed.

Lemma rotate_erase (F : FnoxCore Fnox) g g' s :
  @dispatch_rotate_bootstrap Fnox _ _ _ (with_get F g') server (erase s) =
  prod_map erase_response erase (@dispatch_rotate_bootstrap Fnox _ _ _ (with_get F g) server s).
Proof.
  unfold dispatch_rotate_bootstrap. rewrite !ST_bind_unfold. cbn [gets fst snd].
  change (ss_backend (erase s)) with (ss_backend s).
  destruct (ss_backend s) as [session|]; [|done]. rewrite !ST_bind_unfold.
  assert (Ht : in_counter (fetch_token (bootstrap (sv_config server))) (erase s) =
          prod_map id erase (in_counter (fetch_token (bootstrap (sv_config server))) s)).
  { apply in_registry_erase. intros r. unfold zoom. simpl. by destruct (fetch_token _ _). }
  rewrite Ht. destruct (in_counter _ s) as [[t|e] s1]; [|done]. simpl.
  rewrite !ST_bind_unfold. change (interaction (erase s1)).1 with (interaction s1).1.
  unfold Backend.open, Backend.discover. simpl.
  destruct (fnox_config_path _) as [path|].
  - by destruct (fnox_open _ path).
  - by destruct (fnox_discover _).
Qed.

Lemma dispatch_admin_erase (F : FnoxCore Fnox) g g' req s :
  @dispatch_admin Fnox _ _ _ _ _ (with_get F g') server req (erase s) =
  prod_map erase_response erase (@dispatch_admin Fnox _ _ _ _ _ (with_get F g) server req s).
Proof.
  destruct req as [name path|name|name| |]; simpl.
  - unfold dispatch_register. rewrite !ST_bind_unfold, in_registry_erase by apply register_blind.
    destruct (in_registry _ s) as [[id|e] s1]; simpl; [|done].
    unfold gets, mbind, ST_bind, mret, ST_ret. simpl. by rewrite deref_erase.
  - unfold dispatch_unregister. rewrite !ST_bind_unfold, in_registry_erase by apply unregister_blind.
    destruct (in_registry _ s) as [[id|e] s1]; simpl; [|done].
    unfold gets, mbind, ST_bind, mret, ST_ret. rewrite end_loop_erase, deref_erase.
    destruct (end_loop name s1) as [[] s2]. simpl. rewrite remove_socket_erase.
    by destruct (remove_socket _ s2).
  - unfold dispatch_reload. rewrite !ST_bind_unfold, in_registry_erase by apply reload_blind.
    by destruct (in_registry _ s) as [[m|e] s1].
  - apply dispatch_status_erase.
  - apply rotate_erase.
Qed.

End admin.

(** ** Noninterference *)

Section noninterference.
Context {Fnox : Type} `{Os, Outside, TomlManifest, UnicodeTables, HashOrder}.
Context (F : FnoxCore Fnox) (server : Server).
Implicit Types (s : ServerState Fnox).

(** The daemon whose backend answers [g]. *)
Definition run_with (g : nat → Fnox → string → result string (option string))
    : list request → ST (ServerState Fnox) (list json) :=
  @serve_all Fnox _ _ _ _ _ (with_get F g) server.

Lemma serve_erase g g' r s :
  (∀ n, order_natural (cache_order n)) →
  (∀ n f name, g' n f name = erase_answer (g n f name)) →
  @serve Fnox _ _ _ _ _ (with_get F g') server r (erase s) =
  prod_map erase_response erase (@serve Fnox _ _ _ _ _ (with_get F g) server r s).
Proof.
  intros Ho Hg. destruct r as [id req peer|req]; simpl; [|apply dispatch_admin_erase].
  unfold serve_project. rewrite !ST_bind_unfold.
  change (now (erase s)).2 with (erase (now s).2). change (now (erase s)).1 with (now s).1.
  generalize (now s).1 as start, (now s).2 as s1. intros start s1.
  unfold dispatch_project, gets, mbind, ST_bind, mret, ST_ret. rewrite deref_erase.
  destruct req as [name| |]; [by apply dispatch_get_erase|done..].
Qed.

Lemma run_with_erase g g' rs s :
  (∀ n, order_natural (cache_order n)) →
  (∀ n f name, g' n f name = erase_answer (g n f name)) →
  run_with g' rs (erase s) = prod_map (map erase_response) erase (run_with g rs s).
Proof.
  intros Ho Hg. revert s. induction rs as [|r rs IH]; intros s; [done|].
  unfold run_with. cbn [serve_all]. rewrite !ST_bind_unfold, (serve_erase g) by done.
  destruct (serve _ r s) as [j s1]. simpl.
  specialize (IH s1). unfold run_with in IH. rewrite IH. by destruct (serve_all _ rs s1).
Qed.

(** C5: secret values never reach the audit log.  Two daemons that agree on
    everything but the values they cache, with backends that agree on every
    answer but the values in it, given the same requests on any sockets: they
    record the same events, byte for byte, their states still agree on
    everything but values, and every response is the same but for its [value]
    field. *)
Theorem audit_noninterference g1 g2 rs s1 s2 :
  (∀ n, order_natural (cache_order n)) →
  (∀ n f name, erase_answer (g1 n f name) = erase_answer (g2 n f name)) →
  erase s1 = erase s2 →
  let '(js1, s1') := run_with g1 rs s1 in
  let '(js2, s2') := run_with g2 rs s2 in
  s1'.(ss_audit) = s2'.(ss_audit) ∧ erase s1' = erase s2' ∧
  map erase_response js1 = map erase_response js2.
Proof.
  intros Ho Hg Hs.
  pose proof (run_with_erase g1 (λ n f name, erase_answer (g1 n f name)) rs s1 Ho ltac:(done)) as H1'.
  pose proof (run_with_erase g2 (λ n f name, erase_answer (g1 n f name)) rs s2 Ho ltac:(by auto)) as H2'.
  rewrite Hs, H2' in H1'.
  destruct (run_with g1 rs s1) as [js1 s1'], (run_with g2 rs s2) as [js2 s2'].
  pose proof (f_equal fst H1') as Hj. pose proof (f_equal snd H1') as He. simpl in Hj, He.
  split_and!; [|done..]. by apply (f_equal ss_audit) in He.
Qed.

End noninterference.

(** ** Witness *)

(** An order given by the keys alone. *)
Definition key_iter : hash_iter CacheEntry.
Proof.
  refine (mkHashIter (λ m, omap (λ k, e ← m !! k; Some (k, e)) (elements (dom m))) _).
  intros m. induction m as [|k e m Hk IH] using map_ind.
  - done.
  - rewrite dom_insert_L, elements_union_singleton by (by apply not_elem_of_dom).
    rewrite map_to_list_insert by done. simpl. rewrite lookup_insert_eq. simpl. f_equiv.
    rewrite <-IH. apply Permutation_refl', list_omap_ext.
    apply Forall_Forall2_diag, Forall_forall. intros k' Hk'%elem_of_elements. rewrite lookup_insert_ne; [done|].
    intros ->. by apply not_elem_of_dom in Hk.
Defined.

Definition key_order : HashOrder := mkHashOrder (λ _, key_iter) (λ _, default_iter).

Lemma key_iter_natural : order_natural key_iter.
Proof.
  intros m. simpl. rewrite dom_fmap_L. induction (elements (dom m)) as [|k l IH]; [done|].
  unfold omap in *. cbn [list_omap]. rewrite lookup_fmap. by destruct (m !! k); simpl; rewrite IH.
Qed.

Definition leaky (secret : string) : nat → string → string → result string (option string) :=
  λ _ _ name, if decide (name = "GITHUB_TOKEN") then Ok (Some secret) else Err "unknown key".

(** Both daemons serve the same requests; the responses differ, the logs do
    not. *)
Definition demo_requests : list request :=
  [ProjectReq 0 (Get "GITHUB_TOKEN") demo_peer; ProjectReq 0 (Get "NPM_TOKEN") demo_peer; AdminReq Status].
Definition demo_run (secret : string) : list json * ServerState string :=
  @run_with string demo_os (demo_imds "{}") demo_toml demo_unicode key_order demo_fnox demo_server
    (leaky secret) demo_requests demo_state.

Lemma audit_noninterference_witness :
  (demo_run "alpha").2.(ss_audit) = (demo_run "beta").2.(ss_audit) ∧
  length (demo_run "alpha").2.(ss_audit).(ch_queue) = 2%nat ∧
  head (demo_run "alpha").1 = Some (get_response_to_json (get_utf8 "alpha" 600)) ∧
  head (demo_run "beta").1 = Some (get_response_to_json (get_utf8 "beta" 600)).
Proof.
  split; [|split_and!; vm_compute; reflexivity].
  pose proof (@audit_noninterference string demo_os (demo_imds "{}") demo_toml demo_unicode key_order
    demo_fnox demo_server (leaky "alpha") (leaky "beta") demo_requests demo_state demo_state
    (λ _, key_iter_natural)
    ltac:(intros n f name; unfold leaky; case_decide; reflexivity) eq_refl) as H.
  unfold demo_run.
  destruct (run_with _ _ (leaky "alpha") _ _) as [js1 s1], (run_with _ _ (leaky "beta") _ _) as [js2 s2].
  exact (proj1 H).
Defined.
