(* ===== verification/Admin.v ===== *)
(** * What the admin socket guarantees

    The invariant of the whole daemon state, kept by every request on every
    socket, and the effect of the admin operations ([src/server.rs]). *)

From S2P Require Import Prelude Str Path Json Os Manifest Cache Config AuditLog Backend Proto Registry Bootstrap Server Fetch.
Open Scope Z_scope.

Section admin.
Context {Fnox : Type} `{Os, Outside, TomlManifest, UnicodeTables, HashOrder, FnoxCore Fnox}.
Context (server : Server).
Local Abbreviation State := (ServerState Fnox).
Local Abbreviation reg := (sv_registry server).
Implicit Types (s : State) (name : string).

(** The accept-loop handles are those of the registered projects, and the loops
    that run are those with a handle. *)
Record server_inv s : Prop := mk_server_inv {
  si_reg : reg_inv reg s.(ss_reg);
  si_tasks : s.(ss_tasks) = s.(ss_reg).(rs_map);
  si_loops : ∀ id, id ∈ s.(ss_loops) ↔ ∃ name, s.(ss_tasks) !! name = Some id;
}.

Lemma server_init_inv (b : option (BackendSession Fnox)) : server_inv (server_init b).
Proof. split; [apply registry_new_inv|done|]. intros id. split; [set_solver|]. by intros []. Qed.

Lemma later_inv k s : server_inv s → server_inv (later k s).
Proof. intros []. split; try done. by apply ticked_inv. Qed.

Lemma heap_deref id p s : s.(ss_reg).(rs_heap) !! id = Some p → deref id s = p.
Proof. unfold deref. by intros ->. Qed.

(** Registered projects are distinct. *)
Lemma registered_inj s n1 n2 id :
  server_inv s → s.(ss_reg).(rs_map) !! n1 = Some id → s.(ss_reg).(rs_map) !! n2 = Some id → n1 = n2.
Proof.
  intros [Hr _ _] H1' H2'.
  destruct (ri_map _ _ Hr n1 id H1') as (p1 & Hp1 & <- & _).
  destruct (ri_map _ _ Hr n2 id H2') as (p2 & Hp2 & <- & _). congruence.
Qed.

(** ** Every request keeps the invariant *)

Lemma cache_only_reg_inv id s s' : cache_only id s s' → reg_inv reg s.(ss_reg) → reg_inv reg s'.(ss_reg).
Proof.
  intros [_ _ _ (k & c & Hr & Hm & Hd)] Hi. rewrite Hr.
  destruct (rs_heap (ss_reg s) !! id) as [p|] eqn:Hp.
  - assert (alter (set_cache c) id (rs_heap (ss_reg s)) = <[id := set_cache c p]> (rs_heap (ss_reg s))) as ->.
    { apply map_eq. intros i. destruct (decide (i = id)) as [->|].
      - by rewrite lookup_alter_eq, lookup_insert_eq, Hp.
      - by rewrite lookup_alter_ne, lookup_insert_ne. }
    rewrite (heap_deref id p) in Hm, Hd by done.
    by apply (set_cache_inv reg (ticked k (ss_reg s))); [apply ticked_inv|..].
  - rewrite alter_id by (intros; congruence). by apply (ticked_inv reg k) in Hi.
Qed.

Lemma cache_only_inv id s s' : cache_only id s s' → server_inv s → server_inv s'.
Proof.
  intros Hc [Hi Ht' Hl']. split; [by eapply cache_only_reg_inv|..].
  all: destruct Hc as [_ Ht Hl (k & c & Hr & Hm & Hd)].
  - rewrite Ht, Hr. done.
  - intros i. rewrite Hl, Ht. done.
Qed.

Lemma dispatch_register_inv name path s :
  server_inv s → server_inv (dispatch_register server name path s).2.
Proof.
  intros Hinv. pose proof (register_inv reg name path (ss_reg s) (si_reg s Hinv)) as Hreg.
  unfold dispatch_register, in_registry, zoom, mbind, ST_bind. rewrite register_eq in *.
  destruct Hinv as [Hi Ht Hl].
  destruct (Manifest.load _ _) as [[m mp]|e]; [|by split].
  case_decide; [by split|]. destruct (rs_map (ss_reg s) !! name) eqn:Hfree; [by split|].
  destruct (bind_socket _ _ _ _ _) as [[u|e] ns]; [|by split].
  split; simpl; [done|by rewrite Ht|]. intros id. rewrite elem_of_union, elem_of_singleton, Hl. split.
  - intros [->|[n Hn]]; [exists name; by rewrite lookup_insert_eq|]. exists n.
    rewrite lookup_insert_ne; [done|]. congruence.
  - intros [n [[<- <-]|[Hne Hn]]%lookup_insert_Some]; eauto.
Qed.

Lemma remove_file_other n path ns p : p ≠ path → (remove_file n path ns).2 !! p = ns !! p.
Proof.
  intros Hp. unfold remove_file. repeat case_match; simpl; by rewrite ?lookup_delete_ne.
Qed.

Lemma remove_socket_eq path s :
  remove_socket path s =
  let '(r, ns) := remove_file (tick_of s) path s.(ss_reg).(rs_nodes) in
  (r, set_reg (set_nodes ns (ticked 1 s.(ss_reg))) s).
Proof.
  unfold remove_socket, interaction, in_registry, zoom, mbind, ST_bind, tick_of. simpl.
  by destruct (remove_file _ _ _).
Qed.

(** What [dispatch_unregister] leaves. *)
Lemma dispatch_unregister_eq name s :
  dispatch_unregister name s =
  match s.(ss_reg).(rs_map) !! name with
  | None => (admin_error_to_json (admin_error_for (ProjectUnknown name)), s)
  | Some id =>
      let r := s.(ss_reg) in
      let '(_, ns) := remove_file r.(rs_tick) (deref id s).(p_socket_path) r.(rs_nodes) in
      (ok_to_json ok_new,
       mkServerState (mkRegState (S r.(rs_tick)) ns r.(rs_heap) r.(rs_next) (delete name r.(rs_map)))
         s.(ss_audit) s.(ss_backend)
         (delete name s.(ss_tasks))
         (match s.(ss_tasks) !! name with Some l => s.(ss_loops) ∖ {[l]} | None => s.(ss_loops) end))
  end.
Proof.
  unfold dispatch_unregister, in_registry, zoom, unregister, gets, mbind, ST_bind, mret, ST_ret.
  destruct (rs_map (ss_reg s) !! name) as [id|] eqn:Hid; simpl; [|by destruct s].
  destruct (ss_tasks s !! name) eqn:Hl; simpl.
  - rewrite remove_socket_eq. unfold tick_of, deref. simpl. by destruct (remove_file _ _ _).
  - rewrite remove_socket_eq. unfold tick_of, deref. simpl. rewrite (delete_id (ss_tasks s)) by done.
    by destruct (remove_file _ _ _).
Qed.

Lemma dispatch_unregister_inv name s :
  server_inv s → server_inv (dispatch_unregister name s).2.
Proof.
  intros Hinv. rewrite dispatch_unregister_eq.
  destruct (rs_map (ss_reg s) !! name) as [id|] eqn:Hid; [|done].
  destruct (ri_map _ _ (si_reg s Hinv) name id Hid) as (p & Hp & Hpn & Hs).
  destruct (ri_heap _ _ (si_reg s Hinv) id p Hp) as [Hok _].
  pose proof (unregister_inv reg name (ss_reg s) (si_reg s Hinv)) as Hun.
  unfold unregister in Hun. rewrite Hid in Hun. cbv zeta. rewrite (heap_deref id p) by done.
  rewrite (po_socket _ _ Hok), Hpn.
  pose proof (remove_file_other (rs_tick (ss_reg s)) (socket_path_for reg name) (rs_nodes (ss_reg s))) as Ho.
  destruct (remove_file _ _ _) as [r ns]. simpl in *. split; simpl.
  - eapply (inv_nodes_other reg _ ns name 1) in Hun; [exact Hun| |by simpl; rewrite lookup_delete_eq|exact Ho].
    rewrite <-Hpn. by eapply project_ok_valid_name.
  - by rewrite (si_tasks s Hinv).
  - intros i. rewrite (si_tasks s Hinv), Hid, elem_of_difference, elem_of_singleton, (si_loops s Hinv).
    rewrite (si_tasks s Hinv). split.
    + intros [[n Hn] Hne]. exists n. rewrite lookup_delete_ne; [done|]. congruence.
    + intros [n [Hne Hn]%lookup_delete_Some]. split; [eauto|]. intros ->. apply Hne.
      by eapply registered_inj.
Qed.

Lemma dispatch_reload_inv name s : server_inv s → server_inv (dispatch_reload server name s).2.
Proof.
  intros Hinv. pose proof (reload_inv reg name (ss_reg s) (si_reg s Hinv)) as Hreg.
  assert (Hmap : (reload reg name (ss_reg s)).2.(rs_map) = (ss_reg s).(rs_map)).
  { rewrite reload_eq. by repeat case_match. }
  destruct Hinv as [Hi Ht Hl]. unfold dispatch_reload, in_registry, zoom, mbind, ST_bind.
  destruct (reload reg name (ss_reg s)) as [[m|e] r]; simpl in *; split; simpl; congruence || done.
Qed.

(** What [rotate-bootstrap] does. *)
Lemma rotate_cases s :
  let '(j, s') := dispatch_rotate_bootstrap server s in
  (∃ session k n, s.(ss_backend) = Some session ∧ j = rotate_to_json rotate_ok ∧
     is_ok (fetch_token server.(sv_config).(bootstrap) (tick_of s)).1 = true ∧
     ∃ fnox, match server.(sv_config).(fnox_config_path) with
             | Some path => fnox_open n path | None => fnox_discover n end = Ok fnox ∧
     s' = set_backend (Some (mkBackendSession fnox)) (later k s)) ∨
  (∃ msg k, j = bootstrap_error msg ∧ s' = later k s).
Proof.
  unfold dispatch_rotate_bootstrap. rewrite ST_bind_unfold. cbn [gets fst snd].
  destruct (ss_backend s) as [session|] eqn:Hb.
  2:{ right. eexists _, 0%nat. split; [done|]. by destruct s as [[]]. }
  assert (Hc : ∃ k, in_counter (fetch_token (bootstrap (sv_config server))) s =
                    ((fetch_token (bootstrap (sv_config server)) (tick_of s)).1, later k s)).
  { unfold in_counter, in_registry, zoom. change (rs_tick (ss_reg s)) with (tick_of s).
    destruct (fetch_token_ticks (bootstrap (sv_config server)) (tick_of s)) as [k Hk].
    destruct (fetch_token _ (tick_of s)) as [t n]. simpl in Hk. subst n. exists k. done. }
  destruct Hc as [k Hc]. rewrite ST_bind_unfold, Hc. cbn [fst snd].
  destruct (fetch_token _ (tick_of s)) as [[t|e] n]; cbn [fst]; [|right; by eauto].
  rewrite ST_bind_unfold. cbn [interaction in_registry zoom tick fst snd].
  unfold Backend.open, Backend.discover.
  destruct (fnox_config_path _) as [path|].
  - destruct (fnox_open _ path) as [f|e] eqn:Hf; simpl.
    + left. eexists _, (S k), _. split_and!; [done..|]. exists f. done.
    + right. eexists _, (S k). done.
  - destruct (fnox_discover _) as [f|e] eqn:Hf; simpl.
    + left. eexists _, (S k), _. split_and!; [done..|]. exists f. done.
    + right. eexists _, (S k). done.
Qed.

Lemma dispatch_admin_inv req s : server_inv s → server_inv (dispatch_admin server req s).2.
Proof.
  intros Hinv. destruct req as [name path|name|name| |]; cbn [dispatch_admin].
  - by apply dispatch_register_inv.
  - by apply dispatch_unregister_inv.
  - by apply dispatch_reload_inv.
  - rewrite dispatch_status_eq. by apply later_inv.
  - pose proof (rotate_cases s) as Hc. destruct (dispatch_rotate_bootstrap server s) as [j s'].
    destruct Hc as [(? & k & ? & _ & _ & _ & f & _ & ->)|(? & k & _ & ->)];
      apply (later_inv k) in Hinv; [|done]. by destruct Hinv.
Qed.

Lemma serve_inv r s : server_inv s → server_inv (serve server r s).2.
Proof.
  destruct r as [id req peer|req]; simpl; [|apply dispatch_admin_inv].
  intros Hinv. eapply cache_only_inv; [|exact Hinv]. unfold serve_project. rewrite ST_bind_unfold.
  eapply cache_only_trans; [apply (cache_only_later id 1)|]. apply dispatch_project_frame.
Qed.

Lemma serve_all_inv rs s : server_inv s → server_inv (serve_all server rs s).2.
Proof.
  revert s. induction rs as [|r rs IH]; intros s Hs; [done|]. cbn [serve_all].
  rewrite ST_bind_unfold, ST_bind_unfold. apply IH, serve_inv, Hs.
Qed.

(** ** Properties *)

(** C15: whatever sequence of requests the daemon serves from its start on, on
    any sockets, in the state it reaches: every registered name leads to a live
    project of that name with a validated manifest for its directory, whose
    cache runs with the bounds of that manifest and whose socket (mode 0660, the
    one of its own accept loop) is in the socket directory under its name; and
    exactly the registered projects have a running accept loop. *)
Theorem server_invariant rs (b : option (BackendSession Fnox)) :
  let s := (serve_all server rs (server_init b)).2 in
  (∀ name id, s.(ss_reg).(rs_map) !! name = Some id →
     id ∈ s.(ss_loops) ∧
     s.(ss_reg).(rs_nodes) !! join server.(sv_registry).(rg_socket_dir) (name +:+ ".sock") =
       Some (Socket 432 (ProjectListener id)) ∧
     ∃ p raw, s.(ss_reg).(rs_heap) !! id = Some p ∧ p.(p_name) = name ∧
       valid_manifest raw (file_name_str p.(p_project_path)) ∧ p.(p_manifest) = manifest_of raw ∧
       raw.(raw_project).(raw_name) = name ∧
       (p.(p_cache).(c_max_entries), p.(p_cache).(c_default_ttl)) =
         resolve_cache_bounds p.(p_manifest) server.(sv_registry).(rg_cache_defaults)) ∧
  (∀ id, id ∈ s.(ss_loops) → ∃ name, s.(ss_reg).(rs_map) !! name = Some id).
Proof.
  intros s. assert (Hinv : server_inv s) by apply serve_all_inv, server_init_inv.
  destruct Hinv as [Hr Ht Hl]. split.
  - intros name id Hid. destruct (ri_map _ _ Hr name id Hid) as (p & Hp & Hpn & Hs).
    destruct (ri_heap _ _ Hr id p Hp) as [[_ (raw & Hv & Hm) Hn Hb] _].
    split_and!; [|exact Hs|].
    + apply Hl. rewrite Ht. eauto.
    + exists p, raw. split_and!; try done. rewrite <-Hpn, <-Hn, Hm. done.
  - intros id Hid. rewrite <-Ht. by apply Hl.
Qed.

(** C24: [rotate-bootstrap] replaces the backend session only when a bootstrap
    token could be fetched and a new session was opened the way it is at
    startup; on any failure, also without a session, the answer is
    [bootstrap_error] and the old session stays.  Either way every project, its
    cache included, the sockets and the audit channel are untouched. *)
Theorem rotate_spec s :
  let '(j, s') := dispatch_rotate_bootstrap server s in
  s'.(ss_reg).(rs_heap) = s.(ss_reg).(rs_heap) ∧ s'.(ss_reg).(rs_map) = s.(ss_reg).(rs_map) ∧
  s'.(ss_reg).(rs_nodes) = s.(ss_reg).(rs_nodes) ∧ s'.(ss_audit) = s.(ss_audit) ∧
  s'.(ss_loops) = s.(ss_loops) ∧
  ((∃ fnox n t n', j = rotate_to_json rotate_ok ∧ is_Some s.(ss_backend) ∧
      fetch_token server.(sv_config).(bootstrap) (tick_of s) = (Ok t, n') ∧
      match server.(sv_config).(fnox_config_path) with
      | Some path => fnox_open n path
      | None => fnox_discover n
      end = Ok fnox ∧ s'.(ss_backend) = Some (mkBackendSession fnox)) ∨
   (json_field "code" j = Some (JStr "bootstrap_error") ∧ s'.(ss_backend) = s.(ss_backend))).
Proof.
  pose proof (rotate_cases s) as Hc. destruct (dispatch_rotate_bootstrap server s) as [j s'].
  destruct Hc as [(session & k & n & Hb & -> & Ht & f & Hf & ->)|(msg & k & -> & ->)].
  - split_and!; try done. left. destruct (fetch_token _ _) as [[t|e] n'] eqn:Hft; [|done].
    eexists f, n, t, n'. by split_and!.
  - split_and!; try done. right. done.
Qed.

(** C25: [unregister] of a registered project frees its name, ends its accept
    loop, removes its socket file (unless the file system refuses), and leaves
    every other project, its loop and its socket as they were; of an unknown
    name it changes nothing and answers [project_unknown]. *)
Theorem unregister_spec name s :
  server_inv s →
  let '(j, s') := dispatch_unregister name s in
  match s.(ss_reg).(rs_map) !! name with
  | None => json_field "code" j = Some (JStr "project_unknown") ∧ s' = s
  | Some id =>
      j = ok_to_json ok_new ∧
      s'.(ss_reg).(rs_map) = delete name s.(ss_reg).(rs_map) ∧
      s'.(ss_reg).(rs_heap) = s.(ss_reg).(rs_heap) ∧
      s'.(ss_tasks) = delete name s.(ss_tasks) ∧ s'.(ss_loops) = s.(ss_loops) ∖ {[id]} ∧
      (os_fault (tick_of s) = None → s'.(ss_reg).(rs_nodes) !! socket_path_for reg name = None) ∧
      (∀ p, p ≠ socket_path_for reg name → s'.(ss_reg).(rs_nodes) !! p = s.(ss_reg).(rs_nodes) !! p)
  end.
Proof.
  intros Hinv. rewrite dispatch_unregister_eq.
  destruct (rs_map (ss_reg s) !! name) as [id|] eqn:Hid; [|done].
  destruct (ri_map _ _ (si_reg _ Hinv) name id Hid) as (p & Hp & Hpn & Hs).
  destruct (ri_heap _ _ (si_reg _ Hinv) id p Hp) as [Hok _].
  cbv zeta. rewrite (heap_deref id p), (po_socket _ _ Hok), Hpn by done.
  pose proof (remove_file_other (rs_tick (ss_reg s)) (socket_path_for reg name) (rs_nodes (ss_reg s))) as Ho.
  assert (Hgone : os_fault (tick_of s) = None →
    (remove_file (rs_tick (ss_reg s)) (socket_path_for reg name) (rs_nodes (ss_reg s))).2
      !! socket_path_for reg name = None).
  { unfold remove_file, tick_of. intros ->. rewrite Hs. apply lookup_delete_eq. }
  destruct (remove_file _ _ _) as [r ns]. simpl in *.
  split_and!; try done. by rewrite (si_tasks _ Hinv), Hid.
Qed.

(** [status] reports every registered project exactly once, with its own
    socket path, the size of its allowlist and of its cache, and changes
    nothing. *)
Theorem status_complete s :
  server_inv s →
  ∃ ps, dispatch_status server s =
    (status_to_json (status_new BROKER_VERSION
       (as_secs (duration_since (os_now (S (tick_of s))) server.(sv_started_at)))
       (bootstrap_mode server.(sv_config).(bootstrap)) (map project_status ps)), later 2 s) ∧
  (p_name <$> ps) ≡ₚ (map_to_list s.(ss_reg).(rs_map)).*1 ∧
  ∀ p, p ∈ ps ↔ ∃ id, s.(ss_reg).(rs_map) !! p.(p_name) = Some id ∧ s.(ss_reg).(rs_heap) !! id = Some p.
Proof.
  intros Hinv. exists ((snapshot (project_order (tick_of s)) s.(ss_reg)).*2).
  split; [rewrite dispatch_status_eq; do 3 f_equal; by rewrite <-list_fmap_compose|].
  eapply snapshot_complete, si_reg, Hinv.
Qed.

Lemma deref_replaced id a k s :
  deref id (set_reg (set_heap (<[id := a]> s.(ss_reg).(rs_heap)) (ticked k s.(ss_reg))) s) = a.
Proof. unfold deref. simpl. by rewrite lookup_insert_eq. Qed.

(** C23: when [reload] succeeds the new allowlist is in force at once, for the
    value of a secret cached before included: a name it dropped is denied from
    then on, and a name is served only if it lists it.  The response reports
    that allowlist. *)
Theorem reload_takes_effect name s id :
  server_inv s → s.(ss_reg).(rs_map) !! name = Some id →
  let '(j, s') := dispatch_reload server name s in
  succeeded j →
  ∃ secrets', j = reload_to_json (reload_new secrets') ∧
    (∀ n, allowed id n s' ↔ n ∈ secrets') ∧
    (∀ n peer start, n ∉ secrets' →
       (dispatch_get id n peer start s').1 = project_error_to_json (denied_error n)) ∧
    (deref id s').(p_cache).(c_map) = (deref id s).(p_cache).(c_map).
Proof.
  intros Hinv Hid. unfold dispatch_reload, in_registry, zoom, mbind, ST_bind.
  rewrite reload_eq, Hid. destruct (ri_map _ _ (si_reg _ Hinv) name id Hid) as (p & Hp & Hpn & _).
  simpl. rewrite Hp. simpl. destruct (Manifest.load _ _) as [[m path]|e]; [|by destruct e].
  case_decide as Hn; [done|]. intros _. exists m.(allowlist).(secrets). split; [done|].
  unfold allowed, mret, ST_ret. split_and!.
  - intros n. by rewrite deref_replaced.
  - intros n peer start Hnin. rewrite dispatch_get_eq, get_before_eq. cbv zeta.
    rewrite decide_False; [done|]. unfold allowed. by rewrite deref_replaced.
  - by rewrite deref_replaced, (heap_deref id p s).
Qed.

End admin.

(** ** Witnesses *)

Lemma demo_state_inv : server_inv demo_server demo_state.
Proof. apply dispatch_register_inv, server_init_inv. Qed.

Lemma unregister_spec_witness :
  (@dispatch_unregister string demo_os demo_unicode "myrepo" demo_state).2.(ss_reg).(rs_map) = ∅.
Proof.
  pose proof (@unregister_spec string demo_os demo_unicode demo_server "myrepo" demo_state
    demo_state_inv) as H.
  destruct (dispatch_unregister "myrepo" demo_state) as [j s']. exact (proj1 (proj2 H)).
Defined.

Lemma status_complete_witness :
  ∃ p : Project, p.(p_name) = "myrepo" ∧ ∃ id, demo_state.(ss_reg).(rs_map) !! p.(p_name) = Some id.
Proof.
  destruct (@status_complete string demo_os demo_order demo_server demo_state demo_state_inv)
    as (ps & _ & Hnames & Hps).
  exists (deref 0 demo_state). split; [vm_compute; reflexivity|].
  destruct (proj1 (Hps (deref 0 demo_state))) as (id & Hid & _); [|by exists id].
  apply Hps. exists 0%nat. split; vm_compute; reflexivity.
Defined.

Lemma reload_response_inj l l' :
  reload_to_json (reload_new l) = reload_to_json (reload_new l') → l = l'.
Proof.
  intros Heq. apply (f_equal (json_field "allowlist")) in Heq. cbn in Heq. injection Heq as Heq.
  revert l' Heq. induction l as [|a l IH]; intros [|b l'] Heq; simplify_eq/=; [done|].
  f_equal. by apply IH.
Qed.

Lemma reload_takes_effect_witness :
  allowed 0 "NPM_TOKEN" (@dispatch_reload string demo_os demo_toml demo_unicode demo_server
    "myrepo" demo_state).2.
Proof.
  pose proof (@reload_takes_effect string demo_os demo_toml demo_unicode demo_order demo_fnox
    demo_server "myrepo" demo_state 0 demo_state_inv ltac:(vm_compute; reflexivity)) as H.
  assert (Hj : (@dispatch_reload string demo_os demo_toml demo_unicode demo_server "myrepo"
    demo_state).1 = reload_to_json (reload_new ["GITHUB_TOKEN"; "NPM_TOKEN"])) by (vm_compute; reflexivity).
  destruct (dispatch_reload demo_server "myrepo" demo_state) as [j s']. cbn [fst snd] in *. subst j.
  destruct (H ltac:(vm_compute; reflexivity)) as (l & Hl & Ha & _). apply Ha.
  apply reload_response_inj in Hl. rewrite <-Hl. right. left.
Defined.
