(* ===== verification/Client.v ===== *)
(** * Responses as a client reads them ([src/proto/])

    The response types derive [Deserialize] too: a client written with this
    crate reads responses with them.  Decoding follows the derived visitor of a
    struct: each field at most once, other fields ignored, a missing [Option]
    (or a null) is [None], any other missing field is an error, a sequence is
    read positionally; integers must fit their width.  Each response type is a
    [Wire] type: it decodes from its own encoding.  On top of that, every
    response the handlers of [Server] produce is well-typed for its request. *)

From S2P Require Import Prelude Str Path Json Os Manifest Cache Config AuditLog Backend Proto Registry Bootstrap Server Fetch Admin.
Open Scope Z_scope.

(** ** Decoding values *)

Definition as_bool (j : json) : option bool := match j with JBool b => Some b | _ => None end.
Definition as_uint (max : Z) (j : json) : option Z :=
  match j with JNum n => if in_range 0 max n then Some n else None | _ => None end.
Definition as_list {A} (f : json → option A) (j : json) : option (list A) :=
  match j with JArr l => mapM f l | _ => None end.
(** An enum of unit variants, by its wire names. *)
Definition as_variant {A} (all : list A) (wire : A → string) (j : json) : option A :=
  s ← as_str j; snd <$> list_find (λ a, wire a = s) all.

(** ** Decoding structs *)

(** The fields of a struct, given as a map or as a sequence. *)
Definition struct_fields (keys : list string) (j : json) : option (list (string * json)) :=
  match j with
  | JObj fs => Some fs
  | JArr l => if decide (length l = length keys) then Some (zip keys l) else None
  | _ => None
  end.

Definition get_field {A} (f : json → option A) (k : string) (fs : list (string * json)) : option A :=
  v ← once k fs; v ≫= f.
Definition get_opt_field {A} (f : json → option A) (k : string) (fs : list (string * json))
    : option (option A) :=
  v ← once k fs;
  match v with
  | None | Some JNull => Some None
  | Some j => a ← f j; Some (Some a)
  end.

(** ** The responses *)

Definition project_codes : list ProjectErrorCode :=
  [Denied; CodeNotFound; BackendErrorCode; BackendUnreachable; RateLimited; ProjectProtocolError;
   ProjectInternalError; PeerUnexpected].
Definition admin_codes : list AdminErrorCode :=
  [CodeManifestInvalid; CodeManifestNotFound; CodeProjectUnknown; CodeProjectExists; CodeBootstrapError;
   AdminProtocolError; AdminInternalError].

Definition error_of_json {Code} (all : list Code) (wire : Code → string) (j : json)
    : option (ErrorResponse Code) :=
  fs ← struct_fields ["ok"; "code"; "message"; "retry_after_seconds"] j;
  ok ← get_field as_bool "ok" fs;
  code ← get_field (as_variant all wire) "code" fs;
  message ← get_field as_str "message" fs;
  retry ← get_opt_field (as_uint u32_max) "retry_after_seconds" fs;
  Some (mkErrorResponse ok code message retry).

Definition project_error_of_json : json → option ProjectError := error_of_json project_codes project_code_wire.
Definition admin_error_of_json : json → option AdminError := error_of_json admin_codes admin_code_wire.

Definition get_response_of_json (j : json) : option GetResponse :=
  fs ← struct_fields ["ok"; "value"; "value_b64"; "ttl_seconds"] j;
  ok ← get_field as_bool "ok" fs;
  value ← get_opt_field as_str "value" fs;
  value_b64 ← get_opt_field as_str "value_b64" fs;
  ttl ← get_field (as_uint u32_max) "ttl_seconds" fs;
  Some (mkGetResponse ok value value_b64 ttl).

Definition ping_of_json (j : json) : option PingResponse :=
  fs ← struct_fields ["ok"; "broker_version"; "protocol_version"; "project"] j;
  ok ← get_field as_bool "ok" fs;
  broker_version ← get_field as_str "broker_version" fs;
  protocol_version ← get_field (as_uint u32_max) "protocol_version" fs;
  project ← get_field as_str "project" fs;
  Some (mkPingResponse ok broker_version protocol_version project).

Definition info_of_json (j : json) : option InfoResponse :=
  fs ← struct_fields ["ok"; "project"; "allowlist"; "schema_version"] j;
  ok ← get_field as_bool "ok" fs;
  project ← get_field as_str "project" fs;
  allowlist ← get_field (as_list as_str) "allowlist" fs;
  schema_version ← get_field (as_uint u32_max) "schema_version" fs;
  Some (mkInfoResponse ok project allowlist schema_version).

Definition register_of_json (j : json) : option RegisterResponse :=
  fs ← struct_fields ["ok"; "socket_path"] j;
  ok ← get_field as_bool "ok" fs;
  socket_path ← get_field as_str "socket_path" fs;
  Some (mkRegisterResponse ok socket_path).

Definition ok_of_json (j : json) : option OkResponse :=
  fs ← struct_fields ["ok"] j; ok ← get_field as_bool "ok" fs; Some (mkOkResponse ok).

Definition reload_of_json (j : json) : option ReloadResponse :=
  fs ← struct_fields ["ok"; "allowlist"] j;
  ok ← get_field as_bool "ok" fs;
  allowlist ← get_field (as_list as_str) "allowlist" fs;
  Some (mkReloadResponse ok allowlist).

Definition project_status_of_json (j : json) : option ProjectStatus :=
  fs ← struct_fields ["name"; "socket_path"; "allowlist_size"; "cache_entries"] j;
  name ← get_field as_str "name" fs;
  socket_path ← get_field as_str "socket_path" fs;
  allowlist_size ← get_field (as_uint u32_max) "allowlist_size" fs;
  cache_entries ← get_field (as_uint u32_max) "cache_entries" fs;
  Some (mkProjectStatus name socket_path allowlist_size cache_entries).

Definition status_of_json (j : json) : option StatusResponse :=
  fs ← struct_fields ["ok"; "broker_version"; "protocol_version"; "uptime_seconds"; "bootstrap_mode";
                      "projects"] j;
  ok ← get_field as_bool "ok" fs;
  broker_version ← get_field as_str "broker_version" fs;
  protocol_version ← get_field (as_uint u32_max) "protocol_version" fs;
  uptime_seconds ← get_field (as_uint u64_max) "uptime_seconds" fs;
  bootstrap_mode ← get_field (as_variant [ModeFile; ModeImds; ModeEnv] bootstrap_mode_wire)
                     "bootstrap_mode" fs;
  projects ← get_field (as_list project_status_of_json) "projects" fs;
  Some (mkStatusResponse ok broker_version protocol_version uptime_seconds bootstrap_mode projects).

Definition rotate_of_json (j : json) : option RotateBootstrapResponse :=
  fs ← struct_fields ["ok"; "backend_auth"] j;
  ok ← get_field as_bool "ok" fs;
  backend_auth ← get_field (as_variant [AuthOk] backend_auth_wire) "backend_auth" fs;
  Some (mkRotateBootstrapResponse ok backend_auth).

(** ** Round trips *)

(** The integers of a response fit their types. *)
Definition retry_ok {Code} (e : ErrorResponse Code) : Prop :=
  ∀ n, e.(er_retry_after_seconds) = Some n → is_u32 n.
Definition status_entry_ok (p : ProjectStatus) : Prop := is_u32 p.(ps_allowlist_size) ∧ is_u32 p.(ps_cache_entries).

Lemma as_uint_num max n : 0 ≤ n ≤ max → as_uint max (JNum n) = Some n.
Proof. intros Hn. simpl. by rewrite (proj2 (in_range_spec 0 max n)). Qed.

Lemma as_list_map {A} (f : json → option A) (g : A → json) (l : list A) :
  Forall (λ a, f (g a) = Some a) l → as_list f (JArr (g <$> l)) = Some l.
Proof.
  intros Hl. simpl. apply mapM_Some. apply Forall2_fmap_l. induction Hl; by constructor.
Qed.

Lemma as_list_strs l : as_list as_str (JArr (JStr <$> l)) = Some l.
Proof. apply as_list_map. by apply Forall_true. Qed.

Local Arguments as_uint : simpl never.
Local Arguments as_list : simpl never.
Local Arguments as_variant : simpl never.

Lemma error_roundtrip {Code} all (wire : Code → string) e :
  (∀ c, as_variant all wire (JStr (wire c)) = Some c) → retry_ok e →
  error_of_json all wire (error_to_json wire e) = Some e.
Proof.
  intros Hw Hr. destruct e as [ok code message [n|]]; unfold error_of_json, get_field; simpl;
    rewrite Hw; simpl; [|done].
  unfold get_opt_field. simpl. rewrite as_uint_num; [done|]. by apply Hr.
Qed.

Lemma project_error_roundtrip e : retry_ok e → project_error_of_json (project_error_to_json e) = Some e.
Proof. apply error_roundtrip. by intros []. Qed.
Lemma admin_error_roundtrip e : retry_ok e → admin_error_of_json (admin_error_to_json e) = Some e.
Proof. apply error_roundtrip. by intros []. Qed.

Lemma get_response_roundtrip r :
  is_u32 r.(gr_ttl_seconds) → get_response_of_json (get_response_to_json r) = Some r.
Proof.
  intros Ht. destruct r as [ok [v|] [b|] ttl]; unfold get_response_of_json, get_field; simpl;
    by rewrite as_uint_num.
Qed.

Lemma ping_roundtrip r : is_u32 r.(pr_protocol_version) → ping_of_json (ping_to_json r) = Some r.
Proof. intros Hv. unfold ping_of_json, get_field. simpl. rewrite as_uint_num by done. by destruct r. Qed.

Lemma info_roundtrip r : is_u32 r.(ir_schema_version) → info_of_json (info_to_json r) = Some r.
Proof.
  intros Hv. unfold info_of_json, get_field. simpl. rewrite as_list_strs. simpl.
  rewrite as_uint_num by done. by destruct r.
Qed.

Lemma register_roundtrip r : register_of_json (register_to_json r) = Some r.
Proof. by destruct r. Qed.
Lemma ok_roundtrip r : ok_of_json (ok_to_json r) = Some r.
Proof. by destruct r. Qed.
Lemma reload_roundtrip r : reload_of_json (reload_to_json r) = Some r.
Proof. unfold reload_of_json, get_field. simpl. rewrite as_list_strs. by destruct r. Qed.
Lemma rotate_roundtrip r : rotate_of_json (rotate_to_json r) = Some r.
Proof. by destruct r as [? []]. Qed.

Lemma project_status_roundtrip p :
  status_entry_ok p → project_status_of_json (project_status_to_json p) = Some p.
Proof.
  intros [Ha Hc]. unfold project_status_of_json, get_field. simpl.
  rewrite as_uint_num by done. simpl. rewrite as_uint_num by done. by destruct p.
Qed.

Lemma status_roundtrip r :
  is_u32 r.(st_protocol_version) → 0 ≤ r.(st_uptime_seconds) ≤ u64_max →
  Forall status_entry_ok r.(st_projects) → status_of_json (status_to_json r) = Some r.
Proof.
  intros Hp Hu Hs. unfold status_of_json, get_field. simpl.
  rewrite as_uint_num by done. simpl. rewrite as_uint_num by done. simpl.
  assert (as_variant [ModeFile; ModeImds; ModeEnv] bootstrap_mode_wire
    (JStr (bootstrap_mode_wire (st_bootstrap_mode r))) = Some (st_bootstrap_mode r)) as ->
    by by destruct (st_bootstrap_mode r). simpl.
  rewrite as_list_map; [by destruct r|]. eapply Forall_impl; [exact Hs|]. apply project_status_roundtrip.
Qed.

(** ** Every response is well-typed *)

Section typed.
Context {Fnox : Type} `{Os, Outside, TomlManifest, UnicodeTables, HashOrder, FnoxCore Fnox}.
Context (server : Server).
Implicit Types (s : ServerState Fnox).

(** What a client may get for a request: the response type of the operation,
    or an error of the socket. *)
Definition project_response_typed (req : ProjectRequest) (j : json) : Prop :=
  is_Some (project_error_of_json j) ∨
  match req with
  | Get _ => is_Some (get_response_of_json j)
  | Ping => is_Some (ping_of_json j)
  | Info => is_Some (info_of_json j)
  end.

Definition admin_response_typed (req : AdminRequest) (j : json) : Prop :=
  is_Some (admin_error_of_json j) ∨
  match req with
  | Register _ _ => is_Some (register_of_json j)
  | Unregister _ => is_Some (ok_of_json j)
  | Reload _ => is_Some (reload_of_json j)
  | Status => is_Some (status_of_json j)
  | RotateBootstrap => is_Some (rotate_of_json j)
  end.

Definition response_typed (r : request) (j : json) : Prop :=
  match r with
  | ProjectReq _ req _ => project_response_typed req j
  | AdminReq req => admin_response_typed req j
  end.

(** Times since the start fit the [u64] of seconds a [Duration] has. *)
Definition clock_ok : Prop :=
  ∀ n, as_secs (duration_since (os_now n) server.(sv_started_at)) ≤ u64_max.

Lemma error_new_typed {Code} (c : Code) m : retry_ok (error_new c m).
Proof. intros n. done. Qed.

Lemma get_typed v ttl : is_u32 ttl → is_Some (get_response_of_json (get_response_to_json (get_utf8 v ttl))).
Proof. intros Ht. by rewrite get_response_roundtrip. Qed.

Lemma project_failed c m : is_Some (project_error_of_json (project_error_to_json (error_new c m))).
Proof. rewrite project_error_roundtrip; [done|apply error_new_typed]. Qed.
Lemma admin_failed c m : is_Some (admin_error_of_json (admin_error_to_json (error_new c m))).
Proof. rewrite admin_error_roundtrip; [done|apply error_new_typed]. Qed.

Lemma as_u32_bounds x : is_u32 (as_u32 x).
Proof. unfold is_u32, as_u32, u32_max. pose proof (Z.mod_pos_bound x (2 ^ 32) ltac:(lia)). lia. Qed.

Lemma dispatch_get_typed id name peer start s :
  project_response_typed (Get name) (dispatch_get id name peer start s).1.
Proof.
  rewrite dispatch_get_eq, get_before_eq. cbv zeta. case_decide; [|left; apply project_failed].
  destruct (Cache.get (os_now (tick_of s)) name _) as [[h|] c] eqn:Hget.
  - right. apply get_typed. apply cache_get_hit in Hget as (e & _ & _ & _ & -> & _). apply as_u32_bounds.
  - destruct (ss_backend s) as [session|]; [|left; apply project_failed].
    rewrite get_after_eq. cbv zeta.
    destruct (fnox_get _ _ _) as [[v|]|msg]; [right|left; apply project_failed..].
    apply get_typed, saturate_u32_bounds.
Qed.

Lemma schema_version_u32 id s :
  server_inv server s → is_u32 (deref id s).(p_manifest).(schema_version).
Proof.
  intros Hinv. unfold deref. destruct (rs_heap (ss_reg s) !! id) as [p|] eqn:Hp; [|by vm_compute].
  destruct (ri_heap _ _ (si_reg _ _ Hinv) id p Hp) as [[_ (raw & Hv & Hm) _ _] _]. simpl. rewrite Hm. simpl.
  pose proof (vm_version _ _ Hv) as Hver. unfold rule_version in Hver. apply list_elem_of_singleton in Hver. rewrite Hver. by vm_compute.
Qed.

Lemma status_typed s : clock_ok → is_Some (status_of_json (dispatch_status server s).1).
Proof.
  intros Hclock. rewrite dispatch_status_eq. simpl. rewrite status_roundtrip; [done| | |].
  - by vm_compute.
  - split; [|apply Hclock]. apply as_secs_nonneg. unfold duration_since. lia.
  - simpl. apply Forall_fmap, Forall_true. intros ip. split; apply as_u32_bounds.
Qed.

Lemma serve_typed r s : clock_ok → server_inv server s → response_typed r (serve server r s).1.
Proof.
  intros Hclock Hinv. destruct r as [id [name| |] peer|[name path|name|name| |]]; cbn [serve dispatch_admin].
  - apply (dispatch_get_typed id name peer _ (later 1 s)).
  - right. simpl. rewrite ping_roundtrip; [done|]. by vm_compute.
  - right. simpl. rewrite info_roundtrip; [done|]. exact (schema_version_u32 id s Hinv).
  - unfold dispatch_register. rewrite ST_bind_unfold.
    destruct (in_registry _ s) as [[id|e] s1]; [right|left; by apply admin_failed].
    simpl. by rewrite register_roundtrip.
  - rewrite dispatch_unregister_eq. destruct (rs_map (ss_reg s) !! name); [right|left; by apply admin_failed].
    cbv zeta. by destruct (remove_file _ _ _).
  - unfold dispatch_reload. rewrite ST_bind_unfold.
    destruct (in_registry _ s) as [[m|e] s1]; [right|left; by apply admin_failed].
    simpl. by rewrite reload_roundtrip.
  - right. by apply status_typed.
  - pose proof (rotate_cases server s) as Hc. destruct (dispatch_rotate_bootstrap server s) as [j s'].
    destruct Hc as [(? & ? & ? & _ & -> & _)|(msg & k & -> & _)]; [by right|left; apply admin_failed].
Qed.

(** C10: every response is well-typed: whatever the daemon is asked, in any order
    and on either socket, the response decodes, with the crate's own types, as
    an error of that socket or as the response type of the operation; in
    particular every number in it fits the width its type declares. *)
Theorem responses_typed rs (b : option (BackendSession Fnox)) :
  clock_ok → Forall2 response_typed rs (serve_all server rs (server_init b)).1.
Proof.
  intros Hclock. generalize (server_init_inv server b). generalize (server_init b).
  induction rs as [|r rs IH]; intros s Hinv; [constructor|].
  cbn [serve_all]. rewrite ST_bind_unfold, ST_bind_unfold. simpl. constructor; [by apply serve_typed|].
  apply IH. by apply serve_inv.
Qed.

End typed.

(** C33: every message decodes from what it encodes to: every request, on both
    sockets, and every response whose numbers fit their widths, errors included.
    What the client sends is what the daemon reads, and the other way round. *)
Theorem wire_roundtrip :
  (∀ r, project_request_of_json (project_request_to_json r) = Some r) ∧
  (∀ r, admin_request_of_json (admin_request_to_json r) = Some r) ∧
  (∀ e, retry_ok e → project_error_of_json (project_error_to_json e) = Some e) ∧
  (∀ e, retry_ok e → admin_error_of_json (admin_error_to_json e) = Some e) ∧
  (∀ r, is_u32 r.(gr_ttl_seconds) → get_response_of_json (get_response_to_json r) = Some r) ∧
  (∀ r, is_u32 r.(pr_protocol_version) → ping_of_json (ping_to_json r) = Some r) ∧
  (∀ r, is_u32 r.(ir_schema_version) → info_of_json (info_to_json r) = Some r) ∧
  (∀ r, register_of_json (register_to_json r) = Some r) ∧
  (∀ r, ok_of_json (ok_to_json r) = Some r) ∧
  (∀ r, reload_of_json (reload_to_json r) = Some r) ∧
  (∀ r, is_u32 r.(st_protocol_version) → 0 ≤ r.(st_uptime_seconds) ≤ u64_max →
     Forall status_entry_ok r.(st_projects) → status_of_json (status_to_json r) = Some r) ∧
  (∀ r, rotate_of_json (rotate_to_json r) = Some r).
Proof.
  split_and!; auto using project_request_decode_encode, admin_request_decode_encode, project_error_roundtrip, admin_error_roundtrip, get_response_roundtrip,
    ping_roundtrip, info_roundtrip, register_roundtrip, ok_roundtrip, reload_roundtrip, status_roundtrip,
    rotate_roundtrip.
Qed.

(** ** Witness *)

Definition client_requests : list request :=
  [AdminReq (Register "myrepo" "/projects/myrepo"); ProjectReq 0 (Get "GITHUB_TOKEN") demo_peer;
   ProjectReq 0 Info demo_peer; AdminReq Status; AdminReq (Reload "nobody")].

(** A daemon that answers within its twelfth second. *)
Definition client_os : Os := {|
  os_now _ := from_secs 12;
  os_utc n := Z.of_nat n;
  os_disk _ := demo_disk;
  os_fault _ := None;
  os_bind_mode := 493;
|}.

Lemma responses_typed_witness :
  Forall2 response_typed client_requests
    (@serve_all string client_os (demo_imds "{}") demo_toml demo_unicode demo_order demo_fnox demo_server
       client_requests (server_init (Some (mkBackendSession "session")))).1.
Proof.
  apply (@responses_typed string client_os (demo_imds "{}") demo_toml demo_unicode demo_order demo_fnox demo_server).
  intros n. discriminate.
Defined.

Lemma wire_roundtrip_witness :
  get_response_of_json (get_response_to_json (get_utf8 "s3cret" 300)) = Some (get_utf8 "s3cret" 300) ∧
  ping_of_json (ping_to_json (ping_new "0.1.0" "myrepo")) = Some (ping_new "0.1.0" "myrepo").
Proof.
  pose proof wire_roundtrip as (_ & _ & _ & _ & Hget & Hping & _).
  split; [apply Hget|apply Hping]; by vm_compute.
Defined.
