(* ===== verification/Schema.v ===== *)
(** * The published JSON Schema of the manifest ([src/manifest.rs], [schema/remo-broker.v1.json])

    The raw manifest types carry [schemars] attributes from which
    [manifest_json_schema] builds the schema that clients validate manifests
    against before the broker sees them.  The schema is data here, with a
    validator for the keywords it uses (JSON Schema draft 7); so is the derived
    [Deserialize] of the raw types.  A TOML document ([toml]) is seen by serde as
    one tree ([serde_tree]) and by a client as a JSON instance ([client_tree]).
    [schema_agrees] says for every document where the two verdicts differ: on
    the directory name and duplicate secrets, as the description of the schema
    says, but also on floats and datetimes, and on sections written as arrays. *)

From S2P Require Import Prelude Str Path Json Manifest Os Cache Config AuditLog Backend Proto Registry Bootstrap Server Fetch Admin Client.
Open Scope Z_scope.

(** ** Regular expressions, executable *)

(** [re_run r s k]: some prefix of [s] matches [r] and the rest satisfies [k]. *)
Fixpoint re_run (r : re) (s : list ascii) (k : list ascii → bool) : bool :=
  match r with
  | Cls p => match s with b :: s' => p b && k s' | [] => false end
  | Seq r1 r2 => re_run r1 s (λ s', re_run r2 s' k)
  | Rep r lo hi =>
      (fix loop (hi lo : nat) (s : list ascii) : bool :=
         ((lo =? 0)%nat && k s) ||
         match hi with O => false | S hi => re_run r s (loop hi (pred lo)) end) hi lo s
  end.

Definition is_nil {A} (l : list A) : bool := match l with [] => true | _ => false end.
Definition re_test (r : re) (s : string) : bool := re_run r (bytes s) is_nil.

(** ** Schemas: the keywords the generator emits *)

Inductive instance_type : Type := TObject | TArray | TString | TInteger | TNull.

Inductive schema : Type :=
  | SRef (name : string)
  | SAnyOf (l : list schema)
  | STyped (types : list instance_type) (validation : keyword)
with keyword : Type :=
  | KNone
  | KPattern (text : string) (pattern : re)
  | KMaxLength (n : Z)
  | KRange (minimum maximum : Z)
  | KItems (items : schema) (min_items : nat)
  | KObject (required : list string) (properties : list (string * schema)) (additional_properties : bool).

Record RootSchema : Type := mkRootSchema {
  title : option string;
  description : option string;
  root : schema;
  definitions : list (string * schema);
}.

(** ** The schema of each raw type, from its fields and attributes *)

Definition RawManifest_schema : schema :=
  STyped [TObject] (KObject ["allowlist"; "project"; "schema_version"]
    [("allowlist", SRef "RawAllowlist");
     ("cache", SAnyOf [SRef "RawCache"; STyped [TNull] KNone]);
     ("project", SRef "RawProject");
     ("schema_version", STyped [TInteger] (KRange 1 1))] false).

Definition RawProject_schema : schema :=
  STyped [TObject] (KObject ["name"]
    [("description", STyped [TString; TNull] (KMaxLength 256));
     ("name", STyped [TString] (KPattern "^[a-z0-9][a-z0-9_-]{0,63}$" project_name_re))] false).

Definition RawAllowlist_schema : schema :=
  STyped [TObject] (KObject ["secrets"]
    [("secrets", STyped [TArray] (KItems (STyped [TString] (KPattern "^[A-Za-z0-9_]{1,128}$" secret_name_re)) 0))] false).

Definition RawCache_schema : schema :=
  STyped [TObject] (KObject []
    [("max_entries", STyped [TInteger; TNull] (KRange 1 1024));
     ("ttl_seconds", STyped [TInteger; TNull] (KRange 1 86400))] false).

(** [schema_for!(RawManifest)]. *)
Definition schema_for_RawManifest : RootSchema :=
  mkRootSchema (Some "RawManifest") None RawManifest_schema
    [("RawAllowlist", RawAllowlist_schema); ("RawCache", RawCache_schema); ("RawProject", RawProject_schema)].

Definition manifest_json_schema : RootSchema :=
  let schema := schema_for_RawManifest in
  mkRootSchema (Some "remo-broker.toml (v1)")
    (Some ("Per-project manifest declaring the broker's allowlist and " +:+
           "optional cache overrides. Source of truth: " +:+
           "docs/manifest-schema.md in the get2knowio/remo-broker repo. " +:+
           "Validation beyond what this schema expresses (project.name " +:+
           "matching the directory basename, allowlist.secrets uniqueness, " +:+
           "cache values not exceeding broker-wide defaults) is enforced " +:+
           "server-side at register time."))
    schema.(root) schema.(definitions).

(** ** Validation *)

(** Draft 7 calls a number an integer when its fractional part is zero; such
    numbers are [JNum] in the instance ([client_tree]). *)
Definition type_of (j : json) : option instance_type :=
  match j with
  | JNull => Some TNull
  | JBool _ => None
  | JNum _ => Some TInteger
  | JStr _ => Some TString
  | JArr _ => Some TArray
  | JObj _ => Some TObject
  end.

#[export] Instance instance_type_eq_dec : EqDecision instance_type.
Proof. solve_decision. Defined.

Fixpoint assoc_schema (k : string) (l : list (string * schema)) : option schema :=
  match l with
  | [] => None
  | (k', s) :: l => if decide (k = k') then Some s else assoc_schema k l
  end.

(** Each keyword looks at instances of its type only.  A [$ref] that leads
    nowhere accepts nothing.  Fuel: one step per keyword or reference followed;
    the schema above goes at most six deep. *)
Fixpoint accepts (fuel : nat) (defs : list (string * schema)) (s : schema) (j : json) : bool :=
  match fuel with
  | O => false
  | S fuel =>
      match s with
      | SRef name => match assoc_schema name defs with Some s => accepts fuel defs s j | None => false end
      | SAnyOf l => existsb (λ s, accepts fuel defs s j) l
      | STyped types v =>
          existsb (λ t, bool_decide (type_of j = Some t)) types &&
          match v, j with
          | KPattern _ r, JStr x => re_test r x
          | KMaxLength n, JStr x => chars_count x <=? n
          | KRange lo hi, JNum n => in_range lo hi n
          | KItems items m, JArr l => (m <=? length l)%nat && forallb (accepts fuel defs items) l
          | KObject req props add, JObj fs =>
              forallb (λ k, bool_decide (k ∈ fs.*1)) req &&
              forallb (λ kv, match assoc_schema kv.1 props with
                             | Some s => accepts fuel defs s kv.2
                             | None => add
                             end) fs
          | _, _ => true
          end
      end
  end.

Definition schema_fuel : nat := 8.

(** The verdict of a client. *)
Definition schema_accepts (j : json) : bool :=
  accepts schema_fuel manifest_json_schema.(definitions) manifest_json_schema.(root) j.

(** ** The derived [Deserialize] of the raw types: [deny_unknown_fields] *)

(** The fields of a struct: a table with known keys only; or an array with the
    fields in the order of the struct ([visit_seq]), which asks for every field
    and does not look at what follows the last. *)
Definition strict_fields (keys : list string) (j : json) : option (list (string * json)) :=
  match j with
  | JObj fs => if forallb (λ kv, bool_decide (kv.1 ∈ keys)) fs then Some fs else None
  | JArr l => if (length keys <=? length l)%nat then Some (zip keys l) else None
  | _ => None
  end.

Definition raw_project_of_json (j : json) : option RawProject :=
  fs ← strict_fields ["name"; "description"] j;
  name ← get_field as_str "name" fs;
  description ← get_opt_field as_str "description" fs;
  Some (mkRawProject name description).

Definition raw_allowlist_of_json (j : json) : option RawAllowlist :=
  fs ← strict_fields ["secrets"] j;
  secrets ← get_field (as_list as_str) "secrets" fs;
  Some (mkRawAllowlist secrets).

Definition raw_cache_of_json (j : json) : option RawCache :=
  fs ← strict_fields ["ttl_seconds"; "max_entries"] j;
  ttl_seconds ← get_opt_field (as_uint u32_max) "ttl_seconds" fs;
  max_entries ← get_opt_field (as_uint u32_max) "max_entries" fs;
  Some (mkRawCache ttl_seconds max_entries).

Definition raw_manifest_of_json (j : json) : option RawManifest :=
  fs ← strict_fields ["schema_version"; "project"; "allowlist"; "cache"] j;
  schema_version ← get_field (as_uint u32_max) "schema_version" fs;
  project ← get_field raw_project_of_json "project" fs;
  allowlist ← get_field raw_allowlist_of_json "allowlist" fs;
  cache ← get_opt_field raw_cache_of_json "cache" fs;
  Some (mkRawManifest schema_version project allowlist cache).

(** The derived [Deserialize] of the daemon's own configuration (config.rs). *)
Definition source_kind_wire (k : BootstrapSourceKind) : string :=
  match k with KindFile => "file" | KindImds => "imds" | KindEnv => "env" end.

Definition raw_config_of_json (j : json) : option RawConfig :=
  fs ← strict_fields ["bootstrap_source"; "bootstrap_token_path"; "socket_dir"; "audit_log_path";
         "cache_default_ttl_seconds"; "cache_default_max_entries"; "backend_fetch_timeout_ms"; "fnox_config_path"] j;
  bootstrap_source ← get_opt_field (as_variant [KindFile; KindImds; KindEnv] source_kind_wire) "bootstrap_source" fs;
  bootstrap_token_path ← get_opt_field as_str "bootstrap_token_path" fs;
  socket_dir ← get_opt_field as_str "socket_dir" fs;
  audit_log_path ← get_opt_field as_str "audit_log_path" fs;
  cache_default_ttl_seconds ← get_opt_field (as_uint u32_max) "cache_default_ttl_seconds" fs;
  cache_default_max_entries ← get_opt_field (as_uint u32_max) "cache_default_max_entries" fs;
  backend_fetch_timeout_ms ← get_opt_field (as_uint u32_max) "backend_fetch_timeout_ms" fs;
  fnox_config_path ← get_opt_field as_str "fnox_config_path" fs;
  Some (mkRawConfig bootstrap_source bootstrap_token_path socket_dir audit_log_path
          cache_default_ttl_seconds cache_default_max_entries backend_fetch_timeout_ms fnox_config_path).

(** ** TOML documents *)

(** A float is given by its value when that is integral. *)
Inductive toml : Type :=
  | TomlStr (s : string)
  | TomlInt (n : Z)
  | TomlFloat (integral : option Z)
  | TomlBool (b : bool)
  | TomlDatetime (text : string)
  | TomlArray (l : list toml)
  | TomlTable (fs : list (string * toml)).

(** What a document guarantees: it is a table, and no table has a key twice. *)
Fixpoint unique_keys (t : toml) : Prop :=
  match t with
  | TomlArray l => foldr (λ t P, unique_keys t ∧ P) True l
  | TomlTable fs => NoDup fs.*1 ∧ foldr (λ kv P, unique_keys kv.2 ∧ P) True fs
  | _ => True
  end.
Definition toml_document (t : toml) : Prop := (∃ fs, t = TomlTable fs) ∧ unique_keys t.

(** What the visitors of the raw types are offered.  None of them takes a
    boolean or a float, which are refused alike; a datetime comes as a table with
    a private key. *)
Fixpoint serde_tree (t : toml) : json :=
  match t with
  | TomlStr s => JStr s
  | TomlInt n => JNum n
  | TomlFloat _ => JBool false
  | TomlBool b => JBool b
  | TomlDatetime text => JObj [("$__toml_private_datetime", JStr text)]
  | TomlArray l => JArr (map serde_tree l)
  | TomlTable fs => JObj (map (λ '(k, v), (k, serde_tree v)) fs)
  end.

(** The JSON instance a client validates.  Floats without an integral value have
    no type the schema names; a datetime becomes what the client makes of it. *)
Fixpoint client_tree (datetime : string → json) (t : toml) : json :=
  match t with
  | TomlStr s => JStr s
  | TomlInt n => JNum n
  | TomlFloat (Some n) => JNum n
  | TomlFloat None => JBool false
  | TomlBool b => JBool b
  | TomlDatetime text => datetime text
  | TomlArray l => JArr (map (client_tree datetime) l)
  | TomlTable fs => JObj (map (λ '(k, v), (k, client_tree datetime v)) fs)
  end.

(** No float and no datetime anywhere. *)
Fixpoint plain_values (t : toml) : bool :=
  match t with
  | TomlFloat _ | TomlDatetime _ => false
  | TomlArray l => forallb plain_values l
  | TomlTable fs => forallb (λ kv, plain_values kv.2) fs
  | _ => true
  end.

Definition sections : list string := ["project"; "allowlist"; "cache"].

(** No section of the manifest is written as an array. *)
Definition no_array_sections (t : toml) : bool :=
  match t with
  | TomlTable fs =>
      forallb (λ kv, match kv.2 with TomlArray _ => bool_decide (kv.1 ∉ sections) | _ => true end) fs
  | _ => true
  end.

(** The verdict of the broker on a document, given its tree. *)
Definition broker_accepts (j : json) (project_dir_name : option string) : bool :=
  match raw_manifest_of_json j with
  | Some raw => is_ok (validate raw project_dir_name)
  | None => false
  end.

(** ** The executable matcher is the relation *)

Lemma rep_loop r k lo hi s :
  (∀ s k, re_run r s k = true ↔ ∃ s1 s2, s = s1 ++ s2 ∧ re_match r s1 ∧ k s2 = true) →
  re_run (Rep r lo hi) s k = true ↔
  ∃ ss s2, s = concat ss ++ s2 ∧ (lo ≤ length ss ≤ hi)%nat ∧ (∀ x, x ∈ ss → re_match r x) ∧ k s2 = true.
Proof.
  intros IH. revert lo s. induction hi as [|hi IHhi]; intros lo s.
  - simpl. rewrite orb_false_r, andb_true_iff, Nat.eqb_eq. split.
    + intros [-> Hk]. exists [], s. split_and!; [done|simpl; lia..|set_solver|done].
    + intros ([|x ss] & s2 & -> & Hlen & _ & Hk); simpl in *; [|lia]. split; [lia|done].
  - cbn [re_run]. rewrite orb_true_iff, andb_true_iff, Nat.eqb_eq, IH. split.
    + intros [[-> Hk]|(s1 & s2 & -> & Hm & Hl)].
      * exists [], s. split_and!; [done|simpl; lia..|set_solver|done].
      * apply IHhi in Hl as (ss & s3 & -> & Hlen & Hall & Hk). exists (s1 :: ss), s3. simpl.
        split_and!; [by rewrite <-app_assoc|lia..| |done]. intros x [->|Hx]%elem_of_cons; auto.
    + intros ([|x ss] & s2 & -> & Hlen & Hall & Hk); simpl in *.
      * left. split; [lia|done].
      * right. exists x, (concat ss ++ s2). split; [by rewrite <-app_assoc|]. split; [apply Hall; left|].
        apply IHhi. exists ss, s2. split_and!; [done|lia..| |done]. intros y Hy. apply Hall. by right.
Qed.

Lemma re_run_iff r s k :
  re_run r s k = true ↔ ∃ s1 s2, s = s1 ++ s2 ∧ re_match r s1 ∧ k s2 = true.
Proof.
  revert s k. induction r as [p|r1 IH1 r2 IH2|r IH lo hi]; intros s k.
  - destruct s as [|b s]; simpl.
    + split; [done|]. intros (s1 & s2 & Heq & (b & -> & _)%re_match_cls_inv & _). done.
    + rewrite andb_true_iff. split.
      * intros [Hb Hk]. exists [b], s. split_and!; [done|by constructor|done].
      * intros (s1 & s2 & Heq & (b' & -> & Hb)%re_match_cls_inv & Hk). by simplify_eq/=.
  - cbn [re_run]. rewrite IH1. split.
    + intros (s1 & s2 & -> & Hm1 & (s3 & s4 & -> & Hm2 & Hk)%IH2). exists (s1 ++ s3), s4.
      split_and!; [by rewrite <-app_assoc|by constructor|done].
    + intros (s1 & s2 & -> & Hm & Hk). inversion Hm as [|? ? a b Ha Hb|]; subst.
      exists a, (b ++ s2). split_and!; [by rewrite <-app_assoc|done|]. apply IH2. by exists b, s2.
  - rewrite (rep_loop r k lo hi s IH). split.
    + intros (ss & s2 & -> & Hlen & Hall & Hk). exists (concat ss), s2. split_and!; [done|by constructor|done].
    + intros (s1 & s2 & -> & Hm & Hk). inversion Hm as [| |? ? ? ss Hlen Hall]; subst. by exists ss, s2.
Qed.

Lemma re_test_iff r s : re_test r s = true ↔ re_match r (bytes s).
Proof.
  unfold re_test. rewrite re_run_iff. split.
  - intros (s1 & [|? ?] & -> & Hm & ?); [|done]. by rewrite app_nil_r.
  - intros Hm. exists (bytes s), []. by rewrite app_nil_r.
Qed.

(** ** Tables *)

(** The fields of a TOML table: keys are unique, and there is no null. *)
Definition plain_fields (fs : list (string * json)) : Prop :=
  NoDup fs.*1 ∧ Forall (λ kv, kv.2 ≠ JNull) fs.

(** Where the manifest has a table, the document has one, or a scalar. *)
Definition table (v : json) : Prop :=
  match v with JObj fs => plain_fields fs | JArr _ => False | _ => True end.

Definition toml_tree (j : json) : Prop :=
  ∃ fs, j = JObj fs ∧ plain_fields fs ∧
    Forall (λ kv, kv.1 ∈ sections → table kv.2) fs.

Lemma assoc_None k fs : assoc k fs = None ↔ k ∉ fs.*1.
Proof.
  induction fs as [|[k' v] fs IH]; [simpl; set_solver|]. rewrite fmap_cons, not_elem_of_cons. simpl.
  case_decide as Hk; naive_solver.
Qed.

Lemma assoc_elem k v fs : assoc k fs = Some v → (k, v) ∈ fs.
Proof.
  induction fs as [|[k' v'] fs IH]; [done|]. simpl. case_decide as Hk; [intros [= ->]; subst; left|].
  intros Ha. right. auto.
Qed.

Lemma elem_assoc k v fs : NoDup fs.*1 → (k, v) ∈ fs → assoc k fs = Some v.
Proof.
  induction fs as [|[k' v'] fs IH]; [set_solver|]. rewrite fmap_cons, NoDup_cons. simpl.
  intros [Hk Hnd] [[= -> ->]|Hin]%elem_of_cons; [by rewrite decide_True|].
  rewrite decide_False; [auto|]. intros ->. apply Hk, list_elem_of_fmap. by exists (k', v).
Qed.

Lemma values_of_cons k k' v fs :
  values_of k ((k', v) :: fs) = if decide (k = k') then v :: values_of k fs else values_of k fs.
Proof.
  unfold values_of. case_decide as Hk.
  - by rewrite filter_cons_True by (simpl; done).
  - by rewrite filter_cons_False by (simpl; by intros ->).
Qed.

Lemma values_of_absent k fs : k ∉ fs.*1 → values_of k fs = [].
Proof.
  induction fs as [|[k' v] fs IH]; [done|]. rewrite fmap_cons, not_elem_of_cons. intros [Hk Hf].
  rewrite values_of_cons, decide_False by done. auto.
Qed.

Lemma once_assoc k fs : NoDup fs.*1 → once k fs = Some (assoc k fs).
Proof.
  unfold once. induction fs as [|[k' v] fs IH]; [done|]. rewrite fmap_cons, NoDup_cons. intros [Hk Hnd].
  rewrite values_of_cons. simpl. case_decide as Heq; [|auto]. subst. by rewrite values_of_absent.
Qed.

Lemma get_field_assoc {A} (f : json → option A) k fs :
  NoDup fs.*1 → get_field f k fs = assoc k fs ≫= f.
Proof. intros Hnd. unfold get_field. by rewrite once_assoc. Qed.

Lemma get_opt_field_assoc {A} (f : json → option A) k fs :
  plain_fields fs →
  get_opt_field f k fs = match assoc k fs with None => Some None | Some v => Some <$> f v end.
Proof.
  intros [Hnd Hnn]. unfold get_opt_field. rewrite once_assoc by done. simpl.
  destruct (assoc k fs) as [v|] eqn:Ha; [|done]. apply assoc_elem in Ha. rewrite Forall_forall in Hnn.
  specialize (Hnn _ Ha). simpl in Hnn. destruct v; try done; simpl; by destruct (f _).
Qed.

Lemma strict_fields_Some keys fs fs' :
  strict_fields keys (JObj fs) = Some fs' ↔ fs' = fs ∧ ∀ k, k ∈ fs.*1 → k ∈ keys.
Proof.
  simpl. destruct (forallb _ fs) eqn:Hf; rewrite ?forallb_forall in Hf.
  - split; [intros [= <-]|by intros [-> _]]. split; [done|]. intros k (kv & -> & Hk)%list_elem_of_fmap.
    apply (bool_decide_eq_true_1 _). apply Hf. by apply list_elem_of_In.
  - split; [done|]. intros [_ Hk]. exfalso. apply not_true_iff_false in Hf. apply Hf, forallb_forall.
    intros kv Hkv%list_elem_of_In. apply bool_decide_eq_true, Hk, list_elem_of_fmap. by exists kv.
Qed.

Lemma strict_bind {A} keys fs (k : list (string * json) → option A) a :
  strict_fields keys (JObj fs) ≫= k = Some a ↔ (∀ x, x ∈ fs.*1 → x ∈ keys) ∧ k fs = Some a.
Proof. rewrite bind_Some. setoid_rewrite strict_fields_Some. naive_solver. Qed.

(** What a closed object schema asks of a table. *)
Definition property_ok (ok : schema → json → bool) (req : list string) (fs : list (string * json))
    (ks : string * schema) : Prop :=
  match assoc ks.1 fs with Some v => ok ks.2 v = true | None => ks.1 ∉ req end.

Lemma assoc_schema_elem k s props : NoDup props.*1 → assoc_schema k props = Some s ↔ (k, s) ∈ props.
Proof.
  induction props as [|[k' s'] props IH]; simpl; [set_solver|].
  rewrite NoDup_cons. intros [Hk Hnd]. case_decide as Heq.
  - subst. rewrite elem_of_cons. split; [intros [= ->]; by left|]. intros [[= ->]|Hin]; [done|].
    exfalso. apply Hk, list_elem_of_fmap. by exists (k', s).
  - rewrite IH, elem_of_cons by done. naive_solver.
Qed.

Lemma assoc_schema_None k props : assoc_schema k props = None ↔ k ∉ props.*1.
Proof.
  induction props as [|[k' s'] props IH]; [simpl; set_solver|]. rewrite fmap_cons, not_elem_of_cons. simpl.
  case_decide; naive_solver.
Qed.

Lemma object_iff fuel defs req props fs :
  NoDup fs.*1 → NoDup props.*1 → Forall (λ k, k ∈ props.*1) req →
  accepts (S fuel) defs (STyped [TObject] (KObject req props false)) (JObj fs) = true ↔
  (∀ k, k ∈ fs.*1 → k ∈ props.*1) ∧ Forall (property_ok (accepts fuel defs) req fs) props.
Proof.
  intros Hnd Hndp Hreq. cbn [accepts existsb type_of]. rewrite bool_decide_true by done. cbn [orb andb].
  rewrite andb_true_iff, !forallb_forall, Forall_forall. setoid_rewrite bool_decide_eq_true. split.
  - intros [Hr Hp]. split.
    + intros k ([k' v] & -> & Hin)%list_elem_of_fmap. specialize (Hp _ (proj1 (list_elem_of_In _ _) Hin)).
      simpl in *. destruct (assoc_schema k' props) as [s|] eqn:Hs; [|done].
      apply assoc_schema_elem in Hs; [|done]. apply list_elem_of_fmap. by exists (k', s).
    + intros [k s] Hin. unfold property_ok. simpl. destruct (assoc k fs) as [v|] eqn:Ha.
      * apply assoc_elem in Ha. specialize (Hp _ (proj1 (list_elem_of_In _ _) Ha)). simpl in Hp.
        by rewrite (proj2 (assoc_schema_elem k s props Hndp) Hin) in Hp.
      * intros Hk. apply assoc_None in Ha. apply Ha, Hr. by apply list_elem_of_In.
  - intros [Hk Hp]. split.
    + intros k Hin%list_elem_of_In. rewrite Forall_forall in Hreq. specialize (Hreq k Hin).
      apply list_elem_of_fmap in Hreq as ([k' s] & -> & Hs). specialize (Hp _ Hs). unfold property_ok in Hp. simpl in *.
      destruct (assoc k' fs) as [v|] eqn:Ha; [|done]. apply assoc_elem in Ha. apply list_elem_of_fmap. by exists (k', v).
    + intros [k v] Hin%list_elem_of_In. simpl. destruct (assoc_schema k props) as [s|] eqn:Hs.
      * apply assoc_schema_elem in Hs; [|done]. specialize (Hp _ Hs). unfold property_ok in Hp. simpl in Hp.
        by rewrite (elem_assoc k v fs Hnd Hin) in Hp.
      * exfalso. apply assoc_schema_None in Hs. apply Hs, Hk, list_elem_of_fmap. by exists (k, v).
Qed.

(** Closed statements about literal lists, and inclusion of such lists. *)
Local Ltac decided := apply (bool_decide_unpack _); vm_compute; exact I.
Local Ltac included Hk := let k := fresh "k" in let Hin := fresh "Hin" in
  intros k Hin; apply Hk in Hin; revert k Hin; apply Forall_forall; decided.

(** ** Scalars *)

Section scalars.
Context (f : nat) (defs : list (string * schema)).

Lemma pattern_iff text r v :
  accepts (S f) defs (STyped [TString] (KPattern text r)) v = true ↔ ∃ x, v = JStr x ∧ re_match r (bytes x).
Proof.
  destruct v as [| | |x| |]; try (split; [done|by intros (? & ? & _)]).
  change (re_test r x = true ↔ ∃ y, JStr x = JStr y ∧ re_match r (bytes y)). rewrite re_test_iff. naive_solver.
Qed.

Lemma max_length_iff n v :
  v ≠ JNull →
  accepts (S f) defs (STyped [TString; TNull] (KMaxLength n)) v = true ↔ ∃ x, v = JStr x ∧ chars_count x ≤ n.
Proof.
  intros Hn. destruct v as [| | |x| |]; try (split; [done|by intros (? & ? & _)]).
  change ((chars_count x <=? n) = true ↔ ∃ y, JStr x = JStr y ∧ chars_count y ≤ n). rewrite Z.leb_le. naive_solver.
Qed.

Lemma range_iff lo hi types v :
  types = [TInteger] ∨ types = [TInteger; TNull] → v ≠ JNull →
  accepts (S f) defs (STyped types (KRange lo hi)) v = true ↔ ∃ n, v = JNum n ∧ lo ≤ n ≤ hi.
Proof.
  intros Ht Hn. destruct v as [| |n| | |]; try done.
  2:{ assert (accepts (S f) defs (STyped types (KRange lo hi)) (JNum n) = in_range lo hi n) as ->
        by by destruct Ht as [-> | ->].
      rewrite in_range_spec. naive_solver. }
  all: destruct Ht as [-> | ->]; split; [done|by intros (? & ? & _)|done|by intros (? & ? & _)].
Qed.

Lemma names_iff text v :
  accepts (S (S f)) defs (STyped [TArray] (KItems (STyped [TString] (KPattern text secret_name_re)) 0)) v = true ↔
  ∃ l, as_list as_str v = Some l ∧ Forall valid_secret l.
Proof.
  cbn [accepts existsb]. destruct v as [| | | |l|]; try (split; [done|by intros (? & ? & _)]).
  cbn [type_of orb andb Nat.leb]. rewrite bool_decide_true by done. cbn [orb andb as_list].
  fold (accepts (S f) defs). rewrite forallb_forall. split.
  - intros Hall. assert (Hx : Forall (λ j, ∃ x, j = JStr x ∧ valid_secret x) l).
    { apply Forall_forall. intros j Hj%list_elem_of_In. apply (pattern_iff text), (Hall j Hj). }
    clear Hall. induction Hx as [|j l (x & -> & Hv) _ (l' & Hl' & Hf)]; [by exists []|].
    exists (x :: l'). simpl. rewrite Hl'. simpl. split; [done|by constructor].
  - intros (l' & Hm%mapM_Some & Hf) j Hj%list_elem_of_In. apply (pattern_iff text).
    apply list_elem_of_lookup in Hj as [i Hi]. destruct (Forall2_lookup_l _ _ _ _ _ Hm Hi) as (x & Hx & Hs).
    exists x. destruct j; simplify_eq/=. split; [done|]. exact (Forall_lookup_1 _ _ _ _ Hf Hx).
Qed.

End scalars.

(** ** The tables *)

Lemma not_null fs k v : plain_fields fs → assoc k fs = Some v → v ≠ JNull.
Proof. intros [_ Hn] Ha%assoc_elem. rewrite Forall_forall in Hn. exact (Hn _ Ha). Qed.

Section tables.
Context (f : nat) (defs : list (string * schema)).

Lemma project_iff v :
  table v →
  accepts (S (S f)) defs RawProject_schema v = true ↔
  ∃ p, raw_project_of_json v = Some p ∧ re_match project_name_re (bytes p.(raw_name)) ∧
       ∀ d, p.(raw_description) = Some d → chars_count d ≤ 256.
Proof.
  intros Ht. destruct v as [| | | | |fs]; try (split; [done|by intros (? & ? & _)]).
  unfold RawProject_schema. rewrite object_iff; [|apply Ht|decided|by repeat constructor].
  unfold raw_project_of_json. rewrite !Forall_cons. unfold property_ok. cbn [fst snd].
  setoid_rewrite bind_Some. setoid_rewrite strict_fields_Some. split.
  - intros (Hk & Hd & Hn & _). destruct (assoc "name" fs) as [vn|] eqn:Han; [|by destruct Hn; left].
    apply pattern_iff in Hn as (x & -> & Hx).
    destruct (assoc "description" fs) as [vd|] eqn:Had.
    + apply max_length_iff in Hd as (d & -> & Hd); [|by eapply not_null].
      exists (mkRawProject x (Some d)). split; [|split; [done|by intros d' [= <-]]].
      exists fs. split; [split; [done|]; included Hk|].
      rewrite get_field_assoc, get_opt_field_assoc by (done || apply Ht). by rewrite Han, Had.
    + exists (mkRawProject x None). split; [|done].
      exists fs. split; [split; [done|]; included Hk|].
      rewrite get_field_assoc, get_opt_field_assoc by (done || apply Ht). by rewrite Han, Had.
  - intros (p & (fs' & [-> Hk] & Hp) & Hx & Hd).
    rewrite get_field_assoc, get_opt_field_assoc in Hp by (done || apply Ht).
    destruct (assoc "name" fs) as [[| | |x| |]|] eqn:Han; try done. cbn [as_str mbind option_bind] in Hp.
    split; [included Hk|]. split; [|split; [|done]].
    + destruct (assoc "description" fs) as [vd|] eqn:Had; [|set_solver].
      apply max_length_iff; [by eapply not_null|]. destruct vd as [| | |d| |]; try done. simplify_eq/=.
      exists d. auto.
    + apply pattern_iff. exists x. split; [done|].
      destruct (assoc "description" fs) as [[| | |d| |]|]; by simplify_eq/=.
Qed.

Lemma allowlist_iff v :
  table v →
  accepts (S (S (S f))) defs RawAllowlist_schema v = true ↔
  ∃ a, raw_allowlist_of_json v = Some a ∧ Forall valid_secret a.(raw_secrets).
Proof.
  intros Ht. destruct v as [| | | | |fs]; try (split; [done|by intros (? & ? & _)]).
  unfold RawAllowlist_schema. rewrite object_iff; [|apply Ht|decided|by repeat constructor].
  unfold raw_allowlist_of_json. rewrite !Forall_cons. unfold property_ok. cbn [fst snd].
  setoid_rewrite bind_Some. setoid_rewrite strict_fields_Some. split.
  - intros (Hk & Hn & _). destruct (assoc "secrets" fs) as [v|] eqn:Ha; [|by destruct Hn; left].
    apply names_iff in Hn as (l & Hl & Hf). exists (mkRawAllowlist l). split; [|done]. exists fs.
    split; [done|]. rewrite get_field_assoc by apply Ht. by rewrite Ha; simpl; rewrite Hl.
  - intros (a & (fs' & [-> Hk] & Hp) & Hf). rewrite get_field_assoc in Hp by apply Ht.
    split; [done|]. split; [|done]. destruct (assoc "secrets" fs) as [v|] eqn:Ha; [|done].
    apply names_iff. cbn [mbind option_bind] in Hp. destruct (as_list as_str v) as [l|]; [|done].
    exists l. simplify_eq/=. done.
Qed.

Lemma opt_uint_iff lo hi k fs :
  plain_fields fs → 0 ≤ lo → hi ≤ u32_max →
  property_ok (accepts (S f) defs) [] fs (k, STyped [TInteger; TNull] (KRange lo hi)) ↔
  ∃ o, get_opt_field (as_uint u32_max) k fs = Some o ∧ ∀ n, o = Some n → lo ≤ n ≤ hi.
Proof.
  intros Hp Hlo Hhi. unfold property_ok. cbn [fst snd]. rewrite get_opt_field_assoc by done.
  destruct (assoc k fs) as [v|] eqn:Ha.
  - rewrite range_iff by (auto || by eapply not_null). split.
    + intros (n & -> & Hn). exists (Some n). rewrite as_uint_num by lia. split; [done|]. by intros ? [= <-].
    + intros (o & Ho & Hn). destruct v; try done. simpl in Ho. destruct (in_range 0 u32_max n); [|done].
      simplify_eq/=. eauto.
  - split; [intros _|set_solver]. exists None. done.
Qed.

Lemma cache_iff v :
  table v →
  accepts (S (S f)) defs RawCache_schema v = true ↔
  ∃ c, raw_cache_of_json v = Some c ∧ (∀ t, c.(raw_ttl_seconds) = Some t → 1 ≤ t ≤ 86400) ∧
       ∀ n, c.(raw_max_entries) = Some n → 1 ≤ n ≤ 1024.
Proof.
  intros Ht. destruct v as [| | | | |fs]; try (split; [done|by intros (? & ? & _)]).
  unfold RawCache_schema. rewrite object_iff; [|apply Ht|decided|by repeat constructor].
  unfold raw_cache_of_json. rewrite !Forall_cons.
  setoid_rewrite bind_Some. setoid_rewrite strict_fields_Some.
  rewrite !opt_uint_iff by (done || unfold u32_max; lia). split.
  - intros (Hk & (om & Hm & Hmr) & (ot & Htt & Htr) & _). exists (mkRawCache ot om). split; [|done].
    exists fs. split; [split; [done|]; included Hk|]. by rewrite Htt; simpl; rewrite Hm.
  - intros (c & (fs' & [-> Hk] & Hc) & Htr & Hmr). split; [included Hk|].
    destruct (get_opt_field _ "ttl_seconds" fs) as [ot|]; [|done]. simpl in Hc.
    destruct (get_opt_field _ "max_entries" fs) as [om|]; [|done]. simplify_eq/=. eauto 10.
Qed.

End tables.

(** ** The whole document *)

(** The rules a schema can express. *)
Definition schema_rules (raw : RawManifest) : Prop :=
  rule_version raw ∧ rule_name raw ∧ rule_description raw ∧
  Forall valid_secret raw.(raw_allowlist).(raw_secrets) ∧ rule_ttl raw ∧ rule_max_entries raw.

Local Abbreviation defs := manifest_json_schema.(definitions).

Lemma optional_cache_iff f v :
  v ≠ JNull →
  accepts (S (S f)) defs (SAnyOf [SRef "RawCache"; STyped [TNull] KNone]) v =
  accepts f defs RawCache_schema v.
Proof.
  intros Hv. cbn [accepts existsb]. change (assoc_schema "RawCache" defs) with (Some RawCache_schema). cbv iota.
  assert (bool_decide (type_of v = Some TNull) = false) as -> by (apply bool_decide_false; by destruct v).
  by rewrite !orb_false_r.
Qed.

Lemma ref_project f v : accepts (S f) defs (SRef "RawProject") v = accepts f defs RawProject_schema v.
Proof. done. Qed.
Lemma ref_allowlist f v : accepts (S f) defs (SRef "RawAllowlist") v = accepts f defs RawAllowlist_schema v.
Proof. done. Qed.

Lemma table_at fs k v :
  Forall (λ kv, kv.1 ∈ sections → table kv.2) fs →
  assoc k fs = Some v → k ∈ sections → table v.
Proof. intros Hf Ha%assoc_elem. rewrite Forall_forall in Hf. exact (Hf _ Ha). Qed.

(** The fields of the document one by one. *)
Lemma schema_fields fs :
  plain_fields fs → Forall (λ kv, kv.1 ∈ sections → table kv.2) fs →
  schema_accepts (JObj fs) = true ↔
  (∀ k, k ∈ fs.*1 → k ∈ ["schema_version"; "project"; "allowlist"; "cache"]) ∧
  assoc "schema_version" fs = Some (JNum 1) ∧
  (∃ v p, assoc "project" fs = Some v ∧ raw_project_of_json v = Some p ∧
     re_match project_name_re (bytes p.(raw_name)) ∧ ∀ d, p.(raw_description) = Some d → chars_count d ≤ 256) ∧
  (∃ v a, assoc "allowlist" fs = Some v ∧ raw_allowlist_of_json v = Some a ∧ Forall valid_secret a.(raw_secrets)) ∧
  match assoc "cache" fs with
  | None => True
  | Some v => ∃ c, raw_cache_of_json v = Some c ∧ (∀ t, c.(raw_ttl_seconds) = Some t → 1 ≤ t ≤ 86400) ∧
                   ∀ n, c.(raw_max_entries) = Some n → 1 ≤ n ≤ 1024
  end.
Proof.
  intros Hp Ht. unfold schema_accepts, schema_fuel. cbn [manifest_json_schema root schema_for_RawManifest].
  unfold RawManifest_schema. rewrite object_iff; [|apply Hp|decided|decided].
  rewrite !Forall_cons. unfold property_ok. cbn [fst snd]. split.
  - intros (Hk & Ha & Hc & Hj & Hv & _). split_and!.
    + included Hk.
    + destruct (assoc "schema_version" fs) as [v|] eqn:He; [|destruct Hv; decided].
      apply range_iff in Hv as (n & -> & Hn); [|by left|by eapply not_null]. do 2 f_equal. lia.
    + destruct (assoc "project" fs) as [v|] eqn:He; [|destruct Hj; decided]. rewrite ref_project in Hj.
      apply project_iff in Hj as (p & Hp' & Hrest); [|eapply table_at; [done..|decided]]. by exists v, p.
    + destruct (assoc "allowlist" fs) as [v|] eqn:He; [|destruct Ha; decided]. rewrite ref_allowlist in Ha.
      apply allowlist_iff in Ha as (a & Ha' & Hrest); [|eapply table_at; [done..|decided]]. by exists v, a.
    + destruct (assoc "cache" fs) as [v|] eqn:He; [|done].
      rewrite optional_cache_iff in Hc by (by eapply not_null).
      by apply cache_iff in Hc; [|eapply table_at; [done..|decided]].
  - intros (Hk & Hv & (vj & p & Hej & Hj) & (va & a & Hea & Ha) & Hc). rewrite Hv, Hej, Hea. split_and!; [..|done].
    + included Hk.
    + rewrite ref_allowlist. apply allowlist_iff; [eapply table_at; [done..|decided]|eauto].
    + destruct (assoc "cache" fs) as [v|] eqn:He; [|decided].
      rewrite optional_cache_iff by (by eapply not_null). apply cache_iff; [|done].
      eapply table_at; [done..|decided].
    + rewrite ref_project. apply project_iff; [eapply table_at; [done..|decided]|eauto].
    + apply range_iff; [by left|done|]. by exists 1.
Qed.

Lemma schema_iff j :
  toml_tree j →
  schema_accepts j = true ↔ ∃ raw, raw_manifest_of_json j = Some raw ∧ schema_rules raw.
Proof.
  intros (fs & -> & Hp & Ht). rewrite schema_fields by done.
  unfold raw_manifest_of_json, schema_rules, rule_version, rule_name, rule_description, rule_ttl, rule_max_entries.
  setoid_rewrite strict_bind.
  rewrite !get_field_assoc, get_opt_field_assoc by (done || apply Hp). split.
  - intros (Hk & Hv & (vj & p & Hej & Hj & Hn & Hd) & (va & a & Hea & Ha & Hs) & Hc).
    assert (∃ oc, match assoc "cache" fs with None => Some None | Some v => Some <$> raw_cache_of_json v end = Some oc ∧
      ∀ c, oc = Some c → (∀ t, c.(raw_ttl_seconds) = Some t → 1 ≤ t ≤ 86400) ∧
        ∀ n, c.(raw_max_entries) = Some n → 1 ≤ n ≤ 1024) as (oc & Hoc & Hcr).
    { destruct (assoc "cache" fs) as [v|]; [|by exists None]. destruct Hc as (c & -> & Hc). exists (Some c).
      split; [done|]. by intros ? [= <-]. }
    exists (mkRawManifest 1 p a oc). split.
    + split; [done|]. rewrite Hv, Hej, Hea. cbn [mbind option_bind].
      rewrite as_uint_num by (unfold u32_max; lia). simpl. rewrite Hj. simpl. rewrite Ha. simpl. by rewrite Hoc.
    + simpl. split_and!; [by left|done..| |]; intros c x Hx; by apply Hcr.
  - intros (raw & (Hk & Hraw) & Hver & Hn & Hd & Hs & Httl & Hmax).
    destruct (assoc "schema_version" fs) as [vv|] eqn:Hev; [|done]. cbn [mbind option_bind] in Hraw.
    destruct (as_uint u32_max vv) as [ver|] eqn:Hver'; [|done]. cbn [mbind option_bind] in Hraw.
    destruct (assoc "project" fs) as [vj|] eqn:Hej; [|done]. cbn [mbind option_bind] in Hraw.
    destruct (raw_project_of_json vj) as [p|] eqn:Hj; [|done]. cbn [mbind option_bind] in Hraw.
    destruct (assoc "allowlist" fs) as [va|] eqn:Hea; [|done]. cbn [mbind option_bind] in Hraw.
    destruct (raw_allowlist_of_json va) as [a|] eqn:Ha; [|done]. cbn [mbind option_bind] in Hraw.
    destruct (match assoc "cache" fs with Some v => Some <$> raw_cache_of_json v | None => Some None end)
      as [oc|] eqn:Hoc; [|done]. cbn [mbind option_bind] in Hraw. injection Hraw as <-. simpl in *.
    split_and!; [done| |by exists vj, p|by exists va, a|].
    + destruct vv as [| |n| | |]; try done. simpl in Hver'. destruct (in_range 0 u32_max n); [|done].
      injection Hver' as ->. unfold SUPPORTED_SCHEMA_VERSIONS in Hver. by apply list_elem_of_singleton in Hver as ->.
    + destruct (assoc "cache" fs) as [vc|]; [|done].
      destruct (raw_cache_of_json vc) as [c|]; [|done]. simplify_eq/=. exists c. eauto.
Qed.

Lemma valid_split raw dir :
  valid_manifest raw dir ↔
  schema_rules raw ∧ rule_dir raw dir ∧ NoDup raw.(raw_allowlist).(raw_secrets).
Proof.
  split.
  - intros [Hv Hn Hdir Hd [Hs Hnd] Ht Hm]. done.
  - intros ((Hv & Hn & Hd & Hs & Ht & Hm) & Hdir & Hnd). by split.
Qed.

(** On trees of tables the broker accepts what the schema accepts, less the two
    rules the schema does not express. *)
Lemma trees_agree j dir :
  toml_tree j →
  broker_accepts j dir = true ↔
  schema_accepts j = true ∧
  ∃ raw, raw_manifest_of_json j = Some raw ∧ rule_dir raw dir ∧ NoDup raw.(raw_allowlist).(raw_secrets).
Proof.
  intros Ht. rewrite schema_iff by done. unfold broker_accepts.
  destruct (raw_manifest_of_json j) as [raw|]; [|naive_solver].
  pose proof (validate_cases raw dir) as Hc. destruct (validate raw dir) as [m|e]; simpl.
  - destruct Hc as [(Hr & Hd & Hn)%valid_split _]. naive_solver.
  - split; [done|]. intros [(raw' & [= <-] & Hr) (raw'' & [= <-] & Hd & Hn)].
    apply first_violation_not_valid in Hc. destruct Hc. by apply valid_split.
Qed.

(** ** The two views of a document *)

Definition serde_fields (fs : list (string * toml)) : list (string * json) :=
  map (λ '(k, v), (k, serde_tree v)) fs.

Lemma views_agree datetime t : plain_values t = true → client_tree datetime t = serde_tree t.
Proof.
  revert t. fix IH 1. intros [s|n|[n|]|b|text|l|fs]; simpl; try done; intros Hp; f_equal.
  - induction l as [|t l IHl]; [done|]. simpl in *. apply andb_true_iff in Hp as [Ht Hl]. f_equal; auto.
  - induction fs as [|[k t] fs IHfs]; [done|]. simpl in *. apply andb_true_iff in Hp as [Ht Hl].
    f_equal; [|auto]. f_equal. auto.
Qed.

Lemma serde_keys fs : (serde_fields fs).*1 = fs.*1.
Proof. induction fs as [|[k v] fs IH]; [done|]. cbn. by f_equal. Qed.

Lemma serde_elem k v fs : (k, v) ∈ fs → (k, serde_tree v) ∈ serde_fields fs.
Proof. intros Hin. apply list_elem_of_fmap. by exists (k, v). Qed.

Lemma serde_plain fs : NoDup fs.*1 → plain_fields (serde_fields fs).
Proof.
  intros Hnd. split; [by rewrite serde_keys|]. apply Forall_fmap, Forall_true. intros [k v]. by destruct v.
Qed.

Lemma unique_field (fs : list (string * toml)) k v :
  foldr (λ kv P, unique_keys kv.2 ∧ P) True fs → (k, v) ∈ fs → unique_keys v.
Proof.
  induction fs as [|[k' v'] fs IH]; [set_solver|]. intros [Hv Hfs] [[= -> ->]|Hin]%elem_of_cons; auto.
Qed.

Lemma serde_toml_tree t :
  toml_document t → no_array_sections t = true → toml_tree (serde_tree t).
Proof.
  intros [[fs ->] [Hnd Hu]] Hna. eexists. split; [done|]. split; [by apply serde_plain|].
  apply Forall_fmap, Forall_forall. intros [k v] Hin Hk. simpl in *.
  rewrite forallb_forall in Hna. specialize (Hna (k, v) (proj1 (list_elem_of_In _ _) Hin)). simpl in Hna.
  pose proof (unique_field fs k v Hu Hin) as Hv.
  destruct v as [| | | | |l|fs']; try done; simpl.
  - split; [|by repeat constructor]. decided.
  - by apply bool_decide_eq_true in Hna.
  - apply serde_plain, Hv.
Qed.

(** The schema takes no array for a section. *)
Lemma schema_no_arrays t :
  toml_document t → schema_accepts (serde_tree t) = true → no_array_sections t = true.
Proof.
  intros [[fs ->] [Hnd _]] Hs. pose proof (serde_plain fs Hnd) as Hp. revert Hs.
  unfold schema_accepts, schema_fuel. cbn [manifest_json_schema root schema_for_RawManifest serde_tree].
  fold (serde_fields fs).
  unfold RawManifest_schema. rewrite object_iff; [|apply Hp|decided|decided].
  rewrite !Forall_cons. unfold property_ok. cbn [fst snd]. intros (_ & Ha & Hc & Hj & _).
  simpl. apply forallb_forall. intros [k v] Hin%list_elem_of_In. simpl. destruct v as [| | | | |l|]; try done.
  apply bool_decide_eq_true. apply serde_elem in Hin. apply (elem_assoc _ _ _ (proj1 Hp)) in Hin.
  intros Hk. repeat (apply elem_of_cons in Hk as [->|Hk]); [..|by apply not_elem_of_nil in Hk];
    [rewrite Hin in Hj|rewrite Hin in Ha|rewrite Hin in Hc]; done.
Qed.

(** What deserializes has no float and no datetime. *)
Definition is_array (t : toml) : bool := match t with TomlArray _ => true | _ => false end.

Lemma str_plain v x : as_str (serde_tree v) = Some x → plain_values v = true.
Proof. by destruct v. Qed.

Lemma uint_plain m v n : as_uint m (serde_tree v) = Some n → plain_values v = true.
Proof. by destruct v. Qed.

Lemma strs_plain v l : as_list as_str (serde_tree v) = Some l → plain_values v = true.
Proof.
  destruct v as [| | | | |vs|]; try done. simpl. revert l. induction vs as [|v vs IH]; [done|]. intros l.
  cbn [map mapM]. intros (x & Hx%str_plain & (xs & Hxs%IH & _)%bind_Some)%bind_Some. simpl. by rewrite Hx.
Qed.

Lemma fields_plain keys fs :
  NoDup fs.*1 → (∀ k, k ∈ (serde_fields fs).*1 → k ∈ keys) →
  Forall (λ k, ∀ v, (k, v) ∈ fs → assoc k (serde_fields fs) = Some (serde_tree v) → plain_values v = true) keys →
  plain_values (TomlTable fs) = true.
Proof.
  intros Hnd Hkeys Hall. simpl. apply forallb_forall. intros [k v] Hin%list_elem_of_In. simpl.
  rewrite Forall_forall in Hall. apply (Hall k); [|done|].
  - apply Hkeys. rewrite serde_keys. apply list_elem_of_fmap. by exists (k, v).
  - apply elem_assoc; [by rewrite serde_keys|by apply serde_elem].
Qed.

Lemma field_at {A} (f : json → option A) k fs j a :
  plain_fields fs → assoc k fs = Some j → get_field f k fs = Some a → f j = Some a.
Proof. intros Hp Ha. rewrite get_field_assoc by apply Hp. by rewrite Ha. Qed.

Lemma opt_field_at {A} (f : json → option A) k fs j o :
  plain_fields fs → assoc k fs = Some j → get_opt_field f k fs = Some o → ∃ a, f j = Some a.
Proof. intros Hp Ha. rewrite get_opt_field_assoc by done. rewrite Ha. destruct (f j); [eauto|done]. Qed.

(** A table that deserializes, field by field. *)
Local Ltac by_fields Hp := apply (fields_plain _ _ (proj1 Hp) ltac:(eassumption));
  pose proof (serde_plain _ (proj1 Hp)); repeat (apply Forall_cons; split); [..|by apply Forall_nil];
  intros ?v ?Hin ?Ha.

Lemma project_plain v p : unique_keys v → is_array v = false → raw_project_of_json (serde_tree v) = Some p → plain_values v = true.
Proof.
  intros Hu Hna. destruct v as [| | | | |l|fs]; try done. unfold raw_project_of_json. cbn [serde_tree]; fold (serde_fields fs).
  intros (Hk & (name & Hn & (d & Hd & _)%bind_Some)%bind_Some)%strict_bind. by_fields Hu.
  - eapply str_plain, field_at; eauto.
  - edestruct @opt_field_at as [x Hx]; [..|exact Hd|]; [done..|]. by eapply str_plain.
Qed.

Lemma allowlist_plain v a : unique_keys v → is_array v = false → raw_allowlist_of_json (serde_tree v) = Some a → plain_values v = true.
Proof.
  intros Hu Hna. destruct v as [| | | | |l|fs]; try done. unfold raw_allowlist_of_json. cbn [serde_tree]; fold (serde_fields fs).
  intros (Hk & (l & Hl & _)%bind_Some)%strict_bind. by_fields Hu.
  eapply strs_plain, field_at; eauto.
Qed.

Lemma cache_plain v c : unique_keys v → is_array v = false → raw_cache_of_json (serde_tree v) = Some c → plain_values v = true.
Proof.
  intros Hu Hna. destruct v as [| | | | |l|fs]; try done. unfold raw_cache_of_json. cbn [serde_tree]; fold (serde_fields fs).
  intros (Hk & (t & Ht & (m & Hm & _)%bind_Some)%bind_Some)%strict_bind. by_fields Hu.
  - edestruct @opt_field_at as [x Hx]; [..|exact Ht|]; [done..|]. by eapply uint_plain.
  - edestruct @opt_field_at as [x Hx]; [..|exact Hm|]; [done..|]. by eapply uint_plain.
Qed.

Lemma manifest_plain t raw :
  toml_document t → no_array_sections t = true → raw_manifest_of_json (serde_tree t) = Some raw →
  plain_values t = true.
Proof.
  intros [[fs ->] [Hnd Hu]] Hna. unfold raw_manifest_of_json. cbn [serde_tree]; fold (serde_fields fs).
  intros (Hk & (ver & Hver & (p & Hp & (a & Ha & (c & Hc & _)%bind_Some)%bind_Some)%bind_Some)%bind_Some)%strict_bind.
  assert (Hsec : ∀ k v, k ∈ sections → (k, v) ∈ fs → is_array v = false).
  { intros k v Hs Hin%list_elem_of_In. simpl in Hna. rewrite forallb_forall in Hna. specialize (Hna _ Hin).
    simpl in Hna. destruct v; try done. by apply bool_decide_eq_true in Hna. }
  by_fields (conj Hnd I).
  - eapply uint_plain, field_at; eauto.
  - eapply project_plain; [by eapply unique_field|eapply Hsec; [|done]; decided|by eapply field_at].
  - eapply allowlist_plain; [by eapply unique_field|eapply Hsec; [|done]; decided|by eapply field_at].
  - edestruct @opt_field_at as [x Hx]; [..|exact Hc|]; [done..|].
    eapply cache_plain; [by eapply unique_field|eapply Hsec; [|done]; decided|done].
Qed.

(** C21: how the published schema and the broker agree, for every TOML document
    and whatever a client makes of datetimes.  The broker accepts the document,
    with no section written as an array, exactly when a client that validates it
    against the schema accepts it, it has no float and no datetime, the name is
    the directory's and no secret is listed twice.  The last two the description
    of the schema names; the third exception it names, cache values above the
    broker-wide defaults, is enforced by neither.  The others it does not name:
    an integral float is an integer to the schema and refused by the broker, and
    a section as an array is read by the broker and refused by the schema. *)
Theorem schema_agrees datetime t dir :
  toml_document t →
  (broker_accepts (serde_tree t) dir = true ∧ no_array_sections t = true) ↔
  (schema_accepts (client_tree datetime t) = true ∧ plain_values t = true ∧
   ∃ raw, raw_manifest_of_json (serde_tree t) = Some raw ∧ rule_dir raw dir ∧
          NoDup raw.(raw_allowlist).(raw_secrets)).
Proof.
  intros Ht. split.
  - intros [Hb Hna]. apply trees_agree in Hb as (Hs & raw & Hraw & Hr); [|by apply serde_toml_tree].
    pose proof (manifest_plain t raw Ht Hna Hraw) as Hp. rewrite views_agree by done. eauto.
  - intros (Hs & Hp & Hr). rewrite views_agree in Hs by done. pose proof (schema_no_arrays t Ht Hs) as Hna.
    split; [|done]. apply trees_agree; [by apply serde_toml_tree|done].
Qed.

(** ** Witness *)

Definition demo_manifest_toml (name : string) (secrets : list string) : toml :=
  TomlTable [("schema_version", TomlInt 1); ("project", TomlTable [("name", TomlStr name)]);
        ("allowlist", TomlTable [("secrets", TomlArray (map TomlStr secrets))]);
        ("cache", TomlTable [("ttl_seconds", TomlInt 600)])].

Local Ltac document := split; [by eexists|]; cbn [unique_keys foldr map]; repeat split; decided.

Lemma schema_agrees_witness :
  schema_accepts (client_tree JStr (demo_manifest_toml "myrepo" ["GITHUB_TOKEN"])) = true ∧
  schema_accepts (client_tree JStr (demo_manifest_toml "myrepo" ["A"; "A"])) = true ∧
  broker_accepts (serde_tree (demo_manifest_toml "myrepo" ["A"; "A"])) (Some "myrepo") = false.
Proof.
  pose proof (schema_agrees JStr (demo_manifest_toml "myrepo" ["GITHUB_TOKEN"]) (Some "myrepo")
    ltac:(document)) as [Ha _].
  split; [apply Ha; vm_compute; split; reflexivity|]. split; vm_compute; reflexivity.
Defined.

(** The two differences nothing documents: an array for a section, and an
    integral float. *)
Definition demo_array_toml : toml :=
  TomlTable [("schema_version", TomlInt 1); ("project", TomlTable [("name", TomlStr "myrepo")]);
        ("allowlist", TomlArray [TomlArray [TomlStr "A"]])].
Definition demo_float_toml : toml :=
  TomlTable [("schema_version", TomlFloat (Some 1)); ("project", TomlTable [("name", TomlStr "myrepo")]);
        ("allowlist", TomlTable [("secrets", TomlArray [])])].

Example schema_differs :
  map (λ t, (broker_accepts (serde_tree t) (Some "myrepo"), schema_accepts (client_tree JStr t)))
    [demo_array_toml; demo_float_toml] = [(true, false); (false, true)].
Proof. vm_compute. reflexivity. Qed.

Example schema_refuses :
  map (λ t, schema_accepts (client_tree JStr t))
    [demo_manifest_toml "MyRepo" []; demo_manifest_toml "ok" ["bad-name"]; demo_manifest_toml "" [];
     TomlTable [("schema_version", TomlInt 1)]; TomlStr "x"; demo_manifest_toml "r2" []] =
  [false; false; false; false; false; true].
Proof. vm_compute. reflexivity. Qed.
