(* ===== verification/SchemaText.v ===== *)
(** * The schema as the published file ([schema/remo-broker.v1.json])

    The schema of [Schema] rendered the way [schemars] serialises it and
    [serde_json] pretty-prints it, next to the text of the file in the
    repository: the test that compares the two passes.  This also ties the
    schema the theorems are about to the one clients have. *)

From S2P Require Import Prelude Str Path Json JsonText Manifest Proto Client Schema.
Open Scope Z_scope.

(** ** JSON as [schemars] writes it: bounds are floats *)

Inductive doc : Type :=
  | DBool (b : bool)
  | DInt (n : Z)
  | DFloat (n : Z)
  | DStr (s : string)
  | DArr (l : list doc)
  | DObj (fs : list (string * doc)).

Definition spaces (n : nat) : string := of_bytes (replicate n " "%char).
Definition joined (sep : string) (l : list string) : string := of_bytes (sep_by (bytes sep) (map bytes l)).
Definition nl : string := of_bytes [NL].
Definition quote_str (s : string) : string := of_bytes (Json.quoted s).

(** [serde_json::to_string_pretty]: two spaces per level. *)
Fixpoint pretty (ind : nat) (d : doc) : string :=
  let block (o c : string) (items : list string) :=
    o +:+ nl +:+ joined ("," +:+ nl) (map (λ x, spaces (2 + ind) +:+ x) items) +:+ nl +:+ spaces ind +:+ c in
  match d with
  | DBool b => if b then "true" else "false"
  | DInt n => dec n
  | DFloat n => dec n +:+ ".0"
  | DStr s => quote_str s
  | DArr [] => "[]"
  | DArr l => block "[" "]" (map (pretty (2 + ind)) l)
  | DObj [] => "{}"
  | DObj fs => block "{" "}" (map (λ kv, quote_str kv.1 +:+ ": " +:+ pretty (2 + ind) kv.2) fs)
  end.

(** ** Rendering *)

(** The doc comments of the fields: [schemars] joins their lines. *)
Definition field_doc (ty field : string) : option string :=
  snd <$> List.find (λ d, bool_decide (d.1 = (ty, field)))
    [(("RawManifest", "schema_version"), joined " "
        ["Manifest schema version. Must equal 1; the broker rejects";
         "other values with a clear error so old/new clients see a";
         "targeted failure rather than a partial parse."]);
     (("RawProject", "name"), joined " "
        ["Project identifier. Must match `^[a-z0-9][a-z0-9_-]{0,63}$`";
         "and the project directory's basename."]);
     (("RawProject", "description"), joined " "
        ["Optional free-form description; surfaced in audit logs and";
         "status output."]);
     (("RawAllowlist", "secrets"), joined " "
        ["Secret names this project is allowed to fetch. Each entry";
         "must match `^[A-Za-z0-9_]{1,128}$`. Duplicates are rejected";
         "at validation time (no JSON Schema construct for that here —";
         "the broker enforces it)."]);
     (("RawCache", "ttl_seconds"), joined " "
        ["Per-project cache TTL. Caps the broker-wide default";
         "downward; the broker rejects values above its configured";
         "default to prevent a permissive manifest from raising the";
         "secret exposure window."]);
     (("RawCache", "max_entries"),
        "Per-project maximum cache entries. Same downward-cap rule.")].

Definition type_name (t : instance_type) : string :=
  match t with
  | TObject => "object" | TArray => "array" | TString => "string" | TInteger => "integer" | TNull => "null"
  end.

Definition render_types (ts : list instance_type) : doc :=
  match ts with [t] => DStr (type_name t) | ts => DArr (map (λ t, DStr (type_name t)) ts) end.

Definition opt_entry (k : string) (v : option string) : list (string * doc) :=
  match v with Some s => [(k, DStr s)] | None => [] end.

(** The members of the object a schema is, in the order of [SchemaObject]. *)
Fixpoint render (ty : string) (about : option string) (s : schema) : list (string * doc) :=
  opt_entry "description" about ++
  match s with
  | SRef name => [("$ref", DStr ("#/definitions/" +:+ name))]
  | SAnyOf l => [("anyOf", DArr (map (λ s, DObj (render ty None s)) l))]
  | STyped ts v =>
      [("type", render_types ts)] ++
      (if bool_decide (TInteger ∈ ts) then [("format", DStr "uint32")] else []) ++
      render_keyword ty v
  end
with render_keyword (ty : string) (v : keyword) : list (string * doc) :=
  match v with
  | KNone => []
  | KPattern text _ => [("pattern", DStr text)]
  | KMaxLength n => [("maxLength", DInt n)]
  | KRange lo hi => [("maximum", DFloat hi); ("minimum", DFloat lo)]
  | KItems items m => [("items", DObj (render ty None items)); ("minItems", DInt (Z.of_nat m))]
  | KObject req props add =>
      (if is_nil req then [] else [("required", DArr (map DStr req))]) ++
      [("properties", DObj (map (λ ks, (ks.1, DObj (render ty (field_doc ty ks.1) ks.2))) props));
       ("additionalProperties", DBool add)]
  end.

Definition render_root (r : RootSchema) : doc :=
  DObj ([("$schema", DStr "http://json-schema.org/draft-07/schema#")] ++
        opt_entry "title" r.(title) ++ opt_entry "description" r.(description) ++
        render "RawManifest" None r.(root) ++
        [("definitions", DObj (map (λ ks, (ks.1, DObj (render ks.1 None ks.2))) r.(definitions)))]).

(** ** The file *)

(** Tildes stand for double quotes. *)
Definition tildes (s : string) : string :=
  of_bytes (map (λ b, if decide (b = "~"%char) then QUOTE else b) (bytes s)).

Definition committed_schema : string := joined nl (map tildes
  ["{";
   "  ~$schema~: ~http://json-schema.org/draft-07/schema#~,";
   "  ~title~: ~remo-broker.toml (v1)~,";
   "  ~description~: ~Per-project manifest declaring the broker's allowlist and optional cache overrides. Source of truth: docs/manifest-schema.md in the get2knowio/remo-broker repo. Validation beyond what this schema expresses (project.name matching the directory basename, allowlist.secrets uniqueness, cache values not exceeding broker-wide defaults) is enforced server-side at register time.~,";
   "  ~type~: ~object~,";
   "  ~required~: [";
   "    ~allowlist~,";
   "    ~project~,";
   "    ~schema_version~";
   "  ],";
   "  ~properties~: {";
   "    ~allowlist~: {";
   "      ~$ref~: ~#/definitions/RawAllowlist~";
   "    },";
   "    ~cache~: {";
   "      ~anyOf~: [";
   "        {";
   "          ~$ref~: ~#/definitions/RawCache~";
   "        },";
   "        {";
   "          ~type~: ~null~";
   "        }";
   "      ]";
   "    },";
   "    ~project~: {";
   "      ~$ref~: ~#/definitions/RawProject~";
   "    },";
   "    ~schema_version~: {";
   "      ~description~: ~Manifest schema version. Must equal 1; the broker rejects other values with a clear error so old/new clients see a targeted failure rather than a partial parse.~,";
   "      ~type~: ~integer~,";
   "      ~format~: ~uint32~,";
   "      ~maximum~: 1.0,";
   "      ~minimum~: 1.0";
   "    }";
   "  },";
   "  ~additionalProperties~: false,";
   "  ~definitions~: {";
   "    ~RawAllowlist~: {";
   "      ~type~: ~object~,";
   "      ~required~: [";
   "        ~secrets~";
   "      ],";
   "      ~properties~: {";
   "        ~secrets~: {";
   "          ~description~: ~Secret names this project is allowed to fetch. Each entry must match `^[A-Za-z0-9_]{1,128}$`. Duplicates are rejected at validation time (no JSON Schema construct for that here — the broker enforces it).~,";
   "          ~type~: ~array~,";
   "          ~items~: {";
   "            ~type~: ~string~,";
   "            ~pattern~: ~^[A-Za-z0-9_]{1,128}$~";
   "          },";
   "          ~minItems~: 0";
   "        }";
   "      },";
   "      ~additionalProperties~: false";
   "    },";
   "    ~RawCache~: {";
   "      ~type~: ~object~,";
   "      ~properties~: {";
   "        ~max_entries~: {";
   "          ~description~: ~Per-project maximum cache entries. Same downward-cap rule.~,";
   "          ~type~: [";
   "            ~integer~,";
   "            ~null~";
   "          ],";
   "          ~format~: ~uint32~,";
   "          ~maximum~: 1024.0,";
   "          ~minimum~: 1.0";
   "        },";
   "        ~ttl_seconds~: {";
   "          ~description~: ~Per-project cache TTL. Caps the broker-wide default downward; the broker rejects values above its configured default to prevent a permissive manifest from raising the secret exposure window.~,";
   "          ~type~: [";
   "            ~integer~,";
   "            ~null~";
   "          ],";
   "          ~format~: ~uint32~,";
   "          ~maximum~: 86400.0,";
   "          ~minimum~: 1.0";
   "        }";
   "      },";
   "      ~additionalProperties~: false";
   "    },";
   "    ~RawProject~: {";
   "      ~type~: ~object~,";
   "      ~required~: [";
   "        ~name~";
   "      ],";
   "      ~properties~: {";
   "        ~description~: {";
   "          ~description~: ~Optional free-form description; surfaced in audit logs and status output.~,";
   "          ~type~: [";
   "            ~string~,";
   "            ~null~";
   "          ],";
   "          ~maxLength~: 256";
   "        },";
   "        ~name~: {";
   "          ~description~: ~Project identifier. Must match `^[a-z0-9][a-z0-9_-]{0,63}$` and the project directory's basename.~,";
   "          ~type~: ~string~,";
   "          ~pattern~: ~^[a-z0-9][a-z0-9_-]{0,63}$~";
   "        }";
   "      },";
   "      ~additionalProperties~: false";
   "    }";
   "  }";
   "}"])
  +:+ nl.

(** ** The test *)

(** [std::fs::read_to_string(&committed_path)]: the test writes the artifact
    and panics when it is missing, panics when it cannot be read or differs. *)
Inductive SchemaPanic : Type :=
  | ArtifactMissing (written : string)
  | ArtifactUnreadable (e : IoError)
  | SchemaDrift (regenerated : string).

Definition compare_schema (committed : result IoError string) : result SchemaPanic unit :=
  let regenerated := pretty 0 (render_root manifest_json_schema) +:+ nl in
  match committed with
  | Err e => if decide (io_kind e = NotFound) then Err (ArtifactMissing regenerated) else Err (ArtifactUnreadable e)
  | Ok s => if decide (s = regenerated) then Ok tt else Err (SchemaDrift regenerated)
  end.

(** The published schema is the one the theorems of [Schema] are about. *)
Example published_schema : compare_schema (Ok committed_schema) = Ok tt.
Proof. vm_compute. reflexivity. Qed.

(** The artifact is checked, not overwritten: only a missing one is. *)
Example stale_schema : ∃ s, compare_schema (Ok "") = Err (SchemaDrift s).
Proof. eexists. vm_compute. reflexivity. Qed.
