(* ===== verification/Conn.v ===== *)
(** * Connections ([src/server.rs])

    The two connection handlers: newline-delimited requests, capped at
    [MAX_MESSAGE_BYTES], each answered by one line, in order, until the peer
    closes, an I/O call fails or a line is too long.  What a peer sends is the
    bytes of the stream and how it ends; what it makes of our writes is
    [write_fault]. *)

From S2P Require Import Prelude Str Path Json Os Manifest Cache Config AuditLog Backend Proto Registry Bootstrap Server.
Open Scope Z_scope.

(** The bytes a peer sends, and the read error after them, if any: without one
    the stream ends. *)
Record stream : Type := mkStream { st_bytes : list ascii; st_error : option IoError }.

(** [reader.take(limit).read_until(b'\n', ..)]. *)
Fixpoint read_until (limit : nat) (input : list ascii) : list ascii * list ascii :=
  match limit, input with
  | S limit, b :: rest =>
      if decide (b = NL) then ([b], rest)
      else let '(line, rest) := read_until limit rest in (b :: line, rest)
  | _, _ => ([], input)
  end.

Definition ends_with_nl (line : list ascii) : bool := bool_decide (last line = Some NL).

Definition too_long (max : nat) : IoError :=
  mkIoError InvalidData
    ("admin request exceeds max message size of " +:+ dec (Z.of_nat max) +:+ " bytes").

Definition read_line_capped (max : nat) (input : stream) : result IoError (list ascii * stream) :=
  let '(line, rest) := read_until max input.(st_bytes) in
  let hit_end := negb (ends_with_nl line) && bool_decide (length line < max)%nat in
  match hit_end, input.(st_error) with
  | true, Some e => Err e
  | _, _ =>
      if bool_decide (length line = max) && negb (ends_with_nl line) then Err (too_long max)
      else Ok (line, mkStream rest input.(st_error))
  end.

Definition MESSAGE_CAP : nat := Z.to_nat MAX_MESSAGE_BYTES.
Arguments MESSAGE_CAP : simpl never.

(** ** The loop both handlers share *)

Section connection.
Context `{SerdeJson} {S : Type}.
Context (handle : list ascii → ST S json).
(** The write of the [i]-th response may fail after some bytes. *)
Context (write_fault : nat → option (nat * IoError)).

Definition frame (j : json) : list ascii := bytes (to_string j) ++ [NL].

Fixpoint connection_loop (fuel : nat) (i : nat) (input : stream)
    : ST S (list ascii * result IoError unit) :=
  match fuel with
  | O => mret ([], Ok tt)
  | Datatypes.S fuel =>
      match read_line_capped MESSAGE_CAP input with
      | Err e => mret ([], Err e)
      | Ok ([], _) => mret ([], Ok tt)
      | Ok (line, rest) =>
          response ← handle line;
          match write_fault i with
          | Some (k, e) => mret (take k (frame response), Err e)
          | None =>
              '(out, r) ← connection_loop fuel (Datatypes.S i) rest;
              mret (frame response ++ out, r)
          end
      end
  end.

(** Each round takes at least one byte of the stream. *)
Definition connection (input : stream) : ST S (list ascii * result IoError unit) :=
  connection_loop (Datatypes.S (length input.(st_bytes))) 0 input.

End connection.

(** ** The two handlers *)

Section handlers.
Context {Fnox : Type} `{Os, Outside, TomlManifest, UnicodeTables, HashOrder, FnoxCore Fnox, SerdeJson}.
Context (server : Server).
(** The text of a [serde_json] error for a line. *)
Context (serde_error : list ascii → string).
Local Abbreviation M := (ST (ServerState Fnox)).

Definition malformed {Code} (code : Code) (line : list ascii) : ErrorResponse Code :=
  error_new code ("malformed request: " +:+ serde_error line).

Definition admin_line (line : list ascii) : M json :=
  match from_slice line ≫= admin_request_of_json with
  | Some req => dispatch_admin server req
  | None => mret (admin_error_to_json (malformed AdminProtocolError line))
  end.

Definition project_line (id : nat) (peer : Peer) (line : list ascii) : M json :=
  start ← now;
  match from_slice line ≫= project_request_of_json with
  | Some req => dispatch_project id req peer start
  | None => mret (project_error_to_json (malformed ProjectProtocolError line))
  end.

Definition handle_admin_connection (write_fault : nat → option (nat * IoError)) (input : stream)
    : M (list ascii * result IoError unit) :=
  connection admin_line write_fault input.

(** [peer_cred().ok()] gives the two fields of the peer. *)
Definition handle_project_connection (id : nat) (peer_cred : option Peer)
    (write_fault : nat → option (nat * IoError)) (input : stream)
    : M (list ascii * result IoError unit) :=
  connection (project_line id (default (mkPeer None None) peer_cred)) write_fault input.

End handlers.

(** ** Reading lines *)

Lemma read_until_line limit l rest :
  NL ∉ l → (length l < limit)%nat → read_until limit (l ++ NL :: rest) = (l ++ [NL], rest).
Proof.
  revert limit. induction l as [|b l IH]; intros [|limit] Hl Hlen; simpl in *; try lia.
  - done.
  - rewrite decide_False by set_solver. rewrite IH by (set_solver || lia). done.
Qed.

Lemma read_until_long limit l rest :
  NL ∉ l → length l = limit → read_until limit (l ++ rest) = (l, rest).
Proof.
  revert limit. induction l as [|b l IH]; intros [|limit] Hl Hlen; simpl in *; try lia.
  - by destruct rest.
  - rewrite decide_False by set_solver. rewrite IH by (set_solver || lia). done.
Qed.

Lemma read_until_app limit input :
  (read_until limit input).1 ++ (read_until limit input).2 = input.
Proof.
  revert input. induction limit as [|limit IH]; intros [|b input]; simpl; try done.
  case_decide; [done|]. specialize (IH input). destruct (read_until limit input). simpl in *. by rewrite IH.
Qed.

Lemma ends_with_nl_snoc l : ends_with_nl (l ++ [NL]) = true.
Proof. unfold ends_with_nl. by rewrite last_snoc, bool_decide_true. Qed.

(** At the end of the stream nothing is read. *)
Lemma read_line_eof : read_line_capped MESSAGE_CAP (mkStream [] None) = Ok ([], mkStream [] None).
Proof. vm_compute. reflexivity. Qed.

(** A line within the cap is read whole, with its newline. *)
Lemma read_line_ok max l rest e :
  NL ∉ l → (length l < max)%nat →
  read_line_capped max (mkStream (l ++ NL :: rest) e) = Ok (l ++ [NL], mkStream rest e).
Proof.
  intros Hl Hlen. unfold read_line_capped. simpl. rewrite read_until_line by done.
  rewrite ends_with_nl_snoc. simpl. by rewrite andb_false_r.
Qed.

(** A line that does not fit is an error, whatever follows it. *)
Lemma read_line_too_long max l rest e :
  NL ∉ l → length l = max → read_line_capped max (mkStream (l ++ rest) e) = Err (too_long max).
Proof.
  intros Hl Hlen. unfold read_line_capped. simpl. rewrite read_until_long by done.
  assert (ends_with_nl l = false) as ->.
  { unfold ends_with_nl. apply bool_decide_false. intros [l' ->]%last_Some. set_solver. }
  rewrite (bool_decide_true (length l = max)) by done.
  by rewrite (bool_decide_false (length l < max)%nat) by lia.
Qed.

(** A line read is the start of what was left, at most the cap. *)
Lemma read_line_consumes max input line rest :
  read_line_capped max input = Ok (line, rest) →
  input.(st_bytes) = line ++ rest.(st_bytes) ∧ (length line ≤ max)%nat.
Proof.
  unfold read_line_capped. pose proof (read_until_app max input.(st_bytes)) as Happ.
  assert (Hlen : (length (read_until max input.(st_bytes)).1 ≤ max)%nat).
  { clear Happ. generalize input.(st_bytes) as bs.
    induction max as [|max IH]; intros [|b bs]; simpl; try lia.
    case_decide; simpl; [lia|]. specialize (IH bs). destruct (read_until max bs). simpl in *. lia. }
  destruct (read_until _ _) as [l r]. simpl in *. repeat case_match; intros; simplify_eq; done.
Qed.

(** ** The loop *)

Section loop.
Context `{SerdeJson} {S : Type}.
Context (handle : list ascii → ST S json).

Fixpoint handle_all (ls : list (list ascii)) : ST S (list json) :=
  match ls with
  | [] => mret []
  | l :: ls => j ← handle l; js ← handle_all ls; mret (j :: js)
  end.

Definition terminated (l : list ascii) : list ascii := l ++ [NL].

(** A request that fits: no newline in it, and room for one after it. *)
Definition fits (l : list ascii) : Prop := (NL ∉ l) ∧ (length l < MESSAGE_CAP)%nat.

Lemma fits_read l rest e :
  fits l → read_line_capped MESSAGE_CAP (mkStream (terminated l ++ rest) e) =
           Ok (terminated l, mkStream rest e).
Proof. intros [Hl Hlen]. unfold terminated. rewrite <-app_assoc. by apply read_line_ok. Qed.

Lemma terminated_cons l : ∃ b l', terminated l = b :: l'.
Proof. unfold terminated. destruct l; simpl; eauto. Qed.

(** More fuel than bytes left changes nothing. *)
Lemma loop_fuel wf fuel1 fuel2 i input s :
  (length input.(st_bytes) < fuel1)%nat → (length input.(st_bytes) < fuel2)%nat →
  connection_loop handle wf fuel1 i input s = connection_loop handle wf fuel2 i input s.
Proof.
  revert fuel2 i input s. induction fuel1 as [|f1 IH]; intros [|f2] i input s H1 H2; [lia..|].
  cbn [connection_loop]. destruct (read_line_capped _ input) as [[line rest]|e] eqn:Hr; [|done].
  apply read_line_consumes in Hr as [Hb _]. destruct line as [|b line]; [done|].
  rewrite !ST_bind_unfold. destruct (wf i) as [[k e]|]; [done|]. rewrite !ST_bind_unfold.
  assert (length (st_bytes rest) < length (st_bytes input))%nat.
  { rewrite Hb, length_app. simpl. lia. }
  by rewrite (IH f2) by lia.
Qed.

(** Well-formed lines are answered one by one, before what follows them. *)
Lemma loop_lines wf ls tail e i fuel s :
  (∀ i, wf i = None) → Forall fits ls →
  connection_loop handle wf (length ls + fuel) i (mkStream (concat (map terminated ls) ++ tail) e) s =
  let '(js, s1) := handle_all (map terminated ls) s in
  let '((out, r), s2) := connection_loop handle wf fuel (length ls + i) (mkStream tail e) s1 in
  ((concat (map frame js) ++ out, r), s2).
Proof.
  intros Hwf Hls. revert i s. induction Hls as [|l ls Hl Hls IH]; intros i s.
  - simpl. by destruct (connection_loop _ _ _ _ _ s) as [[out r] s2].
  - cbn [length Nat.add map concat connection_loop handle_all].
    rewrite <-app_assoc, fits_read by done. destruct (terminated_cons l) as (b & l' & Hc). rewrite Hc.
    rewrite !ST_bind_unfold. destruct (handle (b :: l') s) as [j s1]. cbn [fst snd].
    rewrite Hwf, !ST_bind_unfold, IH. destruct (handle_all _ s1) as [js s2]. cbn [fst snd].
    cbn [map concat]. change (Datatypes.S (length ls) + i)%nat with (Datatypes.S (length ls + i)).
    rewrite <-(Nat.add_succ_r (length ls) i). unfold mret, ST_ret. cbn [fst snd map concat].
    destruct (connection_loop handle wf fuel (length ls + Datatypes.S i) (mkStream tail e) s2)
      as [[out r] s3]. cbn [fst snd]. by rewrite <-app_assoc.
Qed.

Lemma length_concat_terminated ls : (length ls ≤ length (concat (map terminated ls)))%nat.
Proof. induction ls as [|l ls IH]; simpl; [lia|]. unfold terminated at 1. rewrite !length_app. simpl. lia. Qed.

Lemma connection_lines wf ls tail e s :
  (∀ i, wf i = None) → Forall fits ls →
  connection handle wf (mkStream (concat (map terminated ls) ++ tail) e) s =
  let '(js, s1) := handle_all (map terminated ls) s in
  let '((out, r), s2) :=
    connection_loop handle wf (Datatypes.S (length tail)) (length ls) (mkStream tail e) s1 in
  ((concat (map frame js) ++ out, r), s2).
Proof.
  intros Hwf Hls. unfold connection.
  rewrite (loop_fuel _ _ (length ls + (Datatypes.S (length (concat (map terminated ls) ++ tail))))).
  2: lia. 2: simpl; lia.
  rewrite loop_lines by done. destruct (handle_all _ s) as [js s1]. rewrite Nat.add_0_r.
  erewrite loop_fuel; [done|..]; simpl; rewrite ?length_app; lia.
Qed.

Lemma handle_all_length ls s : length (handle_all ls s).1 = length ls.
Proof.
  revert s. induction ls as [|l ls IH]; intros s; [done|]. cbn [handle_all].
  rewrite !ST_bind_unfold. simpl. by rewrite IH.
Qed.

Lemma frames_split js : split_on NL (concat (map frame js)) = map (λ j, bytes (to_string j)) js ++ [[]].
Proof.
  assert (map frame js = map (λ l, l ++ [NL]) (map (λ j, bytes (to_string j)) js)) as ->
    by by rewrite map_map.
  apply split_on_concat. apply Forall_forall. intros l (j & -> & _)%list_elem_of_fmap.
  apply to_string_one_line.
Qed.

End loop.

(** ** Properties *)

(** The protocol is framed: any number of requests, each one line within
    the cap, sent in one stream in whatever chunks, get one response line each,
    in the order of the requests and with the effects of handling them in that
    order; no response contains a newline, so the client can split the output
    back into exactly the responses. *)
Theorem connection_framing `{SerdeJson} {S} (handle : list ascii → ST S json) wf ls s :
  (∀ i, wf i = None) → Forall fits ls →
  let '(js, s') := handle_all handle (map terminated ls) s in
  connection handle wf (mkStream (concat (map terminated ls)) None) s =
    ((concat (map frame js), Ok tt), s') ∧
  length js = length ls ∧
  split_on NL (concat (map frame js)) = map (λ j, bytes (to_string j)) js ++ [[]].
Proof.
  intros Hwf Hls. pose proof (connection_lines handle wf ls [] None s Hwf Hls) as Hc.
  rewrite app_nil_r in Hc. pose proof (handle_all_length handle (map terminated ls) s) as Hlen.
  destruct (handle_all handle _ s) as [js s']. rewrite Hc. simpl in Hlen. rewrite length_map in Hlen.
  split_and!; [|done|apply frames_split]. cbn [connection_loop length].
  rewrite read_line_eof. unfold mret, ST_ret. by rewrite app_nil_r.
Qed.

(** C27: a request line longer than the cap ends the connection with an error at
    once: the requests before it are answered, and neither it nor anything
    after it is handled or answered. *)
Theorem connection_oversized `{SerdeJson} {S} (handle : list ascii → ST S json) wf ls big rest e s :
  (∀ i, wf i = None) → Forall fits ls → NL ∉ big → length big = MESSAGE_CAP →
  let '(js, s') := handle_all handle (map terminated ls) s in
  connection handle wf (mkStream (concat (map terminated ls) ++ big ++ rest) e) s =
    ((concat (map frame js), Err (too_long MESSAGE_CAP)), s').
Proof.
  intros Hwf Hls Hbig Hlen. rewrite connection_lines by done.
  destruct (handle_all handle _ s) as [js s']. cbn [connection_loop].
  rewrite read_line_too_long by done. unfold mret, ST_ret. by rewrite app_nil_r.
Qed.

(** A line that is not a request of its socket is answered with
    [protocol_error] and has no other effect: nothing is recorded, and no
    project, socket or session changes. *)
Theorem malformed_harmless {Fnox} `{Os, Outside, TomlManifest, UnicodeTables, HashOrder,
    FnoxCore Fnox, SerdeJson} server serde_error id peer line (s : ServerState Fnox) :
  (from_slice line ≫= project_request_of_json = None →
     project_line serde_error id peer line s =
       (project_error_to_json (malformed serde_error ProjectProtocolError line), later 1 s)) ∧
  (from_slice line ≫= admin_request_of_json = None →
     admin_line server serde_error line s =
       (admin_error_to_json (malformed serde_error AdminProtocolError line), s)).
Proof.
  split; intros Hd.
  - unfold project_line. rewrite ST_bind_unfold, Hd. done.
  - unfold admin_line. by rewrite Hd.
Qed.

(** ** Witnesses *)

(** A parser that knows the requests of the demo. *)
Definition demo_json : SerdeJson.
Proof.
  refine (mkSerdeJson (λ j, of_bytes (compact j))
    (λ bs, head (filter (λ j, terminated (compact j) = bs)
       [project_request_to_json Ping; project_request_to_json (Get "GITHUB_TOKEN")])) _).
  intros j. rewrite bytes_of_bytes. apply compact_no_nl.
Defined.

Definition demo_line (r : ProjectRequest) : list ascii := compact (project_request_to_json r).

Definition fitsb (l : list ascii) : bool :=
  forallb (λ b, negb (bool_decide (b = NL))) l && (Z.of_nat (length l) <? MAX_MESSAGE_BYTES).

Lemma fits_by_computation ls : forallb fitsb ls = true → Forall fits ls.
Proof.
  rewrite forallb_forall. intros Hls. apply Forall_forall. intros l Hl%list_elem_of_In.
  apply Hls, andb_true_iff in Hl as [Hl Hlen]. split; [by apply no_nl_literal|].
  apply Z.ltb_lt in Hlen. unfold MESSAGE_CAP. lia.
Qed.

Local Abbreviation demo_project_line :=
  (@project_line string demo_os demo_unicode demo_order demo_fnox demo_json (λ _, "expected value")
     0%nat demo_peer).

Lemma connection_framing_witness :
  ∃ js s', length js = 2%nat ∧
  (@connection demo_json _ demo_project_line (λ _, None)
     (mkStream (concat (map terminated [demo_line Ping; demo_line (Get "GITHUB_TOKEN")])) None)
     demo_state) = ((concat (map (@frame demo_json) js), Ok tt), s').
Proof.
  pose proof (@connection_framing demo_json _ demo_project_line (λ _, None)
    [demo_line Ping; demo_line (Get "GITHUB_TOKEN")] demo_state ltac:(reflexivity)
    ltac:(apply fits_by_computation; vm_compute; reflexivity)) as H.
  destruct (handle_all _ _ demo_state) as [js s']. exists js, s'.
  split; [exact (proj1 (proj2 H))|exact (proj1 H)].
Defined.

Lemma connection_oversized_witness :
  ∃ js s', (@connection demo_json _ demo_project_line (λ _, None)
     (mkStream (concat (map terminated [demo_line Ping]) ++ replicate MESSAGE_CAP "x"%char ++ [NL]) None)
     demo_state) = ((concat (map (@frame demo_json) js), Err (too_long MESSAGE_CAP)), s').
Proof.
  pose proof (@connection_oversized demo_json _ demo_project_line (λ _, None) [demo_line Ping]
    (replicate MESSAGE_CAP "x"%char) [NL] None demo_state ltac:(reflexivity)
    ltac:(apply fits_by_computation; vm_compute; reflexivity)
    ltac:(intros [Hx _]%elem_of_replicate; discriminate) ltac:(apply length_replicate)) as H.
  destruct (handle_all _ _ demo_state) as [js s']. exists js, s'. exact H.
Defined.

Lemma malformed_harmless_witness :
  demo_project_line (bytes "{}") demo_state =
    (project_error_to_json (malformed (λ _, "expected value") ProjectProtocolError (bytes "{}")),
     later 1 demo_state).
Proof.
  apply (@malformed_harmless string demo_os (demo_imds "") demo_toml demo_unicode demo_order demo_fnox
    demo_json demo_server (λ _, "expected value") 0 demo_peer (bytes "{}") demo_state).
  vm_compute. reflexivity.
Defined.
