(* ===== verification/EndToEnd.v ===== *)
(** * From bytes to handlers and back

    What a client and the daemon say to each other is text; what the handlers
    take and return are requests and JSON trees.  With the documented behaviour
    of [serde_json] ([SerdeText]: compact output, and compact text reads back as
    the value) a connection is transparent: the bytes of any list of requests
    bring exactly the effects and the responses of serving those requests
    ([bytes_refine_requests]). *)

From S2P Require Import Prelude Str Path Json JsonText Os Manifest Cache Config AuditLog Backend Proto Registry Bootstrap Server Fetch Admin Client Conn.
Open Scope Z_scope.

(** ** What [serde_json] promises *)

(** Numbers of a [Value] without a fraction are [i64] or [u64]. *)
Definition serde_number (n : Z) : bool := in_range (- 2 ^ 63) u64_max n.

Fixpoint serde_numbers (j : json) : bool :=
  match j with
  | JNum n => serde_number n
  | JArr l => forallb serde_numbers l
  | JObj fs => forallb (λ kv, serde_numbers kv.2) fs
  | _ => true
  end.

(** How deep arrays and objects are nested; the parser stops at 128. *)
Fixpoint json_depth (j : json) : nat :=
  match j with
  | JArr l => S (list_max (map json_depth l))
  | JObj fs => S (list_max (map (λ kv, json_depth kv.2) fs))
  | _ => O
  end.

Definition serde_value (j : json) : bool := serde_numbers j && (json_depth j <? 128)%nat.

Class SerdeText (J : SerdeJson) : Prop := {
  to_string_compact j : serde_value j = true → to_string j = of_bytes (compact j);
  from_slice_compact j ws :
    serde_value j = true → forallb is_json_ws ws = true → from_slice (compact j ++ ws) = Some j;
}.

#[export] Instance text_json_laws : SerdeText text_json.
Proof. split; [done|]. intros j ws _ Hws. by apply read_compact. Qed.

(** ** Responses are values [serde_json] can print *)

Lemma serde_number_u32 n : is_u32 n → serde_number n = true.
Proof. unfold is_u32, serde_number, u32_max. rewrite in_range_spec. unfold u64_max. lia. Qed.

Lemma list_max_const {A} (f : A → nat) (l : list A) k :
  Forall (λ a, f a ≤ k)%nat l → (list_max (map f l) ≤ k)%nat.
Proof. intros Hl. apply list_max_le. by apply Forall_fmap. Qed.

Lemma strs_value l : serde_numbers (JArr (JStr <$> l)) = true ∧ (json_depth (JArr (JStr <$> l)) ≤ 1)%nat.
Proof.
  split.
  - cbn. rewrite forallb_forall. by intros ? (? & <- & _)%in_map_iff.
  - cbn. apply le_n_S, list_max_const, Forall_fmap, Forall_true. intros x. simpl. lia.
Qed.

Lemma error_value {Code} (wire : Code → string) c m : serde_value (error_to_json wire (error_new c m)) = true.
Proof. done. Qed.

Lemma get_response_value v ttl : is_u32 ttl → serde_value (get_response_to_json (get_utf8 v ttl)) = true.
Proof. intros Ht. unfold serde_value. cbn. by rewrite serde_number_u32. Qed.

Lemma serde_value_intro j :
  serde_numbers j = true → (json_depth j < 128)%nat → serde_value j = true.
Proof. intros Hn Hd. unfold serde_value. rewrite Hn. by apply Nat.ltb_lt. Qed.

Lemma info_value p l v : is_u32 v → serde_value (info_to_json (info_new p l v)) = true.
Proof.
  intros Hv. destruct (strs_value l) as [Hn Hd]. apply serde_value_intro.
  - cbn in *. by rewrite serde_number_u32, Hn.
  - cbn -[list_max] in *. simpl. lia.
Qed.

Lemma reload_value l : serde_value (reload_to_json (reload_new l)) = true.
Proof.
  destruct (strs_value l) as [Hn Hd]. apply serde_value_intro.
  - cbn in *. by rewrite Hn.
  - cbn -[list_max] in *. simpl. lia.
Qed.

Lemma status_value version uptime mode ps :
  0 ≤ uptime ≤ u64_max → Forall status_entry_ok ps →
  serde_value (status_to_json (status_new version uptime mode ps)) = true.
Proof.
  intros Hu Hps. apply serde_value_intro.
  - assert (Hn : serde_number uptime = true) by (apply in_range_spec; unfold u64_max in *; lia).
    cbn -[serde_number]. rewrite Hn. cbn -[serde_number]. rewrite andb_true_r. apply forallb_forall. intros j (p & <- & Hp%list_elem_of_In)%in_map_iff.
    rewrite Forall_forall in Hps. destruct (Hps p Hp). cbn. by rewrite !serde_number_u32.
  - cbn -[list_max]. simpl.
    enough (list_max (map json_depth (project_status_to_json <$> ps)) ≤ 1)%nat by lia.
    apply list_max_const, Forall_fmap, Forall_true. intros x. simpl. lia.
Qed.

Section wire.
Context {Fnox : Type} `{Os, Outside, TomlManifest, UnicodeTables, HashOrder, FnoxCore Fnox}.
Context (server : Server) (Hclock : clock_ok server).
Implicit Types (s : ServerState Fnox).

Lemma dispatch_get_value id name peer start s :
  serde_value (dispatch_get id name peer start s).1 = true.
Proof.
  rewrite dispatch_get_eq, get_before_eq. cbv zeta. case_decide; [|done].
  destruct (Cache.get (os_now (tick_of s)) name _) as [[h|] c] eqn:Hget.
  - apply get_response_value. apply cache_get_hit in Hget as (e & _ & _ & _ & -> & _). apply as_u32_bounds.
  - destruct (ss_backend s) as [session|]; [|done]. rewrite get_after_eq. cbv zeta.
    destruct (fnox_get _ _ _) as [[v|]|msg]; [|done..].
    apply get_response_value, saturate_u32_bounds.
Qed.

Lemma status_response_value s : serde_value (dispatch_status server s).1 = true.
Proof.
  rewrite dispatch_status_eq. apply status_value.
  - split; [|apply Hclock]. apply as_secs_nonneg. unfold duration_since. lia.
  - apply Forall_fmap, Forall_true. intros ip. split; apply as_u32_bounds.
Qed.

(** Every response can be printed. *)
Lemma serve_value r s : server_inv server s → serde_value (serve server r s).1 = true.
Proof.
  intros Hinv. destruct r as [id [name| |] peer|[name path|name|name| |]]; cbn [serve dispatch_admin].
  - apply (dispatch_get_value id name peer _ (later 1 s)).
  - done.
  - apply info_value. exact (schema_version_u32 server id s Hinv).
  - unfold dispatch_register. rewrite ST_bind_unfold. by destruct (in_registry _ s) as [[id|e] s1].
  - rewrite dispatch_unregister_eq. destruct (rs_map (ss_reg s) !! name); [|done].
    cbv zeta. by destruct (remove_file _ _ _).
  - unfold dispatch_reload. rewrite ST_bind_unfold.
    destruct (in_registry _ s) as [[m|e] s1]; [apply reload_value|done].
  - apply status_response_value.
  - pose proof (rotate_cases server s) as Hc. destruct (dispatch_rotate_bootstrap server s) as [j s'].
    by destruct Hc as [(? & ? & ? & _ & -> & _)|(msg & k & -> & _)].
Qed.

Lemma serve_all_value rs s :
  server_inv server s → Forall (λ j, serde_value j = true) (serve_all server rs s).1.
Proof.
  revert s. induction rs as [|r rs IH]; intros s Hinv; [constructor|].
  cbn [serve_all]. rewrite ST_bind_unfold, ST_bind_unfold. simpl.
  constructor; [by apply serve_value|]. apply IH. by apply serve_inv.
Qed.

Lemma serve_all_typed rs s :
  server_inv server s → Forall2 response_typed rs (serve_all server rs s).1.
Proof.
  revert s. induction rs as [|r rs IH]; intros s Hinv; [constructor|].
  cbn [serve_all]. rewrite ST_bind_unfold, ST_bind_unfold. simpl.
  constructor; [by apply serve_typed|]. apply IH. by apply serve_inv.
Qed.

(** ** A conversation *)

Context {J : SerdeJson} {HJ : SerdeText J}.
Context (serde_error : list ascii → string).

Definition project_text (r : ProjectRequest) : list ascii := compact (project_request_to_json r).
Definition admin_text (r : AdminRequest) : list ascii := compact (admin_request_to_json r).

Lemma project_text_reads r : from_slice (project_text r ++ [NL]) ≫= project_request_of_json = Some r.
Proof.
  unfold project_text. rewrite from_slice_compact by (done || by destruct r).
  apply project_request_decode_encode.
Qed.

Lemma admin_text_reads r : from_slice (admin_text r ++ [NL]) ≫= admin_request_of_json = Some r.
Proof.
  unfold admin_text. rewrite from_slice_compact by (done || by destruct r).
  apply admin_request_decode_encode.
Qed.

Lemma project_line_serves id peer r s :
  project_line serde_error id peer (terminated (project_text r)) s = serve server (ProjectReq id r peer) s.
Proof. unfold project_line, terminated. by rewrite project_text_reads. Qed.

Lemma admin_line_serves r s :
  admin_line server serde_error (terminated (admin_text r)) s = serve server (AdminReq r) s.
Proof. unfold admin_line, terminated. by rewrite admin_text_reads. Qed.

(** Lines that are handled as requests are handled as their list. *)
Lemma handle_all_serves {A} (handle : list ascii → ST (ServerState Fnox) json)
    (text : A → list ascii) (req : A → request) (rs : list A) s :
  (∀ r s, handle (terminated (text r)) s = serve server (req r) s) →
  handle_all handle (map terminated (map text rs)) s = serve_all server (map req rs) s.
Proof.
  intros Hh. revert s. induction rs as [|r rs IH]; intros s; [done|].
  cbn [map handle_all serve_all]. by rewrite !ST_bind_unfold, Hh, IH.
Qed.

(** The lines of the output, without their newline. *)
Definition response_lines (out : list ascii) : list (list ascii) := removelast (split_on NL out).

Lemma response_lines_read js :
  Forall (λ j, serde_value j = true) js →
  mapM from_slice (response_lines (concat (map frame js))) = Some js.
Proof.
  intros Hjs. unfold response_lines. rewrite frames_split, removelast_last.
  apply mapM_Some, Forall2_fmap_l. induction Hjs as [|j js Hj Hjs IH]; constructor; [|done].
  change (from_slice (bytes (to_string j)) = Some j).
  rewrite to_string_compact, bytes_of_bytes by done.
  rewrite <-(app_nil_r (compact j)). by apply from_slice_compact.
Qed.

Lemma text_fits j : (length (compact j) < MESSAGE_CAP)%nat → fits (compact j).
Proof. split; [apply compact_no_nl|done]. Qed.

Lemma conversation {A} (handle : list ascii → ST (ServerState Fnox) json)
    (to_json : A → json) (req : A → request) (rs : list A) s :
  (∀ r s, handle (terminated (compact (to_json r))) s = serve server (req r) s) →
  Forall (λ r, (length (compact (to_json r)) < MESSAGE_CAP)%nat) rs → server_inv server s →
  let '(js, s') := serve_all server (map req rs) s in
  ∃ out,
    connection handle (λ _, None)
      (mkStream (concat (map (λ r, terminated (compact (to_json r))) rs)) None) s = ((out, Ok tt), s') ∧
    mapM from_slice (response_lines out) = Some js ∧
    Forall2 response_typed (map req rs) js.
Proof.
  intros Hh Hlen Hinv.
  pose proof (connection_framing handle (λ _, None) (map (λ r, compact (to_json r)) rs) s (λ _, eq_refl)
    ltac:(apply Forall_fmap; eapply Forall_impl; [exact Hlen|]; intros r; apply text_fits)) as Hc.
  rewrite (handle_all_serves handle (λ r, compact (to_json r)) req rs s Hh) in Hc.
  pose proof (serve_all_value (map req rs) s Hinv) as Hv.
  pose proof (serve_all_typed (map req rs) s Hinv) as Ht.
  destruct (serve_all server (map req rs) s) as [js s']. destruct Hc as (Hc & _).
  rewrite map_map in Hc. eexists. split; [exact Hc|]. split; [by apply response_lines_read|done].
Qed.

(** C12: On both sockets a connection is transparent: whatever requests a client
    writes, as JSON, one per line and each within the cap, in one stream, the
    daemon does to its state exactly what serving those requests in that order
    does, closes without an error, and the bytes it sends back split into lines
    that read as exactly the handlers' responses, each of the type its request
    calls for. *)
Theorem bytes_refine_requests id peer preqs areqs s :
  Forall (λ r, (length (project_text r) < MESSAGE_CAP)%nat) preqs →
  Forall (λ r, (length (admin_text r) < MESSAGE_CAP)%nat) areqs →
  server_inv server s →
  (let '(js, s') := serve_all server (map (λ r, ProjectReq id r peer) preqs) s in
   ∃ out,
     handle_project_connection serde_error id (Some peer) (λ _, None)
       (mkStream (concat (map (λ r, terminated (project_text r)) preqs)) None) s = ((out, Ok tt), s') ∧
     mapM from_slice (response_lines out) = Some js ∧
     Forall2 response_typed (map (λ r, ProjectReq id r peer) preqs) js) ∧
  (let '(js, s') := serve_all server (map AdminReq areqs) s in
   ∃ out,
     handle_admin_connection server serde_error (λ _, None)
       (mkStream (concat (map (λ r, terminated (admin_text r)) areqs)) None) s = ((out, Ok tt), s') ∧
     mapM from_slice (response_lines out) = Some js ∧
     Forall2 response_typed (map AdminReq areqs) js).
Proof.
  intros Hp Ha Hinv. split.
  - apply (conversation (project_line serde_error id peer) project_request_to_json); [|done..].
    intros r s'. apply project_line_serves.
  - apply (conversation (admin_line server serde_error) admin_request_to_json); [|done..].
    intros r s'. apply admin_line_serves.
Qed.

(** ** Any bytes at all *)

(** A loop whose handler keeps [I] and answers with [P]. *)
Lemma loop_safe {S} (handle : list ascii → ST S json) (P : json → Prop) (I : S → Prop) wf fuel i input (s : S) :
  (∀ line (s : S), I s → P (handle line s).1 ∧ I (handle line s).2) → I s →
  ∃ js tail r (s' : S),
    connection_loop handle wf fuel i input s = ((concat (map frame js) ++ tail, r), s') ∧ Forall P js ∧
    (tail = [] ∨ ∃ k j, tail = take k (frame j) ∧ P j) ∧ I s'.
Proof.
  intros Hh. revert i input s. induction fuel as [|fuel IH]; intros i input s Hs; cbn [connection_loop].
  { by exists [], [], (Ok tt), s; split_and!; auto. }
  destruct (read_line_capped _ input) as [[[|b line] rest]|e].
  - by exists [], [], (Ok tt), s; split_and!; auto.
  - rewrite ST_bind_unfold. destruct (Hh (b :: line) s Hs) as [HP HI].
    destruct (handle (b :: line) s) as [j s1]. cbn [fst snd] in *. destruct (wf i) as [[k e]|].
    + exists [], (take k (frame j)), (Err e), s1. split_and!; eauto.
    + rewrite ST_bind_unfold. destruct (IH (Datatypes.S i) rest s1 HI) as (js & tail & r & s2 & -> & Hjs & Ht & Hs2).
      exists (j :: js), tail, r, s2. cbn [fst snd map concat]. rewrite <-app_assoc. split_and!; auto.
  - by exists [], [], (Err e), s; split_and!; auto.
Qed.

Lemma project_line_safe id peer line s :
  server_inv server s →
  (∃ req, project_response_typed req (project_line serde_error id peer line s).1) ∧
  server_inv server (project_line serde_error id peer line s).2.
Proof.
  intros Hinv. unfold project_line. rewrite ST_bind_unfold.
  destruct (from_slice line ≫= project_request_of_json) as [req|].
  - pose proof (serve_typed server (ProjectReq id req peer) s Hclock Hinv) as Ht.
    pose proof (serve_inv server (ProjectReq id req peer) s Hinv) as Hi. split; [by exists req|done].
  - split; [|by apply (later_inv server 1)]. exists Ping. left. apply project_failed.
Qed.

Lemma admin_line_safe line s :
  server_inv server s →
  (∃ req, admin_response_typed req (admin_line server serde_error line s).1) ∧
  server_inv server (admin_line server serde_error line s).2.
Proof.
  intros Hinv. unfold admin_line. destruct (from_slice line ≫= admin_request_of_json) as [req|].
  - split; [exists req; exact (serve_typed server (AdminReq req) s Hclock Hinv)|].
    exact (serve_inv server (AdminReq req) s Hinv).
  - split; [|done]. exists Status. left. apply admin_failed.
Qed.

(** C13: No input derails the daemon: whatever bytes arrive on either socket, cut
    or ended by an error at any point, and whatever happens to the writes, the
    connection comes to an end (more rounds than bytes change nothing), all it
    has sent is whole well-typed responses, up to a write that failed, and the
    invariant of the server holds. *)
Theorem any_bytes_safe id peer_cred wf input s :
  server_inv server s →
  (∃ js tail r s',
     handle_project_connection serde_error id peer_cred wf input s = ((concat (map frame js) ++ tail, r), s') ∧
     Forall (λ j, ∃ req, project_response_typed req j) js ∧
     (tail = [] ∨ ∃ k j, tail = take k (frame j) ∧ ∃ req, project_response_typed req j) ∧ server_inv server s') ∧
  (∀ fuel, (length input.(st_bytes) < fuel)%nat →
     connection_loop (project_line serde_error id (default (mkPeer None None) peer_cred)) wf fuel 0 input s =
     handle_project_connection serde_error id peer_cred wf input s) ∧
  (∃ js tail r s',
     handle_admin_connection server serde_error wf input s = ((concat (map frame js) ++ tail, r), s') ∧
     Forall (λ j, ∃ req, admin_response_typed req j) js ∧
     (tail = [] ∨ ∃ k j, tail = take k (frame j) ∧ ∃ req, admin_response_typed req j) ∧ server_inv server s') ∧
  (∀ fuel, (length input.(st_bytes) < fuel)%nat →
     connection_loop (admin_line server serde_error) wf fuel 0 input s =
     handle_admin_connection server serde_error wf input s).
Proof.
  intros Hinv. split_and!.
  - apply loop_safe; [|done]. intros line s'. apply project_line_safe.
  - intros fuel Hf. apply loop_fuel; [done|lia].
  - apply loop_safe; [|done]. intros line s'. apply admin_line_safe.
  - intros fuel Hf. apply loop_fuel; [done|lia].
Qed.

End wire.

(** ** Witness *)

Definition no_serde_error : list ascii → string := λ _, "expected value at line 1 column 1".

Lemma bytes_refine_requests_witness :
  ∃ out s',
    @handle_project_connection string client_os demo_unicode demo_order demo_fnox text_json no_serde_error 0
      (Some demo_peer) (λ _, None)
      (mkStream (concat (map (λ r, terminated (project_text r)) [Get "GITHUB_TOKEN"; Ping])) None)
      demo_state = ((out, Ok tt), s') ∧
    mapM read (response_lines out) =
      Some [get_response_to_json (get_utf8 "ghp_1" 600); ping_to_json (ping_new "0.1.0" "myrepo")].
Proof.
  pose proof (@bytes_refine_requests string client_os (demo_imds "{}") demo_toml demo_unicode demo_order
    demo_fnox demo_server ltac:(intros n; discriminate) text_json text_json_laws no_serde_error 0 demo_peer
    [Get "GITHUB_TOKEN"; Ping] [] demo_state
    ltac:(apply (bool_decide_unpack _); vm_compute; exact I) (Forall_nil_2 _)
    demo_state_inv) as [Hp _].
  destruct (serve_all _ _ _) as [js s'] eqn:Hs. destruct Hp as (out & Hc & Hr & _).
  exists out, s'. split; [exact Hc|]. vm_compute in Hs. injection Hs as <- _. exact Hr.
Defined.

(** Two bytes that are no request, cut short. *)
Lemma any_bytes_safe_witness :
  ∃ js tail r s',
    @handle_project_connection string client_os demo_unicode demo_order demo_fnox text_json no_serde_error 0
      None (λ _, None) (mkStream (bytes "{]") None) demo_state = ((concat (map (@frame text_json) js) ++ tail, r), s') ∧
    server_inv demo_server s'.
Proof.
  destruct (@any_bytes_safe string client_os (demo_imds "{}") demo_toml demo_unicode demo_order demo_fnox
    demo_server ltac:(intros n; discriminate) text_json no_serde_error 0 None (λ _, None)
    (mkStream (bytes "{]") None) demo_state demo_state_inv) as [(js & tail & r & s' & He & _ & _ & Hi) _].
  exists js, tail, r, s'. split; [exact He|exact Hi].
Defined.
