(* ===== verification/Daemon.v ===== *)
(** * Startup and shutdown of the daemon ([src/server.rs], [Server::run])

    [setup] is what [run] does before its accept loop: the socket directory,
    the admin socket, the signal handlers.  [shutdown] is what it does after
    the loop has ended: the project loops are ended, the socket files removed,
    the last audit event recorded. *)

From S2P Require Import Prelude Str Path Json Os Manifest Cache Config AuditLog Backend Proto Registry Bootstrap Server Fetch Admin.
Open Scope Z_scope.

Section daemon.
Context {Fnox : Type} `{Os, Outside, TomlManifest, UnicodeTables, HashOrder, FnoxCore Fnox}.
Context (server : Server).
Local Abbreviation M := (ST (ServerState Fnox)).
Local Abbreviation State := (ServerState Fnox).
Local Abbreviation reg := (sv_registry server).

Definition in_nodes {A} (m : ST Nodes A) : M A := in_registry (zoom rs_nodes set_nodes m).

(** ** Startup *)

(** Setting the mode is best effort: its result is dropped. *)
Definition ensure_socket_dir (path : string) : M (result ServerError string) :=
  n ← interaction;
  r ← in_nodes (create_dir_all n path);
  match r with
  | Err e => mret (Err (CreateSocketDir path e))
  | Ok _ =>
      n ← interaction;
      _ ← in_nodes (set_permissions n path SOCKET_DIR_MODE);
      mret (Ok path)
  end.

Definition bind_admin_socket (path : string) : M (result ServerError unit) :=
  n ← interaction; _ ← interaction; _ ← interaction;
  r ← in_nodes (bind_socket n path ADMIN_SOCKET_MODE AdminListener);
  mret (map_err (λ e, match e with
                      | inl e => BindAdminSocket path e
                      | inr e => AdminSocketPerms path e
                      end) r).

(** One handler for SIGTERM, one for SIGINT. *)
Definition install_sigterm : M (result ServerError unit) :=
  term ← interaction;
  match os_fault term with
  | Some e => mret (Err (SignalHandler e))
  | None =>
      intr ← interaction;
      match os_fault intr with
      | Some e => mret (Err (SignalHandler e))
      | None => mret (Ok tt)
      end
  end.

Definition setup : M (result ServerError string) :=
  dir ←? ensure_socket_dir server.(sv_config).(socket_dir);
  let admin_path := join dir ADMIN_SOCKET_NAME in
  _ ←? bind_admin_socket admin_path;
  _ ←? install_sigterm;
  mret (Ok admin_path).

(** ** Shutdown *)

(** Every loop with a handle is awaited, or aborted at the deadline. *)
Definition drain_project_loops : M unit := modify (λ s,
  set_loops (s.(ss_loops) ∖ list_to_set (map_to_list s.(ss_tasks)).*2) (set_tasks ∅ s)).

(** A failure to remove a socket is logged and ignored. *)
Fixpoint remove_sockets (paths : list string) : M unit :=
  match paths with
  | [] => mret tt
  | path :: paths => _ ← remove_socket path; remove_sockets paths
  end.

Definition shutdown_audit : M WriterShutdown :=
  timestamp ← now_utc;
  ch ← gets ss_audit;
  audit_record (Shutdown (mkShutdownEvent timestamp "sigterm" (dropped ch) 0));;
  mret WriterShutdown_default.

Definition shutdown (admin_path : string) : M WriterShutdown :=
  drain_project_loops;;
  n ← interaction;
  projects ← gets (λ s, snapshot (project_order n) s.(ss_reg));
  remove_sockets (map (λ ip, ip.2.(p_socket_path)) projects);;
  _ ← remove_socket admin_path;
  shutdown_audit.

(** ** Facts *)

Implicit Types (s : State).

Lemma in_nodes_eq {A} (m : ST Nodes A) s :
  in_nodes m s = ((m s.(ss_reg).(rs_nodes)).1,
                  set_reg (set_nodes (m s.(ss_reg).(rs_nodes)).2 s.(ss_reg)) s).
Proof. unfold in_nodes, in_registry, zoom. by destruct (m _). Qed.

Definition admin_path : string := join server.(sv_config).(socket_dir) ADMIN_SOCKET_NAME.

Definition with_nodes (ns : Nodes) (s : State) : State := set_reg (set_nodes ns s.(ss_reg)) s.
Definition nodes_of (s : State) : Nodes := s.(ss_reg).(rs_nodes).

Lemma ensure_socket_dir_eq path s :
  ensure_socket_dir path s =
  match create_dir_all (tick_of s) path (nodes_of s) with
  | (Err e, ns) => (Err (CreateSocketDir path e), with_nodes ns (later 1 s))
  | (Ok _, ns) => (Ok path, with_nodes (set_permissions (S (tick_of s)) path SOCKET_DIR_MODE ns).2
                              (later 2 s))
  end.
Proof.
  unfold ensure_socket_dir. rewrite ST_bind_unfold, ST_bind_unfold, in_nodes_eq.
  change (nodes_of s) with (rs_nodes (ss_reg (interaction s).2)).
  change (tick_of s) with (interaction s).1. cbn [fst snd].
  destruct (create_dir_all _ _ _) as [[u|e] ns]; cbn [fst snd]; [|done].
  rewrite ST_bind_unfold, ST_bind_unfold, in_nodes_eq. done.
Qed.

Lemma bind_admin_socket_eq path s :
  bind_admin_socket path s =
  let '(r, ns) := bind_socket (tick_of s) path ADMIN_SOCKET_MODE AdminListener (nodes_of s) in
  (map_err (λ e, match e with inl e => BindAdminSocket path e | inr e => AdminSocketPerms path e end) r,
   with_nodes ns (later 3 s)).
Proof.
  unfold bind_admin_socket, mbind, ST_bind, interaction, in_nodes, in_registry, zoom, tick_of, nodes_of.
  simpl. by destruct (bind_socket _ _ _ _ _).
Qed.

Lemma install_sigterm_nodes s : (install_sigterm s).2.(ss_reg).(rs_nodes) = nodes_of s.
Proof.
  unfold install_sigterm, mbind, ST_bind, interaction, in_registry, zoom. simpl.
  destruct (os_fault _); [done|]. simpl. by destruct (os_fault _).
Qed.

(** Startup touches the file system only. *)
Lemma setup_frame s : ∃ k ns, (setup s).2 = with_nodes ns (later k s).
Proof.
  unfold setup. rewrite bind_res_unfold, ensure_socket_dir_eq.
  destruct (create_dir_all _ _ _) as [[u|e] ns]; [|by eexists _, _]. cbn [fst snd].
  rewrite bind_res_unfold, bind_admin_socket_eq. cbv zeta.
  destruct (bind_socket _ _ _ _ _) as [[u'|e] ns2]; [|by exists 5%nat, ns2].
  unfold install_sigterm, bind_res, mbind, ST_bind, interaction, in_registry, zoom. simpl.
  destruct (os_fault _); simpl; [by exists 6%nat, ns2|].
  by destruct (os_fault _); simpl; exists 7%nat, ns2.
Qed.

Lemma setup_heap s : (setup s).2.(ss_reg).(rs_heap) = s.(ss_reg).(rs_heap).
Proof. by destruct (setup_frame s) as (k & ns & ->). Qed.

(** With nothing registered the invariant asks nothing of the files. *)
Lemma setup_empty_inv s :
  s.(ss_reg).(rs_heap) = ∅ ∧ s.(ss_reg).(rs_map) = ∅ ∧ s.(ss_tasks) = ∅ ∧ s.(ss_loops) = ∅ →
  server_inv server (setup s).2.
Proof.
  intros (Hh & Hm & Ht & Hl). destruct (setup_frame s) as (k & ns & ->). split; [split|..]; simpl.
  - intros id p. by rewrite Hh, lookup_empty.
  - intros name id. by rewrite Hm, lookup_empty.
  - by rewrite Ht, Hm.
  - intros id. rewrite Hl, Ht. split; [set_solver|]. intros [name Hn]. by rewrite lookup_empty in Hn.
Qed.

Lemma admin_file_plain : plain_name ADMIN_SOCKET_NAME.
Proof. split_and!; [|done..]. vm_compute. set_solver. Qed.

Lemma join_longer p q : plain_name q → join p q ≠ p.
Proof.
  intros Hq Heq. assert (Hlen : (length (bytes q) > 0)%nat).
  { destruct Hq as (_ & Hne & _). destruct q; [done|]. simpl. lia. }
  apply (f_equal (length ∘ bytes)) in Heq. simpl in Heq.
  destruct (join_plain p q Hq) as [Hj|Hj]; rewrite Hj, !bytes_app, !length_app in Heq; lia.
Qed.

Lemma create_dir_then_mode n n' path ns :
  os_fault n = None → os_fault n' = None → (ns !! path = None ∨ ∃ m, ns !! path = Some (Dir m)) →
  ∃ ns', create_dir_all n path ns = (Ok tt, ns') ∧
    (set_permissions n' path SOCKET_DIR_MODE ns').2 = <[path := Dir SOCKET_DIR_MODE]> ns.
Proof.
  intros Hn Hn' Hp. unfold create_dir_all, set_permissions. rewrite Hn, Hn'.
  destruct Hp as [->|[m Hm]].
  - eexists. split; [done|]. rewrite lookup_insert_eq. simpl. by rewrite insert_insert_eq.
  - rewrite Hm. eexists. split; [done|]. by rewrite Hm.
Qed.

(** With no I/O failure, startup succeeds also over the leftovers of an
    earlier run: whatever non-directory is at the admin path is replaced by a
    socket of mode 0600 that the admin loop listens on, the socket directory is
    there with mode 0755, and no other file is touched. *)
Theorem setup_over_stale s :
  (∀ i, os_fault i = None) →
  (nodes_of s !! server.(sv_config).(socket_dir) = None ∨
   ∃ m, nodes_of s !! server.(sv_config).(socket_dir) = Some (Dir m)) →
  (∀ m, nodes_of s !! admin_path ≠ Some (Dir m)) →
  ∃ s', setup s = (Ok admin_path, s') ∧
    nodes_of s' = <[admin_path := Socket 384 AdminListener]>
                    (<[server.(sv_config).(socket_dir) := Dir 493]> (nodes_of s)).
Proof.
  intros Hf Hdir Hadm. unfold setup. rewrite bind_res_unfold, ensure_socket_dir_eq.
  destruct (create_dir_then_mode (tick_of s) (S (tick_of s)) (socket_dir (sv_config server)) (nodes_of s)
    (Hf _) (Hf _) Hdir) as (ns & -> & Hns). cbn [fst snd]. rewrite Hns.
  rewrite bind_res_unfold, bind_admin_socket_eq. unfold nodes_of at 1. cbn -[bind_socket].
  set (ns1 := <[_ := Dir SOCKET_DIR_MODE]> (nodes_of s)).
  pose proof (bind_socket_succeeds (S (S (tick_of s))) admin_path ADMIN_SOCKET_MODE AdminListener ns1
    ltac:(auto)) as Hok.
  pose proof (bind_socket_ok (S (S (tick_of s))) admin_path ADMIN_SOCKET_MODE AdminListener ns1) as Hres.
  unfold admin_path in Hok, Hres.
  destruct (bind_socket _ _ _ _ ns1) as [r ns2]. simpl in Hok, Hres.
  assert (r = Ok tt) as ->.
  { apply Hok. intros m. unfold ns1. rewrite lookup_insert_ne; [apply Hadm|].
      intros Heq. by eapply (join_longer _ _ admin_file_plain). }
  simpl. unfold install_sigterm, bind_res, mbind, ST_bind, interaction, in_registry, zoom. simpl.
  rewrite !Hf. eexists. split; [done|]. exact (Hres tt eq_refl).
Qed.

(** ** The admin socket while the daemon runs *)

(** [Server::new] gives the registry the socket directory of the config. *)
Definition same_dir : Prop := reg.(rg_socket_dir) = server.(sv_config).(socket_dir).

Lemma admin_path_eq : same_dir → admin_path = socket_path_for reg "admin".
Proof. unfold same_dir, admin_path, socket_path_for. by intros ->. Qed.

Lemma admin_name_valid : re_match project_name_re (bytes "admin").
Proof. apply project_name_iff. vm_compute. reflexivity. Qed.

Definition is_admin_register (r : request) : bool :=
  match r with AdminReq (Register name _) => bool_decide (name = "admin") | _ => false end.

Definition admin_safe s : Prop :=
  s.(ss_reg).(rs_map) !! "admin" = None ∧ nodes_of s !! admin_path = Some (Socket 384 AdminListener).

Lemma other_socket_path name :
  same_dir → re_match project_name_re (bytes name) → name ≠ "admin" →
  admin_path ≠ socket_path_for reg name.
Proof.
  intros Hdir Hv Hne Heq. rewrite admin_path_eq in Heq by done. apply Hne. symmetry.
  by eapply socket_path_inj; [apply admin_name_valid|..].
Qed.

Lemma register_admin_safe name path s :
  same_dir → name ≠ "admin" → admin_safe s → admin_safe (dispatch_register server name path s).2.
Proof.
  intros Hdir Hne [Hm Hn]. unfold dispatch_register, in_registry, zoom, mbind, ST_bind.
  rewrite register_eq. destruct (Manifest.load _ _) as [[m mp]|e] eqn:Hl; [|done].
  case_decide as Hname; [done|]. destruct (rs_map (ss_reg s) !! name); [done|].
  pose proof (project_ok_valid_name _ _ (load_new_project_ok reg _ _ _ _ _ Hl Hname)) as Hv. simpl in Hv.
  pose proof (bind_socket_other (S (rs_tick (ss_reg s))) (socket_path_for reg name) PROJECT_SOCKET_MODE
    (ProjectListener (rs_next (ss_reg s))) (rs_nodes (ss_reg s)) admin_path
    (other_socket_path name Hdir Hv Hne)) as Ho.
  destruct (bind_socket _ _ _ _ _) as [[u|e] ns]; simpl in Ho; split; simpl;
    try (rewrite lookup_insert_ne by done); unfold nodes_of; simpl; by rewrite ?Ho.
Qed.

Lemma unregister_admin_safe name s :
  same_dir → server_inv server s → admin_safe s → admin_safe (dispatch_unregister name s).2.
Proof.
  intros Hdir Hinv [Hm Hn]. rewrite dispatch_unregister_eq.
  destruct (rs_map (ss_reg s) !! name) as [id|] eqn:Hid; [|done].
  destruct (ri_map _ _ (si_reg _ _ Hinv) name id Hid) as (p & Hp & Hpn & _).
  destruct (ri_heap _ _ (si_reg _ _ Hinv) id p Hp) as [Hok _].
  pose proof (project_ok_valid_name _ _ Hok) as Hv. rewrite Hpn in Hv.
  assert (Hne : name ≠ "admin") by congruence.
  cbv zeta. rewrite (heap_deref id p), (po_socket _ _ Hok), Hpn by done.
  pose proof (remove_file_other (rs_tick (ss_reg s)) (socket_path_for reg name) (rs_nodes (ss_reg s))
    admin_path (other_socket_path name Hdir Hv Hne)) as Ho.
  destruct (remove_file _ _ _) as [r ns]. split; simpl.
  - by rewrite lookup_delete_ne.
  - unfold nodes_of. simpl in *. by rewrite Ho.
Qed.

Lemma serve_admin_safe r s :
  same_dir → is_admin_register r = false → server_inv server s → admin_safe s →
  admin_safe (serve server r s).2.
Proof.
  intros Hdir Hr Hinv Hs. destruct r as [id req peer|req].
  - assert (Hco : cache_only id s (serve server (ProjectReq id req peer) s).2).
    { simpl. unfold serve_project. rewrite ST_bind_unfold.
      eapply cache_only_trans; [apply (cache_only_later id 1)|]. apply dispatch_project_frame. }
    destruct Hco as [_ _ _ (k & c & Hreg & _)]. unfold admin_safe, nodes_of in *. by rewrite Hreg.
  - destruct req as [name path|name|name| |]; cbn [serve dispatch_admin].
    + apply register_admin_safe; [done| |done]. by apply bool_decide_eq_false in Hr.
    + by apply unregister_admin_safe.
    + unfold dispatch_reload, in_registry, zoom, mbind, ST_bind. rewrite reload_eq.
      destruct Hs. by repeat case_match; simplify_eq/=.
    + rewrite dispatch_status_eq. done.
    + pose proof (rotate_cases server s) as Hc. destruct (dispatch_rotate_bootstrap server s) as [j s'].
      by destruct Hc as [(? & k & ? & _ & _ & _ & f & _ & ->)|(? & k & _ & ->)].
Qed.

(** C31: the admin socket is never disturbed by the daemon's own work: as long
    as nobody registers a project called [admin], no sequence of requests
    removes or replaces it or changes its mode. *)
Theorem admin_socket_kept rs s :
  same_dir → Forall (λ r, is_admin_register r = false) rs → server_inv server s → admin_safe s →
  nodes_of (serve_all server rs s).2 !! admin_path = Some (Socket 384 AdminListener).
Proof.
  intros Hdir Hrs. revert s. induction Hrs as [|r rs Hr Hrs IH]; intros s Hinv Hs; [apply Hs|].
  cbn [serve_all]. rewrite ST_bind_unfold, ST_bind_unfold. simpl.
  apply IH; [by apply serve_inv|by apply serve_admin_safe].
Qed.

(** The name [admin] is not reserved: registering a project of that name
    removes the socket the admin loop listens on and puts a project socket of
    mode 0660 in its place. *)
Theorem admin_socket_displaced path s :
  same_dir → succeeded (dispatch_register server "admin" path s).1 →
  ∃ id, nodes_of (dispatch_register server "admin" path s).2 !! admin_path =
          Some (Socket 432 (ProjectListener id)).
Proof.
  intros Hdir. rewrite admin_path_eq by done.
  unfold dispatch_register, in_registry, zoom, mbind, ST_bind. rewrite register_eq.
  destruct (Manifest.load _ _) as [[m mp]|e]; [|by destruct e].
  case_decide; [done|]. destruct (rs_map (ss_reg s) !! "admin"); [done|].
  pose proof (bind_socket_ok (S (rs_tick (ss_reg s))) (socket_path_for reg "admin") PROJECT_SOCKET_MODE
    (ProjectListener (rs_next (ss_reg s))) (rs_nodes (ss_reg s))) as Hok.
  destruct (bind_socket _ _ _ _ _) as [[u|e] ns]; [|by destruct e]. intros _.
  exists (rs_next (ss_reg s)). unfold nodes_of. simpl in *. rewrite (Hok u eq_refl). apply lookup_insert_eq.
Qed.

(** ** Shutdown *)

(** Removing files changes the socket directory and the interaction number. *)
Lemma remove_sockets_spec paths s :
  (∀ i, os_fault i = None) → (∀ p m, p ∈ paths → nodes_of s !! p ≠ Some (Dir m)) →
  ∃ k ns, (remove_sockets paths s).2 = with_nodes ns (later k s) ∧
    ∀ p, ns !! p = if decide (p ∈ paths) then None else nodes_of s !! p.
Proof.
  intros Hf. revert s. induction paths as [|q paths IH]; intros s Hd.
  - exists 0%nat, (nodes_of s). split; [by destruct s as [[]]|]. intros p. by rewrite decide_False by set_solver.
  - cbn [remove_sockets]. rewrite ST_bind_unfold, remove_socket_eq.
    assert (Hrm : (remove_file (tick_of s) q (nodes_of s)).2 = delete q (nodes_of s)).
    { unfold remove_file. rewrite Hf. destruct (nodes_of s !! q) as [[m| |]|] eqn:Hq; try done.
      - destruct (Hd q m); [by left|done].
      - simpl. by rewrite delete_id. }
    unfold nodes_of in Hrm. destruct (remove_file _ _ _) as [r ns1]. simpl in Hrm. subst ns1. cbn [snd].
    edestruct IH as (k & ns & Heq & Hns).
    2:{ exists (k + 1)%nat, ns. split.
        - etrans; [exact Heq|]. unfold with_nodes, later, set_reg, set_nodes, ticked. simpl.
          do 2 f_equal. lia.
        - intros p. rewrite Hns. unfold nodes_of. simpl. destruct (decide (p = q)) as [->|Hne].
          + rewrite lookup_delete_eq, (decide_True _ _ (P := q ∈ q :: paths)) by left. by case_decide.
          + rewrite lookup_delete_ne by done. by apply decide_ext; rewrite elem_of_cons; intuition. }
    intros p m Hp. unfold nodes_of. simpl. intros [_ Hl]%lookup_delete_Some. eapply Hd; [by right|exact Hl].
Qed.

Lemma remove_sockets_snoc paths p s :
  (remove_socket p (remove_sockets paths s).2).2 = (remove_sockets (paths ++ [p]) s).2.
Proof.
  revert s. induction paths as [|q paths IH]; intros s; cbn [remove_sockets app].
  - rewrite ST_bind_unfold. done.
  - rewrite !ST_bind_unfold. apply IH.
Qed.

(** The sockets shutdown removes are those of the registered projects. *)
Lemma snapshot_reg_paths it r q :
  reg_inv reg r →
  q ∈ map (λ ip : nat * Project, ip.2.(p_socket_path)) (snapshot it r) ↔
  ∃ name, is_Some (r.(rs_map) !! name) ∧ q = socket_path_for reg name.
Proof.
  intros Hinv. destruct (snapshot_complete reg it r Hinv) as [_ Hps].
  assert (map (λ ip : nat * Project, ip.2.(p_socket_path)) (snapshot it r) =
          p_socket_path <$> (snapshot it r).*2) as -> by by rewrite <-list_fmap_compose.
  rewrite list_elem_of_fmap. setoid_rewrite Hps. split.
  - intros (p & -> & id & Hid & Hp). exists p.(p_name). split; [by eexists|].
    by apply (ri_heap _ _ Hinv) in Hp as [[] _].
  - intros (name & [id Hid] & ->).
    destruct (ri_map _ _ Hinv name id Hid) as (p & Hp & <- & _). exists p.
    destruct (ri_heap _ _ Hinv id p Hp) as [[] _]. split; [done|]. by exists id.
Qed.

Lemma snapshot_paths it s q :
  server_inv server s →
  q ∈ map (λ ip : nat * Project, ip.2.(p_socket_path)) (snapshot it s.(ss_reg)) ↔
  ∃ name, is_Some (s.(ss_reg).(rs_map) !! name) ∧ q = socket_path_for reg name.
Proof. intros Hinv. apply snapshot_reg_paths, (si_reg _ _ Hinv). Qed.

(** Every loop that runs has a handle, so draining ends them all. *)
Lemma drain_all s : server_inv server s → (drain_project_loops s).2.(ss_loops) = ∅.
Proof.
  intros Hinv. simpl. apply set_eq. intros id.
  rewrite elem_of_difference, elem_of_list_to_set, list_elem_of_fmap, (si_loops _ _ Hinv).
  split; [|set_solver]. intros [[name Hn] Hnot]. destruct Hnot. exists (name, id).
  split; [done|]. by apply elem_of_map_to_list.
Qed.

(** After a shutdown with no I/O failure no socket is left behind: the
    socket of every registered project and the admin socket are gone, other
    files are untouched, no accept loop runs, and exactly one more event was
    recorded: the shutdown event, with reason [sigterm] and the number of
    events dropped so far. *)
Theorem shutdown_clean s :
  (∀ i, os_fault i = None) → server_inv server s → (∀ m, nodes_of s !! admin_path ≠ Some (Dir m)) →
  let s' := (shutdown admin_path s).2 in
  nodes_of s' !! admin_path = None ∧
  (∀ name, is_Some (s.(ss_reg).(rs_map) !! name) → nodes_of s' !! socket_path_for reg name = None) ∧
  (∀ p, p ≠ admin_path → (∀ name, is_Some (s.(ss_reg).(rs_map) !! name) → p ≠ socket_path_for reg name) →
     nodes_of s' !! p = nodes_of s !! p) ∧
  s'.(ss_loops) = ∅ ∧ s'.(ss_tasks) = ∅ ∧
  ∃ t, s'.(ss_audit) =
    record (Shutdown (mkShutdownEvent t "sigterm" (dropped s.(ss_audit)) 0)) s.(ss_audit).
Proof.
  intros Hf Hinv Hadm. cbv zeta. unfold shutdown. rewrite ST_bind_unfold.
  pose proof (drain_all s Hinv) as Hloops. set (s1 := (drain_project_loops s).2) in *.
  rewrite ST_bind_unfold. set (s2 := (interaction s1).2). rewrite ST_bind_unfold. cbn [gets fst snd].
  set (paths := map _ (snapshot _ (ss_reg s2))).
  assert (Hpaths : ∀ q, q ∈ paths ↔ ∃ name, is_Some (s.(ss_reg).(rs_map) !! name) ∧ q = socket_path_for reg name).
  { intros q. apply (snapshot_paths (project_order (interaction s1).1) (later 1 s)). by apply later_inv. }
  rewrite ST_bind_unfold, ST_bind_unfold, remove_sockets_snoc.
  destruct (remove_sockets_spec (paths ++ [admin_path]) s2 Hf) as (k & ns & -> & Hns).
  { intros p m. rewrite elem_of_app, list_elem_of_singleton, Hpaths.
    intros [(name & [id Hid] & ->)| ->]; [|apply Hadm].
    destruct (ri_map _ _ (si_reg _ _ Hinv) name id Hid) as (p & _ & _ & Hs).
    change (nodes_of s2) with (nodes_of s). unfold nodes_of. by rewrite Hs. }
  assert (Hs' : ∀ q, nodes_of (shutdown_audit (with_nodes ns (later k s2))).2 !! q = ns !! q) by done.
  setoid_rewrite Hs'. clear Hs'. split_and!.
  - rewrite Hns, decide_True; [done|]. apply elem_of_app. right. by apply list_elem_of_singleton.
  - intros name Hname. rewrite Hns, decide_True; [done|]. apply elem_of_app. left. apply Hpaths. eauto.
  - intros p Hp Hq. rewrite Hns, decide_False; [done|].
    rewrite elem_of_app, list_elem_of_singleton, Hpaths. intros [(n & Hn & ->)|]; [|done]. by destruct (Hq n).
  - exact Hloops.
  - done.
  - by eexists.
Qed.

End daemon.

(** ** Witnesses *)

Definition demo_started : ServerState string :=
  (@setup string demo_os demo_server (server_init (Some (mkBackendSession "session")))).2.

Lemma demo_started_inv : server_inv demo_server demo_started.
Proof.
  split; [split|done|].
  - intros id p Hp. vm_compute in Hp. discriminate.
  - intros name id Hid. change ((∅ : gmap string nat) !! name = Some id) in Hid. done.
  - intros id. split; [set_solver|]. intros [name Hn].
    change ((∅ : gmap string nat) !! name = Some id) in Hn. done.
Qed.

Lemma setup_over_stale_witness :
  ∃ s', @setup string demo_os demo_server (server_init None) = (Ok "/run/remo-broker/admin.sock", s').
Proof.
  destruct (@setup_over_stale string demo_os demo_server (server_init None) ltac:(reflexivity)
    ltac:(left; reflexivity) ltac:(intros m; discriminate)) as (s' & Hs & _).
  exists s'. exact Hs.
Defined.

Lemma admin_socket_kept_witness :
  nodes_of (@serve_all string demo_os (demo_imds "{}") demo_toml demo_unicode demo_order demo_fnox
    demo_server [AdminReq (Register "myrepo" "/projects/myrepo"); AdminReq (Unregister "myrepo")]
    demo_started).2 !! admin_path demo_server = Some (Socket 384 AdminListener).
Proof.
  apply (@admin_socket_kept string demo_os (demo_imds "{}") demo_toml demo_unicode demo_order demo_fnox
    demo_server).
  - reflexivity.
  - repeat constructor.
  - exact demo_started_inv.
  - split; vm_compute; reflexivity.
Defined.

(** A project directory called [admin]. *)
Definition admin_toml : TomlManifest := λ _,
  Ok (mkRawManifest 1 (mkRawProject "admin" None) (mkRawAllowlist []) None).
Definition admin_os : Os := {|
  os_now _ := 0; os_utc _ := 0; os_fault _ := None; os_bind_mode := 493;
  os_disk _ := mkDisk (λ _, true) (λ _, Ok "");
|}.

Lemma admin_socket_displaced_witness :
  ∃ id, nodes_of (@dispatch_register string admin_os admin_toml demo_unicode demo_server "admin"
    "/projects/admin" demo_started).2 !! admin_path demo_server = Some (Socket 432 (ProjectListener id)).
Proof.
  apply (@admin_socket_displaced string admin_os admin_toml demo_unicode demo_server).
  - reflexivity.
  - vm_compute. reflexivity.
Defined.

Lemma shutdown_clean_witness :
  (@shutdown string demo_os demo_order (admin_path demo_server) demo_state).2.(ss_loops) = ∅.
Proof.
  apply (@shutdown_clean string demo_os demo_order demo_server demo_state).
  - reflexivity.
  - apply demo_state_inv.
  - intros m. vm_compute. discriminate.
Defined.
