(* ===== verification/Main.v ===== *)
(** * The program ([src/main.rs])

    The command line, the startup sequence of [main] and its composition with
    [Server::run]; then the bounds that hold end to end, from the validated
    configuration to the contents of every cache. *)

From S2P Require Import Prelude Str Path Json Os Manifest Cache Config AuditLog Backend Proto Registry Bootstrap Server Fetch Admin Daemon.
Open Scope Z_scope.

Record Cli : Type := mkCli {
  cli_config : option string;
  cli_bootstrap_source : option BootstrapSourceKind;
  cli_bootstrap_token_path : option string;
  cli_socket_dir : option string;
  cli_audit_log_path : option string;
  cli_cache_default_ttl_seconds : option Z;
  cli_cache_default_max_entries : option Z;
  cli_backend_fetch_timeout_ms : option Z;
  cli_fnox_config_path : option string;
}.

Definition into_overrides (cli : Cli) : option string * Overrides :=
  (cli.(cli_config),
   mkOverrides cli.(cli_bootstrap_source) cli.(cli_bootstrap_token_path) cli.(cli_socket_dir)
     cli.(cli_audit_log_path) cli.(cli_cache_default_ttl_seconds)
     cli.(cli_cache_default_max_entries) cli.(cli_backend_fetch_timeout_ms)
     cli.(cli_fnox_config_path)).

(** Why the process exits with a failure. *)
Inductive MainError : Type :=
  | MainConfig (e : ConfigError)
  | MainBootstrap (e : BootstrapError)
  | MainBackend (e : BackendError)
  | MainServer (e : ServerError).

Section main.
Context {Fnox : Type} `{Os, Outside, TomlManifest, TomlConfig, UnicodeTables, HashOrder, FnoxCore Fnox}.

(** [match &config.fnox_config_path { .. }]: a named file must open; discovery
    may fail, which leaves the daemon without a backend. *)
Definition open_backend (config : Config) : ST nat (result MainError (option (BackendSession Fnox))) :=
  n ← next;
  mret (match config.(fnox_config_path) with
        | Some path => Some <$> map_err MainBackend (Backend.open n path)
        | None => Ok (ok (Backend.discover n))
        end).

(** [main] up to [Server::new]. *)
Definition start (cli : Cli) : ST nat (result MainError (Server * ServerState Fnox)) :=
  let '(config_path, overrides) := into_overrides cli in
  n ← next;
  config ←? mret (map_err MainConfig (Config.load (os_disk n) config_path overrides));
  token ← fetch_token config.(bootstrap);
  match token with
  | Err e => mret (Err (MainBootstrap e))
  | Ok _ =>
      backend ←? open_backend config;
      n ← next;
      mret (Ok (server_new config (os_now n),
                mkServerState (mkRegState (S n) ∅ ∅ 0 ∅) channel_new backend ∅ ∅))
  end.

(** The whole life of the process: startup, the requests it serves until a
    signal, shutdown. *)
Definition main (cli : Cli) (rs : list request) (n : nat)
    : result MainError (list json * ServerState Fnox) :=
  '(server, s0) ← (start cli n).1;
  match setup server s0 with
  | (Err e, _) => Err (MainServer e)
  | (Ok admin_path, s1) =>
      let '(js, s2) := serve_all server rs s1 in
      Ok (js, (shutdown admin_path s2).2)
  end.

(** ** Startup *)

(** A server as [start] builds it. *)
Record server_ok (server : Server) : Prop := {
  so_config : config_wf server.(sv_config);
  so_registry : server.(sv_registry) = (server_new server.(sv_config) server.(sv_started_at)).(sv_registry);
}.

(** [start] builds the server from the configuration, with nothing in it. *)
Lemma start_ok cli n server s n' :
  start cli n = (Ok (server, s), n') →
  server_ok server ∧
  s.(ss_reg).(rs_heap) = ∅ ∧ s.(ss_reg).(rs_map) = ∅ ∧ s.(ss_tasks) = ∅ ∧ s.(ss_loops) = ∅.
Proof.
  unfold start. simpl. rewrite ST_bind_unfold, bind_res_unfold. cbn [next fst snd mret ST_ret].
  destruct (Config.load _ _ _) as [config|e] eqn:Hc; simpl; [|done]. apply load_wf in Hc.
  rewrite ST_bind_unfold. destruct (fetch_token _ _) as [[t|e] n1]; simpl; [|done].
  rewrite bind_res_unfold. destruct (open_backend config n1) as [[b|e] n2]; simpl; [|done].
  by intros [= <- <- <-].
Qed.

(** C32: the daemon comes up only with a configuration within its ranges and a
    bootstrap token that could be fetched, and it comes up without a backend
    only when no fnox config was named and none was discovered: a named one
    that does not open is an error.  Nothing is registered yet and the audit
    channel is empty. *)
Theorem start_gate cli n server s n' :
  start cli n = (Ok (server, s), n') →
  let config := server.(sv_config) in
  config_wf config ∧
  (∃ k t, (fetch_token config.(bootstrap) k).1 = Ok t) ∧
  (∃ k, s.(ss_backend) =
     match config.(fnox_config_path) with
     | Some path => mkBackendSession <$> ok (fnox_open k path)
     | None => mkBackendSession <$> ok (fnox_discover k)
     end ∧ (is_Some config.(fnox_config_path) → is_Some s.(ss_backend))) ∧
  server_inv server s ∧ s.(ss_reg).(rs_map) = ∅ ∧ s.(ss_audit) = channel_new.
Proof.
  unfold start. simpl. rewrite ST_bind_unfold, bind_res_unfold. cbn [next fst snd mret ST_ret].
  destruct (Config.load _ _ _) as [config|e] eqn:Hc; simpl; [|done]. apply load_wf in Hc.
  rewrite ST_bind_unfold. destruct (fetch_token _ _) as [[t|e] n1] eqn:Ht; simpl; [|done].
  rewrite bind_res_unfold. unfold open_backend. rewrite ST_bind_unfold. cbn [next fst snd mret ST_ret].
  assert (Hinv : ∀ b k, @server_inv Fnox (server_new config (os_now k))
                          (mkServerState (mkRegState (S k) ∅ ∅ 0 ∅) channel_new b ∅ ∅)).
  { intros b k. split; [by split|done|]. intros id. split; [set_solver|]. by intros []. }
  unfold Backend.open, Backend.discover. destruct (fnox_config_path config) as [path|] eqn:Hp; simpl.
  - destruct (fnox_open n1 path) as [f|e] eqn:Hf; simpl; [|done]. intros [= <- <- <-]. simpl.
    rewrite Hp. split_and!; eauto.
    + eexists _, t. by rewrite Ht.
    + exists n1. by rewrite Hf.
  - intros [= <- <- <-]. simpl. rewrite Hp. split_and!; eauto.
    + eexists _, t. by rewrite Ht.
    + exists n1. split; [by destruct (fnox_discover n1)|]. by intros [].
Qed.

(** ** Bounds that hold for every cache *)

Implicit Types (s : ServerState Fnox).

Definition cache_sane (c : BoundedCache) : Prop :=
  (size c.(c_map) ≤ 1024)%nat ∧ map_Forall (λ _ e, e.(ce_ttl) ≤ from_secs 86400) c.(c_map).

Definition caches_sane s : Prop :=
  ∀ id p, s.(ss_reg).(rs_heap) !! id = Some p → cache_sane p.(p_cache).

Lemma cache_sane_empty max ttl : cache_sane (Cache.new max ttl).
Proof. split; [simpl; rewrite map_size_empty; lia|apply map_Forall_empty]. Qed.

Lemma cache_sane_get t name c : cache_sane c → cache_sane (Cache.get t name c).2.
Proof.
  intros [Hs Ht]. unfold Cache.get. destruct (c_map c !! name) as [e|] eqn:He; [|done].
  destruct (is_expired e t); [|done]. split; simpl.
  - rewrite map_size_delete_Some by eauto. lia.
  - by apply map_Forall_delete.
Qed.

Lemma cache_sane_insert it t name v c :
  cache_sane c → 1 ≤ c.(c_max_entries) ≤ 1024 → c.(c_default_ttl) ≤ from_secs 86400 →
  cache_sane (Cache.insert it t name v None c).2.
Proof.
  intros [Hs Ht] Hm Hd. split.
  - rewrite insert_size. unfold kept. case_bool_decide as Hev.
    + destruct Hev as [_ Hfull]. rewrite evict_oldest_size; [done|].
      intros He. rewrite He, map_size_empty in Hfull. lia.
    + destruct (c_map c !! name) as [e|] eqn:He.
      * rewrite map_size_delete_Some by eauto.
        assert (size (c_map c) ≠ 0%nat); [|lia]. apply map_size_ne_0_lookup. eauto.
      * rewrite delete_id by done. unfold insert_evicts in Hev. apply not_and_l in Hev as [?|?]; [done|lia].
  - rewrite insert_kept. simpl. apply map_Forall_insert_2; [done|].
    intros k e He. eapply Ht, lookup_weaken; [exact He|apply kept_subseteq].
Qed.

(** The bounds of a cache, from a valid manifest or from the configuration. *)
Lemma manifest_bounds server raw dir :
  config_wf server.(sv_config) →
  server.(sv_registry) = (server_new server.(sv_config) server.(sv_started_at)).(sv_registry) →
  valid_manifest raw dir →
  let '(max, ttl) := resolve_cache_bounds (manifest_of raw) server.(sv_registry).(rg_cache_defaults) in
  1 ≤ max ≤ 1024 ∧ ttl ≤ from_secs 86400.
Proof.
  intros [Hcttl Hcmax _] -> [_ _ _ _ _ Httl Hmax]. unfold rule_ttl, rule_max_entries in *.
  unfold resolve_cache_bounds, manifest_of. simpl. destruct (raw_cache raw) as [c|]; simpl; [|lia].
  split.
  - destruct (raw_max_entries c) as [m|] eqn:Hcm; simpl; [by eapply Hmax|lia].
  - destruct (raw_ttl_seconds c) as [t|] eqn:Hct; simpl; [|lia].
    specialize (Httl c t eq_refl Hct). unfold from_secs, NANOS_PER_SEC. lia.
Qed.

Lemma project_bounds server p :
  config_wf server.(sv_config) →
  server.(sv_registry) = (server_new server.(sv_config) server.(sv_started_at)).(sv_registry) →
  project_ok server.(sv_registry) p →
  1 ≤ p.(p_cache).(c_max_entries) ≤ 1024 ∧ p.(p_cache).(c_default_ttl) ≤ from_secs 86400.
Proof.
  intros Hwf Hreg [_ (raw & Hv & Hm) _ Hb]. pose proof (manifest_bounds server raw _ Hwf Hreg Hv) as Hmb.
  rewrite Hm in Hb. by rewrite <-Hb in Hmb.
Qed.

Section sane.
Context (server : Server) (Hserver : server_ok server).

Lemma registered_bounds s id p :
  server_inv server s → s.(ss_reg).(rs_heap) !! id = Some p →
  1 ≤ p.(p_cache).(c_max_entries) ≤ 1024 ∧ p.(p_cache).(c_default_ttl) ≤ from_secs 86400.
Proof.
  intros Hinv Hp. destruct Hserver. eapply project_bounds; [done..|].
  by apply (ri_heap _ _ (si_reg _ _ Hinv)) in Hp as [? _].
Qed.

Lemma put_cache_sane id c s :
  caches_sane s → (is_Some (s.(ss_reg).(rs_heap) !! id) → cache_sane c) → caches_sane (put_cache id c s).
Proof.
  intros Hs Hc i p. unfold put_cache. simpl. destruct (decide (i = id)) as [->|].
  - rewrite lookup_alter_eq, fmap_Some. intros (q & Hq & ->). simpl. apply Hc. eauto.
  - rewrite lookup_alter_ne by done. apply Hs.
Qed.

Lemma get_before_sane id name peer start s :
  caches_sane s → caches_sane (get_before id name peer start s).2.
Proof.
  intros Hs. rewrite get_before_eq. cbv zeta. case_decide; [|done].
  assert (Hput : caches_sane (put_cache id (Cache.get (os_now (tick_of s)) name (deref id s).(p_cache)).2
                                (later 1 s))).
  { apply put_cache_sane; [done|]. intros [p Hp]. apply cache_sane_get. rewrite (heap_deref id p) by done.
    by apply (Hs id). }
  destruct (Cache.get _ _ _) as [[h|] c]; [done|]. by destruct (ss_backend s).
Qed.

Lemma get_after_sane id name peer start answer s :
  server_inv server s → caches_sane s → caches_sane (get_after id name peer start answer s).2.
Proof.
  intros Hinv Hs. rewrite get_after_eq. cbv zeta. destruct answer as [[v|]|msg]; [|done..].
  apply (put_cache_sane id _ (later 1 s)); [done|]. intros [p Hp]. rewrite (heap_deref id p) by done.
  destruct (registered_bounds s id p Hinv Hp). apply cache_sane_insert; [by apply (Hs id)|done..].
Qed.

Lemma dispatch_get_sane id name peer start s :
  server_inv server s → caches_sane s → caches_sane (dispatch_get id name peer start s).2.
Proof.
  intros Hinv Hs. rewrite dispatch_get_eq. pose proof (get_before_sane id name peer start s Hs) as Hb.
  pose proof (get_before_frame id name peer start s) as Hf.
  destruct (get_before _ _ _ _ s) as [[j|f] s1]; [done|].
  apply get_after_sane; [|done]. apply later_inv. by eapply cache_only_inv.
Qed.

Lemma serve_sane r s : server_inv server s → caches_sane s → caches_sane (serve server r s).2.
Proof.
  intros Hinv Hs. destruct r as [id [name| |] peer|[name path|name|name| |]]; cbn [serve dispatch_admin].
  - apply (dispatch_get_sane id name peer _ (later 1 s)); [by apply later_inv|done].
  - done.
  - done.
  - unfold dispatch_register, in_registry, zoom, mbind, ST_bind. rewrite register_eq.
    destruct (Manifest.load _ _) as [[m mp]|e]; [|done]. case_decide; [done|].
    destruct (rs_map (ss_reg s) !! name); [done|].
    destruct (bind_socket _ _ _ _ _) as [[u|e] ns]; [|done].
    intros id p. simpl. intros [[<- <-]|[_ Hp]]%lookup_insert_Some; [apply cache_sane_empty|by eapply Hs].
  - rewrite dispatch_unregister_eq. destruct (rs_map (ss_reg s) !! name); [|done].
    cbv zeta. by destruct (remove_file _ _ _).
  - unfold dispatch_reload, in_registry, zoom, mbind, ST_bind. rewrite reload_eq.
    destruct (rs_map (ss_reg s) !! name) as [id|]; simpl; [|done].
    destruct (rs_heap (ss_reg s) !! id) as [p|] eqn:Hp; simpl; [|done].
    destruct (Manifest.load _ _) as [[m mp]|e]; [|done]. case_decide; [done|].
    intros i q. simpl. intros [[<- <-]|[_ Hq]]%lookup_insert_Some; [|by eapply Hs].
    exact (Hs id p Hp).
  - by rewrite dispatch_status_eq.
  - pose proof (rotate_cases server s) as Hc. destruct (dispatch_rotate_bootstrap server s) as [j s'].
    by destruct Hc as [(? & k & ? & _ & _ & _ & f & _ & ->)|(? & k & _ & ->)].
Qed.

Lemma serve_all_sane rs s :
  server_inv server s → caches_sane s → caches_sane (serve_all server rs s).2.
Proof.
  revert s. induction rs as [|r rs IH]; intros s Hinv Hs; [done|]. cbn [serve_all].
  rewrite ST_bind_unfold, ST_bind_unfold. apply IH; [by apply serve_inv|by apply serve_sane].
Qed.

End sane.

(** Memory stays bounded end to end: from any configuration the daemon
    accepts, whatever it serves, no cache of any project, registered or being
    unregistered, ever holds more than 1024 entries, and none of them is kept
    for more than 86400 seconds. *)
Theorem cache_memory_bounded cli n server s0 n' rs id p :
  start cli n = (Ok (server, s0), n') →
  (serve_all server rs (setup server s0).2).2.(ss_reg).(rs_heap) !! id = Some p →
  (size p.(p_cache).(c_map) ≤ 1024)%nat ∧
  ∀ name e, p.(p_cache).(c_map) !! name = Some e → e.(ce_ttl) ≤ from_secs 86400.
Proof.
  intros Hst. destruct (start_ok cli n server s0 n' Hst) as [Hok Hempty].
  apply (serve_all_sane server Hok); [by apply setup_empty_inv|].
  intros i q. rewrite setup_heap. destruct Hempty as [-> _]. by rewrite lookup_empty.
Qed.

End main.

(** ** Witnesses *)

Definition demo_cli : Cli :=
  mkCli None (Some KindImds) None None None None None None None.

Local Abbreviation demo_start :=
  (@start string demo_os (demo_imds "{}") demo_toml_config demo_fnox demo_cli 0%nat).

Definition demo_main : option (Server * ServerState string) := ok demo_start.1.

Lemma start_gate_witness :
  ∃ server s n', demo_start = (Ok (server, s), n') ∧ is_Some s.(ss_backend) ∧ config_wf server.(sv_config).
Proof.
  destruct demo_start as [[[server s]|e] n'] eqn:Hs; [|vm_compute in Hs; discriminate].
  exists server, s, n'. split; [reflexivity|].
  pose proof (@start_gate string demo_os (demo_imds "{}") demo_toml_config demo_fnox demo_cli 0
    server s n' Hs) as (Hwf & _).
  split; [|exact Hwf]. vm_compute in Hs. injection Hs as <- <- <-. by eexists.
Defined.

Definition demo_requests : list request :=
  [AdminReq (Register "myrepo" "/projects/myrepo"); ProjectReq 0 (Get "GITHUB_TOKEN") demo_peer].

Lemma cache_memory_bounded_witness :
  ∃ server s0 n' p, demo_start = (Ok (server, s0), n') ∧ (size p.(p_cache).(c_map) ≤ 1024)%nat ∧
    is_Some (p.(p_cache).(c_map) !! "GITHUB_TOKEN").
Proof.
  destruct demo_start as [[[server s0]|e] n'] eqn:Hs; [|vm_compute in Hs; discriminate].
  pose proof (λ p, @cache_memory_bounded string demo_os (demo_imds "{}") demo_toml demo_toml_config
    demo_unicode demo_order demo_fnox demo_cli 0 server s0 n' demo_requests 0 p Hs) as Hb.
  vm_compute in Hs. injection Hs as <- <- <-.
  eexists _, _, _, _. split; [reflexivity|]. split.
  - refine (proj1 (Hb _ _)). vm_compute. reflexivity.
  - vm_compute. by eexists.
Defined.
