(* ===== verification/Concurrent.v ===== *)
(** * Requests in flight

    The daemon serves many connections at once, on several threads.  Here each
    request is a task that runs in steps; a step is one access to shared state:
    a manifest or session pointer loaded or stored, one call under a cache's
    mutex, the registry's or the task table's lock, one event sent to the audit
    channel, one answer of the backend.  [get_step] and [admin_step] are the
    handlers of [src/server.rs] cut at these accesses: [status] reads each
    project's manifest and cache in steps of their own, and [register] starts
    its accept loop one step before it stores the handle.  Run to the end
    without interruption they are the handlers of [Server]
    ([handler_steps_refine]).  [kstep] interleaves the steps of any number of
    tasks with the audit writer taking events off the channel and with the
    abort of tasks. *)

From S2P Require Import Prelude Str Path Json Os Manifest Cache Config AuditLog Backend Proto Registry Bootstrap Server Fetch Admin.
Open Scope Z_scope.

(** ** Tasks *)

(** Where a [get] stands, with what it has in hand. *)
Inductive GetPc (Fnox : Type) : Type :=
  | PcStart
  | PcDenied
  | PcChecked
  | PcHit (h : CacheHit)
  | PcMiss
  | PcNoBackend
  | PcWaiting (session : Fnox)
  | PcAnswered (answer : result string (option string))
  | PcInserted (plaintext : string)
  | PcReply (plaintext : string) (ttl_seconds : Z).
Arguments PcStart {Fnox}.
Arguments PcDenied {Fnox}.
Arguments PcChecked {Fnox}.
Arguments PcHit {Fnox} h.
Arguments PcMiss {Fnox}.
Arguments PcNoBackend {Fnox}.
Arguments PcWaiting {Fnox} session.
Arguments PcAnswered {Fnox} answer.
Arguments PcInserted {Fnox} plaintext.
Arguments PcReply {Fnox} plaintext ttl_seconds.

(** The arguments of [dispatch_get]. *)
Record GetCall : Type := mkGetCall {
  gc_id : nat;
  gc_name : string;
  gc_peer : Peer;
  gc_start : Instant;
}.

(** Where an admin request stands. *)
Inductive AdminPc (Fnox : Type) : Type :=
  | PcRequest (req : AdminRequest)
  | PcBind (name project_path : string) (m : Manifest) (manifest_path : string)
  | PcStatus (projects : list nat) (statuses : list ProjectStatus)
  | PcStatusLen (id : nat) (allowlist_size : Z) (projects : list nat) (statuses : list ProjectStatus)
  | PcSpawn (name : string) (id : nat)
  | PcInsert (name : string) (id : nat)
  | PcTakeHandle (name : string) (id : nat)
  | PcDrain (name : string) (id : nat) (loop : option nat)
  | PcUnlink (id : nat)
  | PcReread (name : string) (id : nat)
  | PcBounds (id : nat) (m : Manifest)
  | PcStore (id : nat) (m : Manifest)
  | PcToken (session : BackendSession Fnox)
  | PcOpen (session : BackendSession Fnox)
  | PcAdopt (session new : BackendSession Fnox).
Arguments PcRequest {Fnox} req.
Arguments PcBind {Fnox} _ _ _ _.
Arguments PcStatus {Fnox} _ _.
Arguments PcStatusLen {Fnox} _ _ _ _.
Arguments PcSpawn {Fnox} _ _.
Arguments PcInsert {Fnox} _ _.
Arguments PcTakeHandle {Fnox} _ _.
Arguments PcDrain {Fnox} _ _ _.
Arguments PcUnlink {Fnox} _.
Arguments PcReread {Fnox} _ _.
Arguments PcBounds {Fnox} _ _.
Arguments PcStore {Fnox} _ _.
Arguments PcToken {Fnox} _.
Arguments PcOpen {Fnox} _.
Arguments PcAdopt {Fnox} _ _.

Section steps.
Context {Fnox : Type} `{Os, Outside, TomlManifest, UnicodeTables, HashOrder, FnoxCore Fnox}.
Context (server : Server).
Local Abbreviation State := (ServerState Fnox).
Local Abbreviation M := (ST State).

(** One step of [dispatch_get]. *)
Definition get_step (call : GetCall) (pc : GetPc Fnox) : M (GetPc Fnox + json) :=
  let '(mkGetCall id name peer start) := call in
  project ← gets (deref id);
  match pc with
  | PcStart =>
      mret (inl (if existsb (λ n, bool_decide (n = name)) project.(p_manifest).(allowlist).(secrets)
                 then PcChecked else PcDenied))
  | PcDenied =>
      emit_fetch project.(p_name) name Deny OutcomeOk peer start None (Some "allowlist");;
      mret (inr (project_error_to_json (denied_error name)))
  | PcChecked =>
      t ← now;
      hit ← on_cache id (Cache.get t name);
      mret (inl (match hit with Some h => PcHit h | None => PcMiss end))
  | PcHit hit =>
      emit_fetch project.(p_name) name Allow OutcomeOk peer start (Some "cache") None;;
      mret (inr (get_response_to_json (get_utf8 hit.(hit_value) hit.(hit_ttl_seconds))))
  | PcMiss =>
      backend ← gets ss_backend;
      mret (inl (match backend with
                 | None => PcNoBackend
                 | Some session => PcWaiting (Backend.load_full session)
                 end))
  | PcNoBackend =>
      emit_fetch project.(p_name) name Allow OutcomeBackendError peer start None None;;
      mret (inr (project_error_to_json no_backend_error))
  | PcWaiting session =>
      n ← interaction;
      mret (inl (PcAnswered (fnox_get n session name)))
  | PcAnswered (Ok (Some plaintext)) =>
      n ← interaction;
      on_cache id (Cache.insert (cache_order n) (os_now n) name plaintext None);;
      mret (inl (PcInserted plaintext))
  | PcAnswered (Ok None) =>
      emit_fetch project.(p_name) name Allow OutcomeNotFound peer start (Some "fnox") None;;
      mret (inr (project_error_to_json (not_found_error name)))
  | PcAnswered (Err msg) =>
      emit_fetch project.(p_name) name Allow OutcomeBackendError peer start (Some "fnox") None;;
      mret (inr (project_error_to_json (backend_failed msg)))
  | PcInserted plaintext =>
      mret (inl (PcReply plaintext (saturate_u32 (as_secs (Cache.default_ttl project.(p_cache))))))
  | PcReply plaintext ttl_seconds =>
      emit_fetch project.(p_name) name Allow OutcomeOk peer start (Some "fnox") None;;
      mret (inr (get_response_to_json (get_utf8 plaintext ttl_seconds)))
  end.

(** The part of [register] under the write lock. *)
Definition register_locked (name project_path : string) (m : Manifest) (manifest_path : string)
    : ST RegState (result RegistryError nat) :=
  map ← gets rs_map;
  match map !! name with
  | Some _ => mret (Err (ProjectExists name))
  | None =>
      let socket_path := socket_path_for server.(sv_registry) name in
      _ ←? bind_project_socket socket_path;
      let '(cache_max, cache_ttl) := resolve_cache_bounds m server.(sv_registry).(rg_cache_defaults) in
      id ← insert_project name (mkProject name project_path socket_path manifest_path m
                                  (Cache.new cache_max cache_ttl));
      mret (Ok id)
  end.

Definition admin_failed (e : RegistryError) : AdminPc Fnox + json :=
  inr (admin_error_to_json (admin_error_for e)).

(** The manifest of a directory, if it is valid and for [name]. *)
Definition load_for (name project_path : string) : M (result RegistryError (Manifest * string)) :=
  r ← in_registry (load_manifest project_path);
  mret ('(m, path) ← r;
        let manifest_name := m.(project).(project_name) in
        if decide (manifest_name ≠ name)
        then Err (RegManifestInvalid (NameDirMismatch manifest_name name))
        else Ok (m, path)).

(** One step of an admin request. *)
Definition admin_step (pc : AdminPc Fnox) : M (AdminPc Fnox + json) :=
  match pc with
  | PcRequest Status =>
      n ← interaction;
      projects ← gets (λ s, snapshot (project_order n) s.(ss_reg));
      mret (inl (PcStatus projects.*1 []))
  | PcStatus (id :: projects) statuses =>
      p ← gets (deref id);
      mret (inl (PcStatusLen id (as_u32 (Z.of_nat (length p.(p_manifest).(allowlist).(secrets))))
                   projects statuses))
  | PcStatusLen id allowlist_size projects statuses =>
      p ← gets (deref id);
      mret (inl (PcStatus projects (statuses ++
        [mkProjectStatus p.(p_name) p.(p_socket_path) allowlist_size (as_u32 (Cache.len p.(p_cache)))])))
  | PcStatus [] statuses =>
      t ← now;
      mret (inr (status_to_json (status_new BROKER_VERSION
        (as_secs (duration_since t server.(sv_started_at)))
        (bootstrap_mode server.(sv_config).(bootstrap)) statuses)))
  | PcRequest (Register name project_path) =>
      r ← load_for name project_path;
      mret (match r with
            | Ok (m, path) => inl (PcBind name project_path m path)
            | Err e => admin_failed e
            end)
  | PcBind name project_path m manifest_path =>
      r ← in_registry (register_locked name project_path m manifest_path);
      mret (match r with Ok id => inl (PcSpawn name id) | Err e => admin_failed e end)
  | PcSpawn name id =>
      modify (λ s, set_loops ({[id]} ∪ s.(ss_loops)) s);;
      mret (inl (PcInsert name id))
  | PcInsert name id =>
      project ← gets (deref id);
      modify (λ s, set_tasks (<[name := id]> s.(ss_tasks)) s);;
      mret (inr (register_to_json (register_new project.(p_socket_path))))
  | PcRequest (Unregister name) =>
      r ← in_registry (Registry.unregister name);
      mret (match r with Ok id => inl (PcTakeHandle name id) | Err e => admin_failed e end)
  | PcTakeHandle name id =>
      loop ← gets (λ s, s.(ss_tasks) !! name);
      modify (λ s, set_tasks (delete name s.(ss_tasks)) s);;
      mret (inl (PcDrain name id loop))
  | PcDrain name id loop =>
      modify (λ s, match loop with
                   | Some l => set_loops (s.(ss_loops) ∖ {[l]}) s
                   | None => s
                   end);;
      mret (inl (PcUnlink id))
  | PcUnlink id =>
      project ← gets (deref id);
      _ ← remove_socket project.(p_socket_path);
      mret (inr (ok_to_json ok_new))
  | PcRequest (Reload name) =>
      r ← in_registry (get_project name);
      mret (match r with Ok (id, _) => inl (PcReread name id) | Err e => admin_failed e end)
  | PcReread name id =>
      project ← gets (deref id);
      r ← load_for name project.(p_project_path);
      mret (match r with Ok (m, _) => inl (PcBounds id m) | Err e => admin_failed e end)
  | PcBounds id m =>
      let '(cache_max, cache_ttl) := resolve_cache_bounds m server.(sv_registry).(rg_cache_defaults) in
      on_cache id (Cache.set_config cache_max cache_ttl);;
      mret (inl (PcStore id m))
  | PcStore id m =>
      in_registry (modify_project id (set_manifest m));;
      mret (inr (reload_to_json (reload_new m.(allowlist).(secrets))))
  | PcRequest RotateBootstrap =>
      backend ← gets ss_backend;
      mret (match backend with
            | None => inr (bootstrap_error
                "no fnox-core session is configured; restart the daemon with --fnox-config")
            | Some session => inl (PcToken session)
            end)
  | PcToken session =>
      token ← in_counter (fetch_token server.(sv_config).(bootstrap));
      mret (match token with
            | Err e => inr (bootstrap_error ("bootstrap token unavailable: " +:+ display_bootstrap_error e))
            | Ok _ => inl (PcOpen session)
            end)
  | PcOpen session =>
      n ← interaction;
      mret (match match server.(sv_config).(fnox_config_path) with
                  | Some path => Backend.open n path
                  | None => Backend.discover n
                  end with
            | Err e => inr (bootstrap_error ("failed to rebuild fnox-core session: " +:+ display_backend_error e))
            | Ok new => inl (PcAdopt session new)
            end)
  | PcAdopt session new =>
      modify (λ s, set_backend (Some (Backend.adopt new session).2) s);;
      mret (inr (rotate_to_json rotate_ok))
  end.

(** ** Running one task to its end *)

Fixpoint run_steps {Pc} (step : Pc → M (Pc + json)) (fuel : nat) (pc : Pc) : M (option json) :=
  match fuel with
  | O => mret None
  | S fuel =>
      r ← step pc;
      match r with
      | inr j => mret (Some j)
      | inl pc' => run_steps step fuel pc'
      end
  end.

Lemma run_steps_S {Pc} (step : Pc → M (Pc + json)) fuel pc s :
  run_steps step (S fuel) pc s =
  match step pc s with
  | (inr j, s') => (Some j, s')
  | (inl pc', s') => run_steps step fuel pc' s'
  end.
Proof. cbn [run_steps]. unfold mbind, ST_bind. by destruct (step pc s) as [[] ?]. Qed.

Local Arguments run_steps : simpl never.

Lemma get_step_eq id name peer start pc (s : State) :
  get_step (mkGetCall id name peer start) pc s =
  let p := deref id s in
  let emit d o b r j :=
    (inr j, recorded (fetch_event (tick_of s) p.(p_name) name d o peer start b r) (later 2 s)) in
  match pc with
  | PcStart => (inl (if decide (allowed id name s) then PcChecked else PcDenied), s)
  | PcDenied => emit Deny OutcomeOk None (Some "allowlist") (project_error_to_json (denied_error name))
  | PcChecked =>
      let '(hit, c) := Cache.get (os_now (tick_of s)) name p.(p_cache) in
      (inl (match hit with Some h => PcHit h | None => PcMiss end), put_cache id c (later 1 s))
  | PcHit h => emit Allow OutcomeOk (Some "cache") None
                 (get_response_to_json (get_utf8 h.(hit_value) h.(hit_ttl_seconds)))
  | PcMiss => (inl (match s.(ss_backend) with
                    | None => PcNoBackend | Some session => PcWaiting session.(inner) end), s)
  | PcNoBackend => emit Allow OutcomeBackendError None None (project_error_to_json no_backend_error)
  | PcWaiting f => (inl (PcAnswered (fnox_get (tick_of s) f name)), later 1 s)
  | PcAnswered (Ok (Some v)) => (inl (PcInserted v), inserted id name v s)
  | PcAnswered (Ok None) =>
      emit Allow OutcomeNotFound (Some "fnox") None (project_error_to_json (not_found_error name))
  | PcAnswered (Err msg) =>
      emit Allow OutcomeBackendError (Some "fnox") None (project_error_to_json (backend_failed msg))
  | PcInserted v => (inl (PcReply v (saturate_u32 (as_secs p.(p_cache).(c_default_ttl)))), s)
  | PcReply v ttl => emit Allow OutcomeOk (Some "fnox") None (get_response_to_json (get_utf8 v ttl))
  end.
Proof.
  destruct pc as [| | | | | | |[[v|]|msg]| |]; try done.
  - unfold get_step, allowed, gets, mbind, ST_bind, mret, ST_ret. rewrite allowlist_any.
    by destruct (decide (name ∈ _)); [rewrite bool_decide_true|rewrite bool_decide_false].
  - unfold get_step. rewrite ST_bind_unfold, ST_bind_unfold, ST_bind_unfold, on_cache_eq. cbv zeta.
    change (now (gets (deref id) s).2) with (os_now (tick_of s), later 1 s). cbn [fst snd].
    change (deref id (later 1 s)) with (deref id s). by destruct (Cache.get _ _ _) as [[h|] c].
Qed.

(** The steps of a [get], run one after the other, are [dispatch_get]. *)
Lemma get_steps_refine id name peer start (s : State) :
  run_steps (get_step (mkGetCall id name peer start)) 7 PcStart s =
  let '(j, s') := dispatch_get id name peer start s in (Some j, s').
Proof.
  rewrite dispatch_get_eq, get_before_eq, run_steps_S, get_step_eq. cbv beta iota zeta.
  destruct (decide (allowed id name s)); rewrite run_steps_S, get_step_eq; cbv beta iota zeta; [|done].
  destruct (Cache.get _ _ _) as [hit c]. set (s1 := put_cache id c (later 1 s)).
  assert (Hn : (deref id s1).(p_name) = (deref id s).(p_name)) by apply (deref_put_cache_name id c (later 1 s)).
  destruct hit as [h|]; rewrite run_steps_S, get_step_eq; cbv beta iota zeta; [by rewrite Hn|].
  change (ss_backend s1) with (ss_backend s).
  destruct (ss_backend s) as [session|]; rewrite run_steps_S, get_step_eq; cbv beta iota zeta; [|by rewrite Hn].
  rewrite get_after_eq. cbv beta iota zeta.
  destruct (fnox_get _ _ _) as [[v|]|msg]; rewrite run_steps_S, get_step_eq; cbv beta iota zeta; [|done..].
  rewrite run_steps_S, get_step_eq. cbv beta iota zeta. rewrite run_steps_S, get_step_eq. cbv beta iota zeta.
  assert (Hn' : (deref id (inserted id name v (later 1 s1))).(p_name) = (deref id (later 1 s1)).(p_name))
    by apply (deref_put_cache_name id _ (later 1 (later 1 s1))).
  by rewrite Hn'.
Qed.

(** ** The admin requests *)

Lemma load_for_eq name project_path (s : State) :
  load_for name project_path s =
  (match Manifest.load (os_disk (tick_of s)) project_path with
   | Err e => Err (to_registry_error e)
   | Ok (m, path) =>
       if decide (m.(project).(project_name) ≠ name)
       then Err (RegManifestInvalid (NameDirMismatch m.(project).(project_name) name))
       else Ok (m, path)
   end, later 1 s).
Proof.
  unfold load_for, in_registry, zoom, load_manifest, tick, mbind, ST_bind, mret, ST_ret. simpl.
  by destruct (Manifest.load _ _) as [[m path]|[]].
Qed.

Lemma register_locked_eq name project_path m mp r :
  register_locked name project_path m mp r =
  match r.(rs_map) !! name with
  | Some _ => (Err (ProjectExists name), r)
  | None =>
      let path := socket_path_for server.(sv_registry) name in
      let '(res, ns) := bind_socket r.(rs_tick) path PROJECT_SOCKET_MODE
                          (ProjectListener r.(rs_next)) r.(rs_nodes) in
      match res with
      | Err e => (Err (bind_error path e), set_nodes ns (ticked 3 r))
      | Ok _ => (Ok r.(rs_next),
          mkRegState (3 + r.(rs_tick)) ns
            (<[r.(rs_next) := new_project server.(sv_registry) name project_path mp m]> r.(rs_heap))
            (S r.(rs_next)) (<[name := r.(rs_next)]> r.(rs_map)))
      end
  end.
Proof.
  unfold register_locked, gets, mbind, ST_bind. destruct (rs_map r !! name); [done|].
  unfold bind_res, bind_project_socket, zoom, tick, gets, mbind, ST_bind, mret, ST_ret. simpl.
  by destruct (bind_socket _ _ _ _ _) as [[[]|e] ns].
Qed.

Lemma register_steps name path (s : State) :
  run_steps admin_step 4 (PcRequest (Register name path)) s =
  let '(j, s') := dispatch_register server name path s in (Some j, s').
Proof.
  rewrite run_steps_S. cbn [admin_step]. rewrite ST_bind_unfold, load_for_eq. cbn [fst snd mret ST_ret].
  unfold dispatch_register, in_registry, zoom, mbind at 1, ST_bind at 1. rewrite register_eq.
  change (rs_tick (ss_reg s)) with (tick_of s).
  destruct (Manifest.load _ _) as [[m mp]|e]; [|done]. case_decide; [done|].
  rewrite run_steps_S. cbn [admin_step]. unfold in_registry, zoom. rewrite ST_bind_unfold.
  rewrite register_locked_eq. simpl. destruct (rs_map (ss_reg s) !! name); [done|].
  unfold tick_of. destruct (bind_socket _ _ _ _ _) as [[u|e] ns]; [|done]. done.
Qed.

Lemma unregister_steps name (s : State) :
  run_steps admin_step 4 (PcRequest (Unregister name)) s =
  let '(j, s') := dispatch_unregister name s in (Some j, s').
Proof.
  rewrite dispatch_unregister_eq, run_steps_S. cbn [admin_step].
  unfold in_registry, zoom, unregister, mbind at 1, ST_bind at 1, mret, ST_ret.
  destruct (rs_map (ss_reg s) !! name) as [id|] eqn:Hid; [|by destruct s].
  rewrite run_steps_S. cbn [admin_step]. rewrite ST_bind_unfold, ST_bind_unfold.
  cbn [gets modify fst snd mret ST_ret]. rewrite run_steps_S. cbn [admin_step].
  rewrite ST_bind_unfold. cbn [gets modify fst snd mret ST_ret]. rewrite run_steps_S. cbn [admin_step].
  rewrite ST_bind_unfold, ST_bind_unfold, remove_socket_eq. cbn [gets modify fst snd mret ST_ret]. cbv zeta.
  destruct (ss_tasks s !! name) as [l|] eqn:Hl; unfold tick_of, deref; simpl; rewrite ?Hl; simpl;
    by destruct (remove_file _ _ _).
Qed.

Lemma reload_steps name (s : State) :
  run_steps admin_step 4 (PcRequest (Reload name)) s =
  let '(j, s') := dispatch_reload server name s in (Some j, s').
Proof.
  unfold dispatch_reload. rewrite run_steps_S. cbn [admin_step]. rewrite !ST_bind_unfold.
  unfold in_registry at 1 2 3 4, zoom, get_project. rewrite reload_eq.
  destruct (rs_map (ss_reg s) !! name) as [id|] eqn:Hid; simpl; [|by destruct s].
  destruct (rs_heap (ss_reg s) !! id) as [p|] eqn:Hp; simpl; [|by destruct s].
  rewrite run_steps_S. cbn [admin_step]. rewrite ST_bind_unfold, ST_bind_unfold, load_for_eq.
  cbn [gets fst snd mret ST_ret].
  assert (set_reg (ss_reg s) s = s) as -> by by destruct s.
  rewrite (heap_deref id p) by done. change (rs_tick (ss_reg s)) with (tick_of s).
  destruct (Manifest.load _ _) as [[m mp]|e]; [|done]. case_decide; [done|].
  rewrite run_steps_S. cbn [admin_step]. unfold resolve_cache_bounds. cbv beta iota.
  rewrite ST_bind_unfold, on_cache_eq. cbn [fst snd mret ST_ret]. rewrite run_steps_S. cbn [admin_step].
  rewrite ST_bind_unfold. unfold in_registry, zoom. simpl. change (deref id (later 1 s)) with (deref id s).
  rewrite (heap_deref id p) by done. f_equal. unfold set_reg, set_heap. simpl. do 2 f_equal.
  apply map_eq. intros i. destruct (decide (i = id)) as [->|Hne].
  - by rewrite !lookup_alter_eq, lookup_insert_eq, Hp.
  - by rewrite !lookup_alter_ne, lookup_insert_ne.
Qed.

Lemma rotate_steps (s : State) :
  run_steps admin_step 4 (PcRequest RotateBootstrap) s =
  let '(j, s') := dispatch_rotate_bootstrap server s in (Some j, s').
Proof.
  unfold dispatch_rotate_bootstrap. rewrite run_steps_S. cbn [admin_step].
  rewrite !ST_bind_unfold. cbn [gets fst snd mret ST_ret].
  destruct (ss_backend s) as [session|]; [|done].
  rewrite run_steps_S. cbn [admin_step]. rewrite !ST_bind_unfold. cbn [fst snd mret ST_ret].
  destruct (in_counter _ s) as [[t|e] s1]; cbn [fst snd]; [|done].
  rewrite run_steps_S. cbn [admin_step]. rewrite !ST_bind_unfold. cbn [fst snd mret ST_ret].
  destruct (match fnox_config_path (sv_config server) with
            | Some path => Backend.open _ path | None => Backend.discover _ end) as [new|e]; done.
Qed.

(** Two steps for each project of the snapshot. *)
Lemma status_loop (projects : list (nat * Project)) statuses (s : State) :
  Forall (λ ip, deref ip.1 s = ip.2) projects →
  run_steps admin_step (S (2 * length projects)) (PcStatus projects.*1 statuses) s =
  (Some (status_to_json (status_new BROKER_VERSION
     (as_secs (duration_since (os_now (tick_of s)) server.(sv_started_at)))
     (bootstrap_mode server.(sv_config).(bootstrap))
     (statuses ++ map (λ ip, project_status ip.2) projects))), later 1 s).
Proof.
  intros Hp. revert statuses. induction Hp as [|[id p] projects Hd _ IH]; intros statuses.
  - rewrite run_steps_S. cbn [admin_step fmap list_fmap map]. by rewrite app_nil_r.
  - replace (S (2 * length ((id, p) :: projects))) with (S (S (S (2 * length projects)))) by (simpl; lia).
    rewrite fmap_cons, run_steps_S. cbn [admin_step fst]. rewrite ST_bind_unfold. cbn [gets fst snd mret ST_ret].
    rewrite run_steps_S. cbn [admin_step]. rewrite ST_bind_unfold. cbn [gets fst snd mret ST_ret].
    simpl in Hd. rewrite Hd, IH. cbn [map]. by rewrite <-app_assoc.
Qed.

Lemma status_steps (s : State) :
  let n := length (snapshot (project_order (tick_of s)) s.(ss_reg)) in
  run_steps admin_step (2 + 2 * n) (PcRequest Status) s =
  let '(j, s') := dispatch_status server s in (Some j, s').
Proof.
  intros n. unfold n. rewrite dispatch_status_eq, Nat.add_succ_l, run_steps_S. cbn [admin_step].
  rewrite ST_bind_unfold, ST_bind_unfold. cbn [gets fst snd mret ST_ret].
  change (snapshot (project_order (interaction s).1) (ss_reg (interaction s).2))
    with (snapshot (project_order (tick_of s)) (ss_reg s)).
  change (interaction s).2 with (later 1 s). rewrite Nat.add_1_l, status_loop; [done|].
  apply Forall_forall. intros [id p] ([nm id'] & _ & Hp)%list_elem_of_omap.
  simpl in *. apply bind_Some in Hp as (p' & Hp & [= -> ->]). by apply heap_deref.
Qed.

(** The steps each admin request takes at most. *)
Definition admin_fuel (req : AdminRequest) (s : State) : nat :=
  match req with
  | Status => 2 + 2 * length (snapshot (project_order (tick_of s)) s.(ss_reg))
  | _ => 4
  end.

(** The steps of every admin request, run one after the other, are
    [dispatch_admin]. *)
Lemma admin_steps_refine req (s : State) :
  run_steps admin_step (admin_fuel req s) (PcRequest req) s =
  let '(j, s') := dispatch_admin server req s in (Some j, s').
Proof.
  destruct req as [name path|name|name| |]; cbn [dispatch_admin admin_fuel].
  - apply register_steps.
  - apply unregister_steps.
  - apply reload_steps.
  - apply status_steps.
  - apply rotate_steps.
Qed.

(** Cutting the handlers into steps has changed nothing: run one after the other
    without interruption, the steps of a request are its handler in [Server]. *)
Lemma handler_steps_refine :
  (∀ id name peer start (s : State),
     run_steps (get_step (mkGetCall id name peer start)) 7 PcStart s =
     let '(j, s') := dispatch_get id name peer start s in (Some j, s')) ∧
  (∀ req (s : State),
     run_steps admin_step (admin_fuel req s) (PcRequest req) s =
     let '(j, s') := dispatch_admin server req s in (Some j, s')).
Proof. split; intros; [apply get_steps_refine|apply admin_steps_refine]. Qed.

End steps.

(** ** Interleaving *)

(** A [get] in flight, with the state in which it loaded the manifest. *)
Record GetTask (Fnox : Type) : Type := mkGetTask {
  gt_call : GetCall;
  gt_pc : GetPc Fnox;
  gt_checked : ServerState Fnox;
}.
Arguments mkGetTask {Fnox} _ _ _.
Arguments gt_call {Fnox} _.
Arguments gt_pc {Fnox} _.
Arguments gt_checked {Fnox} _.

(** A [get] that has been answered. *)
Record Done (Fnox : Type) : Type := mkDone {
  dn_call : GetCall;
  dn_checked : ServerState Fnox;
  dn_response : json;
}.
Arguments mkDone {Fnox} _ _ _.
Arguments dn_call {Fnox} _.
Arguments dn_checked {Fnox} _.
Arguments dn_response {Fnox} _.

Record Conc (Fnox : Type) : Type := mkConc {
  k_state : ServerState Fnox;
  k_gets : gmap nat (GetTask Fnox);
  k_admin : gmap nat (AdminPc Fnox);
  k_done : list (Done Fnox);
  k_received : list AuditEvent;
}.
Arguments mkConc {Fnox} _ _ _ _ _.
Arguments k_state {Fnox} _.
Arguments k_gets {Fnox} _.
Arguments k_admin {Fnox} _.
Arguments k_done {Fnox} _.
Arguments k_received {Fnox} _.

Definition is_start {Fnox} (pc : GetPc Fnox) : bool := match pc with PcStart => true | _ => false end.

Section conc.
Context {Fnox : Type} `{Os, Outside, TomlManifest, UnicodeTables, HashOrder, FnoxCore Fnox}.
Context (server : Server).
Local Abbreviation State := (ServerState Fnox).
Implicit Types (s : State) (c : Conc Fnox) (t : nat).

Definition pop_event (ch : Channel) (q : list AuditEvent) : Channel :=
  mkChannel q ch.(ch_rx_open) ch.(ch_dropped).

(** The manifest a [get] goes by is the one of its first step. *)
Definition checked_in (g : GetTask Fnox) s : State :=
  if is_start g.(gt_pc) then s else g.(gt_checked).

Inductive kstep : Conc Fnox → Conc Fnox → Prop :=
  | k_start_get c t id name peer :
      c.(k_gets) !! t = None →
      kstep c (mkConc (now c.(k_state)).2
        (<[t := mkGetTask (mkGetCall id name peer (now c.(k_state)).1) PcStart c.(k_state)]> c.(k_gets))
        c.(k_admin) c.(k_done) c.(k_received))
  | k_get_step c t g pc' s' :
      c.(k_gets) !! t = Some g →
      get_step g.(gt_call) g.(gt_pc) c.(k_state) = (inl pc', s') →
      kstep c (mkConc s' (<[t := mkGetTask g.(gt_call) pc' (checked_in g c.(k_state))]> c.(k_gets))
        c.(k_admin) c.(k_done) c.(k_received))
  | k_get_done c t g j s' :
      c.(k_gets) !! t = Some g →
      get_step g.(gt_call) g.(gt_pc) c.(k_state) = (inr j, s') →
      kstep c (mkConc s' (delete t c.(k_gets)) c.(k_admin)
        (c.(k_done) ++ [mkDone g.(gt_call) g.(gt_checked) j]) c.(k_received))
  | k_get_abort c t :
      kstep c (mkConc c.(k_state) (delete t c.(k_gets)) c.(k_admin) c.(k_done) c.(k_received))
  | k_start_admin c t req :
      c.(k_admin) !! t = None →
      kstep c (mkConc c.(k_state) c.(k_gets) (<[t := PcRequest req]> c.(k_admin)) c.(k_done) c.(k_received))
  | k_admin_step c t pc pc' s' :
      c.(k_admin) !! t = Some pc → admin_step server pc c.(k_state) = (inl pc', s') →
      kstep c (mkConc s' c.(k_gets) (<[t := pc']> c.(k_admin)) c.(k_done) c.(k_received))
  | k_admin_done c t pc j s' :
      c.(k_admin) !! t = Some pc → admin_step server pc c.(k_state) = (inr j, s') →
      kstep c (mkConc s' c.(k_gets) (delete t c.(k_admin)) c.(k_done) c.(k_received))
  | k_loop_stops c id :
      (** [stop] was notified when the project left the map. *)
      (∀ name, c.(k_state).(ss_reg).(rs_map) !! name ≠ Some id) →
      kstep c (mkConc (set_loops (c.(k_state).(ss_loops) ∖ {[id]}) c.(k_state))
        c.(k_gets) c.(k_admin) c.(k_done) c.(k_received))
  | k_recv c e q :
      c.(k_state).(ss_audit).(ch_queue) = e :: q →
      kstep c (mkConc (set_audit (pop_event c.(k_state).(ss_audit) q) c.(k_state))
        c.(k_gets) c.(k_admin) c.(k_done) (c.(k_received) ++ [e])).

Definition conc_init (b : option (BackendSession Fnox)) : Conc Fnox :=
  mkConc (server_init b) ∅ ∅ [] [].

Definition conc_reachable (b : option (BackendSession Fnox)) c : Prop := rtc kstep (conc_init b) c.

(** ** Where values come from *)

(** [v] is what some session answered for [name] at some time. *)
Definition answered_by_backend (name v : string) : Prop := ∃ n f, fnox_get n f name = Ok (Some v).

Definition cache_genuine (k : BoundedCache) : Prop :=
  map_Forall (λ name e, answered_by_backend name e.(ce_value)) k.(c_map).
Definition caches_genuine s : Prop :=
  map_Forall (λ _ p, cache_genuine p.(p_cache)) s.(ss_reg).(rs_heap).

Lemma cache_get_genuine time name k : cache_genuine k → cache_genuine (Cache.get time name k).2.
Proof.
  intros Hk. unfold Cache.get. destruct (c_map k !! name) as [e|]; [|done].
  destruct (is_expired e time); [|done]. by apply map_Forall_delete.
Qed.

Lemma cache_insert_genuine it time name v k :
  cache_genuine k → answered_by_backend name v →
  cache_genuine (Cache.insert it time name v None k).2.
Proof.
  intros Hk Hv. rewrite insert_kept. apply map_Forall_insert_2; [done|].
  intros n e He. eapply Hk, lookup_weaken; [exact He|apply kept_subseteq].
Qed.

Lemma put_cache_genuine id k s :
  caches_genuine s → cache_genuine k → caches_genuine (put_cache id k s).
Proof.
  intros Hs Hk i p. unfold put_cache. simpl. destruct (decide (i = id)) as [->|].
  - rewrite lookup_alter_eq, fmap_Some. intros (q & Hq & ->). done.
  - rewrite lookup_alter_ne by done. apply Hs.
Qed.

Lemma deref_genuine id s : caches_genuine s → cache_genuine (deref id s).(p_cache).
Proof.
  intros Hs. unfold deref. destruct (rs_heap (ss_reg s) !! id) as [p|] eqn:Hp; [by apply (Hs id)|].
  apply map_Forall_empty.
Qed.

(** What a [get] has in hand at each point is allowed and genuine. *)
Definition pc_ok (id : nat) (name : string) (checked : State) (pc : GetPc Fnox) : Prop :=
  match pc with
  | PcStart | PcDenied => True
  | PcChecked | PcMiss | PcNoBackend | PcWaiting _ => allowed id name checked
  | PcHit h => allowed id name checked ∧ answered_by_backend name h.(hit_value)
  | PcAnswered answer => allowed id name checked ∧
      ∀ v, answer = Ok (Some v) → answered_by_backend name v
  | PcInserted v | PcReply v _ => allowed id name checked ∧ answered_by_backend name v
  end.

Definition genuine_response (id : nat) (name : string) (checked : State) (j : json) : Prop :=
  succeeded j → allowed id name checked ∧
  ∃ v ttl, j = get_response_to_json (get_utf8 v ttl) ∧ answered_by_backend name v.

(** A step that goes on records nothing; the last step records one event. *)
Lemma get_step_ok id name peer start pc checked s r s' :
  get_step (mkGetCall id name peer start) pc s = (r, s') →
  caches_genuine s → pc_ok id name checked pc →
  caches_genuine s' ∧
  match r with
  | inl pc' => s'.(ss_audit) = s.(ss_audit) ∧ pc_ok id name (if is_start pc then s else checked) pc'
  | inr j => (∃ e, s'.(ss_audit) = record (Fetch e) s.(ss_audit)) ∧ genuine_response id name checked j
  end.
Proof.
  rewrite get_step_eq. cbv zeta. intros Heq Hs Hpc. unfold genuine_response.
  destruct pc as [| | |h| | |f|[[v|]|msg]|v|v ttl]; simpl in *.
  all: try (injection Heq as <- <-; split_and!; try done; try (by eexists); naive_solver).
  - injection Heq as <- <-. split_and!; try done. by case_decide.
  - pose proof (deref_genuine id s Hs) as Hd.
    pose proof (cache_get_genuine (os_now (tick_of s)) name _ Hd) as Hg.
    destruct (Cache.get _ _ _) as [hit k] eqn:Hget. injection Heq as <- <-.
    split; [by apply put_cache_genuine|]. split; [done|]. destruct hit as [h|]; [|done]. split; [done|].
    apply cache_get_hit in Hget as (e & He & -> & _). by apply (Hd name e).
  - injection Heq as <- <-. split_and!; try done. by destruct (ss_backend s).
  - injection Heq as <- <-. split_and!; try done. split; [done|]. intros v Hv. by exists (tick_of s), f.
  - injection Heq as <- <-. destruct Hpc as [Ha Hv]. split_and!; try done; [|split; [done|by apply Hv]].
    apply (put_cache_genuine id _ (later 1 s)); [done|]. apply cache_insert_genuine; [|by apply Hv].
    by apply deref_genuine.
Qed.

(** Admin steps record nothing and put nothing into a cache. *)
Lemma admin_step_ok pc s r s' :
  admin_step server pc s = (r, s') → caches_genuine s →
  s'.(ss_audit) = s.(ss_audit) ∧ caches_genuine s'.
Proof.
  destruct pc as [[name path|name|name| |]|name path m mp|[|id ids] sts|id n ids sts|name id|name id|name id|name id l|id
    |name id|id m|id m|session|session|session new]; cbn [admin_step]; intros Heq Hs.
  - rewrite ST_bind_unfold, load_for_eq in Heq. by injection Heq as _ <-.
  - unfold in_registry, zoom, unregister, mbind, ST_bind in Heq.
    destruct (rs_map (ss_reg s) !! name); by injection Heq as _ <-.
  - unfold in_registry, zoom, get_project, mbind, ST_bind in Heq.
    destruct (option_bind _ _ _ (rs_map (ss_reg s) !! name)) as [[]|]; by injection Heq as _ <-.
  - by injection Heq as _ <-.
  - by injection Heq as _ <-.
  - unfold in_registry, zoom in Heq. rewrite ST_bind_unfold, register_locked_eq in Heq.
    destruct (rs_map (ss_reg s) !! name); [by injection Heq as _ <-|]. cbv zeta in Heq.
    destruct (bind_socket _ _ _ _ _) as [[u|e] ns]; injection Heq as _ <-; [|done]. split; [done|].
    intros i p. simpl. intros [[<- <-]|[_ Hp]]%lookup_insert_Some; [apply map_Forall_empty|by eapply Hs].
  - by injection Heq as _ <-.
  - by injection Heq as _ <-.
  - by injection Heq as _ <-.
  - by injection Heq as _ <-.
  - by injection Heq as _ <-.
  - by injection Heq as _ <-.
  - injection Heq as _ <-. by destruct l.
  - rewrite ST_bind_unfold, ST_bind_unfold, remove_socket_eq in Heq. cbn [gets fst snd] in Heq.
    destruct (remove_file _ _ _). by injection Heq as _ <-.
  - rewrite ST_bind_unfold, ST_bind_unfold, load_for_eq in Heq. by injection Heq as _ <-.
  - cbn -[resolve_cache_bounds] in Heq. destruct (resolve_cache_bounds _ _) as [max ttl].
    rewrite ST_bind_unfold, on_cache_eq in Heq. injection Heq as _ <-. split; [done|].
    apply put_cache_genuine; [done|]. exact (deref_genuine id s Hs).
  - injection Heq as _ <-. split; [done|]. intros i p. simpl. destruct (decide (i = id)) as [->|].
    + rewrite lookup_alter_eq, fmap_Some. intros (q & Hq & ->). exact (Hs id q Hq).
    + rewrite lookup_alter_ne by done. apply Hs.
  - unfold in_counter, in_registry, zoom, mbind, ST_bind in Heq.
    destruct (fetch_token _ _) as [[tok|e] n]; by injection Heq as _ <-.
  - by injection Heq as _ <-.
  - by injection Heq as _ <-.
Qed.

(** ** The invariant of every interleaving *)

Definition done_ok (d : Done Fnox) : Prop :=
  genuine_response d.(dn_call).(gc_id) d.(dn_call).(gc_name) d.(dn_checked) d.(dn_response).
Definition task_ok (g : GetTask Fnox) : Prop :=
  pc_ok g.(gt_call).(gc_id) g.(gt_call).(gc_name) g.(gt_checked) g.(gt_pc).

(** Every event ever offered to the channel: taken, waiting, or dropped. *)
Definition offered (received : list AuditEvent) (ch : Channel) : Z :=
  Z.of_nat (length received) + Z.of_nat (length ch.(ch_queue)) + ch.(ch_dropped).

Record conc_inv c : Prop := mk_conc_inv {
  ci_genuine : caches_genuine c.(k_state);
  ci_gets : map_Forall (λ _ g, task_ok g) c.(k_gets);
  ci_done : Forall done_ok c.(k_done);
  ci_open : c.(k_state).(ss_audit).(ch_rx_open) = true;
  ci_events : wrap_u64 (offered c.(k_received) c.(k_state).(ss_audit)) =
              wrap_u64 (Z.of_nat (length c.(k_done)));
}.

(** Recording on an open channel offers one more event. *)
Lemma record_offers e ch received :
  ch.(ch_rx_open) = true →
  (record e ch).(ch_rx_open) = true ∧
  wrap_u64 (offered received (record e ch)) = wrap_u64 (offered received ch + 1).
Proof.
  intros Ho. unfold record, offered. rewrite Ho. destruct (_ <? _); simpl; (split; [done|]).
  - f_equal. rewrite length_app. simpl. lia.
  - rewrite Z.add_comm, wrap_u64_add. f_equal. lia.
Qed.

Lemma conc_init_inv b : conc_inv (conc_init b).
Proof. split; simpl; [apply map_Forall_empty|apply map_Forall_empty|constructor|done|done]. Qed.

Lemma kstep_inv c c' : conc_inv c → kstep c c' → conc_inv c'.
Proof.
  intros [Hs Hg Hd Ho He] Hstep. destruct Hstep as
    [c t id name peer Ht|c t g pc' s' Ht Hrun|c t g j s' Ht Hrun|c t|c t req Ht|c t pc pc' s' Ht Hrun
    |c t pc j s' Ht Hrun|c id Hid|c e q Hq].
  - split; simpl; try done. by apply map_Forall_insert_2.
  - destruct g as [[id name peer start] pc checked]. pose proof (Hg t _ Ht) as Hpc. simpl in *.
    destruct (get_step_ok _ _ _ _ _ _ _ _ _ Hrun Hs Hpc) as (Hs' & Haud & Hpc').
    split; simpl; rewrite ?Haud; try done. by apply map_Forall_insert_2.
  - destruct g as [[id name peer start] pc checked]. pose proof (Hg t _ Ht) as Hpc. simpl in *.
    destruct (get_step_ok _ _ _ _ _ _ _ _ _ Hrun Hs Hpc) as (Hs' & (e & Haud) & Hok).
    destruct (record_offers (Fetch e) _ (k_received c) Ho) as [Ho' Hr].
    split; simpl; rewrite ?Haud; try done; [by apply map_Forall_delete|by apply Forall_app_2; [|apply Forall_singleton]|].
    rewrite Hr, <-wrap_u64_add, He, wrap_u64_add, length_app. simpl. f_equal. lia.
  - split; simpl; try done. by apply map_Forall_delete.
  - by split.
  - destruct (admin_step_ok _ _ _ _ Hrun Hs) as [Haud Hs']. by split; simpl; rewrite ?Haud.
  - destruct (admin_step_ok _ _ _ _ Hrun Hs) as [Haud Hs']. by split; simpl; rewrite ?Haud.
  - by split.
  - split; simpl; try done. rewrite <-He. unfold offered. simpl. rewrite Hq, length_app. simpl. f_equal. lia.
Qed.

Lemma conc_reachable_inv b c : conc_reachable b c → conc_inv c.
Proof.
  intros Hr. assert (∀ c1 c2, rtc kstep c1 c2 → conc_inv c1 → conc_inv c2) as Hrtc.
  { intros c1 c2. induction 1; eauto using kstep_inv. }
  eapply Hrtc; [exact Hr|apply conc_init_inv].
Qed.

(** ** A scheduler, to run interleavings *)

Inductive label : Type :=
  | LGet (t id : nat) (name : string) (peer : Peer)
  | LGetStep (t : nat)
  | LAdmin (t : nat) (req : AdminRequest)
  | LAdminStep (t : nat).

Definition do_label (l : label) c : option (Conc Fnox) :=
  match l with
  | LGet t id name peer =>
      match c.(k_gets) !! t with
      | Some _ => None
      | None => Some (mkConc (now c.(k_state)).2
          (<[t := mkGetTask (mkGetCall id name peer (now c.(k_state)).1) PcStart c.(k_state)]> c.(k_gets))
          c.(k_admin) c.(k_done) c.(k_received))
      end
  | LGetStep t =>
      g ← c.(k_gets) !! t;
      Some (match get_step g.(gt_call) g.(gt_pc) c.(k_state) with
            | (inl pc', s') => mkConc s' (<[t := mkGetTask g.(gt_call) pc' (checked_in g c.(k_state))]> c.(k_gets))
                                 c.(k_admin) c.(k_done) c.(k_received)
            | (inr j, s') => mkConc s' (delete t c.(k_gets)) c.(k_admin)
                               (c.(k_done) ++ [mkDone g.(gt_call) g.(gt_checked) j]) c.(k_received)
            end)
  | LAdmin t req =>
      match c.(k_admin) !! t with
      | Some _ => None
      | None => Some (mkConc c.(k_state) c.(k_gets) (<[t := PcRequest req]> c.(k_admin)) c.(k_done) c.(k_received))
      end
  | LAdminStep t =>
      pc ← c.(k_admin) !! t;
      Some (match admin_step server pc c.(k_state) with
            | (inl pc', s') => mkConc s' c.(k_gets) (<[t := pc']> c.(k_admin)) c.(k_done) c.(k_received)
            | (inr j, s') => mkConc s' c.(k_gets) (delete t c.(k_admin)) c.(k_done) c.(k_received)
            end)
  end.

Fixpoint schedule (ls : list label) c : option (Conc Fnox) :=
  match ls with
  | [] => Some c
  | l :: ls => c' ← do_label l c; schedule ls c'
  end.

Lemma do_label_sound l c c' : do_label l c = Some c' → kstep c c'.
Proof.
  destruct l as [t id name peer|t|t req|t]; simpl.
  - destruct (k_gets c !! t) eqn:Ht; [done|]. intros [= <-]. by apply k_start_get.
  - intros (g & Hg & [= <-])%bind_Some. destruct (get_step _ _ _) as [[pc'|j] s'] eqn:Hs.
    + by eapply k_get_step.
    + by eapply k_get_done.
  - destruct (k_admin c !! t) eqn:Ht; [done|]. intros [= <-]. by apply k_start_admin.
  - intros (pc & Hpc & [= <-])%bind_Some. destruct (admin_step _ _ _) as [[pc'|j] s'] eqn:Hs.
    + by eapply k_admin_step.
    + by eapply k_admin_done.
Qed.

Lemma schedule_sound ls c c' : schedule ls c = Some c' → rtc kstep c c'.
Proof.
  revert c. induction ls as [|l ls IH]; intros c; simpl; [intros [= <-]; constructor|].
  intros (c1 & Hl & Hls)%bind_Some. econstructor; [by eapply do_label_sound|by apply IH].
Qed.

(** ** Properties *)

(** C1: under every interleaving of requests, reloads, rotations, registrations
    and unregistrations, a value is sent only for a name that the allowlist
    named when the request loaded the manifest, and it is always what the
    backend answered for that very name: caches never hand out the value of
    another name or another project. *)
Theorem concurrent_get_authorized b c d :
  conc_reachable b c → d ∈ c.(k_done) → succeeded d.(dn_response) →
  allowed d.(dn_call).(gc_id) d.(dn_call).(gc_name) d.(dn_checked) ∧
  ∃ v ttl n f, d.(dn_response) = get_response_to_json (get_utf8 v ttl) ∧
               fnox_get n f d.(dn_call).(gc_name) = Ok (Some v).
Proof.
  intros Hr Hd Hok. pose proof (ci_done _ (conc_reachable_inv b c Hr)) as Hf.
  rewrite Forall_forall in Hf. destruct (Hf d Hd Hok) as (Ha & v & ttl & Hj & n & f & Hv). eauto 10.
Qed.

(** C6: under every interleaving, each answered [get] has left exactly one
    event with the audit channel, and nothing else has: the events the writer
    took, those waiting and those counted as dropped add up to the number of
    [get]s answered, as the 64-bit counter counts.  A request aborted on the
    way leaves none. *)
Theorem concurrent_audit_accounting b c :
  conc_reachable b c →
  wrap_u64 (Z.of_nat (length c.(k_received)) + Z.of_nat (length c.(k_state).(ss_audit).(ch_queue)) +
            dropped c.(k_state).(ss_audit)) = wrap_u64 (Z.of_nat (length c.(k_done))).
Proof. intros Hr. apply (ci_events _ (conc_reachable_inv b c Hr)). Qed.

End conc.

(** ** Interleavings of the demo *)

Local Abbreviation demo_schedule ls :=
  (@schedule string demo_os (demo_imds "{}") demo_toml demo_unicode demo_order demo_fnox demo_server ls
     (conc_init (Some (mkBackendSession "session")))).
Local Abbreviation demo_reachable c :=
  (@conc_reachable string demo_os (demo_imds "{}") demo_toml demo_unicode demo_order demo_fnox demo_server
     (Some (mkBackendSession "session")) c).

Definition demo_register (t : nat) : list label :=
  LAdmin t (Register "myrepo" "/projects/myrepo") :: replicate 4 (LAdminStep t).

(** Where a schedule ends. *)
Definition demo_end (ls : list label) : Conc string :=
  default (conc_init (Some (mkBackendSession "session"))) (demo_schedule ls).

Lemma demo_end_reachable ls : demo_reachable (demo_end ls).
Proof.
  unfold demo_end. destruct (demo_schedule ls) as [c|] eqn:Hc; [by eapply schedule_sound|].
  apply rtc_refl.
Qed.

(** Two [get]s for the same secret overlap a reload and a rotation. *)
Definition busy : list label :=
  demo_register 0 ++
  [LGet 0 0 "GITHUB_TOKEN" demo_peer; LGetStep 0; LGet 1 0 "GITHUB_TOKEN" demo_peer; LGetStep 0;
   LAdmin 0 (Reload "myrepo"); LGetStep 1; LAdminStep 0; LAdminStep 0; LGetStep 0; LGetStep 1;
   LAdminStep 0; LAdmin 1 RotateBootstrap; LAdminStep 1; LAdminStep 1; LAdminStep 1; LGetStep 1;
   LAdminStep 1; LAdminStep 0; LGetStep 0; LGetStep 0; LGetStep 1; LGetStep 0; LGetStep 0;
   LGetStep 1; LGetStep 1; LGetStep 1].

Lemma busy_responses :
  map dn_response (demo_end busy).(k_done) =
    [get_response_to_json (get_utf8 "ghp_1" 600); get_response_to_json (get_utf8 "ghp_1" 600)].
Proof. vm_compute. reflexivity. Qed.

Lemma concurrent_get_authorized_witness :
  ∃ d, d ∈ (demo_end busy).(k_done) ∧ allowed d.(dn_call).(gc_id) d.(dn_call).(gc_name) d.(dn_checked).
Proof.
  pose proof busy_responses as Hr.
  pose proof (λ d, @concurrent_get_authorized string demo_os (demo_imds "{}") demo_toml demo_unicode
    demo_order demo_fnox demo_server (Some (mkBackendSession "session")) (demo_end busy) d
    (demo_end_reachable busy)) as Ha.
  destruct (k_done (demo_end busy)) as [|d ds]; [discriminate|]. injection Hr as Hd _.
  exists d. split; [left|]. apply (Ha d); [left|]. rewrite Hd. reflexivity.
Defined.

Lemma concurrent_audit_accounting_witness :
  wrap_u64 (Z.of_nat (length (demo_end busy).(k_received)) +
            Z.of_nat (length (demo_end busy).(k_state).(ss_audit).(ch_queue)) +
            dropped (demo_end busy).(k_state).(ss_audit)) = 2.
Proof.
  rewrite (@concurrent_audit_accounting string demo_os (demo_imds "{}") demo_toml demo_unicode
    demo_order demo_fnox demo_server (Some (mkBackendSession "session")) (demo_end busy)
    (demo_end_reachable busy)).
  rewrite <-(length_map dn_response), busy_responses. reflexivity.
Defined.
