(* ===== verification/Typing.v ===== *)
(** * Well-formedness under every interleaving

    [Admin.server_invariant] holds for requests served one after the other; some
    of it fails when requests overlap ([Races.unregister_register_race]).
    What is left holds for every interleaving of [Concurrent]: every project the
    daemon has ever made carries a manifest that was validated for its directory
    and its name, sits at the socket path of its name, and has a cache within
    the absolute bounds; every registered name leads to the project of that
    name. *)

From S2P Require Import Prelude Str Path Json Os Manifest Cache Config AuditLog Backend Proto Registry Bootstrap Server Fetch Admin Daemon Main Concurrent.
Open Scope Z_scope.

Section typing.
Context {Fnox : Type} `{Os, Outside, TomlManifest, UnicodeTables, HashOrder, FnoxCore Fnox}.
Context (server : Server) (Hserver : server_ok server).
Local Abbreviation State := (ServerState Fnox).
Local Abbreviation reg := (sv_registry server).
Implicit Types (s : State) (c : Conc Fnox).

(** A manifest that passed validation in directory [path], for [name]. *)
Definition good_manifest (path name : string) (m : Manifest) : Prop :=
  m.(project).(project_name) = name ∧
  ∃ raw, valid_manifest raw (file_name_str path) ∧ m = manifest_of raw.

(** The bounds of a cache are those of some good manifest: [reload] stores them
    before it stores the manifest. *)
Record project_typed (p : Project) : Prop := mk_project_typed {
  pt_socket : p.(p_socket_path) = socket_path_for reg p.(p_name);
  pt_manifest : good_manifest p.(p_project_path) p.(p_name) p.(p_manifest);
  pt_bounds : ∃ m, good_manifest p.(p_project_path) p.(p_name) m ∧
    (p.(p_cache).(c_max_entries), p.(p_cache).(c_default_ttl)) =
      resolve_cache_bounds m reg.(rg_cache_defaults);
  pt_cache : cache_sane p.(p_cache);
}.

Record state_typed s : Prop := mk_state_typed {
  st_heap : ∀ id p, s.(ss_reg).(rs_heap) !! id = Some p →
    project_typed p ∧ (id < s.(ss_reg).(rs_next))%nat;
  st_map : ∀ name id, s.(ss_reg).(rs_map) !! name = Some id →
    ∃ p, s.(ss_reg).(rs_heap) !! id = Some p ∧ p.(p_name) = name;
}.

(** What an admin request holds fits the project it holds it for. *)
Definition pc_typed s (pc : AdminPc Fnox) : Prop :=
  match pc with
  | PcBind name path m _ => good_manifest path name m
  | PcReread name id | PcTakeHandle name id => ∃ p, s.(ss_reg).(rs_heap) !! id = Some p ∧ p.(p_name) = name
  | PcBounds id m | PcStore id m =>
      ∃ p, s.(ss_reg).(rs_heap) !! id = Some p ∧ good_manifest p.(p_project_path) p.(p_name) m
  | _ => True
  end.

(** Projects stay on the heap, under their name and directory. *)
Definition heap_ext s s' : Prop :=
  ∀ id p, s.(ss_reg).(rs_heap) !! id = Some p →
    ∃ p', s'.(ss_reg).(rs_heap) !! id = Some p' ∧ p'.(p_name) = p.(p_name) ∧
          p'.(p_project_path) = p.(p_project_path).

Lemma heap_ext_same s s' : s'.(ss_reg).(rs_heap) = s.(ss_reg).(rs_heap) → heap_ext s s'.
Proof. intros Heq id p. rewrite Heq. eauto. Qed.

Lemma pc_typed_ext s s' pc : heap_ext s s' → pc_typed s pc → pc_typed s' pc.
Proof.
  intros Hext. destruct pc; try done; simpl; intros (p & Hp & Hg);
    destruct (Hext _ p Hp) as (p' & Hp' & Hn & Hpath); exists p'; rewrite ?Hpath, ?Hn; done.
Qed.

Lemma state_typed_same s s' :
  s'.(ss_reg).(rs_heap) = s.(ss_reg).(rs_heap) → s'.(ss_reg).(rs_next) = s.(ss_reg).(rs_next) →
  s'.(ss_reg).(rs_map) ⊆ s.(ss_reg).(rs_map) → state_typed s → state_typed s'.
Proof.
  intros Hh Hn Hm [Hheap Hmap]. split; rewrite Hh, ?Hn; [done|].
  intros name id Hid. by eapply Hmap, lookup_weaken.
Qed.

(** ** One project changes *)

Lemma alter_typed id f s s' :
  s'.(ss_reg).(rs_heap) = alter f id s.(ss_reg).(rs_heap) → s'.(ss_reg).(rs_next) = s.(ss_reg).(rs_next) →
  s'.(ss_reg).(rs_map) = s.(ss_reg).(rs_map) →
  (∀ p, s.(ss_reg).(rs_heap) !! id = Some p → project_typed p → project_typed (f p) ∧
     (f p).(p_name) = p.(p_name) ∧ (f p).(p_project_path) = p.(p_project_path)) →
  state_typed s → state_typed s' ∧ heap_ext s s'.
Proof.
  intros Hh Hn Hm Hf [Hheap Hmap].
  assert (Hext : heap_ext s s').
  { intros i p Hp. rewrite Hh. destruct (decide (i = id)) as [->|Hne].
    - exists (f p). rewrite lookup_alter_eq, Hp. split; [done|]. apply Hf; [done|]. by apply (Hheap id).
    - exists p. by rewrite lookup_alter_ne. }
  split; [|done]. split.
  - intros i p. rewrite Hh, Hn. destruct (decide (i = id)) as [->|Hne].
    + rewrite lookup_alter_eq, fmap_Some. intros (q & Hq & ->). destruct (Hheap id q Hq) as [Ht Hlt].
      split; [by apply Hf|done].
    + rewrite lookup_alter_ne by done. apply Hheap.
  - rewrite Hm. intros name i Hi. destruct (Hmap name i Hi) as (p & Hp & <-).
    destruct (Hext i p Hp) as (p' & ? & ? & _). eauto.
Qed.

Lemma put_cache_typed id k s :
  (∀ p, s.(ss_reg).(rs_heap) !! id = Some p → project_typed p →
     k.(c_max_entries) = p.(p_cache).(c_max_entries) ∧ k.(c_default_ttl) = p.(p_cache).(c_default_ttl) ∧
     cache_sane k) →
  state_typed s → state_typed (put_cache id k s) ∧ heap_ext s (put_cache id k s).
Proof.
  intros Hk. apply (alter_typed id (set_cache k)); [done..|]. intros p Hp Ht.
  destruct (Hk p Hp Ht) as (Hm & Htt & Hs). split; [|done].
  destruct Ht as [? ? (m & Hg & Hb) ?]. split; simpl; [done|done| |done].
  exists m. by rewrite Hm, Htt.
Qed.

Lemma typed_bounds p : project_typed p →
  1 ≤ p.(p_cache).(c_max_entries) ≤ 1024 ∧ p.(p_cache).(c_default_ttl) ≤ from_secs 86400.
Proof.
  intros [_ _ (m & (_ & raw & Hv & ->) & Hb) _]. destruct Hserver as [Hwf Hreg].
  pose proof (manifest_bounds server raw _ Hwf Hreg Hv) as Hmb. by rewrite <-Hb in Hmb.
Qed.

(** ** Every step keeps the types *)

Lemma get_step_typed call pc s r s' :
  get_step call pc s = (r, s') → state_typed s → state_typed s' ∧ heap_ext s s'.
Proof.
  destruct call as [id name peer start]. rewrite get_step_eq. cbv zeta. intros Heq Hs.
  assert (Hsame : ∀ s', s'.(ss_reg).(rs_heap) = s.(ss_reg).(rs_heap) →
    s'.(ss_reg).(rs_next) = s.(ss_reg).(rs_next) → s'.(ss_reg).(rs_map) = s.(ss_reg).(rs_map) →
    state_typed s' ∧ heap_ext s s').
  { intros s1 Hh Hn Hm. split; [|by apply heap_ext_same]. apply (state_typed_same s); [done|done|by rewrite Hm|done]. }
  destruct pc as [| | |h| | |f|[[v|]|msg]|v|v ttl]; simpl in *; try (injection Heq as _ <-; by apply Hsame).
  - pose proof (cache_get_bounds (os_now (tick_of s)) name (deref id s).(p_cache)) as [Hm Ht].
    pose proof (cache_sane_get (os_now (tick_of s)) name (deref id s).(p_cache)) as Hsane.
    destruct (Cache.get _ _ _) as [hit k]. injection Heq as _ <-. simpl in *.
    apply (put_cache_typed id k (later 1 s)); [|by apply (Hsame (later 1 s))].
    intros p Hp Htp. rewrite (heap_deref id p) in * by done. split_and!; [done..|]. apply Hsane, Htp.
  - injection Heq as _ <-. apply (put_cache_typed id _ (later 1 s)); [|by apply (Hsame (later 1 s))].
    intros p Hp Htp. rewrite (heap_deref id p) by done. split_and!; [done..|].
    destruct (typed_bounds p Htp). apply cache_sane_insert; [apply Htp|done..].
Qed.

(** A new project under the next number. *)
Lemma register_typed name path m mp s r s' :
  in_registry (register_locked server name path m mp) s = (r, s') → good_manifest path name m →
  state_typed s → state_typed s' ∧ heap_ext s s'.
Proof.
  unfold in_registry, zoom. rewrite register_locked_eq. intros Heq Hg Hs.
  destruct (rs_map (ss_reg s) !! name) as [id|] eqn:Hm.
  { injection Heq as _ <-. split; [|by apply heap_ext_same]. by apply (state_typed_same s). }
  cbv zeta in Heq. destruct (bind_socket _ _ _ _ _) as [[u|e] ns]; injection Heq as _ <-.
  2:{ split; [|by apply heap_ext_same]. by apply (state_typed_same s). }
  destruct Hs as [Hheap Hmap].
  assert (Hfresh : rs_heap (ss_reg s) !! rs_next (ss_reg s) = None).
  { destruct (rs_heap (ss_reg s) !! rs_next (ss_reg s)) as [p|] eqn:Hp; [|done].
    apply Hheap in Hp as [_ ?]. lia. }
  split; [split; simpl|].
  - intros id p [[<- <-]|[Hne Hp]]%lookup_insert_Some; [|split; [by eapply Hheap|apply Hheap in Hp as [_ ?]; lia]].
    split; [|lia]. split; simpl; [done|done|by exists m|apply cache_sane_empty].
  - intros n id [[<- <-]|[Hne Hid]]%lookup_insert_Some.
    + eexists. by rewrite lookup_insert_eq.
    + destruct (Hmap n id Hid) as (p & Hp & <-). exists p. rewrite lookup_insert_ne by congruence. done.
  - intros id p Hp. exists p. simpl. rewrite lookup_insert_ne by congruence. done.
Qed.

Lemma load_for_good name path s m mp s' :
  load_for name path s = (Ok (m, mp), s') → good_manifest path name m.
Proof.
  rewrite load_for_eq. destruct (Manifest.load _ _) as [[m' mp']|e] eqn:Hl; [|done].
  case_decide as Hn; [done|]. intros [= <- <- _]. split; [done|].
  apply load_Ok in Hl as (_ & src & raw & _ & _ & Hv).
  pose proof (validate_cases raw (file_name_str path)) as Hc. rewrite Hv in Hc.
  destruct Hc as [Hvm ->]. eauto.
Qed.

(** A request that is still running holds what fits the new state. *)
Definition next_typed s (r : AdminPc Fnox + json) : Prop :=
  match r with inl pc => pc_typed s pc | inr _ => True end.

Definition step_typed s (x : (AdminPc Fnox + json) * ServerState Fnox) : Prop :=
  state_typed x.2 ∧ heap_ext s x.2 ∧ next_typed x.2 x.1.

(** For steps that leave the projects alone. *)
Lemma same_state r s s' :
  state_typed s → s'.(ss_reg).(rs_heap) = s.(ss_reg).(rs_heap) →
  s'.(ss_reg).(rs_next) = s.(ss_reg).(rs_next) → s'.(ss_reg).(rs_map) ⊆ s.(ss_reg).(rs_map) →
  next_typed s' r → step_typed s (r, s').
Proof.
  intros Hs Hh Hn Hm Hr. split_and!; [by apply (state_typed_same s)|by apply heap_ext_same|done].
Qed.

(** Reading the manifest, for a register and for a reload. *)
Lemma load_step_typed name path (next : Manifest → string → AdminPc Fnox) (fail : RegistryError → json) s :
  state_typed s → (∀ m mp, good_manifest path name m → pc_typed (later 1 s) (next m mp)) →
  step_typed s (match (load_for name path s).1 with Ok (m, mp) => inl (next m mp) | Err e => inr (fail e) end,
                (load_for name path s).2).
Proof.
  intros Hs Hnext. destruct (load_for name path s) as [res s1] eqn:Hl.
  pose proof Hl as Hl'. rewrite load_for_eq in Hl'. injection Hl' as _ <-. apply same_state; try done.
  destruct res as [[m mp]|e]; [|done]. by eapply Hnext, load_for_good.
Qed.

Lemma request_step_typed req s : state_typed s → step_typed s (admin_step server (PcRequest req) s).
Proof.
  intros Hs. destruct req as [name path|name|name| |]; cbn [admin_step].
  - rewrite ST_bind_unfold.
    pose proof (load_step_typed name path (λ m mp, PcBind name path m mp)
      (λ e, admin_error_to_json (admin_error_for e)) s Hs ltac:(done)) as Hl.
    destruct (load_for name path s) as [[[m mp]|e] s1]; exact Hl.
  - unfold in_registry, zoom, unregister, mbind, ST_bind.
    destruct (rs_map (ss_reg s) !! name) as [id|] eqn:Hid; apply same_state; try done; [apply delete_subseteq|].
    exact (st_map s Hs name id Hid).
  - unfold in_registry, zoom, get_project, mbind, ST_bind.
    destruct (rs_map (ss_reg s) !! name) as [id|] eqn:Hid; simpl; [|by apply same_state].
    destruct (st_map s Hs name id Hid) as (p & Hp & Hn). rewrite Hp. simpl.
    apply same_state; try done. simpl. eauto.
  - by apply same_state.
  - apply same_state; try done. by destruct (ss_backend s).
Qed.

(** A reload: the new bounds of the cache, then the new manifest. *)
Lemma bounds_step_typed id m s :
  state_typed s → pc_typed s (PcBounds id m) → step_typed s (admin_step server (PcBounds id m) s).
Proof.
  intros Hs (p & Hp & Hg). cbn -[resolve_cache_bounds].
  destruct (resolve_cache_bounds m _) as [max ttl] eqn:Hb. rewrite ST_bind_unfold, on_cache_eq.
  rewrite (heap_deref id p) by done. unfold step_typed. cbn [fst snd].
  match goal with |- state_typed ?s' ∧ _ =>
    destruct (alter_typed id (set_cache (set_config max ttl (p_cache p)).2) s s') as [Ht He]; [done..| |exact Hs|]
  end.
  { intros q Hq [Hsk Hgm _ Hc]. assert (q = p) as -> by congruence. split; [|done].
    split; [done|done| |exact Hc]. exists m. by rewrite Hb. }
  split_and!; [exact Ht|exact He|]. destruct (He id p Hp) as (p' & Hp' & Hn' & Hpath').
  exists p'. split; [done|]. by rewrite Hn', Hpath'.
Qed.

Lemma store_step_typed id m s :
  state_typed s → pc_typed s (PcStore id m) → step_typed s (admin_step server (PcStore id m) s).
Proof.
  intros Hs (p & Hp & Hg). cbn [admin_step]. unfold step_typed. cbn [fst snd].
  match goal with |- state_typed ?s' ∧ _ =>
    destruct (alter_typed id (set_manifest m) s s') as [Ht He]; [done..| |exact Hs|]
  end.
  { intros q Hq [Hsk Hgm Hbd Hc]. assert (q = p) as -> by congruence. by split. }
  split_and!; [exact Ht|exact He|done].
Qed.

Lemma admin_step_typed pc s r s' :
  admin_step server pc s = (r, s') → state_typed s → pc_typed s pc →
  state_typed s' ∧ heap_ext s s' ∧ next_typed s' r.
Proof.
  intros Heq Hs Hpc. change (step_typed s (r, s')). rewrite <-Heq. clear Heq.
  destruct pc as [req|name path m mp|[|id ids] sts|id n ids sts|name id|name id|name id|name id l|id|name id|id m|id m
    |session|session|session new].
  - by apply request_step_typed.
  - cbn [admin_step]. rewrite ST_bind_unfold.
    destruct (in_registry (register_locked server name path m mp) s) as [res s1] eqn:Hl.
    destruct (register_typed _ _ _ _ _ _ _ Hl Hpc Hs). by destruct res.
  - by apply same_state.
  - by apply same_state.
  - by apply same_state.
  - by apply same_state.
  - by apply same_state.
  - by apply same_state.
  - by apply same_state; destruct l.
  - cbn [admin_step]. rewrite ST_bind_unfold, ST_bind_unfold, remove_socket_eq. cbn [gets fst snd].
    destruct (remove_file _ _ _). by apply same_state.
  - cbn [admin_step]. rewrite ST_bind_unfold, ST_bind_unfold. cbn [gets fst snd].
    destruct Hpc as (p & Hp & Hn). rewrite (heap_deref id p) by done.
    pose proof (load_step_typed name (p_project_path p) (λ m _, PcBounds id m)
      (λ e, admin_error_to_json (admin_error_for e)) s Hs) as Hl.
    destruct (load_for name (p_project_path p) s) as [[[m mp]|e] s1]; apply Hl;
      intros m' mp' Hg; exists p; by rewrite Hn.
  - by apply bounds_step_typed.
  - by apply store_step_typed.
  - cbn [admin_step]. unfold in_counter, in_registry, zoom, mbind, ST_bind.
    destruct (fetch_token _ _) as [[tok|e] n]; by apply same_state.
  - cbn [admin_step]. rewrite ST_bind_unfold. apply same_state; try done. by repeat case_match.
  - by apply same_state.
Qed.

Definition conc_typed c : Prop :=
  state_typed c.(k_state) ∧ map_Forall (λ _ pc, pc_typed c.(k_state) pc) c.(k_admin).

Lemma kstep_typed c c' : conc_typed c → kstep server c c' → conc_typed c'.
Proof.
  intros [Hs Ha] Hstep.
  assert (Hext : ∀ s', heap_ext (k_state c) s' → map_Forall (λ _ pc, pc_typed s' pc) (k_admin c)).
  { intros s' He t pc Hpc. eapply pc_typed_ext; [done|by eapply Ha]. }
  destruct Hstep as [c t id name peer Ht|c t g pc' s' Ht Hrun|c t g j s' Ht Hrun|c t|c t req Ht
    |c t pc pc' s' Ht Hrun|c t pc j s' Ht Hrun|c id Hid|c e q Hq]; simpl in *.
  - split; [by apply (state_typed_same (k_state c))|]. simpl. apply Hext. by apply heap_ext_same.
  - destruct (get_step_typed _ _ _ _ _ Hrun Hs) as [Hs' He]. split; [done|]. by apply Hext.
  - destruct (get_step_typed _ _ _ _ _ Hrun Hs) as [Hs' He]. split; [done|]. by apply Hext.
  - by split.
  - split; [done|]. simpl. by apply map_Forall_insert_2.
  - destruct (admin_step_typed _ _ _ _ Hrun Hs (Ha t pc Ht)) as (Hs' & He & Hn). split; [done|]. simpl.
    apply map_Forall_insert_2; [done|]. by apply Hext.
  - destruct (admin_step_typed _ _ _ _ Hrun Hs (Ha t pc Ht)) as (Hs' & He & Hn). split; [done|]. simpl.
    apply map_Forall_delete. by apply Hext.
  - split; [by apply (state_typed_same (k_state c))|]. simpl. apply Hext. by apply heap_ext_same.
  - split; [by apply (state_typed_same (k_state c))|]. simpl. apply Hext. by apply heap_ext_same.
Qed.

Lemma conc_reachable_typed b c : conc_reachable server b c → conc_typed c.
Proof.
  intros Hr. assert (∀ c1 c2, rtc (kstep server) c1 c2 → conc_typed c1 → conc_typed c2) as Hrtc.
  { intros c1 c2. induction 1; eauto using kstep_typed. }
  eapply Hrtc; [exact Hr|]. split; [by split|apply map_Forall_empty].
Qed.

(** C9: under every interleaving of requests the registry is well-formed: each
    registered name leads to a project of that name, no two names share a
    project, and every project, registered or not, has an admissible name, the
    socket path of that name, a manifest validated for its directory and name
    with no duplicate secret, and a cache of at most 1024 entries, none kept
    for more than 86400 seconds. *)
Theorem concurrent_well_formed b c :
  conc_reachable server b c →
  let r := c.(k_state).(ss_reg) in
  (∀ name id, r.(rs_map) !! name = Some id →
     ∃ p, r.(rs_heap) !! id = Some p ∧ p.(p_name) = name) ∧
  (∀ n1 n2 id, r.(rs_map) !! n1 = Some id → r.(rs_map) !! n2 = Some id → n1 = n2) ∧
  (∀ id p, r.(rs_heap) !! id = Some p →
     is_valid_project_name p.(p_name) = true ∧ p.(p_socket_path) = socket_path_for reg p.(p_name) ∧
     good_manifest p.(p_project_path) p.(p_name) p.(p_manifest) ∧
     NoDup p.(p_manifest).(allowlist).(secrets) ∧
     (size p.(p_cache).(c_map) ≤ 1024)%nat ∧
     map_Forall (λ _ e, e.(ce_ttl) ≤ from_secs 86400) p.(p_cache).(c_map)).
Proof.
  intros Hr. destruct (conc_reachable_typed b c Hr) as [[Hheap Hmap] _]. split_and!; [done| |].
  - intros n1 n2 id H1' H2'. destruct (Hmap n1 id H1') as (p1 & Hp1 & <-).
    destruct (Hmap n2 id H2') as (p2 & Hp2 & <-). congruence.
  - intros id p Hp. destruct (Hheap id p Hp) as [[Hsk Hg _ [Hsz Httl]] _].
    pose proof Hg as (Hn & raw & Hv & Hm). split_and!; try done.
    + apply project_name_iff. rewrite <-Hn, Hm. apply (vm_name _ _ Hv).
    + rewrite Hm. apply (vm_secrets _ _ Hv).
Qed.

End typing.

(** ** Witness *)

Lemma demo_server_ok : server_ok demo_server.
Proof. split; [|reflexivity]. split; vm_compute; intuition discriminate. Qed.

Lemma concurrent_well_formed_witness :
  ∃ p, (demo_end busy).(k_state).(ss_reg).(rs_heap) !! O = Some p ∧
    is_valid_project_name p.(p_name) = true ∧ (size p.(p_cache).(c_map) ≤ 1024)%nat.
Proof.
  destruct (@concurrent_well_formed string demo_os (demo_imds "{}") demo_toml demo_unicode demo_order demo_fnox
    demo_server demo_server_ok (Some (mkBackendSession "session")) (demo_end busy) (demo_end_reachable busy))
    as (_ & _ & Hp).
  destruct (rs_heap (ss_reg (k_state (demo_end busy))) !! O) as [p|] eqn:Hh; [|vm_compute in Hh; discriminate].
  exists p. split; [reflexivity|]. destruct (Hp O p Hh) as (Hn & _ & _ & _ & Hs & _). by split.
Defined.
