(* ===== verification/Races.v ===== *)
(** * Requests that overlap badly ([src/server.rs])

    [dispatch_unregister] gives the name back before it takes the accept-loop
    handle and removes the socket file, and finds both by name.  This file shows
    what that does to a project registered in between, whatever else is going on
    in the daemon. *)

From S2P Require Import Prelude Str Path Json Os Manifest Cache Config AuditLog Backend Proto Registry Bootstrap Server Fetch Admin Daemon Main Concurrent Typing.
Open Scope Z_scope.

Section races.
Context {Fnox : Type} `{Os, Outside, TomlManifest, UnicodeTables, HashOrder, FnoxCore Fnox}.
Context (server : Server) (Hserver : server_ok server).
Local Abbreviation State := (ServerState Fnox).
Local Abbreviation reg := (sv_registry server).
Implicit Types (s : State) (c : Conc Fnox).

(** One step of the request of task [t], and the rest of the schedule. *)
Lemma admin_label t pc s gs admin answered received ls :
  schedule server (LAdminStep t :: ls) (mkConc s gs (<[t := pc]> admin) answered received) =
  schedule server ls (match admin_step server pc s with
    | (inl pc', s') => mkConc s' gs (<[t := pc']> admin) answered received
    | (inr _, s') => mkConc s' gs (delete t admin) answered received
    end).
Proof.
  cbn [schedule do_label k_admin k_state k_gets k_done k_received]. rewrite lookup_insert_eq. cbn [mbind option_bind].
  destruct (admin_step server pc s) as [[pc'|j] s']; [by rewrite insert_insert_eq|by rewrite delete_insert_eq].
Qed.

Lemma admin_gone t s gs admin answered received ls :
  schedule server (LAdminStep t :: ls) (mkConc s gs (delete t admin) answered received) = None.
Proof. cbn [schedule do_label k_admin]. by rewrite lookup_delete_eq. Qed.

(** A registration that takes all its steps has succeeded: the name was free,
    and its project, its socket file, its loop and its handle are there. *)
Lemma register_schedule c u name path c1 :
  c.(k_admin) !! u = None →
  schedule server (LAdmin u (Register name path) :: replicate 4 (LAdminStep u)) c = Some c1 →
  ∃ id', c1.(k_admin) = c.(k_admin) ∧
    c1.(k_state).(ss_reg).(rs_map) !! name = Some id' ∧ id' = c.(k_state).(ss_reg).(rs_next) ∧
    c1.(k_state).(ss_tasks) !! name = Some id' ∧ id' ∈ c1.(k_state).(ss_loops) ∧
    nodes_of c1.(k_state) !! socket_path_for reg name = Some (Socket PROJECT_SOCKET_MODE (ProjectListener id')) ∧
    ∃ p, c1.(k_state).(ss_reg).(rs_heap) = <[id' := p]> c.(k_state).(ss_reg).(rs_heap).
Proof.
  destruct c as [s gs admin answered received]. cbn [k_admin k_state]. intros Hu.
  cbn [replicate]. change (schedule server (LAdmin u (Register name path) :: ?ls) ?c) with
    (do_label server (LAdmin u (Register name path)) c ≫= schedule server ls).
  cbn [do_label k_admin k_state k_gets k_done k_received]. rewrite Hu. cbn [mbind option_bind].
  rewrite admin_label. cbn [admin_step]. rewrite ST_bind_unfold, load_for_eq. unfold admin_failed. cbn [fst snd mret ST_ret].
  destruct (Manifest.load _ _) as [[m mp]|e]; [|by rewrite admin_gone].
  case_decide; [by rewrite admin_gone|]. cbv beta iota.
  rewrite admin_label. cbn [admin_step]. unfold in_registry, zoom, admin_failed. rewrite ST_bind_unfold, register_locked_eq.
  change (rs_map (ss_reg (later 1 s))) with (rs_map (ss_reg s)).
  destruct (rs_map (ss_reg s) !! name) eqn:Hname; cbn [fst snd mret ST_ret]; [by rewrite admin_gone|]. cbv zeta.
  change (rs_next (ss_reg (later 1 s))) with (rs_next (ss_reg s)).
  match goal with |- context [bind_socket ?n ?path ?mode ?l ?ns] =>
    pose proof (bind_socket_ok n path mode l ns) as Hb; destruct (bind_socket n path mode l ns) as [[v|e] ns'] end;
    cbn [fst snd mret ST_ret]; [|by rewrite admin_gone].
  rewrite admin_label. cbn [admin_step]. rewrite ST_bind_unfold. cbn [modify fst snd mret ST_ret].
  rewrite admin_label. cbn [admin_step]. rewrite ST_bind_unfold, ST_bind_unfold.
  cbn [gets modify fst snd mret ST_ret schedule]. intros [= <-]. exists s.(ss_reg).(rs_next). simpl.
  rewrite (delete_id admin) by done. unfold nodes_of. simpl in *. rewrite (Hb v eq_refl), !lookup_insert_eq.
  split_and!; try done; [set_solver|by eexists].
Qed.

(** The last three steps of an unregistration, from the taking of the handle:
    they go for the project [id'] that has the name now. *)
Lemma unregister_schedule c t name id id' p :
  (∀ i, os_fault i = None) →
  c.(k_admin) !! t = Some (PcTakeHandle name id) →
  c.(k_state).(ss_tasks) !! name = Some id' →
  c.(k_state).(ss_reg).(rs_heap) !! id = Some p →
  (∀ d, nodes_of c.(k_state) !! p.(p_socket_path) ≠ Some (Dir d)) →
  ∃ c2, schedule server (replicate 3 (LAdminStep t)) c = Some c2 ∧
    c2.(k_admin) = delete t c.(k_admin) ∧
    c2.(k_state).(ss_reg).(rs_map) = c.(k_state).(ss_reg).(rs_map) ∧
    c2.(k_state).(ss_tasks) = delete name c.(k_state).(ss_tasks) ∧
    c2.(k_state).(ss_loops) = c.(k_state).(ss_loops) ∖ {[id']} ∧
    nodes_of c2.(k_state) = delete p.(p_socket_path) (nodes_of c.(k_state)).
Proof.
  destruct c as [s gs admin answered received]. cbn [k_admin k_state]. intros Hf Ht Hl Hp Hd.
  rewrite <-(insert_id admin t _ Ht), delete_insert_eq. cbn [replicate].
  rewrite admin_label. cbn [admin_step]. rewrite ST_bind_unfold, ST_bind_unfold.
  cbn [gets modify fst snd mret ST_ret]. rewrite Hl.
  rewrite admin_label. cbn [admin_step]. rewrite ST_bind_unfold. cbn [modify fst snd mret ST_ret].
  rewrite admin_label. cbn [admin_step]. rewrite ST_bind_unfold, ST_bind_unfold, remove_socket_eq.
  cbn [gets fst snd mret ST_ret]. unfold deref. simpl. rewrite Hp. simpl.
  unfold nodes_of in *. unfold remove_file. rewrite Hf.
  destruct (rs_nodes (ss_reg s) !! p_socket_path p) as [[d| |]|] eqn:Hn; [by destruct (Hd d)|..];
    (eexists; split; [reflexivity|]); simpl; split_and!; try done.
  by rewrite delete_id.
Qed.

(** C38: a registration that runs between the first and the second step of an
    unregistration of the same name is undone by the rest of it.  In any
    reachable state, whatever else is in flight, in which an unregistration has
    given the name back and is about to take the accept-loop handle, let a
    registration of the name run to its success (its project, handle, loop and
    socket file are there); then, no file operation failing, the unregistration
    goes on to take that handle, end that loop and remove that socket file: the
    name stays registered, with no handle, no accept loop and no socket. *)
Theorem unregister_register_race b c t u name id path c1 :
  conc_reachable server b c → (∀ i, os_fault i = None) →
  c.(k_admin) !! t = Some (PcTakeHandle name id) → c.(k_admin) !! u = None →
  schedule server (LAdmin u (Register name path) :: replicate 4 (LAdminStep u)) c = Some c1 →
  ∃ id' c2,
    c1.(k_state).(ss_reg).(rs_map) !! name = Some id' ∧ c1.(k_state).(ss_tasks) !! name = Some id' ∧
    id' ∈ c1.(k_state).(ss_loops) ∧
    nodes_of c1.(k_state) !! socket_path_for reg name = Some (Socket PROJECT_SOCKET_MODE (ProjectListener id')) ∧
    schedule server (replicate 3 (LAdminStep t)) c1 = Some c2 ∧
    c2.(k_admin) = delete t c.(k_admin) ∧
    c2.(k_state).(ss_reg).(rs_map) !! name = Some id' ∧ c2.(k_state).(ss_tasks) !! name = None ∧
    id' ∉ c2.(k_state).(ss_loops) ∧ nodes_of c2.(k_state) !! socket_path_for reg name = None.
Proof.
  intros Hreach Hf Ht Hu Hsched. destruct (conc_reachable_typed server Hserver b c Hreach) as [Hs Hpcs].
  destruct (Hpcs t _ Ht) as (p & Hp & Hn). destruct (st_heap _ _ Hs id p Hp) as [[Hsock _ _ _] Hlt].
  destruct (register_schedule c u name path c1 Hu Hsched)
    as (id' & Hadm & Hmap & Hid' & Htask & Hloop & Hnode & p' & Hheap).
  rewrite Hn in Hsock. destruct (unregister_schedule c1 t name id id' p)
    as (c2 & Hc2 & Hadm2 & Hmap2 & Htask2 & Hloop2 & Hnode2); try done.
  - by rewrite Hadm.
  - rewrite Hheap, lookup_insert_ne; [done|lia].
  - intros d. by rewrite Hsock, Hnode.
  - exists id', c2. rewrite Hadm2, Hmap2, Htask2, Hloop2, Hnode2, Hadm, Hsock, !lookup_delete_eq.
    split_and!; try done. set_solver.
Qed.

End races.

(** ** Witness *)

(** The first project is registered and the unregistration has given its name
    back. *)
Definition released : list label :=
  demo_register 0 ++ [LAdmin 1 (Unregister "myrepo"); LAdminStep 1].

Lemma unregister_register_race_witness :
  ∃ id' c2,
    @schedule string demo_os (demo_imds "{}") demo_toml demo_unicode demo_order demo_fnox demo_server
      (replicate 3 (LAdminStep 1)) (demo_end (released ++ demo_register 2)) = Some c2 ∧
    c2.(k_state).(ss_reg).(rs_map) !! "myrepo" = Some id' ∧
    nodes_of c2.(k_state) !! socket_path_for demo_server.(sv_registry) "myrepo" = None.
Proof.
  destruct (@unregister_register_race string demo_os (demo_imds "{}") demo_toml demo_unicode demo_order demo_fnox
    demo_server demo_server_ok (Some (mkBackendSession "session")) (demo_end released) 1 2 "myrepo" 0
    "/projects/myrepo" (demo_end (released ++ demo_register 2)))
    as (id' & c2 & _ & _ & _ & _ & Hc2 & _ & Hmap & _ & _ & Hnode).
  - apply demo_end_reachable.
  - reflexivity.
  - vm_compute. reflexivity.
  - vm_compute. reflexivity.
  - vm_compute. reflexivity.
  - exists id', c2. split; [exact Hc2|]. split; [exact Hmap|exact Hnode].
Defined.
