(* ===== verification/Loops.v ===== *)
(** * Accept loops, stop signals and drains ([src/server.rs])

    Each socket has an accept loop: the admin socket's is the loop of
    [Server::run], a project's is [run_project_socket].  A loop waits in one
    [select!] for its stop signal or a connection; it spawns a task per
    connection into a [JoinSet]; it sleeps for 50 ms after a failed accept.
    Once stopped, a loop is drained by [drain_join_set].

    tokio is not part of the sources.  Its [Notify] is the class [TokioNotify]
    below, with the documented behaviour the loops rely on as laws; its
    [JoinSet] is the set of the tasks in it, running or finished, since what
    the loops use of it is documented in these terms (a finished task stays
    in the set until [join_next] returns it; dropping or aborting the set ends
    the tasks in it).  A step of a loop is one pass through its [select!]. *)

From S2P Require Import Prelude Server.
Open Scope Z_scope.

(** ** [tokio::sync::Notify], as far as [notify_waiters] goes *)

Class TokioNotify := {
  Notify : Type;
  (** The future [notified()] returns. *)
  Notified : Type;
  notify_new : Notify;
  notified : Notify → Notified;
  notify_waiters : Notify → Notify;
  (** The future is complete. *)
  is_notified : Notify → Notified → bool;
  (** [notify_waiters] stores no permit: a new future is not complete. *)
  notified_new n : is_notified n (notified n) = false;
  (** A future created before the call is completed by it, polled or not. *)
  notified_captured n : is_notified (notify_waiters n) (notified n) = true;
  (** A complete future stays complete. *)
  notified_kept n f : is_notified n f = true → is_notified (notify_waiters n) f = true;
}.

(** An implementation: the number of calls so far. *)
Definition counting_notify : TokioNotify.
Proof.
  refine {| Notify := nat; Notified := nat; notify_new := O; notified n := n;
            notify_waiters n := S n; is_notified n f := bool_decide (f < n)%nat |}.
  - intros n. apply bool_decide_eq_false. lia.
  - intros n. apply bool_decide_eq_true. lia.
  - intros n f. rewrite !bool_decide_eq_true. lia.
Defined.

(** ** [tokio::task::JoinSet] *)

Record JoinSet : Type := mkJoinSet { js_running : gset nat; js_finished : gset nat }.

Definition js_new : JoinSet := mkJoinSet ∅ ∅.
Definition js_spawn (t : nat) (js : JoinSet) : JoinSet :=
  mkJoinSet ({[t]} ∪ js.(js_running)) js.(js_finished).
(** A task of the set comes to its end. *)
Definition js_finish (t : nat) (js : JoinSet) : JoinSet :=
  mkJoinSet (js.(js_running) ∖ {[t]}) ((js.(js_running) ∩ {[t]}) ∪ js.(js_finished)).
Definition js_len (js : JoinSet) : nat := size js.(js_running) + size js.(js_finished).
Definition abort_all (js : JoinSet) : JoinSet := mkJoinSet ∅ (js.(js_running) ∪ js.(js_finished)).

Inductive poll (A : Type) : Type := Pending | Ready (a : A).
Arguments Pending {A}.
Arguments Ready {A} a.

(** [join_next]: a finished task, or [None] once the set is empty. *)
Definition join_next (js : JoinSet) : poll (option nat) * JoinSet :=
  match elements js.(js_finished) with
  | t :: _ => (Ready (Some t), mkJoinSet js.(js_running) (js.(js_finished) ∖ {[t]}))
  | [] => (if decide (js.(js_running) = ∅) then Ready None else Pending, js)
  end.

(** [while set.join_next().await.is_some() {}], once nothing runs. *)
Fixpoint reap (fuel : nat) (js : JoinSet) : JoinSet :=
  match fuel with
  | O => js
  | S fuel =>
      match join_next js with
      | (Ready (Some _), js') => reap fuel js'
      | (_, js') => js'
      end
  end.

(** One pass through the [select!] of [drain_join_set]: which branch is looked
    at first is random.  [true]: the loop is over. *)
Definition drain_join_set_step (join_first : bool) (now deadline : Instant) (js : JoinSet)
    : bool * JoinSet :=
  let expired := if deadline <=? now
                 then let aborted := abort_all js in Some (true, reap (js_len aborted) aborted)
                 else None in
  let joined := match join_next js with
                | (Ready None, js') => Some (true, js')
                | (Ready (Some _), js') => Some (false, js')
                | (Pending, _) => None
                end in
  let '(first, second) := if join_first then (joined, expired) else (expired, joined) in
  match first, second with
  | Some r, _ | None, Some r => r
  | None, None => (false, js)
  end.

(** ** The accept loops *)

(** What [listener.accept()] has to offer. *)
Inductive accepted : Type :=
  | AcceptPending
  | AcceptOk (conn : nat)
  | AcceptErr.

Definition BACKOFF : Duration := from_millis 50.

Section loops.
Context {TN : TokioNotify}.

(** Where a loop stands: before [notified()] of an iteration, in its
    [select!], in the sleep after a failed accept, or past the [break]. *)
Inductive AcceptPc : Type :=
  | AtTop
  | InSelect (stop : Notified)
  | InBackoff (until : Instant)
  | Broken.

(** One pass: the stop signal is looked at first ([biased]). *)
Definition accept_loop_step (stop : Notify) (now : Instant) (a : accepted)
    (pc : AcceptPc) (connections : JoinSet) : AcceptPc * JoinSet :=
  match pc with
  | AtTop => (InSelect (notified stop), connections)
  | InSelect fut =>
      if is_notified stop fut then (Broken, connections)
      else match a with
           | AcceptOk conn => (AtTop, js_spawn conn connections)
           | AcceptErr => (InBackoff (now + BACKOFF), connections)
           | AcceptPending => (pc, connections)
           end
  | InBackoff until => (if until <=? now then AtTop else pc, connections)
  | Broken => (pc, connections)
  end.

(** [run_project_socket]. *)
Inductive LoopTask : Type :=
  | Accepting (pc : AcceptPc) (connections : JoinSet)
  | Draining (deadline : Instant) (connections : JoinSet)
  | Exited.

Definition loop_new : LoopTask := Accepting AtTop js_new.

Definition run_project_socket_step (stop : Notify) (now : Instant) (a : accepted)
    (join_first : bool) (l : LoopTask) : LoopTask :=
  match l with
  | Accepting Broken connections => Draining (now + SHUTDOWN_DRAIN) connections
  | Accepting pc connections =>
      let '(pc', connections') := accept_loop_step stop now a pc connections in
      Accepting pc' connections'
  | Draining deadline connections =>
      match drain_join_set_step join_first now deadline connections with
      | (true, _) => Exited
      | (false, connections') => Draining deadline connections'
      end
  | Exited => Exited
  end.

(** The connections a loop has open. *)
Definition loop_conns (l : LoopTask) : gset nat :=
  match l with
  | Accepting _ js | Draining _ js => js.(js_running)
  | Exited => ∅
  end.

Definition loop_finish (conn : nat) (l : LoopTask) : LoopTask :=
  match l with
  | Accepting pc js => Accepting pc (js_finish conn js)
  | Draining d js => Draining d (js_finish conn js)
  | Exited => Exited
  end.

(** ** A loop in its surroundings *)

Inductive event : Type :=
  | Poll (now : Instant) (a : accepted) (join_first : bool)
  | Stop
  | ConnEnds (conn : nat).

Definition handle (e : event) (sl : Notify * LoopTask) : Notify * LoopTask :=
  let '(stop, l) := sl in
  match e with
  | Poll now a join_first => (stop, run_project_socket_step stop now a join_first l)
  | Stop => (notify_waiters stop, l)
  | ConnEnds conn => (stop, loop_finish conn l)
  end.

Fixpoint handle_all (es : list event) (sl : Notify * LoopTask) : Notify * LoopTask :=
  match es with
  | [] => sl
  | e :: es => handle_all es (handle e sl)
  end.

(** The connections accepted on the way. *)
Definition takes (e : event) (sl : Notify * LoopTask) : list nat :=
  match e, sl with
  | Poll _ (AcceptOk conn) _, (stop, Accepting (InSelect fut) _) =>
      if is_notified stop fut then [] else [conn]
  | _, _ => []
  end.

Fixpoint taken (es : list event) (sl : Notify * LoopTask) : list nat :=
  match es with
  | [] => []
  | e :: es => takes e sl ++ taken es (handle e sl)
  end.

(** Passes through a [select!] at or after [deadline]. *)
Definition is_late (deadline : Instant) (e : event) : bool :=
  match e with Poll now _ _ => deadline <=? now | _ => false end.
Definition late_polls (deadline : Instant) (es : list event) : nat :=
  length (filter (λ e, is_late deadline e = true) es).

(** ** Draining ends *)

Lemma join_next_cases js :
  match join_next js with
  | (Ready None, js') => js' = js ∧ js = js_new
  | (Ready (Some t), js') => js'.(js_running) = js.(js_running) ∧ (js_len js' < js_len js)%nat
  | (Pending, js') => js' = js
  end.
Proof.
  unfold join_next. destruct (elements (js_finished js)) as [|t ts] eqn:Hel.
  - apply elements_empty_inv in Hel. case_decide as Hr; [|done]. split; [done|].
    destruct js as [r f]. simpl in *. unfold js_new. f_equal; [done|]. by apply leibniz_equiv in Hel.
  - split; [done|]. unfold js_len. simpl. assert (Ht : t ∈ js_finished js).
    { apply elem_of_elements. rewrite Hel. left. }
    rewrite size_difference by set_solver. rewrite size_singleton.
    enough (size (js_finished js) ≠ 0)%nat by lia. rewrite size_non_empty_iff. set_solver.
Qed.

Lemma reap_empty fuel js : js.(js_running) = ∅ → (js_len js ≤ fuel)%nat → reap fuel js = js_new.
Proof.
  revert js. induction fuel as [|fuel IH]; intros js Hr Hlen; simpl.
  - destruct js as [r f]. unfold js_len in Hlen. simpl in *. subst r. rewrite size_empty in Hlen.
    assert (size f = 0)%nat as Hf%size_empty_inv%leibniz_equiv by lia. by rewrite Hf.
  - pose proof (join_next_cases js) as Hj. destruct (join_next js) as [[|[t|]] js'] eqn:He.
    + exfalso. unfold join_next in He. destruct (elements _); [|done].
      by rewrite decide_True in He by done.
    + destruct Hj as [Hr' Hl]. apply IH; [congruence|lia].
    + by destruct Hj as [-> ->].
Qed.

(** The loop is over only with an empty set; before that a pass never adds a
    task, and at or after the deadline a pass ends the loop or joins a task. *)
Lemma drain_join_set_step_spec join_first now deadline js :
  let '(over, js') := drain_join_set_step join_first now deadline js in
  (over = true → js' = js_new) ∧ js'.(js_running) ⊆ js.(js_running) ∧
  (js_len js' ≤ js_len js)%nat ∧
  (over = false → deadline ≤ now → (js_len js' < js_len js)%nat).
Proof.
  unfold drain_join_set_step. set (reaped := reap _ _).
  assert (reaped = js_new) as -> by (apply reap_empty; done).
  assert (js_len js_new = 0%nat) as H0 by done.
  assert (js_running js_new ⊆ js_running js) by (simpl; set_solver).
  pose proof (join_next_cases js) as Hj. destruct (deadline <=? now) eqn:Hd.
  - destruct (join_next js) as [[|[t|]] js'], join_first; split_and!; try done; try lia;
      try (by destruct Hj as [-> ->]); destruct Hj as [-> ?]; done || lia.
  - apply Z.leb_gt in Hd. destruct (join_next js) as [[|[t|]] js'], join_first; split_and!; try done; try lia;
      try (by destruct Hj as [-> ->]); destruct Hj as [-> ?]; done || lia.
Qed.

Lemma js_finish_len conn js : (js_len (js_finish conn js) ≤ js_len js)%nat.
Proof.
  unfold js_finish, js_len. simpl. destruct (decide (conn ∈ js_running js)).
  - rewrite size_difference by set_solver. rewrite size_singleton.
    pose proof (size_union_alt (js_running js ∩ {[conn]}) (js_finished js)) as Hu. rewrite Hu.
    assert (js_running js ∩ {[conn]} = {[conn]}) as -> by set_solver. rewrite size_singleton.
    pose proof (subseteq_size (js_finished js ∖ {[conn]}) (js_finished js) ltac:(set_solver)).
    enough (size (js_running js) ≠ 0)%nat by lia. rewrite size_non_empty_iff. set_solver.
  - assert (js_running js ∖ {[conn]} = js_running js) as -> by set_solver.
    assert (js_running js ∩ {[conn]} = ∅) as -> by set_solver.
    by rewrite (left_id_L ∅ (∪)).
Qed.

Lemma handle_all_app es es' sl : handle_all (es ++ es') sl = handle_all es' (handle_all es sl).
Proof. revert sl. induction es; intros; simpl; auto. Qed.

Lemma handle_exited es stop : (handle_all es (stop, Exited)).2 = Exited.
Proof. revert stop. induction es as [|[] es IH]; intros stop; simpl; auto. Qed.

(** Once more passes come after the deadline than the set has tasks, a
    draining loop has exited, whatever order the branches are looked at in and
    whether or not a connection ever ends by itself. *)
Lemma draining_exits stop deadline js es :
  (js_len js < late_polls deadline es)%nat →
  (handle_all es (stop, Draining deadline js)).2 = Exited.
Proof.
  revert stop js. induction es as [|e es IH]; intros stop js Hlen; [unfold late_polls in Hlen; simpl in *; lia|].
  unfold late_polls in Hlen. rewrite filter_cons in Hlen. destruct e as [now a jf| |conn]; simpl in *.
  - pose proof (drain_join_set_step_spec jf now deadline js) as Hs.
    destruct (drain_join_set_step jf now deadline js) as [[] js']; [apply handle_exited|].
    destruct Hs as (_ & _ & Hle & Hlt). apply IH. unfold late_polls. case_decide as Hd; simpl in *; [|lia].
    apply Z.leb_le in Hd. specialize (Hlt eq_refl Hd). lia.
  - by apply IH.
  - apply IH. pose proof (js_finish_len conn js). unfold late_polls. lia.
Qed.

(** ** The stop signal *)

(** The loop is accepting and no completed stop signal is in its hands. *)
Definition deaf (stop : Notify) (l : LoopTask) : Prop :=
  ∃ pc js, l = Accepting pc js ∧ pc ≠ Broken ∧ ∀ fut, pc = InSelect fut → is_notified stop fut = false.

Lemma accept_loop_deaf stop now a pc js :
  pc ≠ Broken → (∀ fut, pc = InSelect fut → is_notified stop fut = false) →
  (accept_loop_step stop now a pc js).1 ≠ Broken ∧
  ∀ fut, (accept_loop_step stop now a pc js).1 = InSelect fut → is_notified stop fut = false.
Proof.
  intros Hpc Hf. destruct pc as [|fut|until|]; simpl; [|rewrite (Hf fut) by done; destruct a| |done].
  - split; [done|]. intros fut [= <-]. apply notified_new.
  - split; [done|]. auto.
  - by split.
  - by split.
  - by destruct (until <=? now).
Qed.

Lemma loop_step_deaf stop now a jf l :
  deaf stop l → deaf stop (run_project_socket_step stop now a jf l).
Proof.
  intros (pc & js & -> & Hpc & Hf). pose proof (accept_loop_deaf stop now a pc js Hpc Hf) as [Hpc' Hf'].
  unfold run_project_socket_step. destruct pc; try done;
    (destruct (accept_loop_step _ _ _ _ _) as [pc' js']; by exists pc', js').
Qed.

Lemma loop_finish_deaf stop conn l : deaf stop l → deaf stop (loop_finish conn l).
Proof. intros (pc & js & -> & Hpc & Hf). by exists pc, (js_finish conn js). Qed.

(** A deaf loop goes on for as long as it is not told again to stop. *)
Lemma deaf_forever es stop l :
  Forall (λ e, e ≠ Stop) es → deaf stop l →
  deaf (handle_all es (stop, l)).1 (handle_all es (stop, l)).2.
Proof.
  intros Hes. revert l. induction Hes as [|e es He Hes IH]; intros l Hl; [done|].
  destruct e; [|done|]; simpl; apply IH; [by apply loop_step_deaf|by apply loop_finish_deaf].
Qed.

(** The signal is noticed by a loop that waits in its [select!]. *)
Lemma stop_captured stop js now a jf now' a' jf' :
  handle_all [Stop; Poll now a jf; Poll now' a' jf'] (stop, Accepting (InSelect (notified stop)) js) =
  (notify_waiters stop, Draining (now' + SHUTDOWN_DRAIN) js).
Proof. simpl. by rewrite notified_captured. Qed.

Definition past_accepting (l : LoopTask) : bool :=
  match l with Accepting _ _ => false | _ => true end.

Lemma past_accepting_takes es stop l : past_accepting l = true → taken es (stop, l) = [].
Proof.
  revert stop l. induction es as [|e es IH]; intros stop l Hl; [done|].
  assert (takes e (stop, l) = []) as Ht by (destruct l; [done|destruct e as [? [] ?| |]; done..]).
  simpl. rewrite Ht. simpl. destruct e as [now a jf| |conn]; apply IH; [|done|by destruct l].
  destruct l; [done|simpl|done]. by destruct (drain_join_set_step _ _ _ _) as [[] ?].
Qed.

(** C28: a project loop that is told to stop while it waits for a connection or
    the signal accepts no further connection and exits: the second pass sets a
    deadline 5 s ahead, and however few of its connections end by themselves,
    the loop is gone once it has been through its [select!] after the deadline
    one time more than it has connections. *)
Theorem stop_ends_loop stop js now a jf now' a' jf' es :
  (js_len js < late_polls (now' + SHUTDOWN_DRAIN)%Z es)%nat →
  let es' := Stop :: Poll now a jf :: Poll now' a' jf' :: es in
  let sl := (stop, Accepting (InSelect (notified stop)) js) in
  (handle_all es' sl).2 = Exited ∧ taken es' sl = [].
Proof.
  intros Hlate. cbv zeta. pose proof (stop_captured stop js now a jf now' a' jf') as Hc. split.
  - change (_ :: _ :: _ :: es) with ([Stop; Poll now a jf; Poll now' a' jf'] ++ es).
    rewrite handle_all_app, Hc. by apply draining_exits.
  - cbn [taken]. change (handle _ (handle _ (handle _ _))) with
      (handle_all [Stop; Poll now a jf; Poll now' a' jf'] (stop, Accepting (InSelect (notified stop)) js)).
    rewrite Hc, past_accepting_takes by done. destruct a, a'; simpl; by rewrite ?notified_captured.
Qed.

(** A stop signal that finds the loop anywhere else is lost: sent while the
    loop is between two passes (or has not started yet), or in the 50 ms sleep
    after a failed accept, it has no effect, and the loop goes on accepting
    until somebody notifies it again or aborts it. *)
Theorem stop_lost stop pc js es :
  (pc = AtTop ∨ ∃ until, pc = InBackoff until) → Forall (λ e, e ≠ Stop) es →
  ∃ pc' js', (handle_all (Stop :: es) (stop, Accepting pc js)).2 = Accepting pc' js' ∧ pc' ≠ Broken.
Proof.
  intros Hpc Hes. destruct (deaf_forever es (notify_waiters stop) (Accepting pc js) Hes) as (pc' & js' & Hl & Hne & _).
  - exists pc, js. split; [done|]. destruct Hpc as [->|[until ->]]; done.
  - exists pc', js'. by split.
Qed.

(** ** What a loop keeps *)

Definition js_tasks (js : JoinSet) : gset nat := js.(js_running) ∪ js.(js_finished).

Lemma js_finish_tasks conn js : js_tasks (js_finish conn js) = js_tasks js.
Proof. unfold js_tasks, js_finish. simpl. apply set_eq. intros x. destruct (decide (x = conn)); set_solver. Qed.

Lemma accepting_takes e stop stop' pc js l' :
  handle e (stop, Accepting pc js) = (stop', l') →
  match l' with
  | Accepting _ js' => js_tasks js' = list_to_set (takes e (stop, Accepting pc js)) ∪ js_tasks js
  | _ => True
  end.
Proof.
  destruct e as [now a jf| |conn]; simpl.
  - destruct pc as [|fut|until|]; simpl.
    + intros [= _ <-]. destruct a; set_solver.
    + destruct (is_notified stop fut), a; intros [= _ <-]; unfold js_tasks; simpl; set_solver.
    + intros [= _ <-]. destruct a; set_solver.
    + by intros [= _ <-].
  - intros [= _ <-]. set_solver.
  - intros [= _ <-]. rewrite js_finish_tasks. set_solver.
Qed.

Lemma not_accepting_again es stop l pc js :
  (handle_all es (stop, l)).2 = Accepting pc js → past_accepting l = false.
Proof.
  revert stop l. induction es as [|e es IH]; intros stop l; simpl; [by intros ->|].
  destruct e as [now a jf| |conn]; simpl; intros Hl%IH; [|done|by destruct l].
  destruct l; [done|simpl in Hl|done]. by destruct (drain_join_set_step _ _ _ _) as [[] ?].
Qed.

(** C37: an accept loop never joins a finished connection: while it accepts, its
    [JoinSet] holds every connection it ever accepted, ended or not, so the set
    grows by one entry per connection for as long as the daemon runs. *)
Theorem connections_never_reaped es stop pc js :
  (handle_all es (stop, loop_new)).2 = Accepting pc js →
  js_tasks js = list_to_set (taken es (stop, loop_new)) ∧
  (NoDup (taken es (stop, loop_new)) → (length (taken es (stop, loop_new)) ≤ js_len js)%nat).
Proof.
  intros Hl. assert (js_tasks js = list_to_set (taken es (stop, loop_new))) as Ht.
  { enough (∀ stop pc0 js0, (handle_all es (stop, Accepting pc0 js0)).2 = Accepting pc js →
      js_tasks js = list_to_set (taken es (stop, Accepting pc0 js0)) ∪ js_tasks js0) as Hgen.
    { rewrite (Hgen stop AtTop js_new Hl). set_solver. }
    clear Hl. induction es as [|e es IH]; intros st pc0 js0 Hl.
    - simpl in Hl. injection Hl as -> ->. set_solver.
    - cbn [handle_all taken] in *. pose proof (accepting_takes e st (handle e (st, Accepting pc0 js0)).1 pc0 js0
        (handle e (st, Accepting pc0 js0)).2 ltac:(by destruct (handle e _))) as Hstep.
      destruct (handle e (st, Accepting pc0 js0)) as [st' l'] eqn:He. simpl in Hstep.
      pose proof (not_accepting_again es st' l' pc js Hl) as Hp. destruct l' as [pc1 js1| |]; [|done..].
      rewrite (IH _ _ _ Hl), Hstep, list_to_set_app_L. set_solver. }
  split; [done|]. intros Hnd. rewrite <-(size_list_to_set (C := gset nat)) by done. rewrite <-Ht.
  unfold js_tasks, js_len. rewrite size_union_alt.
  pose proof (subseteq_size (js_finished js ∖ js_running js) (js_finished js) ltac:(set_solver)). lia.
Qed.

End loops.

(** ** Witnesses *)

(** A loop with two connections, one of which never ends. *)
Definition two_conns : JoinSet := mkJoinSet {[7]}%nat {[8]}%nat.

Lemma stop_ends_loop_witness :
  (@handle_all counting_notify
     [Stop; Poll 0 (AcceptOk 9) true; Poll 1 AcceptPending true; ConnEnds 8;
      Poll 5000000001 AcceptPending true; Poll 5000000001 AcceptPending true;
      Poll 5000000002 AcceptPending true]
     (O : @Notify counting_notify, Accepting (InSelect (notified (O : @Notify counting_notify))) two_conns)).2 = Exited.
Proof.
  apply (@stop_ends_loop counting_notify O two_conns 0 (AcceptOk 9) true 1 AcceptPending true
    [ConnEnds 8; Poll 5000000001 AcceptPending true; Poll 5000000001 AcceptPending true;
     Poll 5000000002 AcceptPending true]).
  vm_compute. lia.
Defined.

(** The loop is stopped in the sleep after a failed accept, and serves on. *)
Definition after_backoff : list event :=
  [Poll 60000000 AcceptPending true; Poll 60000000 AcceptPending true; Poll 70000000 (AcceptOk 9) true].

Lemma stop_lost_witness :
  ∃ pc' js', (@handle_all counting_notify (Stop :: after_backoff)
    (O : @Notify counting_notify, Accepting (InBackoff 50000000) two_conns)).2 = Accepting pc' js' ∧
    9%nat ∈ js_running js'.
Proof.
  destruct (@stop_lost counting_notify O (InBackoff 50000000) two_conns after_backoff) as (pc' & js' & Hl & _).
  - right. by eexists.
  - repeat constructor; discriminate.
  - exists pc', js'. split; [exact Hl|]. vm_compute in Hl. injection Hl as _ <-. 
    apply (bool_decide_unpack _). vm_compute. exact I.
Defined.

(** Two connections come and go; both stay in the set. *)
Definition come_and_go : list event :=
  [Poll 0 AcceptPending true; Poll 1 (AcceptOk 1) true; ConnEnds 1; Poll 2 AcceptPending true;
   Poll 3 (AcceptOk 2) true; ConnEnds 2].

Lemma connections_never_reaped_witness :
  ∃ pc js, (@handle_all counting_notify come_and_go (O : @Notify counting_notify, loop_new)).2 = Accepting pc js ∧
    js_running js = ∅ ∧ (2 ≤ js_len js)%nat.
Proof.
  destruct (@handle_all counting_notify come_and_go (O : @Notify counting_notify, loop_new)).2 as [pc js| |] eqn:Hl;
    [|vm_compute in Hl; discriminate..].
  exists pc, js. split; [reflexivity|].
  pose proof (proj2 (@connections_never_reaped counting_notify come_and_go O pc js Hl)) as Hlen.
  split.
  - vm_compute in Hl. injection Hl as _ <-. vm_compute. reflexivity.
  - change 2%nat with (length (@taken counting_notify come_and_go (O : @Notify counting_notify, loop_new))). apply Hlen.
    apply (bool_decide_unpack _). vm_compute. exact I.
Defined.
