(* ===== verification/Lifecycle.v ===== *)
(** * The life of the daemon ([src/server.rs], [Server::run])

    Here everything that runs in the daemon runs together: the admin accept
    loop with its connections and their requests, the accept loop of every
    project with its connections and their [get]s, the task that waits for
    SIGTERM, the audit writer, and [run] itself, from its accept loop through
    every step of the shutdown to its return.  A state of the daemon is a
    [Life]; [do_label] performs one step of one of the parties, and a run is a
    list of labels ([run_labels]), so theorems about all runs are theorems
    about all lists.

    The handlers are those of [Concurrent], the loops those of [Loops].  Two
    steps differ from [Concurrent]: [unregister] really waits for the accept
    loop, with its timeout, and a loop is a task that takes its own steps. *)

From S2P Require Import Prelude Str Path Json Os Manifest Cache Config AuditLog Backend Proto Registry Bootstrap Server Fetch Admin Daemon Concurrent Loops.
Open Scope Z_scope.

(** Where [run] stands. *)
Inductive RunPc : Type :=
  | RAccept
  | RDrain (deadline : Instant)
  | RTake (deadline : Instant)
  | RAwait (deadline : Instant) (handles : list nat)
  | RUnlink (deadline : Instant) (paths : list string)
  | RConns (deadline : Instant)
  | RLast
  | RAudit
  | RReturned.

(** A request on an admin connection: in the handler, or waiting in
    [unregister] for the accept loop to end. *)
Inductive ReqPc (Fnox : Type) : Type :=
  | Handling (pc : AdminPc Fnox)
  | Awaiting (name : string) (id loop : nat) (deadline : Instant).
Arguments Handling {Fnox} pc.
Arguments Awaiting {Fnox} name id loop deadline.

(** What [accept] yields; connections are numbered as they come. *)
Inductive arrival : Type := NoConn | NewConn | AcceptFails.

Inductive label : Type :=
  | Clock (t : Instant)
  | Signal
  | AdminPoll (k : arrival)
  | AdminConnEnds (conn : nat)
  | NewRequest (conn : nat) (req : AdminRequest)
  | RequestStep (conn : nat)
  | LoopPoll (id : nat) (k : arrival) (join_first : bool)
  | LoopConnEnds (id conn : nat)
  | NewGet (id conn : nat) (name : string) (peer : Peer)
  | GetStep (conn : nat)
  | WriterRecv
  | RunStep (join_first : bool).

Section life.
Context {Fnox : Type} `{Os, Outside, TomlManifest, UnicodeTables, HashOrder, FnoxCore Fnox}.
Context {TN : TokioNotify}.
Context (server : Server).
Local Abbreviation State := (ServerState Fnox).
Local Abbreviation reg := (sv_registry server).

Record Life : Type := mkLife {
  lf_state : State;
  lf_now : Instant;
  (** [project.stop], by project. *)
  lf_stops : gmap nat Notify;
  (** The [Notify] of [run], and whether the signal task has fired. *)
  lf_shutdown : Notify;
  lf_signalled : bool;
  (** The admin accept loop. *)
  lf_accept : AcceptPc;
  lf_conns : JoinSet;
  lf_reqs : gmap nat (ReqPc Fnox);
  (** The project accept loops, by project. *)
  lf_loops : gmap nat LoopTask;
  lf_gets : gmap nat (GetTask Fnox);
  lf_next : nat;
  lf_run : RunPc;
}.
Implicit Types (c : Life).

Definition life_init (s : State) (t : Instant) : Life :=
  mkLife s t ∅ notify_new false AtTop js_new ∅ ∅ ∅ 0 RAccept.

(** ** Access *)

Definition set_state (s : State) c : Life :=
  mkLife s c.(lf_now) c.(lf_stops) c.(lf_shutdown) c.(lf_signalled) c.(lf_accept) c.(lf_conns)
    c.(lf_reqs) c.(lf_loops) c.(lf_gets) c.(lf_next) c.(lf_run).
Definition set_now (t : Instant) c : Life :=
  mkLife c.(lf_state) t c.(lf_stops) c.(lf_shutdown) c.(lf_signalled) c.(lf_accept) c.(lf_conns)
    c.(lf_reqs) c.(lf_loops) c.(lf_gets) c.(lf_next) c.(lf_run).
Definition set_stops (st : gmap nat Notify) c : Life :=
  mkLife c.(lf_state) c.(lf_now) st c.(lf_shutdown) c.(lf_signalled) c.(lf_accept) c.(lf_conns)
    c.(lf_reqs) c.(lf_loops) c.(lf_gets) c.(lf_next) c.(lf_run).
Definition fire c : Life :=
  mkLife c.(lf_state) c.(lf_now) c.(lf_stops) (notify_waiters c.(lf_shutdown)) true c.(lf_accept)
    c.(lf_conns) c.(lf_reqs) c.(lf_loops) c.(lf_gets) c.(lf_next) c.(lf_run).
Definition set_accept (pc : AcceptPc) (js : JoinSet) c : Life :=
  mkLife c.(lf_state) c.(lf_now) c.(lf_stops) c.(lf_shutdown) c.(lf_signalled) pc js
    c.(lf_reqs) c.(lf_loops) c.(lf_gets) c.(lf_next) c.(lf_run).
Definition set_reqs (r : gmap nat (ReqPc Fnox)) c : Life :=
  mkLife c.(lf_state) c.(lf_now) c.(lf_stops) c.(lf_shutdown) c.(lf_signalled) c.(lf_accept) c.(lf_conns)
    r c.(lf_loops) c.(lf_gets) c.(lf_next) c.(lf_run).
Definition set_project_loops (l : gmap nat LoopTask) c : Life :=
  mkLife c.(lf_state) c.(lf_now) c.(lf_stops) c.(lf_shutdown) c.(lf_signalled) c.(lf_accept) c.(lf_conns)
    c.(lf_reqs) l c.(lf_gets) c.(lf_next) c.(lf_run).
Definition set_gets (g : gmap nat (GetTask Fnox)) c : Life :=
  mkLife c.(lf_state) c.(lf_now) c.(lf_stops) c.(lf_shutdown) c.(lf_signalled) c.(lf_accept) c.(lf_conns)
    c.(lf_reqs) c.(lf_loops) g c.(lf_next) c.(lf_run).
Definition set_next (n : nat) c : Life :=
  mkLife c.(lf_state) c.(lf_now) c.(lf_stops) c.(lf_shutdown) c.(lf_signalled) c.(lf_accept) c.(lf_conns)
    c.(lf_reqs) c.(lf_loops) c.(lf_gets) n c.(lf_run).
Definition set_run (pc : RunPc) c : Life :=
  mkLife c.(lf_state) c.(lf_now) c.(lf_stops) c.(lf_shutdown) c.(lf_signalled) c.(lf_accept) c.(lf_conns)
    c.(lf_reqs) c.(lf_loops) c.(lf_gets) c.(lf_next) pc.

Definition stop_of (id : nat) (st : gmap nat Notify) : Notify := default notify_new (st !! id).
Definition notify_stop (id : nat) (st : gmap nat Notify) : gmap nat Notify :=
  <[id := notify_waiters (stop_of id st)]> st.

Definition offer (k : arrival) c : accepted :=
  match k with
  | NoConn => AcceptPending
  | NewConn => AcceptOk c.(lf_next)
  | AcceptFails => AcceptErr
  end.
(** A number is used once. *)
Definition use (k : arrival) c : Life :=
  match k with NewConn => set_next (S c.(lf_next)) c | _ => c end.

(** The task of a project loop is gone: it returned, or was aborted (dropping
    its connections). *)
Definition end_task (id : nat) c : Life :=
  set_state (set_loops (c.(lf_state).(ss_loops) ∖ {[id]}) c.(lf_state))
    (set_project_loops (delete id c.(lf_loops)) c).

(** ** The parties *)

(** What a handler does to the loops, besides its step in [Concurrent]. *)
Definition touch_loops (pc : AdminPc Fnox) c : Life :=
  match pc with
  | PcSpawn name id => set_project_loops (<[id := loop_new]> c.(lf_loops)) c
  | PcTakeHandle name id => set_stops (notify_stop id c.(lf_stops)) c
  | _ => c
  end.

Definition next_request (t : Instant) (x : nat) (r : AdminPc Fnox + json)
    (reqs : gmap nat (ReqPc Fnox)) : gmap nat (ReqPc Fnox) :=
  match r with
  | inr _ => delete x reqs
  | inl (PcDrain name id (Some loop)) => <[x := Awaiting name id loop (t + SHUTDOWN_DRAIN)]> reqs
  | inl pc => <[x := Handling pc]> reqs
  end.

(** One step of the request on connection [x]; [None] while it has to wait. *)
Definition request_step (x : nat) c : option Life :=
  match c.(lf_reqs) !! x with
  | None => None
  | Some (Handling pc) =>
      let '(r, s') := admin_step server pc c.(lf_state) in
      Some (set_state s' (set_reqs (next_request c.(lf_now) x r c.(lf_reqs)) (touch_loops pc c)))
  | Some (Awaiting name id loop deadline) =>
      match c.(lf_loops) !! loop with
      | Some _ => if deadline <=? c.(lf_now)
                  then Some (set_reqs (<[x := Handling (PcUnlink id)]> c.(lf_reqs)) (end_task loop c))
                  else None
      | None => Some (set_reqs (<[x := Handling (PcUnlink id)]> c.(lf_reqs)) c)
      end
  end.

Definition loop_step (id : nat) (k : arrival) (join_first : bool) c : option Life :=
  match c.(lf_loops) !! id with
  | None => None
  | Some l =>
      Some (match run_project_socket_step (stop_of id c.(lf_stops)) c.(lf_now) (offer k c) join_first l with
            | Exited => end_task id c
            | l' => use k (set_project_loops (<[id := l']> c.(lf_loops)) c)
            end)
  end.

(** Connection [x] belongs to the loop of project [id] and is open. *)
Definition serves (id x : nat) c : bool :=
  match c.(lf_loops) !! id with Some l => bool_decide (x ∈ loop_conns l) | None => false end.

Definition life_get_step (x : nat) c : option Life :=
  match c.(lf_gets) !! x with
  | None => None
  | Some g =>
      if serves g.(gt_call).(gc_id) x c then
        let '(r, s') := get_step g.(gt_call) g.(gt_pc) c.(lf_state) in
        Some (set_state s' (set_gets
          (match r with
           | inl pc => <[x := mkGetTask g.(gt_call) pc (checked_in g c.(lf_state))]> c.(lf_gets)
           | inr _ => delete x c.(lf_gets)
           end) c))
      else None
  end.

(** One step of [run]; [None] while it waits. *)
Definition run_step (join_first : bool) c : option Life :=
  let s := c.(lf_state) in
  match c.(lf_run) with
  | RAccept =>
      match c.(lf_accept) with
      | Broken => Some (set_run (RDrain (c.(lf_now) + SHUTDOWN_DRAIN)) c)
      | _ => None
      end
  | RDrain deadline =>
      let projects := snapshot (project_order (tick_of s)) s.(ss_reg) in
      Some (set_run (RTake deadline)
             (set_stops (foldr notify_stop c.(lf_stops) projects.*1) c))
  | RTake deadline =>
      let handles := (hi_iter (project_order (tick_of s)) s.(ss_tasks)).*2 in
      Some (set_run (RAwait deadline handles) (set_state (set_tasks ∅ s) c))
  | RAwait deadline (loop :: handles) =>
      match c.(lf_loops) !! loop with
      | None => Some (set_run (RAwait deadline handles) c)
      | Some _ => if deadline <=? c.(lf_now)
                  then Some (set_run (RAwait deadline handles) (end_task loop c))
                  else None
      end
  | RAwait deadline [] =>
      let '(n, s') := interaction s in
      let projects := snapshot (project_order n) s'.(ss_reg) in
      Some (set_run (RUnlink deadline (map (λ ip, ip.2.(p_socket_path)) projects)) (set_state s' c))
  | RUnlink deadline (path :: paths) =>
      Some (set_run (RUnlink deadline paths) (set_state (remove_socket path s).2 c))
  | RUnlink deadline [] =>
      let remaining := duration_since deadline c.(lf_now) in
      Some (set_run (RConns (c.(lf_now) + remaining)) c)
  | RConns deadline =>
      let '(over, js) := drain_join_set_step join_first c.(lf_now) deadline c.(lf_conns) in
      Some (set_run (if over then RLast else RConns deadline) (set_accept c.(lf_accept) js c))
  | RLast => Some (set_run RAudit (set_state (remove_socket (admin_path server) s).2 c))
  | RAudit => Some (set_run RReturned (set_state (shutdown_audit s).2 c))
  | RReturned => None
  end.

(** ** Steps and runs *)

Definition do_label (l : label) c : option Life :=
  match l with
  | Clock t => if c.(lf_now) <=? t then Some (set_now t c) else None
  | Signal => if c.(lf_signalled) then None else Some (fire c)
  | AdminPoll k =>
      match c.(lf_run) with
      | RAccept =>
          let '(pc, js) := accept_loop_step c.(lf_shutdown) c.(lf_now) (offer k c) c.(lf_accept) c.(lf_conns) in
          Some (use k (set_accept pc js c))
      | _ => None
      end
  | AdminConnEnds x =>
      if bool_decide (x ∈ c.(lf_conns).(js_running) ∧ c.(lf_reqs) !! x = None)
      then Some (set_accept c.(lf_accept) (js_finish x c.(lf_conns)) c) else None
  | NewRequest x req =>
      if bool_decide (x ∈ c.(lf_conns).(js_running) ∧ c.(lf_reqs) !! x = None)
      then Some (set_reqs (<[x := Handling (PcRequest req)]> c.(lf_reqs)) c) else None
  | RequestStep x => if bool_decide (x ∈ c.(lf_conns).(js_running)) then request_step x c else None
  | LoopPoll id k join_first => loop_step id k join_first c
  | LoopConnEnds id x =>
      match c.(lf_loops) !! id with
      | Some l => Some (set_gets (delete x c.(lf_gets))
                         (set_project_loops (<[id := loop_finish x l]> c.(lf_loops)) c))
      | None => None
      end
  | NewGet id x name peer =>
      if serves id x c && bool_decide (c.(lf_gets) !! x = None) then
        let '(start, s') := now c.(lf_state) in
        Some (set_state s' (set_gets
          (<[x := mkGetTask (mkGetCall id name peer start) PcStart c.(lf_state)]> c.(lf_gets)) c))
      else None
  | GetStep x => life_get_step x c
  | WriterRecv =>
      match c.(lf_state).(ss_audit).(ch_queue) with
      | _ :: q => Some (set_state (set_audit (pop_event c.(lf_state).(ss_audit) q) c.(lf_state)) c)
      | [] => None
      end
  | RunStep join_first => run_step join_first c
  end.

Fixpoint run_labels (ls : list label) c : option Life :=
  match ls with
  | [] => Some c
  | l :: ls => c' ← do_label l c; run_labels ls c'
  end.

(** The tasks that hold an [Arc<Server>], and with it a sender of the audit
    channel: [run], the admin connections, the project loops with their
    connections. *)
Definition has_sender c : bool :=
  match c.(lf_run) with RReturned => false | _ => true end
  || negb (bool_decide (c.(lf_conns).(js_running) = ∅)) || negb (bool_decide (c.(lf_loops) = ∅)).

(** [audit_handle.await] in [main] returns: no sender, nothing queued. *)
Definition writer_ends c : bool :=
  negb (has_sender c) && bool_decide (c.(lf_state).(ss_audit).(ch_queue) = []).

(** ** Which part a step touches *)

(** Case analysis on a step: every way it can be taken. *)
Ltac life_cases H :=
  cbn [do_label] in H;
  unfold request_step, loop_step, life_get_step, run_step in H;
  repeat case_match; simplify_eq/=; try done.

Lemma use_eq k c : ∃ n, use k c = set_next n c.
Proof. destruct k; [exists c.(lf_next)|by eexists|exists c.(lf_next)]; by destruct c. Qed.

Lemma touch_loops_eq pc c :
  ∃ st ls, touch_loops pc c = set_stops st (set_project_loops ls c).
Proof.
  destruct pc; try (exists c.(lf_stops), c.(lf_loops); by destruct c);
    [exists c.(lf_stops), (<[id := loop_new]> c.(lf_loops))|exists (notify_stop id c.(lf_stops)), c.(lf_loops)];
    by destruct c.
Qed.

(** The admin accept loop, the signal and [run]. *)
Definition admin_side c := (c.(lf_shutdown), c.(lf_signalled), c.(lf_accept), c.(lf_run)).

Lemma do_label_admin_side l c c' :
  do_label l c = Some c' →
  match l with AdminPoll _ | Signal | RunStep _ => True | _ => admin_side c' = admin_side c end.
Proof.
  intros Hl. destruct l; try exact I; cbn [do_label] in Hl.
  - by life_cases Hl.
  - by life_cases Hl.
  - by life_cases Hl.
  - unfold request_step in Hl. repeat case_match; simplify_eq/=; try done.
    destruct (touch_loops_eq pc c) as (st & ls & ->). done.
  - unfold loop_step in Hl. repeat case_match; simplify_eq/=; try done;
      by match goal with |- context [use ?k ?c] => destruct (use_eq k c) as [m ->] end.
  - by life_cases Hl.
  - by life_cases Hl.
  - by life_cases Hl.
  - by life_cases Hl.
Qed.

(** ** SIGTERM *)

(** The signal has come and gone, and the loop does not know. *)
Definition signal_missed c : Prop :=
  c.(lf_signalled) = true ∧ c.(lf_run) = RAccept ∧ c.(lf_accept) ≠ Broken ∧
  ∀ fut, c.(lf_accept) = InSelect fut → is_notified c.(lf_shutdown) fut = false.

Lemma admin_side_missed c c' : admin_side c' = admin_side c → signal_missed c → signal_missed c'.
Proof. unfold admin_side, signal_missed. intros [= -> -> -> ->]. done. Qed.

Lemma do_label_missed l c c' : do_label l c = Some c' → signal_missed c → signal_missed c'.
Proof.
  intros Hl Hm. pose proof (do_label_admin_side l c c' Hl) as Hside.
  destruct l; try (by eapply admin_side_missed); destruct Hm as (Hs & Hr & Hb & Hf); cbn [do_label] in Hl.
  - by rewrite Hs in Hl.
  - rewrite Hr in Hl. pose proof (accept_loop_deaf _ (lf_now c) (offer k c) _ (lf_conns c) Hb Hf) as [Hb' Hf'].
    destruct (accept_loop_step _ _ _ _ _) as [pc js]. injection Hl as <-.
    destruct (use_eq k (set_accept pc js c)) as [m ->]. by split_and!.
  - unfold run_step in Hl. rewrite Hr in Hl. by destruct (lf_accept c).
Qed.

Lemma run_labels_invariant (P : Life → Prop) ls c c' :
  (∀ l c c', do_label l c = Some c' → P c → P c') → run_labels ls c = Some c' → P c → P c'.
Proof.
  intros Hstep. revert c. induction ls as [|l ls IH]; intros c; simpl; [by intros [= <-]|].
  intros (c1 & Hl & Hls)%bind_Some Hc. eauto.
Qed.

(** C35: SIGTERM can be missed for good.  If the signal arrives while the admin
    loop is between two passes, or in the 50 ms sleep after a failed accept,
    [notify_waiters] finds nobody to notify; the task that waits for signals is
    done, so whatever happens afterwards the daemon never starts to shut
    down. *)
Theorem sigterm_missed ls c c' :
  c.(lf_run) = RAccept → (c.(lf_accept) = AtTop ∨ ∃ until, c.(lf_accept) = InBackoff until) →
  run_labels (Signal :: ls) c = Some c' → c'.(lf_run) = RAccept.
Proof.
  intros Hr Ha (c1 & Hl & Hls)%bind_Some.
  enough (signal_missed c') as (_ & Hr' & _) by done.
  eapply run_labels_invariant; [apply do_label_missed|exact Hls|]. cbn [do_label] in Hl.
  destruct (lf_signalled c); [done|]. injection Hl as <-.
  split_and!; [done..| |]; simpl; destruct Ha as [->|[until ->]]; done.
Qed.

(** Before the signal [run] accepts, and a future it waits on is current. *)
Definition armed c : Prop :=
  c.(lf_signalled) = false → c.(lf_run) = RAccept ∧ c.(lf_accept) ≠ Broken ∧
  ∀ fut, c.(lf_accept) = InSelect fut → fut = notified c.(lf_shutdown).

Lemma do_label_armed l c c' : do_label l c = Some c' → armed c → armed c'.
Proof.
  intros Hl Ha. pose proof (do_label_admin_side l c c' Hl) as Hside.
  destruct l; try (unfold armed; injection Hside as -> -> -> ->; exact Ha); cbn [do_label] in Hl.
  - destruct (lf_signalled c); [done|]. injection Hl as <-. done.
  - destruct (lf_run c) eqn:Hr; [|done..].
    destruct (accept_loop_step _ _ _ _ _) as [pc js] eqn:Hstep. injection Hl as <-.
    destruct (use_eq k (set_accept pc js c)) as [m ->]. intros Hs. simpl in *.
    destruct (Ha Hs) as (_ & Hb & Hf). unfold accept_loop_step in Hstep.
    destruct (lf_accept c) as [|fut|until|]; [| | |done].
    + injection Hstep as <- <-. split_and!; [done..|]. by intros fut [= <-].
    + rewrite (Hf fut), notified_new in Hstep by done.
      destruct (offer k c); injection Hstep as <- <-; split_and!; try done.
      by intros fut' [= <-].
    + injection Hstep as <- <-. by destruct (until <=? lf_now c).
  - unfold run_step in Hl. intros Hs. assert (lf_signalled c = false) as Hs0.
    { rewrite <-Hs. revert Hl. repeat case_match; intros; simplify_eq/=; done. }
    destruct (Ha Hs0) as (Hr & Hb & _). rewrite Hr in Hl. by destruct (lf_accept c).
Qed.

(** The loop holds a completed signal: [run] no longer accepts. *)
Definition told (c0 : Life) (fut : Notified) c : Prop :=
  c.(lf_signalled) = true ∧ is_notified c.(lf_shutdown) fut = true ∧
  (c.(lf_run) = RAccept → c.(lf_accept) = InSelect fut ∨ c.(lf_accept) = Broken) ∧
  c.(lf_conns).(js_running) ⊆ c0.(lf_conns).(js_running).

Lemma do_label_told c0 fut l c c' : do_label l c = Some c' → told c0 fut c → told c0 fut c'.
Proof.
  intros Hl (Hs & Hn & Hr & Hc). pose proof (do_label_admin_side l c c' Hl) as Hside. unfold told.
  destruct l; cbn [do_label] in Hl.
  - injection Hside as -> -> -> ->. by life_cases Hl.
  - by rewrite Hs in Hl.
  - destruct (lf_run c) eqn:Hrun; [|done..]. destruct (Hr eq_refl) as [Ha|Ha]; rewrite Ha in Hl; simpl in Hl;
      rewrite ?Hn in Hl; injection Hl as <-; destruct (use_eq k (set_accept Broken (lf_conns c) c)) as [m ->];
      split_and!; try done; by right.
  - injection Hside as -> -> -> ->. life_cases Hl. split_and!; try done. set_solver.
  - injection Hside as -> -> -> ->. by life_cases Hl.
  - injection Hside as -> -> -> ->. split_and!; try done. unfold request_step in Hl.
    repeat case_match; simplify_eq/=; try done. destruct (touch_loops_eq pc c) as (st & ls & ->). done.
  - injection Hside as -> -> -> ->. split_and!; try done. unfold loop_step in Hl.
    repeat case_match; simplify_eq/=; try done;
      by match goal with |- context [use ?k ?c] => destruct (use_eq k c) as [m ->] end.
  - injection Hside as -> -> -> ->. by life_cases Hl.
  - injection Hside as -> -> -> ->. by life_cases Hl.
  - injection Hside as -> -> -> ->. by life_cases Hl.
  - injection Hside as -> -> -> ->. by life_cases Hl.
  - unfold run_step in Hl. destruct (lf_run c) as [|d|d|d [|h hs]|d [|q qs]|d| | |] eqn:Hrun; try (by life_cases Hl).
    pose proof (drain_join_set_step_spec join_first (lf_now c) d (lf_conns c)) as Hd.
    destruct (drain_join_set_step _ _ _ _) as [over js]. injection Hl as <-.
    destruct Hd as (_ & Hsub & _). split_and!; try done; [by destruct over|]. simpl. set_solver.
Qed.

(** C29: a SIGTERM that finds the admin loop waiting for a connection is
    obeyed: from then on no admin connection is accepted, and the next pass of
    the loop and the next step of [run] start the shutdown, with a deadline 5 s
    ahead.  Nothing but a signal starts it. *)
Theorem sigterm_obeyed s t ls0 ls c c' fut :
  run_labels ls0 (life_init s t) = Some c → c.(lf_signalled) = false → c.(lf_accept) = InSelect fut →
  run_labels (Signal :: ls) c = Some c' →
  c.(lf_run) = RAccept ∧ c'.(lf_conns).(js_running) ⊆ c.(lf_conns).(js_running) ∧
  (c'.(lf_run) = RAccept → ∀ k jf, ∃ c'', run_labels [AdminPoll k; RunStep jf] c' = Some c'' ∧
     c''.(lf_run) = RDrain (c'.(lf_now) + SHUTDOWN_DRAIN)).
Proof.
  intros Hreach Hs Ha (c1 & Hl & Hls)%bind_Some.
  assert (Harm : armed c).
  { eapply run_labels_invariant; [apply do_label_armed|exact Hreach|]. done. }
  destruct (Harm Hs) as (Hr & _ & Hf). split; [done|].
  cbn [do_label] in Hl. rewrite Hs in Hl. injection Hl as <-.
  assert (told c fut c') as (_ & Hn & Hr' & Hc).
  { eapply run_labels_invariant; [apply do_label_told|exact Hls|]. unfold told. simpl.
    rewrite (Hf fut Ha), notified_captured. split_and!; try done. intros _. left. by rewrite (Hf fut) in Ha. }
  split; [done|]. intros Hrun k jf. cbn [run_labels do_label]. rewrite Hrun.
  destruct (Hr' Hrun) as [Ha'|Ha']; rewrite Ha'; simpl; rewrite ?Hn;
    destruct (use_eq k (set_accept Broken (lf_conns c') c')) as [m ->]; simpl;
    unfold run_step; simpl; rewrite Hrun; by eexists.
Qed.

(** ** The loops of the state are the tasks that run *)

Definition waits_in_place (pc : AdminPc Fnox) : Prop :=
  match pc with PcDrain _ _ (Some _) => True | _ => False end.

(** Only [register] starts a loop, only waiting for one ends it. *)
Lemma admin_step_loops pc s r s' :
  admin_step server pc s = (r, s') → ¬ waits_in_place pc →
  s'.(ss_loops) = match pc with PcSpawn _ id => {[id]} ∪ s.(ss_loops) | _ => s.(ss_loops) end.
Proof.
  destruct pc as [[name path|name|name| |]|name path m mp|[|id ids] sts|id n ids sts|name id|name id|name id|name id l|id
    |name id|id m|id m|session|session|session new]; cbn [admin_step]; intros Heq Hw.
  - rewrite ST_bind_unfold, load_for_eq in Heq. by injection Heq as _ <-.
  - unfold in_registry, zoom, unregister, mbind, ST_bind in Heq.
    destruct (rs_map (ss_reg s) !! name); by injection Heq as _ <-.
  - unfold in_registry, zoom, get_project, mbind, ST_bind in Heq.
    destruct (option_bind _ _ _ (rs_map (ss_reg s) !! name)) as [[]|]; by injection Heq as _ <-.
  - by injection Heq as _ <-.
  - by injection Heq as _ <-.
  - unfold in_registry, zoom in Heq. rewrite ST_bind_unfold, register_locked_eq in Heq.
    destruct (rs_map (ss_reg s) !! name); [by injection Heq as _ <-|]. cbv zeta in Heq.
    destruct (bind_socket _ _ _ _ _) as [[u|e] ns]; by injection Heq as _ <-.
  - by injection Heq as _ <-.
  - by injection Heq as _ <-.
  - by injection Heq as _ <-.
  - by injection Heq as _ <-.
  - by injection Heq as _ <-.
  - by injection Heq as _ <-.
  - destruct l; [done|]. by injection Heq as _ <-.
  - rewrite ST_bind_unfold, ST_bind_unfold, remove_socket_eq in Heq. cbn [gets fst snd] in Heq.
    destruct (remove_file _ _ _). by injection Heq as _ <-.
  - rewrite ST_bind_unfold, ST_bind_unfold, load_for_eq in Heq. by injection Heq as _ <-.
  - cbn -[resolve_cache_bounds] in Heq. destruct (resolve_cache_bounds _ _) as [max ttl].
    rewrite ST_bind_unfold, on_cache_eq in Heq. by injection Heq as _ <-.
  - by injection Heq as _ <-.
  - unfold in_counter, in_registry, zoom, mbind, ST_bind in Heq.
    destruct (fetch_token _ _) as [[tok|e] n]; by injection Heq as _ <-.
  - by injection Heq as _ <-.
  - by injection Heq as _ <-.
Qed.

(** A step of a [get] touches one cache, the clock and the audit channel. *)
Lemma get_step_frame call pc s r s' :
  get_step call pc s = (r, s') → cache_only call.(gc_id) s s'.
Proof.
  destruct call as [id name peer start]. rewrite get_step_eq. cbv zeta. intros Heq. simpl.
  assert (Hlater : ∀ k, cache_only id s (later k s)) by (intros; apply cache_only_later).
  assert (Hrefl : cache_only id s s).
  { pose proof (Hlater O) as H0'. by destruct s as [[]]. }
  assert (Hemit : ∀ e, cache_only id s (recorded e (later 2 s)))
    by (intros; by apply cache_only_recorded).
  destruct pc as [| | |h| | |f|[[v|]|msg]|v|v ttl]; simpl in *; try (by injection Heq as _ <-).
  - pose proof (cache_get_bounds (os_now (tick_of s)) name (deref id s).(p_cache)) as Hb.
    destruct (Cache.get _ _ _) as [hit k]. injection Heq as _ <-.
    destruct Hb. eapply cache_only_trans; [apply (Hlater 1%nat)|]. by apply cache_only_put.
  - injection Heq as _ <-. unfold inserted.
    eapply cache_only_trans; [apply (Hlater 1%nat)|]. by apply cache_only_put.
Qed.

Definition tracked c : Prop :=
  c.(lf_state).(ss_loops) = dom c.(lf_loops) ∧
  ∀ x pc, c.(lf_reqs) !! x = Some (Handling pc) → ¬ waits_in_place pc.

Lemma tracked_frame c c' :
  c'.(lf_state).(ss_loops) = c.(lf_state).(ss_loops) → c'.(lf_loops) = c.(lf_loops) →
  c'.(lf_reqs) = c.(lf_reqs) → tracked c → tracked c'.
Proof. unfold tracked. by intros -> -> ->. Qed.

Lemma end_task_tracked id c : tracked c → tracked (end_task id c).
Proof. intros [Hd Hr]. split; [|done]. simpl. by rewrite Hd, dom_delete_L. Qed.

Lemma next_request_waits t x r reqs :
  (∀ y pc, reqs !! y = Some (Handling pc) → ¬ waits_in_place pc) →
  ∀ y pc, next_request t x r reqs !! y = Some (Handling pc) → ¬ waits_in_place pc.
Proof.
  intros Hr y pc. unfold next_request. destruct r as [pc'|j].
  - destruct pc' as [| | | | | | |? ? [l|]| | | | | | |];
      intros [[_ [= <-]]|[_ Hy]]%lookup_insert_Some; (by intros []) || by eapply Hr.
  - intros [_ Hy]%lookup_delete_Some. by eapply Hr.
Qed.

Lemma set_req_tracked x pc c : ¬ waits_in_place pc → tracked c →
  tracked (set_reqs (<[x := Handling pc]> c.(lf_reqs)) c).
Proof.
  intros Hpc [Hd Hr]. split; [done|]. simpl. intros y pc' [[_ [= <-]]|[_ Hy]]%lookup_insert_Some; [done|by eapply Hr].
Qed.

Lemma request_step_tracked x c c' : request_step x c = Some c' → tracked c → tracked c'.
Proof.
  intros Hl [Hd Hr]. unfold request_step in Hl. destruct (lf_reqs c !! x) as [[pc|name id l d]|] eqn:Hx; [| |done].
  - destruct (admin_step server pc (lf_state c)) as [r s'] eqn:Hstep. injection Hl as <-.
    pose proof (admin_step_loops _ _ _ _ Hstep (Hr x pc Hx)) as Hloops.
    split.
    + simpl. rewrite Hloops, Hd. destruct pc; try done. simpl. by rewrite dom_insert_L.
    + destruct (touch_loops_eq pc c) as (st & ls & ->). by apply next_request_waits.
  - destruct (lf_loops c !! l) as [lt|]; [destruct (d <=? lf_now c); [|done]|]; injection Hl as <-.
    + apply (set_req_tracked x (PcUnlink id) (end_task l c)); [by intros []|]. by apply end_task_tracked.
    + by apply set_req_tracked; [intros []|].
Qed.

Lemma do_label_tracked l c c' : do_label l c = Some c' → tracked c → tracked c'.
Proof.
  intros Hl Ht. destruct l; cbn [do_label] in Hl.
  - by life_cases Hl.
  - by life_cases Hl.
  - destruct (lf_run c); [|done..]. destruct (accept_loop_step _ _ _ _ _) as [pc js]. injection Hl as <-.
    by destruct (use_eq k (set_accept pc js c)) as [m ->].
  - by life_cases Hl.
  - case_bool_decide; [|done]. injection Hl as <-. by apply set_req_tracked; [intros []|].
  - case_bool_decide; [|done]. by eapply request_step_tracked.
  - unfold loop_step in Hl. destruct (lf_loops c !! id) as [lt|] eqn:Hid; [|done]. destruct Ht as [Hd Hr].
    assert (Hput : ∀ l', tracked (use k (set_project_loops (<[id := l']> (lf_loops c)) c))).
    { intros l'. destruct (use_eq k (set_project_loops (<[id := l']> (lf_loops c)) c)) as [m ->].
      split; [|done]. simpl. rewrite dom_insert_lookup_L by eauto. done. }
    injection Hl as <-. destruct (run_project_socket_step _ _ _ _ _); [done..|]. by apply end_task_tracked.
  - destruct (lf_loops c !! id) as [lt|] eqn:Hid; [|done]. injection Hl as <-. destruct Ht as [Hd Hr].
    split; [|done]. simpl. rewrite dom_insert_lookup_L by eauto. done.
  - destruct (serves _ _ _ && _); [|done]. simpl in Hl. injection Hl as <-. done.
  - unfold life_get_step in Hl. destruct (lf_gets c !! conn) as [g|]; [|done].
    destruct (serves _ _ _); [|done]. destruct (get_step _ _ _) as [r s'] eqn:Hg. injection Hl as <-.
    apply get_step_frame in Hg as [_ _ Hloops _]. by eapply tracked_frame.
  - by life_cases Hl.
  - unfold run_step in Hl. destruct (lf_run c) as [|d|d|d [|h hs]|d [|q qs]|d| | |]; try (by life_cases Hl).
    + simpl in Hl. injection Hl as <-. done.
    + destruct (lf_loops c !! h); [destruct (d <=? lf_now c); [|done]|]; injection Hl as <-; [|done].
      by apply (tracked_frame (end_task h c)), end_task_tracked.
    + rewrite remove_socket_eq in Hl. destruct (remove_file _ _ _). injection Hl as <-. done.
    + rewrite remove_socket_eq in Hl. destruct (remove_file _ _ _). injection Hl as <-. done.
Qed.

Lemma reachable_tracked s t ls c :
  s.(ss_loops) = ∅ → run_labels ls (life_init s t) = Some c → tracked c.
Proof.
  intros Hs Hr. eapply run_labels_invariant; [apply do_label_tracked|exact Hr|].
  split; [simpl; by rewrite Hs, dom_empty_L|done].
Qed.

(** ** [run] after the deadline *)

(** [run] takes steps of its own, as long as it can. *)
Fixpoint run_alone (choices : list bool) c : Life :=
  match choices with
  | [] => c
  | join_first :: choices =>
      match run_step join_first c with
      | Some c' => run_alone choices c'
      | None => c
      end
  end.

(** [run] gets from [c] to [c'] in at most [n] steps, whatever [select!] picks. *)
Definition gets_to (n : nat) c c' : Prop :=
  ∀ choices, (n ≤ length choices)%nat →
    ∃ rest, run_alone choices c = run_alone rest c' ∧ (length choices ≤ n + length rest)%nat.

Lemma gets_to_refl c : gets_to 0 c c.
Proof. intros choices _. by exists choices. Qed.

Lemma gets_to_trans n m c1 c2 c3 : gets_to n c1 c2 → gets_to m c2 c3 → gets_to (n + m) c1 c3.
Proof.
  intros H12 H23 choices Hlen. destruct (H12 choices) as (rest & -> & Hr); [lia|].
  destruct (H23 rest) as (rest' & -> & Hr'); [lia|]. exists rest'. split; [done|lia].
Qed.

Lemma gets_to_step n c c1 c2 :
  (∀ jf, run_step jf c = Some c1) → gets_to n c1 c2 → gets_to (S n) c c2.
Proof.
  intros Hstep H12 [|jf choices] Hlen; simpl in *; [lia|]. rewrite Hstep.
  destruct (H12 choices) as (rest & -> & Hr); [lia|]. exists rest. split; [done|lia].
Qed.

Lemma gets_to_returned n c c' choices :
  gets_to n c c' → c'.(lf_run) = RReturned → (n ≤ length choices)%nat → run_alone choices c = c'.
Proof.
  intros Hg Hr Hlen. destruct (Hg choices Hlen) as (rest & -> & _). destruct rest as [|jf rest]; [done|].
  simpl. unfold run_step. by rewrite Hr.
Qed.

(** Past the deadline every handle is dealt with in one step: a loop that still
    runs is aborted. *)
Lemma await_phase handles deadline c :
  c.(lf_run) = RAwait deadline handles → deadline ≤ c.(lf_now) → tracked c →
  ∃ loops, gets_to (length handles) c
    (set_run (RAwait deadline []) (set_state (set_loops (c.(lf_state).(ss_loops) ∖ list_to_set handles) c.(lf_state))
       (set_project_loops loops c))).
Proof.
  revert c. induction handles as [|h handles IH]; intros c Hr Hd Ht.
  - exists c.(lf_loops). eassert (set_run _ _ = c) as ->; [|apply gets_to_refl].
    assert (ss_loops (lf_state c) ∖ list_to_set [] = ss_loops (lf_state c)) as -> by set_solver.
    destruct c as [[] ? ? ? ? ? ? ? ? ? ? ?]. simpl in *. by subst.
  - destruct (lf_loops c !! h) as [l|] eqn:Hh.
    + destruct (IH (set_run (RAwait deadline handles) (end_task h c))) as (loops & Hg); [done..| |].
      { by apply (tracked_frame (end_task h c)), end_task_tracked. }
      exists loops. eapply gets_to_step.
      { intros jf. unfold run_step. rewrite Hr, Hh. apply Z.leb_le in Hd. by rewrite Hd. }
      assert (ss_loops (lf_state c) ∖ list_to_set (h :: handles) =
              ss_loops (lf_state c) ∖ {[h]} ∖ list_to_set handles) as -> by set_solver. exact Hg.
    + destruct (IH (set_run (RAwait deadline handles) c)) as (loops & Hg); [done..|].
      exists loops. eapply gets_to_step; [intros jf; unfold run_step; by rewrite Hr, Hh|].
      assert (ss_loops (lf_state c) ∖ list_to_set (h :: handles) =
              ss_loops (lf_state c) ∖ list_to_set handles) as ->; [|exact Hg].
      destruct Ht as [Hdom _]. apply not_elem_of_dom in Hh. rewrite <-Hdom in Hh. set_solver.
Qed.

Lemma unlink_phase paths deadline c :
  c.(lf_run) = RUnlink deadline paths →
  gets_to (length paths) c
    (set_run (RUnlink deadline []) (set_state (remove_sockets paths c.(lf_state)).2 c)).
Proof.
  revert c. induction paths as [|q paths IH]; intros c Hr.
  - eassert (set_run _ _ = c) as ->; [|apply gets_to_refl]. destruct c. simpl in *. by subst.
  - eapply gets_to_step; [intros jf; unfold run_step; by rewrite Hr|].
    cbn [remove_sockets]. rewrite ST_bind_unfold.
    exact (IH (set_run (RUnlink deadline paths) (set_state (remove_socket q (lf_state c)).2 c)) eq_refl).
Qed.

(** Past the deadline the connections that are left are aborted. *)
Lemma conns_phase deadline n c :
  c.(lf_run) = RConns deadline → deadline ≤ c.(lf_now) → (js_len c.(lf_conns) ≤ n)%nat →
  gets_to (S n) c (set_run RLast (set_accept c.(lf_accept) js_new c)).
Proof.
  revert c. induction n as [|n IH]; intros c Hr Hd Hn [|jf choices] Hlen; simpl in *; try lia.
  all: unfold run_step; rewrite Hr;
    pose proof (drain_join_set_step_spec jf (lf_now c) deadline (lf_conns c)) as Hs;
    destruct (drain_join_set_step _ _ _ _) as [[] js]; destruct Hs as (Hover & _ & Hle & Hlt).
  - exists choices. rewrite Hover by done. split; [done|lia].
  - specialize (Hlt eq_refl Hd). lia.
  - exists choices. rewrite Hover by done. split; [done|lia].
  - specialize (Hlt eq_refl Hd).
    destruct (IH (set_run (RConns deadline) (set_accept (lf_accept c) js c))) with (choices := choices)
      as (rest & Hrun & Hrest); [done|done|simpl; lia|lia|].
    exists rest. split; [exact Hrun|lia].
Qed.

Lemma length_omap_le {A B} (f : A → option B) (l : list A) : (length (omap f l) ≤ length l)%nat.
Proof. induction l as [|a l IH]; csimpl; [done|]. destruct (f a); csimpl; lia. Qed.

Lemma snapshot_length it r : (length (snapshot it r) ≤ size r.(rs_map))%nat.
Proof.
  unfold snapshot. rewrite <-length_map_to_list, <-(Permutation_length (hi_perm it (rs_map r))).
  apply length_omap_le.
Qed.

(** How many steps [run] needs at most once its deadline has passed: from the
    listing of the projects on, one for each handle, socket and connection. *)
Definition steps_left c : nat :=
  let conns := js_len c.(lf_conns) in
  let projects := size c.(lf_state).(ss_reg).(rs_map) in
  match c.(lf_run) with
  | RAccept => 0
  | RDrain _ => 7 + size c.(lf_state).(ss_tasks) + projects + conns
  | RTake _ => 6 + size c.(lf_state).(ss_tasks) + projects + conns
  | RAwait _ handles => 5 + length handles + projects + conns
  | RUnlink _ paths => 4 + length paths + conns
  | RConns _ => 3 + conns
  | RLast => 2
  | RAudit => 1
  | RReturned => 0
  end.

Lemma shutdown_phases deadline c :
  c.(lf_run) = RDrain deadline → deadline ≤ c.(lf_now) → tracked c →
  ∃ n c', gets_to n c c' ∧ (n ≤ steps_left c)%nat ∧ c'.(lf_run) = RReturned ∧
    c'.(lf_state) = (shutdown (admin_path server) c.(lf_state)).2 ∧ c'.(lf_conns) = js_new.
Proof.
  intros Hr Hd Ht. set (st := foldr notify_stop (lf_stops c)
    (snapshot (project_order (tick_of (lf_state c))) (ss_reg (lf_state c))).*1).
  set (handles := (hi_iter (project_order (tick_of (lf_state c))) (ss_tasks (lf_state c))).*2).
  set (c1 := set_run (RAwait deadline handles)
    (set_state (set_tasks ∅ (lf_state c)) (set_stops st c))).
  destruct (await_phase handles deadline c1) as (loops & Hawait); [done|done|by apply (tracked_frame c)|].
  set (c2 := set_run (RAwait deadline []) _) in Hawait.
  assert (Hdrained : lf_state c2 = (drain_project_loops (lf_state c)).2).
  { unfold c2, drain_project_loops. simpl. unfold set_loops, set_tasks. simpl. f_equal. f_equal.
    apply set_eq. intros id. rewrite !elem_of_list_to_set. unfold handles.
    by rewrite (hi_perm (project_order (tick_of (lf_state c))) (ss_tasks (lf_state c))). }
  set (n := (interaction (lf_state c2)).1). set (s3 := (interaction (lf_state c2)).2).
  set (paths := map (λ ip : nat * Project, ip.2.(p_socket_path)) (snapshot (project_order n) (ss_reg s3))).
  set (c3 := set_run (RUnlink deadline paths) (set_state s3 c2)).
  pose proof (unlink_phase paths deadline c3 eq_refl) as Hunlink.
  set (c4 := set_run (RUnlink deadline []) _) in Hunlink.
  set (c5 := set_run (RConns (lf_now c + duration_since deadline (lf_now c))) c4).
  pose proof (conns_phase (lf_now c + duration_since deadline (lf_now c)) (js_len (lf_conns c)) c5 eq_refl
    ltac:(unfold duration_since; simpl; lia) (le_n _)) as Hconns.
  set (c6 := set_run RLast _) in Hconns.
  set (c7 := set_run RAudit (set_state (remove_socket (admin_path server) (lf_state c6)).2 c6)).
  set (c8 := set_run RReturned (set_state (shutdown_audit (lf_state c7)).2 c7)).
  eexists _, c8. split.
  { eapply gets_to_step; [intros jf; unfold run_step; by rewrite Hr|].
    eapply gets_to_step; [by intros jf|]. eapply gets_to_trans; [exact Hawait|].
    eapply gets_to_step; [by intros jf|]. eapply gets_to_trans; [exact Hunlink|].
    eapply gets_to_step; [by intros jf|]. eapply gets_to_trans; [exact Hconns|].
    eapply gets_to_step; [by intros jf|]. eapply gets_to_step; [by intros jf|]. apply gets_to_refl. }
  split; [|split; [done|split; [|done]]].
  - unfold steps_left, handles, paths. rewrite Hr, length_fmap, length_map.
    pose proof (snapshot_length (project_order n) (ss_reg s3)) as Hsnap.
    change (rs_map (ss_reg s3)) with (rs_map (ss_reg (lf_state c))) in Hsnap.
    rewrite (Permutation_length (hi_perm _ (ss_tasks (lf_state c)))), length_map_to_list. lia.
  - unfold shutdown. rewrite ST_bind_unfold, <-Hdrained, !ST_bind_unfold. cbn [gets fst snd]. done.
Qed.

(** ** The shutdown among the other parties *)

Definition deadline_of (pc : RunPc) : option Instant :=
  match pc with
  | RDrain d | RTake d | RAwait d _ | RUnlink d _ | RConns d => Some d
  | _ => None
  end.

(** [run] is shutting down, or has, and the 5 s are over. *)
Definition overdue c : Prop :=
  c.(lf_run) ≠ RAccept ∧ ∀ d, deadline_of c.(lf_run) = Some d → d ≤ c.(lf_now).

Definition is_run_step (l : label) : bool := match l with RunStep _ => true | _ => false end.
Definition is_request_step (l : label) : bool := match l with RequestStep _ => true | _ => false end.
Definition count (f : label → bool) (ls : list label) : nat := length (List.filter f ls).

Lemma set_loops_drain l s :
  match l with Some i => set_loops (s.(ss_loops) ∖ {[i]}) s | None => s end =
  set_loops (match l with Some i => s.(ss_loops) ∖ {[i]} | None => s.(ss_loops) end) (s : State).
Proof. destruct l; by destruct s. Qed.

(** A step of an admin request adds one handle or one project at most. *)
Lemma admin_step_size pc s r s' :
  admin_step server pc s = (r, s') →
  (size s'.(ss_tasks) ≤ S (size s.(ss_tasks)) ∧ size s'.(ss_reg).(rs_map) ≤ size s.(ss_reg).(rs_map))%nat ∨
  (size s'.(ss_tasks) ≤ size s.(ss_tasks) ∧ size s'.(ss_reg).(rs_map) ≤ S (size s.(ss_reg).(rs_map)))%nat.
Proof.
  destruct pc as [[name path|name|name| |]|name path m mp|[|id ids] sts|id n ids sts|name id|name id|name id|name id l|id
    |name id|id m|id m|session|session|session new]; cbn [admin_step]; intros Heq.
  - rewrite ST_bind_unfold, load_for_eq in Heq. injection Heq as _ <-. simpl. lia.
  - unfold in_registry, zoom, unregister, mbind, ST_bind in Heq.
    destruct (rs_map (ss_reg s) !! name); injection Heq as _ <-; simpl; [|lia].
    pose proof (map_size_delete (M := gmap string) name (rs_map (ss_reg s))) as ->. destruct (_ !! _); simpl; lia.
  - unfold in_registry, zoom, get_project, mbind, ST_bind in Heq.
    destruct (option_bind _ _ _ (rs_map (ss_reg s) !! name)) as [[]|]; injection Heq as _ <-; simpl; lia.
  - injection Heq as _ <-. simpl. lia.
  - injection Heq as _ <-. simpl. lia.
  - unfold in_registry, zoom in Heq. rewrite ST_bind_unfold, register_locked_eq in Heq.
    destruct (rs_map (ss_reg s) !! name); [injection Heq as _ <-; simpl; lia|]. cbv zeta in Heq.
    destruct (bind_socket _ _ _ _ _) as [[u|e] ns]; injection Heq as _ <-; simpl; [|lia].
    rewrite map_size_insert. destruct (_ !! _); simpl; lia.
  - injection Heq as _ <-. simpl. lia.
  - injection Heq as _ <-. simpl. lia.
  - injection Heq as _ <-. simpl. lia.
  - injection Heq as _ <-. simpl. lia.
  - injection Heq as _ <-. simpl. rewrite map_size_insert. destruct (_ !! _); simpl; lia.
  - injection Heq as _ <-. simpl. rewrite map_size_delete. destruct (_ !! _); simpl; lia.
  - injection Heq as _ <-. rewrite set_loops_drain. simpl. lia.
  - rewrite ST_bind_unfold, ST_bind_unfold, remove_socket_eq in Heq. cbn [gets fst snd] in Heq.
    destruct (remove_file _ _ _). injection Heq as _ <-. simpl. lia.
  - rewrite ST_bind_unfold, ST_bind_unfold, load_for_eq in Heq. injection Heq as _ <-. simpl. lia.
  - cbn -[resolve_cache_bounds] in Heq. destruct (resolve_cache_bounds _ _) as [max ttl].
    rewrite ST_bind_unfold, on_cache_eq in Heq. injection Heq as _ <-. simpl. lia.
  - injection Heq as _ <-. simpl. lia.
  - unfold in_counter, in_registry, zoom, mbind, ST_bind in Heq.
    destruct (fetch_token _ _) as [[tok|e] n]; injection Heq as _ <-; simpl; lia.
  - injection Heq as _ <-. simpl. lia.
  - injection Heq as _ <-. simpl. lia.
Qed.

(** What the other parties do to what [run] has still to do: [extra] more
    handles or projects at most. *)
Record others (extra : nat) c c' : Prop := mk_others {
  ot_run : c'.(lf_run) = c.(lf_run);
  ot_now : c.(lf_now) ≤ c'.(lf_now);
  ot_conns : (js_len c'.(lf_conns) ≤ js_len c.(lf_conns))%nat;
  ot_size : ∃ i j, (i + j ≤ extra ∧ size c'.(lf_state).(ss_tasks) ≤ i + size c.(lf_state).(ss_tasks) ∧
    size c'.(lf_state).(ss_reg).(rs_map) ≤ j + size c.(lf_state).(ss_reg).(rs_map))%nat;
}.

Lemma others_steps extra c c' : others extra c c' → (steps_left c' ≤ extra + steps_left c)%nat.
Proof.
  intros [Hr _ Hc (i & j & Hij & Ht & Hm)]. unfold steps_left. rewrite Hr. destruct (lf_run c); lia.
Qed.

Lemma others_overdue extra c c' : others extra c c' → overdue c → overdue c'.
Proof.
  intros [Hr Hn _ _] [Ha Hd]. split; rewrite Hr; [done|]. intros d Hdl. specialize (Hd d Hdl). lia.
Qed.

Lemma others_same c c' :
  c'.(lf_run) = c.(lf_run) → c.(lf_now) ≤ c'.(lf_now) → (js_len c'.(lf_conns) ≤ js_len c.(lf_conns))%nat →
  c'.(lf_state).(ss_tasks) = c.(lf_state).(ss_tasks) →
  c'.(lf_state).(ss_reg).(rs_map) = c.(lf_state).(ss_reg).(rs_map) → others 0 c c'.
Proof. intros Hr Hn Hc Ht Hm. split; try done. exists 0%nat, 0%nat. rewrite Ht, Hm. lia. Qed.

Lemma do_label_others l c c' :
  do_label l c = Some c' → c.(lf_run) ≠ RAccept → is_run_step l = false →
  others (if is_request_step l then 1 else 0) c c'.
Proof.
  intros Hl Hr Hn. destruct l; try done; cbn [do_label] in Hl.
  - destruct (lf_now c <=? t) eqn:Ht; [|done]. injection Hl as <-. apply Z.leb_le in Ht. by apply others_same.
  - destruct (lf_signalled c); [done|]. injection Hl as <-. by apply others_same.
  - by destruct (lf_run c).
  - case_bool_decide; [|done]. injection Hl as <-. apply others_same; try done. apply js_finish_len.
  - case_bool_decide; [|done]. injection Hl as <-. by apply others_same.
  - case_bool_decide; [|done]. unfold request_step in Hl.
    destruct (lf_reqs c !! conn) as [[pc|name id l d]|]; [| |done].
    + destruct (admin_step server pc (lf_state c)) as [r s'] eqn:Hstep. injection Hl as <-.
      destruct (touch_loops_eq pc c) as (st & ls & ->). split; [done..|]. simpl.
      destruct (admin_step_size _ _ _ _ Hstep) as [[? ?]|[? ?]]; [exists 1%nat, 0%nat|exists 0%nat, 1%nat]; lia.
    + assert (others 0 c c') as [? ? ? (i & j & ?)]; [|split; try done; exists i, j; lia].
      destruct (lf_loops c !! l); [destruct (d <=? lf_now c); [|done]|]; injection Hl as <-; by apply others_same.
  - unfold loop_step in Hl. destruct (lf_loops c !! id) as [lt|]; [|done]. injection Hl as <-.
    assert (Hput : ∀ l', others 0 c (use k (set_project_loops (<[id := l']> (lf_loops c)) c))).
    { intros l'. destruct (use_eq k (set_project_loops (<[id := l']> (lf_loops c)) c)) as [m ->]. by apply others_same. }
    destruct (run_project_socket_step _ _ _ _ _); [done..|]. by apply others_same.
  - destruct (lf_loops c !! id); [|done]. injection Hl as <-. by apply others_same.
  - destruct (serves _ _ _ && _); [|done]. simpl in Hl. injection Hl as <-. by apply others_same.
  - unfold life_get_step in Hl. destruct (lf_gets c !! conn) as [g|]; [|done].
    destruct (serves _ _ _); [|done]. destruct (get_step _ _ _) as [r s'] eqn:Hg. injection Hl as <-.
    apply get_step_frame in Hg as [_ Ht _ (k & cc & Hreg & _)]. apply others_same; try done. simpl. by rewrite Hreg.
  - destruct (ch_queue _); [done|]. injection Hl as <-. by apply others_same.
Qed.

(** Overdue, [run] waits for nothing, and each of its steps counts. *)
Lemma run_step_overdue jf c :
  overdue c → c.(lf_run) ≠ RReturned →
  ∃ c', run_step jf c = Some c' ∧ overdue c' ∧ (S (steps_left c') ≤ steps_left c)%nat.
Proof.
  intros [Ha Hd] Hr. unfold run_step. unfold overdue, steps_left in *.
  destruct (lf_run c) as [|d|d|d [|h hs]|d [|q qs]|d| | |] eqn:Hrun; try done; try specialize (Hd d eq_refl).
  - eexists. split; [done|]. simpl. split; [|lia]. split; [done|]. by intros ? [= <-].
  - eexists. split; [done|]. simpl. split; [split; [done|by intros ? [= <-]]|].
    rewrite length_fmap, (Permutation_length (hi_perm _ _)), length_map_to_list. lia.
  - eexists. split; [done|]. simpl. split; [split; [done|by intros ? [= <-]]|].
    rewrite length_map. match goal with |- context [snapshot ?it ?r] => pose proof (snapshot_length it r) as Hs end.
    simpl in Hs. lia.
  - destruct (lf_loops c !! h); [rewrite (proj2 (Z.leb_le _ _) Hd)|];
      (eexists; split; [done|]; simpl; split; [split; [done|by intros ? [= <-]]|lia]).
  - eexists. split; [done|]. simpl. split; [|lia]. split; [done|]. intros d' [= <-]. unfold duration_since. lia.
  - eexists. split; [done|]. simpl. split; [split; [done|by intros ? [= <-]]|]. lia.
  - pose proof (drain_join_set_step_spec jf (lf_now c) d (lf_conns c)) as Hs.
    destruct (drain_join_set_step _ _ _ _) as [[] js]; destruct Hs as (_ & _ & Hle & Hlt);
      (eexists; split; [done|]; simpl); [split; [done|lia]|].
    specialize (Hlt eq_refl Hd). split; [split; [done|by intros ? [= <-]]|lia].
  - eexists. split; [done|]. simpl. split; [done|lia].
  - eexists. split; [done|]. simpl. split; [done|lia].
Qed.

Lemma run_labels_overdue ls c c' :
  run_labels ls c = Some c' → overdue c →
  overdue c' ∧ (count is_run_step ls + steps_left c' ≤ steps_left c + count is_request_step ls)%nat.
Proof.
  revert c. induction ls as [|l ls IH]; intros c; cbn [run_labels]; [intros [= <-]; unfold count; simpl; split; [done|lia]|].
  intros (c1 & Hl & Hls)%bind_Some Hod. destruct (is_run_step l) eqn:Hrun.
  - destruct l as [| | | | | | | | | | |jf]; try done. cbn [do_label] in Hl.
    assert (Hne : lf_run c ≠ RReturned) by (intros He; unfold run_step in Hl; by rewrite He in Hl).
    destruct (run_step_overdue jf c Hod Hne) as (c2 & Hc2 & Hod2 & Hlt). rewrite Hl in Hc2. injection Hc2 as <-.
    destruct (IH c1 Hls Hod2) as [Hod' Hle]. split; [done|]. unfold count in *. simpl. lia.
  - pose proof (do_label_others l c c1 Hl (proj1 Hod) Hrun) as Ho.
    destruct (IH c1 Hls (others_overdue _ _ _ Ho Hod)) as [Hod' Hle]. split; [done|].
    apply others_steps in Ho. unfold count in *. simpl. rewrite Hrun.
    destruct (is_request_step l); simpl in *; lia.
Qed.

(** Once [run] has drained the admin connections, none is left. *)
Definition conns_closed c : Prop :=
  match c.(lf_run) with RLast | RAudit | RReturned => c.(lf_conns) = js_new | _ => True end.

Definition is_closing (pc : RunPc) : bool :=
  match pc with RLast | RAudit | RReturned => true | _ => false end.

Lemma js_len_0 js : js_len js = 0%nat → js = js_new.
Proof.
  destruct js as [r f]. unfold js_len, js_new. simpl. intros Hl.
  assert (size r = 0)%nat as Hr%size_empty_inv%leibniz_equiv by lia.
  assert (size f = 0)%nat as Hf%size_empty_inv%leibniz_equiv by lia. by subst.
Qed.

(** Nobody but [run] moves [run]. *)
Lemma do_label_run_kept l c c' : do_label l c = Some c' → is_run_step l = false → c'.(lf_run) = c.(lf_run).
Proof.
  intros Hl Hn. pose proof (do_label_admin_side l c c' Hl) as Ha.
  destruct l; try done; try (by injection Ha); cbn [do_label] in Hl.
  - destruct (lf_signalled c); [done|]. by injection Hl as <-.
  - destruct (lf_run c) eqn:Hr; try done. destruct (accept_loop_step _ _ _ _ _) as [pc js]. injection Hl as <-.
    by destruct (use_eq k (set_accept pc js c)) as [m ->].
Qed.

Lemma do_label_closed l c c' : do_label l c = Some c' → conns_closed c → conns_closed c'.
Proof.
  intros Hl Hc. destruct (is_run_step l) eqn:Hrun.
  - destruct l as [| | | | | | | | | | |jf]; try done. cbn [do_label] in Hl. unfold run_step in Hl. unfold conns_closed in *.
    destruct (lf_run c) as [|d|d|d [|h hs]|d [|q qs]|d| | |]; try (by repeat case_match; simplify_eq/=).
    pose proof (drain_join_set_step_spec jf (lf_now c) d (lf_conns c)) as Hs.
    destruct (drain_join_set_step _ _ _ _) as [[] js]; injection Hl as <-; [|done]. simpl. by apply Hs.
  - unfold conns_closed in *. destruct (decide (is_closing (lf_run c))) as [Ha|Ha].
    + assert (Hne : lf_run c ≠ RAccept) by (by intros He; rewrite He in Ha).
      pose proof (do_label_others l c c' Hl Hne Hrun) as [Hr _ Hle _]. rewrite Hr.
      assert (lf_conns c = js_new) as Hnew by (by destruct (lf_run c)).
      assert (lf_conns c' = js_new) as ->; [|by destruct (lf_run c)].
      rewrite Hnew in Hle. by apply js_len_0, Nat.le_0_r.
    + pose proof (do_label_run_kept l c c' Hl Hrun) as Hr. rewrite Hr. by destruct (lf_run c).
Qed.


End life.
