(* ===== verification/Shutdown.v ===== *)
(** * What is left when the daemon has shut down

    Two theorems about runs of [Lifecycle] to the return of [Server::run].  If
    the admin socket is quiet from the signal on, nothing is left: no socket, no
    accept loop, no sender of the audit channel, so the writer drains its queue
    and the process ends.  If a [register] starts its accept loop after the
    handles of the loops were taken, the loop is never stopped and the process
    never ends. *)

From S2P Require Import Prelude Str Path Json Os Manifest Cache Config AuditLog Backend Proto Registry Bootstrap Server Fetch Admin Daemon Concurrent Loops Lifecycle.
Open Scope Z_scope.

Section shutdown.
Context {Fnox : Type} `{Os, Outside, TomlManifest, UnicodeTables, HashOrder, FnoxCore Fnox}.
Context {TN : TokioNotify}.
Context (server : Server).
Local Abbreviation State := (ServerState Fnox).
Local Abbreviation Life := (@Life Fnox TN).
Local Abbreviation reg := (sv_registry server).
Implicit Types (c : Life).

Definition is_new_request (l : label) : bool := match l with NewRequest _ _ => true | _ => false end.

(** ** A quiet admin socket *)

(** What the other parties do while [run] shuts down: connections come to
    their ends, [get]s go on, loops drain; nothing is registered. *)
Record quiet_frame c c' : Prop := mk_quiet_frame {
  qf_reqs : c'.(lf_reqs) = ∅;
  qf_run : c'.(lf_run) = c.(lf_run);
  qf_accept : c'.(lf_accept) = Broken;
  qf_conns : c'.(lf_conns).(js_running) ⊆ c.(lf_conns).(js_running);
  qf_tasks : c'.(lf_state).(ss_tasks) = c.(lf_state).(ss_tasks);
  qf_map : c'.(lf_state).(ss_reg).(rs_map) = c.(lf_state).(ss_reg).(rs_map);
  qf_nodes : nodes_of c'.(lf_state) = nodes_of c.(lf_state);
  qf_reg : reg_inv reg c.(lf_state).(ss_reg) → reg_inv reg c'.(lf_state).(ss_reg);
  qf_loops : dom c'.(lf_loops) ⊆ dom c.(lf_loops);
}.

Lemma cache_only_quiet id c c' :
  c.(lf_reqs) = ∅ → c.(lf_accept) = Broken → cache_only id c.(lf_state) c'.(lf_state) →
  c'.(lf_reqs) = c.(lf_reqs) → c'.(lf_run) = c.(lf_run) → c'.(lf_accept) = c.(lf_accept) →
  c'.(lf_conns) = c.(lf_conns) → c'.(lf_loops) = c.(lf_loops) → quiet_frame c c'.
Proof.
  intros Hr Ha Hco Hr' Hrun Hacc Hcs Hls. pose proof (cache_only_reg_inv server id _ _ Hco) as Hri.
  destruct Hco as [_ Ht _ (k & cc & Hreg & _)].
  split; rewrite ?Hr', ?Hacc, ?Hcs, ?Hls; try done; [by rewrite Hreg|].
  unfold nodes_of. by rewrite Hreg.
Qed.

Lemma do_label_quiet l c c' :
  do_label server l c = Some c' → is_new_request l = false → is_run_step l = false →
  c.(lf_reqs) = ∅ → c.(lf_accept) = Broken → quiet_frame c c'.
Proof.
  intros Hl Hn Hr Hq Ha. destruct l; try done; cbn [do_label] in Hl.
  - repeat case_match; simplify_eq/=. by split.
  - repeat case_match; simplify_eq/=. by split.
  - rewrite Ha in Hl. destruct (lf_run c) eqn:Hrun; try done. simpl in Hl. injection Hl as <-.
    destruct (use_eq k (set_accept Broken (lf_conns c) c)) as [m ->]. by split.
  - repeat case_match; simplify_eq/=. split; try done. simpl. set_solver.
  - unfold request_step in Hl. rewrite Hq, lookup_empty in Hl. by case_bool_decide.
  - unfold loop_step in Hl. destruct (lf_loops c !! id) as [lt|] eqn:Hid; [|done]. injection Hl as <-.
    assert (Hput : ∀ l', quiet_frame c (use k (set_project_loops (<[id := l']> (lf_loops c)) c))).
    { intros l'. destruct (use_eq k (set_project_loops (<[id := l']> (lf_loops c)) c)) as [m ->].
      split; try done. simpl. by rewrite dom_insert_lookup_L by eauto. }
    destruct (run_project_socket_step _ _ _ _ _); [done..|]. split; try done. simpl. rewrite dom_delete_L. set_solver.
  - destruct (lf_loops c !! id) as [lt|] eqn:Hid; [|done]. injection Hl as <-.
    split; try done. simpl. by rewrite dom_insert_lookup_L by eauto.
  - destruct (serves _ _ _ && _); [|done]. simpl in Hl. injection Hl as <-.
    apply (cache_only_quiet id); try done. apply (cache_only_later id 1).
  - unfold life_get_step in Hl. destruct (lf_gets c !! conn) as [g|]; [|done].
    destruct (serves _ _ _); [|done]. destruct (get_step _ _ _) as [r s'] eqn:Hg. injection Hl as <-.
    apply get_step_frame in Hg. by eapply cache_only_quiet.
  - repeat case_match; simplify_eq/=. by split.
Qed.

(** ** The phases of a quiet shutdown *)

Section quiet.
Context (m : gmap string nat) (Hfault : ∀ i, os_fault i = None).

(** The sockets the daemon has to remove. *)
Definition our_socket (p : string) : Prop :=
  p = admin_path server ∨ ∃ name, is_Some (m !! name) ∧ p = socket_path_for reg name.

Definition sockets_gone_but (paths : list string) (s : State) : Prop :=
  ∀ name, is_Some (m !! name) →
    socket_path_for reg name ∈ paths ∨ nodes_of s !! socket_path_for reg name = None.

Definition phase_ok c : Prop :=
  match c.(lf_run) with
  | RAccept | RDrain _ | RTake _ =>
      reg_inv reg c.(lf_state).(ss_reg) ∧
      ∀ id, id ∈ dom c.(lf_loops) → ∃ name, c.(lf_state).(ss_tasks) !! name = Some id
  | RAwait _ handles => reg_inv reg c.(lf_state).(ss_reg) ∧ ∀ id, id ∈ dom c.(lf_loops) → id ∈ handles
  | RUnlink _ paths =>
      dom c.(lf_loops) = ∅ ∧ sockets_gone_but paths c.(lf_state) ∧ Forall our_socket paths
  | RConns _ => dom c.(lf_loops) = ∅ ∧ sockets_gone_but [] c.(lf_state)
  | RLast => dom c.(lf_loops) = ∅ ∧ sockets_gone_but [] c.(lf_state) ∧ c.(lf_conns).(js_running) = ∅
  | RAudit | RReturned =>
      dom c.(lf_loops) = ∅ ∧ sockets_gone_but [] c.(lf_state) ∧ c.(lf_conns).(js_running) = ∅ ∧
      nodes_of c.(lf_state) !! admin_path server = None
  end.

Record quiet_inv c : Prop := mk_quiet_inv {
  qi_reqs : c.(lf_reqs) = ∅;
  qi_accept : c.(lf_accept) = Broken;
  qi_map : c.(lf_state).(ss_reg).(rs_map) = m;
  qi_dirs : ∀ p d, our_socket p → nodes_of c.(lf_state) !! p ≠ Some (Dir d);
  qi_phase : phase_ok c;
}.

Lemma quiet_frame_inv c c' : quiet_frame c c' → quiet_inv c → quiet_inv c'.
Proof.
  intros [Hq Hr Ha Hc Ht Hm Hn Hreg Hl] [Hq0 Ha0 Hm0 Hd Hp]. split; [done|done|congruence|by rewrite Hn|].
  unfold phase_ok, sockets_gone_but in *. rewrite Hr, Hn, Ht.
  destruct (lf_run c); try (destruct Hp as [Hi Hlo]; split; [by auto|set_solver]).
  all: destruct Hp as [Hlo Hp]; (split; [set_solver|]); set_solver.
Qed.

Lemma remove_socket_nodes p (s : State) :
  (∀ d, nodes_of s !! p ≠ Some (Dir d)) → nodes_of (remove_socket p s).2 = delete p (nodes_of s).
Proof.
  intros Hd. rewrite remove_socket_eq. unfold remove_file. rewrite Hfault. unfold nodes_of in *.
  destruct (rs_nodes (ss_reg s) !! p) as [[d| |]|] eqn:Hp; simpl; try done; [by destruct (Hd d)|].
  by rewrite delete_id.
Qed.

Lemma remove_socket_map p (s : State) : (remove_socket p s).2.(ss_reg).(rs_map) = s.(ss_reg).(rs_map).
Proof. rewrite remove_socket_eq. by destruct (remove_file _ _ _). Qed.

(** A step that removes a socket leaves fewer sockets. *)
Lemma removed_inv p c : our_socket p → quiet_inv c →
  nodes_of (remove_socket p c.(lf_state)).2 = delete p (nodes_of c.(lf_state)) ∧
  (∀ q d, our_socket q → nodes_of (remove_socket p c.(lf_state)).2 !! q ≠ Some (Dir d)).
Proof.
  intros Hp [_ _ _ Hd _]. rewrite remove_socket_nodes by (intros; by apply Hd). split; [done|].
  intros q d Hq [_ Hl]%lookup_delete_Some. by eapply Hd.
Qed.

Lemma gone_after_removal p paths c :
  our_socket p → quiet_inv c → sockets_gone_but (p :: paths) c.(lf_state) →
  sockets_gone_but paths (remove_socket p c.(lf_state)).2.
Proof.
  intros Hp Hinv Hg name Hname. destruct (removed_inv p c Hp Hinv) as [-> _].
  destruct (decide (socket_path_for reg name = p)) as [->|Hne]; [right; apply lookup_delete_eq|].
  rewrite lookup_delete_ne by done. destruct (Hg name Hname) as [[?|?]%elem_of_cons|?]; [done|by left|by right].
Qed.

Lemma run_step_quiet jf c c' : run_step server jf c = Some c' → quiet_inv c → quiet_inv c'.
Proof.
  intros Hl Hinv. pose proof Hinv as [Hq Ha Hm Hd Hp]. unfold phase_ok in Hp. unfold run_step in Hl.
  destruct (lf_run c) as [|d|d|d [|h hs]|d [|q qs]|d| | |] eqn:Hr.
  - rewrite Ha in Hl. injection Hl as <-. by split.
  - injection Hl as <-. by split.
  - injection Hl as <-. split; try done. destruct Hp as [Hi Hc]. split; [done|]. simpl. intros id Hid.
    destruct (Hc id Hid) as [name Hn]. apply list_elem_of_fmap. exists (name, id). split; [done|].
    rewrite (hi_perm (project_order (tick_of (lf_state c))) (ss_tasks (lf_state c))).
    by apply elem_of_map_to_list.
  - simpl in Hl. injection Hl as <-. destruct Hp as [Hi Hc]. split; try done.
    unfold phase_ok. simpl. split; [set_solver|].
    assert (Hpaths : ∀ q, q ∈ map (λ ip : nat * Project, ip.2.(p_socket_path))
        (snapshot (project_order (tick_of (lf_state c))) (ticked 1 (ss_reg (lf_state c)))) ↔
      ∃ name, is_Some (m !! name) ∧ q = socket_path_for reg name).
    { intros q. rewrite <-Hm. exact (snapshot_reg_paths server _ _ q (ticked_inv reg 1 _ Hi)). }
    split; [intros name Hname; left; apply Hpaths; by eauto|].
    apply Forall_forall. intros q Hq'. right. by apply Hpaths.
  - destruct Hp as [Hi Hc]. destruct (lf_loops c !! h) as [l|] eqn:Hh.
    + destruct (d <=? lf_now c); [|done]. injection Hl as <-. split; try done. split; [done|].
      simpl. intros id. rewrite dom_delete_L, elem_of_difference, elem_of_singleton. intros [Hid Hne].
      by destruct (elem_of_cons hs id h) as [[?|?] _]; [by apply Hc| |].
    + injection Hl as <-. split; try done. split; [done|]. simpl. intros id Hid.
      apply not_elem_of_dom in Hh. specialize (Hc id Hid). apply elem_of_cons in Hc as [->|]; done.
  - destruct Hp as (Hlo & Hg & _). injection Hl as <-. by split.
  - destruct Hp as (Hlo & Hg & [Hq' Hqs]%Forall_cons). injection Hl as <-.
    destruct (removed_inv q c Hq' Hinv) as [_ Hd'].
    split; simpl; [done|done|by rewrite remove_socket_map|done|]. unfold phase_ok. simpl.
    split_and!; [done| |done]. by apply gone_after_removal.
  - destruct Hp as (Hlo & Hg). pose proof (drain_join_set_step_spec jf (lf_now c) d (lf_conns c)) as Hs.
    destruct (drain_join_set_step _ _ _ _) as [[] js]; injection Hl as <-; split; try done.
    unfold phase_ok. simpl. destruct Hs as (-> & _); done.
  - destruct Hp as (Hlo & Hg & Hc). injection Hl as <-.
    destruct (removed_inv (admin_path server) c (or_introl eq_refl) Hinv) as [Hn Hd'].
    split; simpl; [done|done|by rewrite remove_socket_map|done|]. unfold phase_ok. simpl.
    split_and!; [done| |done|by rewrite Hn, lookup_delete_eq].
    apply gone_after_removal; [by left|done|]. intros name Hname. destruct (Hg name Hname) as [[]%not_elem_of_nil|]. by right.
  - destruct Hp as (Hlo & Hg & Hc & Hn). injection Hl as <-. by split.
  - done.
Qed.

Lemma do_label_quiet_inv l c c' :
  do_label server l c = Some c' → is_new_request l = false → quiet_inv c → quiet_inv c'.
Proof.
  intros Hl Hn Hinv. destruct (is_run_step l) eqn:Hr.
  - destruct l; try done. by eapply run_step_quiet.
  - eapply quiet_frame_inv; [|exact Hinv]. destruct Hinv. by eapply do_label_quiet.
Qed.

Lemma run_labels_quiet_inv ls c c' :
  Forall (λ l, is_new_request l = false) ls → run_labels server ls c = Some c' →
  quiet_inv c → quiet_inv c'.
Proof.
  intros Hls. revert c. induction Hls as [|l ls Hl Hls IH]; intros c; simpl; [by intros [= <-]|].
  intros (c1 & Hc1 & Hrun)%bind_Some Hinv. eapply IH; [done|]. by eapply do_label_quiet_inv.
Qed.

End quiet.

(** Nothing but the writer is left to touch the queue: it empties. *)
Lemma writer_drains n c :
  length c.(lf_state).(ss_audit).(ch_queue) = n →
  ∃ c', run_labels server (replicate n WriterRecv) c = Some c' ∧
    c'.(lf_state).(ss_audit).(ch_queue) = [] ∧ has_sender c' = has_sender c.
Proof.
  revert c. induction n as [|n IH]; intros c Hn; cbn [replicate run_labels].
  - exists c. split_and!; try done. by apply length_zero_iff_nil.
  - destruct (ch_queue (ss_audit (lf_state c))) as [|e q] eqn:Hq; [done|]. injection Hn as Hn.
    cbn [do_label]. rewrite Hq. exact (IH (set_state (set_audit (pop_event _ q) _) c) Hn).
Qed.

(** C8: a shutdown with the admin socket quiet leaves nothing behind.  Take any
    reachable state in which the signal has ended the admin loop, no request is
    in flight and the registry is in order; whatever the projects' loops,
    connections and [get]s do from there, if no admin request arrives and no
    file operation fails, then when [run] has returned the admin socket and the
    socket of every registered project are gone, nobody holds a sender of the
    audit channel, and the writer only has to empty its queue for the process
    to end. *)
Theorem quiet_shutdown_clean s t ls0 c0 ls c :
  s.(ss_loops) = ∅ → run_labels server ls0 (life_init s t) = Some c0 →
  c0.(lf_run) = RAccept → c0.(lf_accept) = Broken → c0.(lf_reqs) = ∅ →
  server_inv server c0.(lf_state) → (∀ d, nodes_of c0.(lf_state) !! admin_path server ≠ Some (Dir d)) →
  (∀ i, os_fault i = None) → Forall (λ l, is_new_request l = false) ls →
  run_labels server ls c0 = Some c → c.(lf_run) = RReturned →
  nodes_of c.(lf_state) !! admin_path server = None ∧
  (∀ name, is_Some (c0.(lf_state).(ss_reg).(rs_map) !! name) →
     nodes_of c.(lf_state) !! socket_path_for reg name = None) ∧
  has_sender c = false ∧
  ∃ c', run_labels server (replicate (length c.(lf_state).(ss_audit).(ch_queue)) WriterRecv) c = Some c' ∧
    writer_ends c' = true.
Proof.
  intros Hs Hreach Hr Ha Hq Hinv Hdir Hf Hls Hrun Hret.
  destruct (reachable_tracked server s t ls0 c0 Hs Hreach) as [Hdom _].
  assert (quiet_inv (rs_map (ss_reg (lf_state c0))) c) as [_ _ _ _ Hp].
  { eapply run_labels_quiet_inv; [done..|]. pose proof (si_reg _ _ Hinv) as Hreg. split; try done.
    - intros p d [->|(name & [id Hid] & ->)]; [by auto|].
      destruct (ri_map _ _ Hreg name id Hid) as (q & _ & _ & Hsock). unfold nodes_of. by rewrite Hsock.
    - unfold phase_ok. rewrite Hr. split; [done|]. intros id. rewrite <-Hdom. by apply (si_loops _ _ Hinv). }
  unfold phase_ok in Hp. rewrite Hret in Hp. destruct Hp as (Hlo & Hg & Hc & Hn).
  assert (Hsend : has_sender c = false).
  { unfold has_sender. apply dom_empty_inv_L in Hlo. rewrite Hret, Hc, Hlo.
    by rewrite !bool_decide_true by done. }
  split_and!; [done| |done|].
  - intros name Hname. by destruct (Hg name Hname) as [[]%not_elem_of_nil|].
  - destruct (writer_drains _ c eq_refl) as (c' & Hc' & Hqe & Hse). exists c'. split; [done|].
    unfold writer_ends. rewrite Hse, Hsend, Hqe. by rewrite bool_decide_true.
Qed.

(** ** A loop nobody stops *)

(** [run] has taken the handles of the accept loops, and that of [id] was not
    among them, or has been dealt with. *)
Definition handles_taken (id : nat) (pc : RunPc) : Prop :=
  match pc with
  | RAccept | RDrain _ | RTake _ => False
  | RAwait _ handles => id ∉ handles
  | _ => True
  end.

(** A request that is unregistering a project. *)
Definition unregistering (pc : AdminPc Fnox) : bool :=
  match pc with PcRequest (Unregister _) | PcTakeHandle _ _ | PcDrain _ _ _ => true | _ => false end.
Definition is_unregister (l : label) : bool :=
  match l with NewRequest _ (Unregister _) => true | _ => false end.

Definition no_unregister (reqs : gmap nat (ReqPc Fnox)) : Prop :=
  map_Forall (λ _ r, match r with Handling pc => unregistering pc = false | Awaiting _ _ _ _ => False end) reqs.

(** Nobody will stop the loop of [id], and it has not been told to. *)
Record lost (id : nat) c : Prop := mk_lost {
  lo_run : handles_taken id c.(lf_run);
  lo_reqs : no_unregister c.(lf_reqs);
  lo_loop : ∃ l, c.(lf_loops) !! id = Some l ∧ deaf (stop_of id c.(lf_stops)) l;
}.

(** Only [unregister] unregisters. *)
Lemma admin_step_unregistering pc s pc' s' :
  admin_step server pc s = (inl pc', s') → unregistering pc = false → unregistering pc' = false.
Proof.
  destruct pc as [[name path|name|name| |]|name path m mp|[|id ids] sts|id n ids sts|name id|name id|name id|name id l|id
    |name id|id m|id m|session|session|session new]; try done; cbn [admin_step]; intros Heq _.
  - rewrite ST_bind_unfold, load_for_eq in Heq. cbn [fst snd mret ST_ret] in Heq.
    destruct (Manifest.load _ _) as [[m mp]|e]; [case_decide|]; by (unfold mret, ST_ret, admin_failed in Heq; simplify_eq/=).
  - unfold in_registry, zoom, get_project, mbind, ST_bind in Heq.
    destruct (option_bind _ _ _ (rs_map (ss_reg s) !! name)) as [[]|]; by (unfold mret, ST_ret, admin_failed in Heq; simplify_eq/=).
  - by injection Heq as <- _.
  - rewrite ST_bind_unfold in Heq. cbn [gets fst snd mret ST_ret] in Heq. destruct (ss_backend s); by (unfold mret, ST_ret, admin_failed in Heq; simplify_eq/=).
  - unfold in_registry, zoom in Heq. rewrite ST_bind_unfold, register_locked_eq in Heq.
    destruct (rs_map (ss_reg s) !! name); [by (unfold mret, ST_ret, admin_failed in Heq; simplify_eq/=)|]. cbv zeta in Heq.
    destruct (bind_socket _ _ _ _ _) as [[u|e] ns]; by (unfold mret, ST_ret, admin_failed in Heq; simplify_eq/=).
  - by injection Heq as <- _.
  - by injection Heq as <- _.
  - by injection Heq as <- _.
  - rewrite ST_bind_unfold, ST_bind_unfold, remove_socket_eq in Heq. cbn [gets fst snd] in Heq.
    destruct (remove_file _ _ _). by (unfold mret, ST_ret, admin_failed in Heq; simplify_eq/=).
  - rewrite ST_bind_unfold, ST_bind_unfold, load_for_eq in Heq. cbn [gets fst snd mret ST_ret] in Heq.
    destruct (Manifest.load _ _) as [[m mp]|e]; [case_decide|]; by (unfold mret, ST_ret, admin_failed in Heq; simplify_eq/=).
  - cbn -[resolve_cache_bounds] in Heq. destruct (resolve_cache_bounds _ _) as [max ttl].
    rewrite ST_bind_unfold, on_cache_eq in Heq. by (unfold mret, ST_ret, admin_failed in Heq; simplify_eq/=).
  - unfold in_counter, in_registry, zoom, mbind, ST_bind in Heq.
    destruct (fetch_token _ _) as [[tok|e] n]; by (unfold mret, ST_ret, admin_failed in Heq; simplify_eq/=).
  - rewrite ST_bind_unfold in Heq. cbn [fst snd mret ST_ret] in Heq. repeat case_match; by (unfold mret, ST_ret, admin_failed in Heq; simplify_eq/=).
Qed.

Lemma next_request_no_unregister t x r reqs :
  no_unregister reqs → match r with inl pc => unregistering pc = false | inr _ => True end →
  no_unregister (next_request t x r reqs).
Proof.
  intros Hq Hr. unfold next_request. destruct r as [pc|j]; [|by apply map_Forall_delete].
  destruct pc; try done; by apply map_Forall_insert_2.
Qed.

(** The step of a request that does not unregister. *)
Lemma request_step_lost id x c c' : request_step server x c = Some c' → lost id c → lost id c'.
Proof.
  intros Hl [Hr Hq (lt & Hid & Hdeaf)]. unfold request_step in Hl.
  destruct (lf_reqs c !! x) as [[pc|? ? ? ?]|] eqn:Hx; [|by apply Hq in Hx|done]. apply Hq in Hx.
  destruct (admin_step server pc (lf_state c)) as [r s'] eqn:Hstep. injection Hl as <-.
  assert (Hq' : no_unregister (next_request (lf_now c) x r (lf_reqs c))).
  { apply next_request_no_unregister; [done|]. destruct r as [pc'|j]; [|done]. by eapply admin_step_unregistering. }
  destruct pc; try (split; [done|done|by exists lt]); try done.
  split; [done|done|]. cbn. destruct (decide (id0 = id)) as [->|Hne].
  - exists loop_new. rewrite lookup_insert_eq. split; [done|]. by eexists _, _.
  - exists lt. by rewrite lookup_insert_ne.
Qed.

Lemma do_label_lost id l c c' :
  do_label server l c = Some c' → is_unregister l = false → lost id c → lost id c'.
Proof.
  intros Hl Hu Hlost. pose proof Hlost as [Hr Hq (lt & Hid & Hdeaf)]. destruct l; cbn [do_label] in Hl.
  - repeat case_match; simplify_eq/=. split; try done. by exists lt.
  - repeat case_match; simplify_eq/=. split; try done. by exists lt.
  - by destruct (lf_run c).
  - case_bool_decide; [|done]. injection Hl as <-. split; try done. by exists lt.
  - case_bool_decide; [|done]. injection Hl as <-. split; [done| |by exists lt].
    apply map_Forall_insert_2; [by destruct req|done].
  - case_bool_decide; [|done]. by eapply request_step_lost.
  - unfold loop_step in Hl. destruct (lf_loops c !! id0) as [l0|] eqn:Hid0; [|done]. injection Hl as <-.
    assert (Hput : ∀ l', (id0 = id → deaf (stop_of id (lf_stops c)) l') →
      lost id (use k (set_project_loops (<[id0 := l']> (lf_loops c)) c))).
    { intros l' Hl'. destruct (use_eq k (set_project_loops (<[id0 := l']> (lf_loops c)) c)) as [n ->].
      split; try done. simpl. destruct (decide (id0 = id)) as [->|Hne].
      - exists l'. rewrite lookup_insert_eq. auto.
      - exists lt. by rewrite lookup_insert_ne. }
    assert (Hd : id0 = id → deaf (stop_of id (lf_stops c))
      (run_project_socket_step (stop_of id0 (lf_stops c)) (lf_now c) (offer k c) join_first l0)).
    { intros ->. apply loop_step_deaf. by simplify_eq. }
    destruct (run_project_socket_step _ _ _ _ _); [by apply Hput..|].
    destruct (decide (id0 = id)) as [->|Hne]; [by destruct (Hd eq_refl) as (? & ? & ? & _)|].
    split; try done. exists lt. simpl. by rewrite lookup_delete_ne.
  - destruct (lf_loops c !! id0) as [l0|] eqn:Hid0; [|done]. injection Hl as <-. split; try done.
    simpl. destruct (decide (id0 = id)) as [->|Hne].
    + exists (loop_finish conn l0). rewrite lookup_insert_eq. split; [done|]. simplify_eq. by apply loop_finish_deaf.
    + exists lt. by rewrite lookup_insert_ne.
  - destruct (serves _ _ _ && _); [|done]. simpl in Hl. injection Hl as <-. split; try done. by exists lt.
  - unfold life_get_step in Hl. repeat case_match; simplify_eq/=; (split; try done; by exists lt).
  - repeat case_match; simplify_eq/=. split; try done. by exists lt.
  - unfold run_step in Hl. unfold handles_taken in Hr.
    destruct (lf_run c) as [|d|d|d [|h hs]|d [|q qs]|d| | |] eqn:Hrun; try done.
    + simpl in Hl. injection Hl as <-. split; try done. by exists lt.
    + apply not_elem_of_cons in Hr as [Hne Hr].
      destruct (lf_loops c !! h); [destruct (d <=? lf_now c); [|done]|]; injection Hl as <-;
        (split; [done..|]); exists lt; [|done]. simpl. by rewrite lookup_delete_ne.
    + injection Hl as <-. split; try done. by exists lt.
    + injection Hl as <-. split; try done. by exists lt.
    + destruct (drain_join_set_step _ _ _ _) as [[] js]; injection Hl as <-; (split; try done; by exists lt).
    + injection Hl as <-. split; try done. by exists lt.
    + injection Hl as <-. split; try done. by exists lt.
Qed.

Lemma run_labels_lost id ls c c' :
  Forall (λ l, is_unregister l = false) ls → run_labels server ls c = Some c' → lost id c → lost id c'.
Proof.
  intros Hls. revert c. induction Hls as [|l ls Hl Hls IH]; intros c; simpl; [by intros [= <-]|].
  intros (c1 & Hc1 & Hrun)%bind_Some Hlost. eapply IH; [done|]. by eapply do_label_lost.
Qed.

(** C36: a project whose accept loop is started after [run] has taken the handles
    of the loops keeps the process from ending.  Admin connections are served
    until they close or the 5 s are over, so a [register] may start its loop
    then, in any state from the awaiting of the handles on.  As long as no
    [unregister] is in flight or comes in over a connection that is still open,
    nobody stops or aborts that loop: whatever else happens, it runs on, and
    since it holds the server, the audit channel keeps a sender and the writer
    that [main] waits for never ends. *)
Theorem late_register_hangs c x name id ls c' :
  handles_taken id c.(lf_run) → no_unregister c.(lf_reqs) →
  c.(lf_reqs) !! x = Some (Handling (PcSpawn name id)) →
  Forall (λ l, is_unregister l = false) ls →
  run_labels server (RequestStep x :: ls) c = Some c' →
  is_Some (c'.(lf_loops) !! id) ∧ has_sender c' = true ∧ writer_ends c' = false.
Proof.
  intros Hr Hq Hx Hls (c1 & Hl & Hrun)%bind_Some. cbn [do_label] in Hl. case_bool_decide; [|done].
  unfold request_step in Hl. rewrite Hx in Hl.
  destruct (admin_step server (PcSpawn name id) (lf_state c)) as [r s'] eqn:Hstep. injection Hl as <-.
  assert (lost id c') as [_ _ (l & Hid & _)].
  { eapply run_labels_lost; [done..|]. split; [done| |].
    - apply next_request_no_unregister; [done|]. destruct r as [pc'|j]; [|done]. by eapply admin_step_unregistering.
    - exists loop_new. cbn. rewrite lookup_insert_eq. split; [done|]. by eexists _, _. }
  assert (has_sender c' = true) as Hsend.
  { unfold has_sender. rewrite (bool_decide_false (lf_loops c' = ∅)); [by rewrite !orb_true_r|].
    intros He. by rewrite He in Hid. }
  split_and!; [done..|]. unfold writer_ends. by rewrite Hsend.
Qed.

End shutdown.

(** ** Runs of the demo *)

Local Abbreviation DemoLife := (@Life string counting_notify).
Local Abbreviation demo_labels ls c :=
  (@run_labels string demo_os (demo_imds "{}") demo_toml demo_unicode demo_order demo_fnox counting_notify
     demo_server ls c).

Definition demo_start : DemoLife := life_init demo_started 0.
(** Where a run from the start ends. *)
Definition demo_life (ls : list label) : DemoLife := default demo_start (demo_labels ls demo_start).

Definition demo_request (conn : nat) : list label :=
  NewRequest conn (Register "myrepo" "/projects/myrepo") :: replicate 4 (RequestStep conn).

(** A connection is accepted; the loop waits for the next. *)
Definition connected : list label := [AdminPoll NoConn; AdminPoll NewConn; AdminPoll NoConn].
Definition signalled : list label := [Signal; AdminPoll NoConn].
Definition run_steps (n : nat) : list label := replicate n (RunStep true).

(** ** Witnesses *)

(** A client connects, SIGTERM arrives, the handles are taken and the sockets
    listed; then the client registers a project and leaves. *)
Definition late_start : list label :=
  connected ++ signalled ++ run_steps 4 ++ take 3 (demo_request 0).
Definition late_end : list label := [RequestStep 0; AdminConnEnds 0%nat] ++ run_steps 5.

Lemma late_register_hangs_witness :
  ∃ c, demo_labels (RequestStep 0 :: late_end) (demo_life late_start) = Some c ∧ c.(lf_run) = RReturned ∧
    writer_ends c = false.
Proof.
  destruct (demo_labels (RequestStep 0 :: late_end) (demo_life late_start)) as [c|] eqn:Hc;
    [|vm_compute in Hc; discriminate].
  destruct (@late_register_hangs string demo_os (demo_imds "{}") demo_toml demo_unicode demo_order demo_fnox
    counting_notify demo_server (demo_life late_start) 0 "myrepo" 0 late_end c) as (_ & _ & Hend).
  - vm_compute. exact I.
  - replace (lf_reqs (demo_life late_start)) with ({[0%nat := Handling (PcSpawn "myrepo" 0)]} : gmap nat (ReqPc string))
      by (vm_compute; reflexivity).
    apply map_Forall_singleton. reflexivity.
  - vm_compute. reflexivity.
  - repeat constructor.
  - exact Hc.
  - exists c. split; [reflexivity|]. split; [|exact Hend]. vm_compute in Hc. injection Hc as <-. reflexivity.
Defined.

(** A project is registered and its loop waits; then the signal comes. *)
Definition one_project : list label :=
  connected ++ demo_request 0 ++ [AdminConnEnds 0%nat; LoopPoll 0 NoConn true].
(** [run] notifies the loop, which exits, and goes on to its return. *)
Definition quiet_end : list label :=
  run_steps 3 ++ replicate 3 (LoopPoll 0 NoConn true) ++ run_steps 8.

Lemma demo_quiet_inv : server_inv demo_server (demo_life (one_project ++ signalled)).(lf_state).
Proof.
  replace (lf_state (demo_life (one_project ++ signalled))) with
    (@dispatch_register string demo_os demo_toml demo_unicode demo_server "myrepo" "/projects/myrepo"
       demo_started).2 by (vm_compute; reflexivity).
  apply dispatch_register_inv, demo_started_inv.
Qed.

Lemma quiet_shutdown_clean_witness :
  ∃ c, demo_labels quiet_end (demo_life (one_project ++ signalled)) = Some c ∧
    nodes_of c.(lf_state) !! socket_path_for demo_server.(sv_registry) "myrepo" = None ∧
    has_sender c = false.
Proof.
  destruct (demo_labels quiet_end (demo_life (one_project ++ signalled))) as [c|] eqn:Hc;
    [|vm_compute in Hc; discriminate].
  destruct (@quiet_shutdown_clean string demo_os (demo_imds "{}") demo_toml demo_unicode demo_order demo_fnox
    counting_notify demo_server demo_started 0 (one_project ++ signalled) (demo_life (one_project ++ signalled))
    quiet_end c) as (_ & Hsock & Hsend & _).
  1-5: vm_compute; reflexivity.
  - exact demo_quiet_inv.
  - intros d. vm_compute. discriminate.
  - reflexivity.
  - repeat constructor.
  - exact Hc.
  - vm_compute in Hc. injection Hc as <-. reflexivity.
  - exists c. split; [reflexivity|]. split; [|exact Hsend]. apply Hsock. vm_compute. by eexists.
Defined.

Lemma sigterm_missed_witness :
  (demo_life (connected ++ [AdminPoll AcceptFails] ++ signalled ++ connected)).(lf_run) = RAccept.
Proof.
  apply (@sigterm_missed string demo_os (demo_imds "{}") demo_toml demo_unicode demo_order demo_fnox
    counting_notify demo_server (AdminPoll NoConn :: connected) (demo_life (connected ++ [AdminPoll AcceptFails]))).
  - vm_compute. reflexivity.
  - right. vm_compute. by eexists.
  - vm_compute. reflexivity.
Defined.

Lemma sigterm_obeyed_witness :
  ∃ c, demo_labels signalled (demo_life connected) = Some c ∧
    (js_running (lf_conns c) ⊆ js_running (lf_conns (demo_life connected))).
Proof.
  destruct (demo_labels signalled (demo_life connected)) as [c|] eqn:Hc; [|vm_compute in Hc; discriminate].
  destruct (@sigterm_obeyed string demo_os (demo_imds "{}") demo_toml demo_unicode demo_order demo_fnox
    counting_notify demo_server demo_started 0 connected [AdminPoll NoConn] (demo_life connected) c
    (@notified counting_notify O)) as (_ & Hsub & _).
  - vm_compute. reflexivity.
  - vm_compute. reflexivity.
  - vm_compute. reflexivity.
  - exact Hc.
  - exists c. split; [reflexivity|exact Hsub].
Defined.

(** The admin connection and the project's loop never end by themselves; the 5 s
    run out while [run] waits for the loop. *)
Definition stuck : list label :=
  connected ++ demo_request 0 ++ signalled ++ run_steps 3 ++ [Clock (from_secs 5)].

(** A client goes on asking while [run] ends. *)
Definition busy_end : list label :=
  [NewRequest 0 Status; RequestStep 0] ++ run_steps 2 ++ [RequestStep 0] ++ run_steps 5.

