(* ===== verification/Whole.v ===== *)
(** * What holds for the whole life of the daemon

    [Concurrent] and [Typing] prove what values a [get] may send and what shape
    the registry has while requests overlap.  Here the same is shown for
    [Lifecycle]: with the accept loops, the aborts and every step of the
    shutdown in between, from the first connection to the return of [run] and
    beyond, as long as connections are served. *)

From S2P Require Import Prelude Str Path Json Os Manifest Cache Config AuditLog Backend Proto Registry Bootstrap Server Fetch Admin Daemon Main Concurrent Typing Loops Lifecycle Shutdown.
Open Scope Z_scope.

Section whole.
Context {Fnox : Type} `{Os, Outside, TomlManifest, UnicodeTables, HashOrder, FnoxCore Fnox}.
Context {TN : TokioNotify}.
Context (server : Server) (Hserver : server_ok server).
Local Abbreviation State := (ServerState Fnox).
Local Abbreviation Life := (@Life Fnox TN).
Implicit Types (s : State) (c : Life).

(** ** What a step does to projects, requests and [get]s *)

(** The step leaves projects and names alone. *)
Definition same_projects s s' : Prop :=
  s'.(ss_reg).(rs_heap) = s.(ss_reg).(rs_heap) ∧ s'.(ss_reg).(rs_next) = s.(ss_reg).(rs_next) ∧
  s'.(ss_reg).(rs_map) = s.(ss_reg).(rs_map).

Inductive effect (c c' : Life) : Prop :=
  | eff_request x pc r :
      c.(lf_reqs) !! x = Some (Handling pc) →
      admin_step server pc c.(lf_state) = (r, c'.(lf_state)) →
      c'.(lf_reqs) = next_request c.(lf_now) x r c.(lf_reqs) → c'.(lf_gets) = c.(lf_gets) → effect c c'
  | eff_get x g r :
      c.(lf_gets) !! x = Some g →
      get_step g.(gt_call) g.(gt_pc) c.(lf_state) = (r, c'.(lf_state)) → c'.(lf_reqs) = c.(lf_reqs) →
      c'.(lf_gets) = match r with
                     | inl pc => <[x := mkGetTask g.(gt_call) pc (checked_in g c.(lf_state))]> c.(lf_gets)
                     | inr _ => delete x c.(lf_gets)
                     end → effect c c'
  | eff_other :
      same_projects c.(lf_state) c'.(lf_state) →
      (∀ x pc, c'.(lf_reqs) !! x = Some (Handling pc) →
         c.(lf_reqs) !! x = Some (Handling pc) ∨ (∃ req, pc = PcRequest req) ∨ ∃ id, pc = PcUnlink id) →
      (∀ x g, c'.(lf_gets) !! x = Some g → c.(lf_gets) !! x = Some g ∨ g.(gt_pc) = PcStart) → effect c c'.

Lemma eff_same c c' :
  same_projects c.(lf_state) c'.(lf_state) → c'.(lf_reqs) = c.(lf_reqs) → c'.(lf_gets) = c.(lf_gets) →
  effect c c'.
Proof. intros Hs Hr Hg. apply eff_other; [done|rewrite Hr; by left|rewrite Hg; by left]. Qed.

Lemma same_projects_refl s : same_projects s s.
Proof. done. Qed.

Lemma remove_socket_same path s : same_projects s (remove_socket path s).2.
Proof. rewrite remove_socket_eq. by destruct (remove_file _ _ _). Qed.

Lemma request_step_effect x c c' : request_step server x c = Some c' → effect c c'.
Proof.
  unfold request_step. destruct (lf_reqs c !! x) as [[pc|name id l d]|] eqn:Hx; [| |done].
  - destruct (admin_step server pc (lf_state c)) as [r s'] eqn:Hstep. intros [= <-].
    destruct (touch_loops_eq pc c) as (st & ls & ->). by apply (eff_request _ _ x pc r).
  - assert (Hun : ∀ c1, same_projects c.(lf_state) c1.(lf_state) → c1.(lf_reqs) = c.(lf_reqs) →
      c1.(lf_gets) = c.(lf_gets) → effect c (set_reqs (<[x := Handling (PcUnlink id)]> c.(lf_reqs)) c1)).
    { intros c1 Hs Hr Hg. apply eff_other; simpl; [done| |rewrite Hg; by left].
      intros y pc [[_ [= <-]]|[_ Hy]]%lookup_insert_Some; eauto. }
    destruct (lf_loops c !! l); [destruct (d <=? lf_now c); [|done]|]; intros [= <-]; by apply Hun.
Qed.

Lemma run_step_effect jf c c' : run_step server jf c = Some c' → effect c c'.
Proof.
  unfold run_step. destruct (lf_run c) as [|d|d|d [|h hs]|d [|q qs]|d| | |]; intros Hl.
  - destruct (lf_accept c); try done. injection Hl as <-. by apply eff_same.
  - injection Hl as <-. by apply eff_same.
  - injection Hl as <-. by apply eff_same.
  - simpl in Hl. injection Hl as <-. by apply eff_same.
  - destruct (lf_loops c !! h); [destruct (d <=? lf_now c); [|done]|]; injection Hl as <-; by apply eff_same.
  - injection Hl as <-. by apply eff_same.
  - injection Hl as <-. apply eff_same; [apply remove_socket_same|done..].
  - destruct (drain_join_set_step _ _ _ _) as [over js]. injection Hl as <-. by apply eff_same.
  - injection Hl as <-. apply eff_same; [apply remove_socket_same|done..].
  - injection Hl as <-. by apply eff_same.
  - done.
Qed.

Lemma do_label_effect l c c' : do_label server l c = Some c' → effect c c'.
Proof.
  intros Hl. destruct l; cbn [do_label] in Hl.
  - destruct (lf_now c <=? t); [|done]. injection Hl as <-. by apply eff_same.
  - destruct (lf_signalled c); [done|]. injection Hl as <-. by apply eff_same.
  - destruct (lf_run c); try done. destruct (accept_loop_step _ _ _ _ _) as [pc js]. injection Hl as <-.
    destruct (use_eq k (set_accept pc js c)) as [m ->]. by apply eff_same.
  - case_bool_decide; [|done]. injection Hl as <-. by apply eff_same.
  - case_bool_decide; [|done]. injection Hl as <-. apply eff_other; simpl; [done| |by left].
    intros y pc [[_ [= <-]]|[_ Hy]]%lookup_insert_Some; eauto.
  - case_bool_decide; [|done]. by eapply request_step_effect.
  - unfold loop_step in Hl. destruct (lf_loops c !! id) as [l|]; [|done]. injection Hl as <-.
    assert (Hput : ∀ l', effect c (use k (set_project_loops (<[id := l']> (lf_loops c)) c))).
    { intros l'. destruct (use_eq k (set_project_loops (<[id := l']> (lf_loops c)) c)) as [m ->]. by apply eff_same. }
    destruct (run_project_socket_step _ _ _ _ _); [apply Hput..|by apply eff_same].
  - destruct (lf_loops c !! id); [|done]. injection Hl as <-. apply eff_other; simpl; [done|by left|].
    intros y g [_ Hy]%lookup_delete_Some. by left.
  - destruct (serves _ _ _ && _); [|done]. simpl in Hl. injection Hl as <-. apply eff_other; simpl; [done|by left|].
    intros y g [[_ <-]|[_ Hy]]%lookup_insert_Some; [by right|by left].
  - unfold life_get_step in Hl. destruct (lf_gets c !! conn) as [g|] eqn:Hg; [|done].
    destruct (serves _ _ _); [|done]. destruct (get_step _ _ _) as [r s'] eqn:Hstep. injection Hl as <-.
    by apply (eff_get _ _ conn g r).
  - destruct (ch_queue _); [done|]. injection Hl as <-. by apply eff_same.
  - by eapply run_step_effect.
Qed.

(** ** The invariant *)

Record life_inv c : Prop := mk_life_inv {
  li_typed : state_typed server c.(lf_state);
  li_genuine : caches_genuine c.(lf_state);
  li_reqs : ∀ x pc, c.(lf_reqs) !! x = Some (Handling pc) → pc_typed c.(lf_state) pc;
  li_gets : map_Forall (λ _ g, task_ok g) c.(lf_gets);
}.

Lemma next_request_lookup t x r reqs y pc :
  next_request t x r reqs !! y = Some (Handling pc) →
  (y = x ∧ r = inl pc) ∨ reqs !! y = Some (@Handling Fnox pc).
Proof.
  unfold next_request. destruct r as [pc'|j].
  - destruct pc' as [| | | | | | |? ? [l|]| | | | | | |];
      (intros [[-> [= <-]]|[_ Hy]]%lookup_insert_Some; [by left|by right]) || idtac.
    intros [[_ [=]]|[_ Hy]]%lookup_insert_Some. by right.
  - intros [_ Hy]%lookup_delete_Some. by right.
Qed.

Lemma effect_inv c c' : effect c c' → life_inv c → life_inv c'.
Proof.
  intros [x pc r Hx Hstep Hr Hg|x g r Hx Hstep Hr Hg|Hsame Hr Hg] [Ht Hc Hq Hgets].
  - destruct (admin_step_typed server _ _ _ _ Hstep Ht (Hq x pc Hx)) as (Ht' & He & Hn).
    destruct (admin_step_ok _ _ _ _ _ Hstep Hc) as [_ Hc']. split; [done|done| |by rewrite Hg].
    intros y pc'. rewrite Hr. intros [[-> ->]|Hy]%next_request_lookup; [done|]. eapply pc_typed_ext; eauto.
  - destruct (get_step_typed server Hserver _ _ _ _ _ Hstep Ht) as [Ht' He]. pose proof (Hgets x g Hx) as Hok.
    destruct g as [[id name peer start] gpc checked]. simpl in *.
    destruct (get_step_ok _ _ _ _ _ _ _ _ _ Hstep Hc Hok) as (Hc' & Hres). split; [done|done| |].
    + intros y pc'. rewrite Hr. intros Hy. eapply pc_typed_ext; eauto.
    + rewrite Hg. destruct r as [pc'|j]; [|by apply map_Forall_delete]. apply map_Forall_insert_2; [|done].
      by destruct Hres as [_ Hpc'].
  - destruct Hsame as (Hh & Hn & Hm). split.
    + apply (state_typed_same server (lf_state c)); [done|done|by rewrite Hm|done].
    + unfold caches_genuine. by rewrite Hh.
    + intros y pc [Hy|[(req & ->)|(id & ->)]]%Hr; [|done..].
      eapply pc_typed_ext; [|by eapply Hq]. by apply heap_ext_same.
    + intros y g [Hy|Hy]%Hg; [by eapply Hgets|]. unfold task_ok. by rewrite Hy.
Qed.

Lemma reachable_life_inv s t ls c :
  state_typed server s → caches_genuine s → run_labels server ls (life_init s t) = Some c → life_inv c.
Proof.
  intros Hs Hg Hrun. eapply run_labels_invariant; [|exact Hrun|].
  - intros l c1 c2 Hl. by eapply effect_inv, do_label_effect.
  - split; simpl; [done|done|done|apply map_Forall_empty].
Qed.

(** A daemon without projects. *)
Lemma no_projects_ok s :
  s.(ss_reg).(rs_heap) = ∅ → s.(ss_reg).(rs_map) = ∅ → state_typed server s ∧ caches_genuine s.
Proof.
  intros Hh Hm. split; [split|]; unfold caches_genuine; rewrite ?Hh, ?Hm; [done..|apply map_Forall_empty].
Qed.

(** C11: the daemon is safe for its whole life.  Start it without projects; let
    connections come, go, fail and be aborted, requests and [get]s overlap in
    any way, SIGTERM arrive and the shutdown take its course to the end.  At
    every moment, a [get] about to send a value sends it for a name that the
    allowlist named when the request loaded the manifest, and sends what the
    backend answered for that very name; and every registered name leads to a
    project of that name, with a validated manifest and a cache within the
    schema's bounds. *)
Theorem life_safe s t ls c :
  s.(ss_reg).(rs_heap) = ∅ → s.(ss_reg).(rs_map) = ∅ → run_labels server ls (life_init s t) = Some c →
  (∀ x g j s', c.(lf_gets) !! x = Some g →
     get_step g.(gt_call) g.(gt_pc) c.(lf_state) = (inr j, s') → succeeded j →
     allowed g.(gt_call).(gc_id) g.(gt_call).(gc_name) g.(gt_checked) ∧
     ∃ v ttl n f, j = get_response_to_json (get_utf8 v ttl) ∧
                  fnox_get n f g.(gt_call).(gc_name) = Ok (Some v)) ∧
  (∀ name id, c.(lf_state).(ss_reg).(rs_map) !! name = Some id →
     ∃ p, c.(lf_state).(ss_reg).(rs_heap) !! id = Some p ∧ p.(p_name) = name ∧
          good_manifest p.(p_project_path) name p.(p_manifest) ∧ (size p.(p_cache).(c_map) ≤ 1024)%nat).
Proof.
  intros Hh Hm Hrun. destruct (no_projects_ok s Hh Hm) as [Hs Hg].
  destruct (reachable_life_inv s t ls c Hs Hg Hrun) as [Ht Hc _ Hgets]. split.
  - intros x [[id name peer start] pc checked] j s' Hx Hstep Hok. simpl in *.
    destruct (get_step_ok _ _ _ _ _ _ _ _ _ Hstep Hc (Hgets x _ Hx)) as (_ & _ & Hj).
    destruct (Hj Hok) as (Ha & v & ttl & Hv & n & f & Hf). eauto 10.
  - intros name id Hid. destruct (st_map _ _ Ht name id Hid) as (p & Hp & <-).
    destruct (st_heap _ _ Ht id p Hp) as [[_ Hgm _ [Hsz _]] _]. eauto.
Qed.

End whole.

(** ** Witness *)

(** A project is registered and a container connects; SIGTERM arrives while its
    [get] waits for the backend, and the shutdown has begun when it answers. *)
Definition get_in_shutdown : list label :=
  connected ++ demo_request 0 ++
  [LoopPoll 0 NoConn true; LoopPoll 0 NewConn true; NewGet 0 1 "GITHUB_TOKEN" demo_peer;
   GetStep 1; GetStep 1; GetStep 1; Signal; AdminPoll NoConn; RunStep true; GetStep 1; RunStep true;
   GetStep 1; GetStep 1].

Local Abbreviation demo_get_step g :=
  (@get_step string demo_os demo_unicode demo_order demo_fnox g.(gt_call) g.(gt_pc)
     (demo_life get_in_shutdown).(lf_state)).

Lemma get_in_shutdown_answers :
  (λ g, (demo_get_step g).1) <$> (demo_life get_in_shutdown).(lf_gets) !! 1%nat =
    Some (inr (get_response_to_json (get_utf8 "ghp_1" 600))) ∧
  (demo_life get_in_shutdown).(lf_run) = RTake (from_secs 5).
Proof. split; vm_compute; reflexivity. Qed.

Lemma life_safe_witness :
  ∃ g, (demo_life get_in_shutdown).(lf_gets) !! 1%nat = Some g ∧
    allowed g.(gt_call).(gc_id) g.(gt_call).(gc_name) g.(gt_checked).
Proof.
  pose proof (@life_safe string demo_os (demo_imds "{}") demo_toml demo_unicode demo_order demo_fnox counting_notify
    demo_server demo_server_ok demo_started 0 get_in_shutdown (demo_life get_in_shutdown)) as Hsafe.
  destruct Hsafe as [Hget _]; [vm_compute; reflexivity..|].
  pose proof (proj1 get_in_shutdown_answers) as Hj.
  destruct ((demo_life get_in_shutdown).(lf_gets) !! 1%nat) as [g|] eqn:Hg; [|discriminate].
  exists g. split; [reflexivity|].
  change (Some (demo_get_step g).1 = Some (inr (get_response_to_json (get_utf8 "ghp_1" 600)))) in Hj.
  destruct (demo_get_step g) as [r s'] eqn:Hs. apply (inj Some) in Hj. change (r = inr (get_response_to_json (get_utf8 "ghp_1" 600))) in Hj.
  subst r. exact (proj1 (Hget 1%nat g _ s' Hg Hs eq_refl)).
Defined.
