(* ===== verification/Harness.v ===== *)
(** * The kill test and the soak test ([examples/killtest.rs], [examples/soak.rs])

    The two drivers start the daemon, load it and judge what they find: the
    kill test kills it, greps the disk for secret values and checks that the
    audit log is JSON lines; the soak test counts operations and audit lines.
    Here is what they make of what they find, which is data ([Round], the lists
    of results): the search of a directory tree, the check of the log, the mix
    of requests a worker sends, the totals and the verdicts; with what the
    daemon's guarantees ([AuditLog]) imply for them.  Where the data comes from,
    the daemon under the drivers' requests and kills, is in [Drivers] and the
    files after it. *)

From S2P Require Import Prelude Str Path Json AuditLog.
Open Scope Z_scope.

Definition TRIPWIRE_VALUES : list (string * string) :=
  [("S0", "tripwire-S0-DO-NOT-LEAK"); ("S1", "tripwire-S1-DO-NOT-LEAK"); ("S2", "tripwire-S2-DO-NOT-LEAK")].

(** [env_u64]: a variable that is missing or no [u64] counts as not set. *)
Definition env_u64 (env : string → option string) (name : string) (default_value : Z) : Z :=
  default default_value (env name ≫= λ s, parse_uint u64_max (bytes s)).

Definition dquote : string := of_bytes ["034"%char].
Definition newline : string := of_bytes [NL].
Definition quoted (s : string) : string := dquote +:+ s +:+ dquote.

(** ** Searching a directory tree *)

(** What is at a path: a file with its bytes, or [None] if it cannot be read;
    a directory with its entries in the order [read_dir] lists them, or [None];
    anything else (a socket). *)
Inductive tree : Type :=
  | FileNode (content : option (list ascii))
  | DirNode (entries : option (list (string * tree)))
  | OtherNode.

(** The regular files under a path, in the order [walk] pushes them. *)
Fixpoint walk_entry (path : string) (t : tree) : list (string * option (list ascii)) :=
  match t with
  | FileNode content => [(path, content)]
  | DirNode (Some entries) =>
      (fix walk (l : list (string * tree)) :=
         match l with
         | [] => []
         | (name, t) :: l => walk_entry (join path name) t ++ walk l
         end) entries
  | DirNode None | OtherNode => []
  end.

(** [str::contains]. *)
Fixpoint contains (needle hay : list ascii) : bool :=
  match strip_prefix needle hay with
  | Some _ => true
  | None => match hay with [] => false | _ :: hay => contains needle hay end
  end.

(** The first tripwire value in a text. *)
Fixpoint find_value (tripwires : list (string * string)) (content : string) : option string :=
  match tripwires with
  | [] => None
  | (_, value) :: rest =>
      if contains (bytes value) (bytes content) then Some value else find_value rest content
  end.

(** [read_to_string]. *)
Definition read_text (content : option (list ascii)) : option string := content ≫= from_utf8.

Fixpoint grep_files (excluded : list string) (files : list (string * option (list ascii)))
    : option (string * string) :=
  match files with
  | [] => None
  | (f, content) :: files =>
      if existsb (λ e, bool_decide (e = f)) excluded then grep_files excluded files
      else match read_text content ≫= find_value TRIPWIRE_VALUES with
           | Some value => Some (f, value)
           | None => grep_files excluded files
           end
  end.

(** The root is listed as a directory, whatever it is. *)
Definition grep_tripwires_under (root : string) (entries : option (list (string * tree)))
    (excluded : list string) : option (string * string) :=
  grep_files excluded (walk_entry root (DirNode entries)).

(** ** The audit log *)

Section log.
Context `{SerdeJson}.

(** The lines from number [i] on: a panic names the first one that is neither
    empty nor JSON. *)
Fixpoint check_lines (i : Z) (ls : list string) : result (Z * string) unit :=
  match ls with
  | [] => Ok tt
  | line :: ls =>
      if decide (line = "") then check_lines (i + 1) ls
      else match from_slice (bytes line) with
           | Some _ => check_lines (i + 1) ls
           | None => Err (i, line)
           end
  end.

(** A log that cannot be read as text is passed over. *)
Definition assert_audit_log_parseable (file : option (list ascii)) : result (Z * string) unit :=
  match read_text file with
  | None => Ok tt
  | Some content => check_lines 1 (lines content)
  end.

(** The audit lines [main] reports: those that are not empty. *)
Definition audit_lines (file : option (list ascii)) : Z :=
  match read_text file with
  | None => 0
  | Some content => Z.of_nat (length (filter (λ line, line ≠ "") (lines content)))
  end.

(** ** The rounds of the kill test *)

(** What a round finds: whether each round trip of the burst brought a line or
    an error; then, with the daemon killed, the directory and the log. *)
Record Round : Type := mkRound {
  rd_answers : list bool;
  rd_entries : option (list (string * tree));
  rd_log : option (list ascii);
}.

Inductive KillPanic : Type :=
  | TripwireFound (round : Z) (value file : string)
  | NotJson (line_number : Z) (line : string).

Record Totals : Type := mkTotals { total_kills : Z; total_gets : Z; errors_across_rounds : Z }.

(** [gets_this_round] and [errs_this_round], from [(0, 0)]. *)
Definition count_answer (ne : Z * Z) (answered : bool) : Z * Z :=
  if answered then (ne.1 + 1, ne.2) else (ne.1, ne.2 + 1).

Definition excluded_files (sandbox : string) : list string :=
  [join sandbox "fnox.toml"; join (join (join sandbox "victim") ".remo") "broker.toml"].

Definition kill_round (sandbox : string) (round : Z) (r : Round) (t : Totals) : result KillPanic Totals :=
  let '(gets_this_round, errs_this_round) := foldl count_answer (0, 0) r.(rd_answers) in
  let t' := mkTotals (t.(total_kills) + 1) (t.(total_gets) + gets_this_round)
              (t.(errors_across_rounds) + errs_this_round) in
  match grep_tripwires_under sandbox r.(rd_entries) (excluded_files sandbox) with
  | Some (file, value) => Err (TripwireFound round value file)
  | None => _ ← map_err (λ '(i, line), NotJson i line) (assert_audit_log_parseable r.(rd_log)); Ok t'
  end.

Fixpoint kill_rounds (sandbox : string) (round : Z) (rs : list Round) (t : Totals)
    : result KillPanic Totals :=
  match rs with
  | [] => Ok t
  | r :: rs => t' ← kill_round sandbox round r t; kill_rounds sandbox (round + 1) rs t'
  end.

Definition killtest (sandbox : string) (rs : list Round) : result KillPanic Totals :=
  kill_rounds sandbox 1 rs (mkTotals 0 0 0).

End log.

(** The configuration the kill test gives the daemon; it holds the values. *)
Definition fnox_toml : string :=
  foldl (λ acc nv, acc +:+ nv.1 +:+ " = { provider = " +:+ quoted "plain" +:+ ", value = " +:+ quoted nv.2 +:+ " }" +:+ newline)
    ("[providers]" +:+ newline +:+ "plain = { type = " +:+ quoted "plain" +:+ " }" +:+ newline +:+ newline
       +:+ "[secrets]" +:+ newline)
    TRIPWIRE_VALUES.

(** ** The soak test *)

(** The line of /proc/<pid>/status that says how much memory is resident. *)
Fixpoint read_rss_lines (ls : list string) : option Z :=
  match ls with
  | [] => None
  | line :: ls =>
      match strip_prefix (bytes "VmRSS:") (bytes line) with
      | Some rest => v ← head (split_whitespace (of_bytes rest)); parse_uint u64_max (bytes v)
      | None => read_rss_lines ls
      end
  end.
Definition read_rss_kib (status : option string) : option Z :=
  s ← status; read_rss_lines (lines s).

Inductive worker_op : Type := OpGet (secret : Z) | OpPing | OpInfo.

(** What a worker sends at [tick]. *)
Definition pick (tick : Z) : worker_op :=
  let op_pick := tick mod 5 in
  let secret_pick := (tick / 5) mod 10 in
  if op_pick <=? 2 then OpGet secret_pick
  else if op_pick =? 3 then OpPing
  else OpInfo.

Definition payload (op : worker_op) : string :=
  match op with
  | OpGet s => "{" +:+ quoted "op" +:+ ":" +:+ quoted "get" +:+ "," +:+ quoted "name" +:+ ":"
                 +:+ quoted ("S" +:+ dec s) +:+ "}" +:+ newline
  | OpPing => "{" +:+ quoted "op" +:+ ":" +:+ quoted "ping" +:+ "}" +:+ newline
  | OpInfo => "{" +:+ quoted "op" +:+ ":" +:+ quoted "info" +:+ "}" +:+ newline
  end.

Definition is_get (op : worker_op) : bool := match op with OpGet _ => true | _ => false end.

(** The operations of a worker, each with whether it brought a line or an
    error; [tick] stays far from [u64::MAX], one step per operation. *)
Fixpoint worker (tick : Z) (results : list bool) : list (worker_op * bool) :=
  match results with
  | [] => []
  | r :: results => (pick tick, r) :: worker (tick + 1) results
  end.

(** The workers are numbered from [worker_id] and start at their number. *)
Fixpoint workers (worker_id : Z) (all : list (list bool)) : list (worker_op * bool) :=
  match all with
  | [] => []
  | results :: all => worker worker_id results ++ workers (worker_id + 1) all
  end.

(** [total_ops] and [errors]. *)
Definition count_op (te : Z * Z) (x : worker_op * bool) : Z * Z :=
  if x.2 then (wrap_u64 (te.1 + 1), te.2) else (te.1, wrap_u64 (te.2 + 1)).

(** The judgement of a run: the complaints, none if it passed. *)
Definition verdict (pcount errs total final_rss_mib rss_cap_mib audit_lines : Z) : list string :=
  (if 0 <? pcount then [dec pcount +:+ " worker tasks panicked"] else []) ++
  (if total <? wrap_u64 (errs * 100)
   then ["error rate " +:+ dec (wrap_u64 (errs * 100) / Z.max total 1) +:+ "% exceeds 1% threshold"]
   else []) ++
  (if rss_cap_mib <? final_rss_mib
   then ["RSS " +:+ dec final_rss_mib +:+ " MiB exceeds cap " +:+ dec rss_cap_mib +:+ " MiB"] else []) ++
  (if 5 <=? total then
     let expected_audit_floor := wrap_u64 (total * 2) / 5 in
     if audit_lines <? expected_audit_floor
     then ["audit lines " +:+ dec audit_lines +:+ " less than expected floor " +:+
           dec expected_audit_floor +:+ " (~3/5 of " +:+ dec total +:+ " ops)"]
     else []
   else []).

Definition soak (all : list (list bool)) (pcount final_rss_kib rss_cap_mib audit_lines : Z) : list string :=
  let '(total, errs) := foldl count_op (0, 0) (workers 0 all) in
  verdict pcount errs total (final_rss_kib / 1024) rss_cap_mib audit_lines.

Example verdict_ok : verdict 0 0 500 20 60 300 = [].
Proof. reflexivity. Qed.
Example payload_get : payload (pick 7) = payload (OpGet 1).
Proof. reflexivity. Qed.
Example rss_found : read_rss_kib (Some ("VmSize:  9 kB" +:+ newline +:+ "VmRSS:    1234 kB" +:+ newline)) = Some 1234.
Proof. vm_compute. reflexivity. Qed.

(** ** The search is exact *)

Definition substring (v s : string) : Prop := ∃ a b, bytes s = a ++ bytes v ++ b.

Lemma contains_iff needle hay : contains needle hay = true ↔ ∃ a b, hay = a ++ needle ++ b.
Proof.
  induction hay as [|x hay IH]; simpl.
  - destruct (strip_prefix needle []) as [r|] eqn:Hp.
    + apply strip_prefix_Some in Hp. split; [|done]. intros _. by exists [], r.
    + split; [done|]. intros ([|? ?] & b & Heq); [|done]. simpl in Heq.
      apply strip_prefix_Some in Heq. congruence.
  - destruct (strip_prefix needle (x :: hay)) as [r|] eqn:Hp.
    + apply strip_prefix_Some in Hp. split; [|done]. intros _. by exists [], r.
    + rewrite IH. split.
      * intros (a & b & ->). by exists (x :: a), b.
      * intros ([|y a] & b & Heq); simplify_eq/=; [|eauto].
        apply strip_prefix_Some in Heq. congruence.
Qed.

Lemma find_value_spec tw s :
  match find_value tw s with
  | Some v => ∃ n, (n, v) ∈ tw ∧ substring v s
  | None => ∀ n v, (n, v) ∈ tw → ¬ substring v s
  end.
Proof.
  induction tw as [|[n v] tw IH]; simpl; [intros n v Hin; by apply not_elem_of_nil in Hin|].
  destruct (contains (bytes v) (bytes s)) eqn:Hc.
  - exists n. split; [left|]. by apply contains_iff.
  - destruct (find_value tw s) as [v'|].
    + destruct IH as (n' & ? & ?). exists n'. split; [by right|done].
    + intros n' v' [[= -> ->]|Hin]%elem_of_cons; [|by eapply IH].
      unfold substring. rewrite <-contains_iff. congruence.
Qed.

(** A file that gives a secret value away. *)
Definition leaks (excluded : list string) (files : list (string * option (list ascii))) (f v : string) : Prop :=
  ∃ c s n, (f, c) ∈ files ∧ f ∉ excluded ∧ read_text c = Some s ∧ (n, v) ∈ TRIPWIRE_VALUES ∧ substring v s.

Lemma leaks_cons excluded f0 c0 files f v :
  leaks excluded ((f0, c0) :: files) f v ↔
  (f = f0 ∧ f ∉ excluded ∧ ∃ s n, read_text c0 = Some s ∧ (n, v) ∈ TRIPWIRE_VALUES ∧ substring v s) ∨
  leaks excluded files f v.
Proof.
  unfold leaks. split.
  - intros (c & s & n & [[= -> ->]|Hin]%elem_of_cons & Hrest); [left|right]; naive_solver.
  - intros [(-> & Hx & s & n & Hrest)|(c & s & n & Hin & Hrest)].
    + exists c0, s, n. split; [left|done].
    + exists c, s, n. split; [by right|done].
Qed.

Lemma grep_files_spec excluded files :
  match grep_files excluded files with
  | Some (f, v) => leaks excluded files f v
  | None => ∀ f v, ¬ leaks excluded files f v
  end.
Proof.
  induction files as [|[f0 c0] files IH]; cbn [grep_files].
  { intros f v (c & s & n & Hin & _). by apply not_elem_of_nil in Hin. }
  destruct (existsb _ excluded) eqn:Hex.
  - apply existsb_exists in Hex as (e & He & ->%bool_decide_eq_true). apply list_elem_of_In in He.
    destruct (grep_files excluded files) as [[f v]|]; [apply leaks_cons; by right|].
    intros f v [(-> & Hx & _)|Hl]%leaks_cons; [done|by eapply IH].
  - assert (f0 ∉ excluded) as Hf0.
    { intros Hin%list_elem_of_In. assert (existsb (λ e, bool_decide (e = f0)) excluded = true); [|congruence].
      apply existsb_exists. exists f0. by rewrite bool_decide_true. }
    destruct (read_text c0) as [s|] eqn:Hs; cbn [mbind option_bind].
    + pose proof (find_value_spec TRIPWIRE_VALUES s) as Hfind.
      destruct (find_value TRIPWIRE_VALUES s) as [v|].
      * destruct Hfind as (n & Hn & Hv). apply leaks_cons. left. eauto 10.
      * destruct (grep_files excluded files) as [[f v]|]; [apply leaks_cons; by right|].
        intros f v [(-> & _ & s' & n & Hs' & Hn & Hv)|Hl]%leaks_cons; [|by eapply IH].
        rewrite Hs in Hs'. injection Hs' as <-. by eapply Hfind.
    + destruct (grep_files excluded files) as [[f v]|]; [apply leaks_cons; by right|].
      intros f v [(-> & _ & s' & n & Hs' & _)|Hl]%leaks_cons; [congruence|by eapply IH].
Qed.

(** The kill test's search for secret values on disk is exact: it reports a
    file and a value only if that file is under the root, not excluded, and
    contains the value; and when it reports nothing, no readable text file
    under the root, excluded ones apart, contains any of the values. *)
Theorem grep_exact root entries excluded :
  match grep_tripwires_under root entries excluded with
  | Some (f, v) => leaks excluded (walk_entry root (DirNode entries)) f v
  | None => ∀ f v, ¬ leaks excluded (walk_entry root (DirNode entries)) f v
  end.
Proof. apply grep_files_spec. Qed.

(** ** The verdict of the kill test *)

Section verdict.
Context `{SerdeJson}.

Definition good_line (line : string) : Prop := line = "" ∨ is_Some (from_slice (bytes line)).

Lemma check_lines_spec i ls :
  match check_lines i ls with
  | Ok _ => Forall good_line ls
  | Err (j, line) => i ≤ j ∧ ls !! Z.to_nat (j - i) = Some line ∧ ¬ good_line line
  end.
Proof.
  revert i. induction ls as [|l ls IH]; intros i; cbn [check_lines]; [constructor|].
  assert (Hrec : good_line l →
    match check_lines (i + 1) ls with
    | Ok _ => Forall good_line (l :: ls)
    | Err (j, line) => i ≤ j ∧ (l :: ls) !! Z.to_nat (j - i) = Some line ∧ ¬ good_line line
    end).
  { intros Hl. specialize (IH (i + 1)). destruct (check_lines (i + 1) ls) as [?|[j line]]; [by constructor|].
    destruct IH as (Hij & Hlk & Hbad). split_and!; [lia| |done].
    by replace (Z.to_nat (j - i)) with (S (Z.to_nat (j - (i + 1)))) by lia. }
  case_decide as He; [by apply Hrec; left|].
  destruct (from_slice (bytes l)) as [j|] eqn:Hj; [apply Hrec; right; by eexists|].
  split_and!; [lia|by rewrite Z.sub_diag|]. intros [?|[? ?]]; congruence.
Qed.

Lemma read_text_bytes bs content : read_text (Some bs) = Some content → bytes content = bs.
Proof.
  unfold read_text. simpl. unfold from_utf8. case_match; [|done]. intros [= <-]. apply bytes_of_bytes.
Qed.

(** Every line of the log, as far as it is text, is empty or JSON. *)
Definition log_good (file : option (list ascii)) : Prop :=
  ∀ content, read_text file = Some content → Forall good_line (lines content).
Definition log_bad_at (file : option (list ascii)) (i : Z) (line : string) : Prop :=
  ∃ content, read_text file = Some content ∧ 1 ≤ i ∧ lines content !! Z.to_nat (i - 1) = Some line ∧
    ¬ good_line line.

Lemma log_check_spec file :
  match assert_audit_log_parseable file with
  | Ok _ => log_good file
  | Err (i, line) => log_bad_at file i line
  end.
Proof.
  unfold assert_audit_log_parseable, log_good, log_bad_at. destruct (read_text file) as [content|]; [|done].
  pose proof (check_lines_spec 1 (lines content)) as Hc.
  destruct (check_lines 1 (lines content)) as [?|[i line]]; [by intros ? [= <-]|eauto].
Qed.

Definition files_of (sandbox : string) (r : Round) : list (string * option (list ascii)) :=
  walk_entry sandbox (DirNode r.(rd_entries)).
Definition clean (sandbox : string) (r : Round) : Prop :=
  (∀ f v, ¬ leaks (excluded_files sandbox) (files_of sandbox r) f v) ∧ log_good r.(rd_log).
Definition answers (rs : list Round) : Z := Z.of_nat (length (concat (map rd_answers rs))).

Lemma count_answers l ne : (foldl count_answer ne l).1 + (foldl count_answer ne l).2 = ne.1 + ne.2 + Z.of_nat (length l).
Proof.
  revert ne. induction l as [|b l IH]; intros ne; cbn [foldl length]; [lia|].
  rewrite IH. destruct b; simpl; lia.
Qed.

Lemma kill_round_spec sandbox round r t :
  match kill_round sandbox round r t with
  | Ok t' => clean sandbox r ∧ t'.(total_kills) = t.(total_kills) + 1 ∧
      t'.(total_gets) + t'.(errors_across_rounds) =
        t.(total_gets) + t.(errors_across_rounds) + Z.of_nat (length r.(rd_answers))
  | Err (TripwireFound k v f) => k = round ∧ leaks (excluded_files sandbox) (files_of sandbox r) f v
  | Err (NotJson i line) => log_bad_at r.(rd_log) i line
  end.
Proof.
  unfold kill_round. pose proof (count_answers r.(rd_answers) (0, 0)) as Hc.
  destruct (foldl count_answer (0, 0) (rd_answers r)) as [g e]. simpl in Hc.
  pose proof (grep_exact sandbox r.(rd_entries) (excluded_files sandbox)) as Hg.
  destruct (grep_tripwires_under _ _ _) as [[f v]|]; [done|].
  pose proof (log_check_spec r.(rd_log)) as Hl.
  destruct (assert_audit_log_parseable _) as [?|[i line]]; simpl; [|done].
  split_and!; [split; done|done|lia].
Qed.

Lemma kill_rounds_spec sandbox round rs t :
  match kill_rounds sandbox round rs t with
  | Ok t' => Forall (clean sandbox) rs ∧ t'.(total_kills) = t.(total_kills) + Z.of_nat (length rs) ∧
      t'.(total_gets) + t'.(errors_across_rounds) =
        t.(total_gets) + t.(errors_across_rounds) + answers rs
  | Err (TripwireFound k v f) => ∃ r, round ≤ k ∧ rs !! Z.to_nat (k - round) = Some r ∧
      leaks (excluded_files sandbox) (files_of sandbox r) f v
  | Err (NotJson i line) => ∃ r, r ∈ rs ∧ log_bad_at r.(rd_log) i line
  end.
Proof.
  revert round t. induction rs as [|r rs IH]; intros round t; cbn [kill_rounds].
  { split_and!; [constructor|simpl; lia|unfold answers; simpl; lia]. }
  unfold mbind, result_bind. pose proof (kill_round_spec sandbox round r t) as Hr.
  destruct (kill_round sandbox round r t) as [t1|[k v f|i line]].
  - destruct Hr as (Hclean & Hk & Hsum). specialize (IH (round + 1) t1).
    destruct (kill_rounds sandbox (round + 1) rs t1) as [t'|[k v f|i line]].
    + destruct IH as (Hall & Hk' & Hs'). split_and!; [by constructor|simpl; lia|].
      unfold answers in *. cbn [map concat]. rewrite length_app. lia.
    + destruct IH as (r' & Hle & Hlk & Hleak). exists r'. split_and!; [lia| |done].
      by replace (Z.to_nat (k - round)) with (S (Z.to_nat (k - (round + 1)))) by lia.
    + destruct IH as (r' & Hin & Hbad). exists r'. split; [by right|done].
  - destruct Hr as [-> Hleak]. exists r. split_and!; [lia|by rewrite Z.sub_diag|done].
  - exists r. split; [left|done].
Qed.

(** The verdict of the kill test is right.  It passes only if after every
    kill no readable text file of the sandbox, its own two inputs apart, held
    one of the secret values and every line of the log was empty or JSON, and
    then each round counts one kill and each round trip is counted once.  When
    it panics it names a file that holds the value, in the round it says, or a
    line of the log, by its number, that is not JSON. *)
Theorem killtest_verdict sandbox rs :
  match killtest sandbox rs with
  | Ok t => Forall (clean sandbox) rs ∧ t.(total_kills) = Z.of_nat (length rs) ∧
      t.(total_gets) + t.(errors_across_rounds) = answers rs
  | Err (TripwireFound k v f) => ∃ r, 1 ≤ k ∧ rs !! Z.to_nat (k - 1) = Some r ∧
      leaks (excluded_files sandbox) (files_of sandbox r) f v
  | Err (NotJson i line) => ∃ r, r ∈ rs ∧ log_bad_at r.(rd_log) i line
  end.
Proof. apply (kill_rounds_spec sandbox 1 rs (mkTotals 0 0 0)). Qed.

End verdict.

(** ** The daemon's log passes *)

Section daemon_log.
Context `{Rfc3339, SerdeJson}.

(** The JSON text of an event is read back, and does not end in a CR. *)
Definition readable (e : AuditEvent) : Prop :=
  ∃ j, event_to_json e = Some j ∧ is_Some (from_slice (bytes (to_string j))) ∧
    last (bytes (to_string j)) ≠ Some CR.

Lemma readable_serializable log : Forall readable log → Forall serializable log.
Proof. intros Hl. eapply Forall_impl; [exact Hl|]. intros e (j & Hj & _). by exists j. Qed.

Lemma strip_cr_id l : last l ≠ Some CR → strip_cr l = l.
Proof.
  unfold strip_cr. intros Hl. destruct (reverse l) as [|c r] eqn:Hr.
  - by apply (f_equal reverse) in Hr; rewrite reverse_involutive in Hr.
  - case_decide as Hc; [|done]. subst c. apply (f_equal reverse) in Hr.
    rewrite reverse_involutive, reverse_cons in Hr. subst l. by rewrite last_snoc in Hl.
Qed.

Lemma log_lines log :
  Forall readable log → lines_of (map line_text log ++ [[]]) = map line_text log.
Proof.
  induction 1 as [|e log (j & Hj & _ & Hcr) Hlog IH]; [done|]. simpl.
  destruct (map line_text log ++ [[]]) as [|l ls] eqn:Hls; [by destruct (map line_text log)|].
  rewrite IH. f_equal. apply strip_cr_id. unfold line_text. by rewrite Hj.
Qed.

Lemma log_bytes_good log : Forall readable log → log_good (Some (log_bytes log)).
Proof.
  intros Hlog content Hu%read_text_bytes.
  unfold lines. rewrite Hu, log_bytes_lines, log_lines by (done || by apply readable_serializable).
  apply Forall_map, Forall_map. eapply Forall_impl; [exact Hlog|]. intros e (j & Hj & Hreads & _). right.
  unfold line_text. by rewrite bytes_of_bytes, Hj.
Qed.

(** A daemon's life as its log sees it: what the disk does, what it records. *)
Abbreviation daemon_run := ((nat → FileOutcome) * list AuditEvent)%type.
Definition run_bytes (d : daemon_run) : list ascii := lf_bytes (writer_run d.1 d.2 writer_init).(w_file).
Definition sound_run (d : daemon_run) : Prop := Forall readable d.2 ∧ torn_free d.1.

(** A run without torn writes leaves the lines of some of its events. *)
Lemma run_bytes_log (P : AuditEvent → Prop) d :
  Forall P d.2 → torn_free d.1 → ∃ log, Forall P log ∧ run_bytes d = log_bytes log.
Proof.
  intros Hs Htf.
  destruct (accounted_run d.1 [] [] [] writer_init d.2 (accounted_init d.1)) as (log & popped & Hacc).
  exists log. split; [|exact (ac_bytes _ _ _ _ _ Hacc Htf)].
  pose proof (accounted_perm _ _ _ _ _ Hacc) as Hp. simpl in Hp. rewrite Hp in Hs. by apply Forall_app in Hs as [? _].
Qed.

Lemma runs_bytes_log ds :
  Forall sound_run ds → ∃ log, Forall readable log ∧ concat (map run_bytes ds) = log_bytes log.
Proof.
  induction 1 as [|d ds [Hd Htf] Hds (log & Hlog & IH)]; [by exists []|].
  destruct (run_bytes_log readable d Hd Htf) as (log0 & Hlog0 & Hd'). exists (log0 ++ log).
  split; [by apply Forall_app|]. cbn [map concat]. rewrite Hd', IH. symmetry. apply log_bytes_app.
Qed.

(** The kill test's check passes on the audit log the daemon leaves.  Let
    any number of daemons append to one log in turn, each killed after any
    number of events, however often opening or writing the file failed: as long
    as no write was torn, the check does not panic. *)
Theorem log_check_passes ds :
  Forall sound_run ds → assert_audit_log_parseable (Some (concat (map run_bytes ds))) = Ok tt.
Proof.
  intros (log & Hlog & ->)%runs_bytes_log. pose proof (log_check_spec (Some (log_bytes log))) as Hc.
  destruct (assert_audit_log_parseable _) as [[]|[i line]]; [done|].
  destruct Hc as (content & Hu & _ & Hlk & Hbad). pose proof (log_bytes_good log Hlog content Hu) as Hall.
  rewrite Forall_lookup in Hall. by apply Hall in Hlk.
Qed.

End daemon_log.

(** ** The verdict of the soak test *)

Abbreviation op_done := (worker_op * bool)%type.
Definition count_if (f : op_done → bool) (ops : list op_done) : Z :=
  Z.of_nat (length (filter (λ x, f x = true) ops)).

Lemma count_if_app f l l' : count_if f (l ++ l') = count_if f l + count_if f l'.
Proof. unfold count_if. rewrite filter_app, length_app. lia. Qed.

Lemma count_if_cons f x l : count_if f (x :: l) = (if f x then 1 else 0) + count_if f l.
Proof. unfold count_if. rewrite filter_cons. destruct (f x); simpl; lia. Qed.

Lemma count_if_bound f l : 0 ≤ count_if f l ≤ Z.of_nat (length l).
Proof. unfold count_if. pose proof (length_filter (λ x, f x = true) l). lia. Qed.

Definition sent_get (x : op_done) : bool := is_get x.1.
Definition answered (x : op_done) : bool := x.2.
Definition answered_get (x : op_done) : bool := is_get x.1 && x.2.

(** At most the failed operations separate the answered [get]s from those sent. *)
Lemma answered_gets l :
  count_if sent_get l - (Z.of_nat (length l) - count_if answered l) ≤ count_if answered_get l.
Proof.
  induction l as [|[op r] l IH]; [done|]. rewrite !count_if_cons. unfold sent_get, answered, answered_get in *.
  simpl in *. destruct (is_get op), r; simpl; lia.
Qed.

Lemma worker_app tick l l' : worker tick (l ++ l') = worker tick l ++ worker (tick + Z.of_nat (length l)) l'.
Proof.
  revert tick. induction l as [|r l IH]; intros tick; simpl; [by rewrite Z.add_0_r|].
  rewrite IH. do 3 f_equal. lia.
Qed.

Lemma length_worker tick l : length (worker tick l) = length l.
Proof. revert tick. induction l; intros; simpl; auto. Qed.

Lemma is_get_pick tick : is_get (pick tick) = (tick mod 5 <=? 2).
Proof. unfold pick. destruct (tick mod 5 <=? 2); [done|]. by destruct (_ =? 3). Qed.

(** Any five operations in a row are three [get]s, a [ping] and an [info]. *)
Lemma five_ops tick l : length l = 5%nat → count_if sent_get (worker tick l) = 3.
Proof.
  intros Hl. do 5 (destruct l as [|? l]; [done|]). destruct l; [clear Hl|done].
  cbn [worker]. rewrite !count_if_cons. unfold sent_get. cbn [fst]. rewrite !is_get_pick.
  assert (Hm : ∀ k, (tick + k) mod 5 = (tick mod 5 + k) mod 5).
  { intros k. by rewrite Z.add_mod_idemp_l by lia. }
  rewrite <-!Z.add_assoc, !Hm. pose proof (Z.mod_pos_bound tick 5 ltac:(lia)) as Hb.
  assert (tick mod 5 = 0 ∨ tick mod 5 = 1 ∨ tick mod 5 = 2 ∨ tick mod 5 = 3 ∨ tick mod 5 = 4)
    as [->|[->|[->|[->| ->]]]] by lia; reflexivity.
Qed.

(** A worker misses at most two [get]s beyond its share of the complete rounds. *)
Lemma worker_gets tick l : 3 * Z.of_nat (length l) - 6 ≤ 5 * count_if sent_get (worker tick l).
Proof.
  remember (length l) as n eqn:Hn. revert tick l Hn. induction n as [n IH] using lt_wf_ind. intros tick l Hn.
  destruct (decide (n < 5)%nat) as [Hlt|Hge].
  - pose proof (five_ops tick (l ++ replicate (5 - n) true)) as H5.
    rewrite length_app, length_replicate, worker_app, count_if_app in H5. specialize (H5 ltac:(lia)).
    pose proof (count_if_bound sent_get (worker (tick + Z.of_nat (length l)) (replicate (5 - n) true))) as Hb.
    rewrite length_worker, length_replicate in Hb.
    pose proof (count_if_bound sent_get (worker tick l)). lia.
  - rewrite <-(take_drop 5 l), worker_app, count_if_app, five_ops by (rewrite length_take; lia).
    specialize (IH (n - 5)%nat ltac:(lia) (tick + Z.of_nat (length (take 5 l))) (drop 5 l)).
    rewrite length_drop in IH. specialize (IH ltac:(lia)). lia.
Qed.

Lemma workers_gets id all :
  Forall (λ l, (7 ≤ length l)%nat) all →
  15 * Z.of_nat (length (workers id all)) ≤ 35 * count_if sent_get (workers id all).
Proof.
  intros Hall. revert id. induction Hall as [|l all Hl Hall IH]; intros id; cbn [workers]; [done|].
  rewrite count_if_app, length_app, length_worker. specialize (IH (id + 1)).
  pose proof (worker_gets id l). lia.
Qed.

(** The counters, as long as they do not wrap. *)
Lemma count_op_spec l t e :
  0 ≤ t → 0 ≤ e → t + e + Z.of_nat (length l) < 2 ^ 64 →
  foldl count_op (t, e) l = (t + count_if answered l, e + Z.of_nat (length l) - count_if answered l).
Proof.
  revert t e. induction l as [|x l IH]; intros t e Ht He Hb; cbn [foldl length] in *.
  { unfold count_if. simpl. f_equal; lia. }
  rewrite count_if_cons. unfold count_op at 2. unfold answered at 1 3. simpl fst. simpl snd.
  destruct x.2; unfold wrap_u64; rewrite Z.mod_small by lia; rewrite IH by lia; f_equal; lia.
Qed.

(** The soak test does not cry wolf.  If no worker panicked, each got
    through at least seven operations, at most one in a hundred failed, memory
    stayed within the cap and the log has a line for every [get] that was
    answered, then there is nothing to complain about: the floor of two fifths
    asked of the audit lines is sound for the mix of requests sent. *)
Theorem soak_sound all rss cap audit :
  let ops := workers 0 all in
  Forall (λ l, (7 ≤ length l)%nat) all → Z.of_nat (length ops) < 2 ^ 57 →
  100 * (Z.of_nat (length ops) - count_if answered ops) ≤ count_if answered ops →
  rss / 1024 ≤ cap → count_if answered_get ops ≤ audit →
  soak all 0 rss cap audit = [].
Proof.
  intros ops Hall Hbig Herr Hrss Haudit. unfold soak. fold ops.
  rewrite count_op_spec by lia. pose proof (workers_gets 0 all Hall) as Hg. fold ops in Hg.
  pose proof (answered_gets ops) as Ha. pose proof (count_if_bound answered ops) as Hb.
  rewrite !Z.add_0_l. set (total := count_if answered ops) in *. set (n := Z.of_nat (length ops)) in *.
  assert (wrap_u64 ((n - total) * 100) = (n - total) * 100 ∧ wrap_u64 (total * 2) = total * 2) as [Hw1 Hw2].
  { unfold wrap_u64. split; apply Z.mod_small; lia. }
  unfold verdict. rewrite Hw1, Hw2.
  rewrite (proj2 (Z.ltb_ge total _)) by lia. rewrite (proj2 (Z.ltb_ge cap _)) by lia. simpl.
  destruct (5 <=? total); [|done]. rewrite (proj2 (Z.ltb_ge _ _)); [done|].
  assert (total * 2 / 5 ≤ count_if answered_get ops); [|lia].
  apply Z.div_le_upper_bound; lia.
Qed.

(** ** Witnesses *)

(** The compact printer with a reader that accepts what looks like an object. *)
Definition object_reader : SerdeJson.
Proof.
  refine (mkSerdeJson (λ j, of_bytes (compact j))
    (λ bs, match bs, last bs with "{"%char :: _, Some "}"%char => Some JNull | _, _ => None end) _).
  intros j. rewrite bytes_of_bytes. apply compact_no_nl.
Defined.

Definition demo_runs : list ((nat → FileOutcome) * list AuditEvent) :=
  [((λ n, match n with O => OpenFails demo_enospc | _ => WriteOk end), [demo_fetch "A"; demo_fetch "B"]);
   ((λ _, WriteOk), [demo_fetch "C"])].

Lemma log_check_passes_witness :
  @assert_audit_log_parseable object_reader
    (Some (concat (map (@run_bytes demo_clock object_reader) demo_runs))) = Ok tt.
Proof.
  apply (@log_check_passes demo_clock object_reader).
  - constructor; [|constructor; [|constructor]];
      (split; [repeat (constructor; [eexists; split; [reflexivity|vm_compute; split; [by eexists|discriminate]]|]); constructor|]).
    + intros [|n] k err; discriminate.
    + intros n k err. discriminate.
Defined.

(** Two workers, one of which fails once in a hundred operations. *)
Definition demo_soak : list (list bool) := [replicate 100 true ++ [false]; replicate 20 true].

Lemma soak_sound_witness : soak demo_soak 0 20480 60 72 = [].
Proof.
  apply soak_sound.
  - constructor; [|constructor; [|constructor]]; vm_compute; lia.
  - vm_compute. reflexivity.
  - vm_compute. discriminate.
  - vm_compute. discriminate.
  - vm_compute. discriminate.
Defined.

(** The inputs hold the values, so the exclusion matters; a value in the log is
    found. *)
Definition demo_sandbox (log : string) : list (string * tree) :=
  [("fnox.toml", FileNode (Some (bytes fnox_toml))); ("run", DirNode (Some [("admin.sock", OtherNode)]));
   ("audit.log", FileNode (Some (bytes log)))].
Example inputs_excluded : grep_tripwires_under "/tmp/k" (Some (demo_sandbox "")) (excluded_files "/tmp/k") = None.
Proof. vm_compute. reflexivity. Qed.
Example inputs_hold_values :
  grep_tripwires_under "/tmp/k" (Some (demo_sandbox "")) [] = Some ("/tmp/k/fnox.toml", "tripwire-S0-DO-NOT-LEAK").
Proof. vm_compute. reflexivity. Qed.
Example leak_found :
  @killtest object_reader "/tmp/k"
    [mkRound [true; false] (Some (demo_sandbox "x tripwire-S2-DO-NOT-LEAK y")) None]
  = Err (TripwireFound 1 "tripwire-S2-DO-NOT-LEAK" "/tmp/k/audit.log").
Proof. vm_compute. reflexivity. Qed.
