(* ===== verification/Drivers.v ===== *)
(** * Clients of the daemon ([examples/], [benches/latency.rs])

    What the kill test, the soak test and the benchmark share as clients of the modelled
    daemon: the texts they write, the connections they open (each one request,
    one line back), how they start the daemon and register their projects, and
    what they then find.  [connect] is [UnixStream::connect] on the socket files
    of the daemon; killing the daemon leaves its socket files behind with
    nothing listening ([kill_nodes]).  Waiting in real time is not modelled: a
    poll for a socket is made when the daemon has set up.  The kill test goes on
    in [Recovery], the soak test and the benchmark in [Load]. *)

From S2P Require Import Prelude Str Path Json JsonText Os Manifest Cache Config AuditLog Backend Proto Registry Bootstrap Server Fetch Admin Client Conn EndToEnd Daemon Main Harness.
Open Scope Z_scope.

(** ** Texts *)

(** [format!("{{\"op\":\"register\",..}}")]: no escaping. *)
Definition register_request (name project_path : string) : string :=
  dq "{'op':'register','name':'" +:+ name +:+ dq "','project_path':'" +:+ display project_path +:+ dq "'}".
Definition get_request (name : string) : string :=
  dq "{'op':'get','name':'" +:+ name +:+ dq "'}".

Definition OK_TRUE : string := dq "'ok':true".

(** The manifest a driver writes for a project. *)
Definition broker_toml (name : string) (secrets : list string) : string :=
  "schema_version = 1" +:+ newline +:+ "[project]" +:+ newline +:+
  "name = " +:+ Harness.quoted name +:+ newline +:+ "[allowlist]" +:+ newline +:+
  "secrets = [" +:+ of_bytes (sep_by (bytes ",") (map (bytes ∘ Harness.quoted) secrets)) +:+ "]" +:+ newline.

(** What that text says. *)
Definition broker_raw (name : string) (secrets : list string) : RawManifest :=
  mkRawManifest 1 (mkRawProject name None) (mkRawAllowlist secrets) None.

(** ** Connections *)

Definition connection_refused : IoError := mkIoError OtherKind "Connection refused (os error 111)".
Definition not_utf8 : IoError := mkIoError InvalidData "stream did not contain valid UTF-8".

(** [BufRead::read_line] on what the peer sent. *)
Definition read_line (out : list ascii) : result IoError string :=
  match from_utf8 (read_until (length out) out).1 with
  | Some line => Ok line
  | None => Err not_utf8
  end.

(** What is left of the socket files when the process is gone. *)
Definition kill_node (nd : node) : node := match nd with Socket _ _ => Stale | _ => nd end.
Definition kill_nodes (ns : Nodes) : Nodes := kill_node <$> ns.

Inductive DriverPanic : Type :=
  | NeverConnectable (path : string)
  | RoundTripFailed (e : IoError)
  | RegisterFailed (resp : string)
  | UnwrapConfig (e : ConfigError)
  | UnwrapBackend (e : BackendError)
  | UnwrapIo (e : IoError)
  | WrongValue (resp : string)
  | WrongSource
  | CapacityOverflow
  | InstantOverflow
  | InfiniteInterval.

Section drivers.
Context {Fnox : Type} `{Os, Outside, TomlManifest, TomlConfig, UnicodeTables, HashOrder, FnoxCore Fnox} {J : SerdeJson}.
Context (serde_error : list ascii → string) (peer : Peer).
Local Abbreviation State := (ServerState Fnox).
Local Abbreviation M := (ST State).

Definition connect (path : string) : M (result IoError listener) := gets (λ s,
  match nodes_of s !! path with
  | None => Err not_found
  | Some (Socket _ AdminListener) => Ok AdminListener
  | Some (Socket _ (ProjectListener id)) =>
      if decide (id ∈ s.(ss_loops)) then Ok (ProjectListener id) else Err connection_refused
  | Some _ => Err connection_refused
  end).

(** A fresh connection: write, read one line, close. *)
Definition exchange (server : Server) (socket payload : string) : M (result IoError string) :=
  l ←? connect socket;
  let input := mkStream (bytes payload) None in
  '(out, _) ← match l with
              | AdminListener => handle_admin_connection server serde_error (λ _, None) input
              | ProjectListener id =>
                  handle_project_connection serde_error id (Some peer) (λ _, None) input
              end;
  mret (read_line out).

(** killtest.rs *)
Definition round_trip (server : Server) (socket req : string) : M (result IoError string) :=
  exchange server socket (req +:+ newline).

(** latency.rs *)
Definition one_fetch (server : Server) (socket name : string) : M (result IoError string) :=
  exchange server socket (get_request name +:+ newline).

(** ** The daemon in its process *)

(** The flags [spawn_daemon] passes. *)
Definition spawn_cli (sandbox : string) : Cli :=
  mkCli None None (Some (join sandbox "token")) (Some (join sandbox "run"))
    (Some (join sandbox "audit.log")) None None None (Some (join sandbox "fnox.toml")).

(** [main] up to its accept loop, over the socket files [ns]. *)
Definition boot (cli : Cli) (ns : Nodes) (n : nat) : result MainError (Server * State) :=
  '(server, s0) ← (start cli n).1;
  match setup server (with_nodes ns s0) with
  | (Err e, _) => Err (MainServer e)
  | (Ok _, s1) => Ok (server, s1)
  end.

Definition wait_for_socket (path : string) : M (result DriverPanic unit) :=
  r ← connect path;
  mret (if is_ok r then Ok tt else Err (NeverConnectable path)).

Definition register_project (server : Server) (admin name project_path : string)
    : M (result DriverPanic unit) :=
  r ← round_trip server admin (register_request name project_path);
  mret match r with
       | Err e => Err (RoundTripFailed e)
       | Ok resp =>
           if contains (bytes OK_TRUE) (bytes resp) then Ok tt else Err (RegisterFailed resp)
       end.

End drivers.

(** ** The texts are the requests *)

(** A string JSON writes as it is: printable ASCII but for the quote and the
    backslash. *)
Definition plain_byte (b : ascii) : bool :=
  in_range 32 126 (byte_val b) && negb (byte_val b =? 34) && negb (byte_val b =? 92).
Definition plain (s : string) : bool := forallb plain_byte (bytes s).

Lemma plain_byte_escape b : plain_byte b = true → escape_byte b = [b].
Proof. destruct b as [[] [] [] [] [] [] [] []]; vm_compute; congruence. Qed.

Lemma plain_byte_ascii b : plain_byte b = true → is_ascii b.
Proof. unfold plain_byte, is_ascii. rewrite !andb_true_iff, in_range_spec. lia. Qed.

Lemma plain_ascii s : plain s = true → Forall is_ascii (bytes s).
Proof.
  unfold plain. rewrite forallb_forall, Forall_forall. intros Hp b Hb%list_elem_of_In.
  by apply plain_byte_ascii, Hp.
Qed.

Lemma plain_quoted s : plain s = true → Json.quoted s = QUOTE :: bytes s ++ [QUOTE].
Proof.
  unfold plain, Json.quoted. intros Hp. f_equal. f_equal.
  induction (bytes s) as [|b bs IH]; [done|]. simpl in *. apply andb_true_iff in Hp as [Hb Hp].
  by rewrite plain_byte_escape, IH.
Qed.

Lemma plain_display s : plain s = true → display s = s.
Proof.
  intros Hp. unfold display. rewrite from_utf8_lossy_valid by (by apply forallb_is_char_ascii, plain_ascii).
  apply of_bytes_bytes.
Qed.

Lemma register_request_text name path :
  plain name = true → plain path = true →
  bytes (register_request name path) = admin_text (Register name path).
Proof.
  intros Hn Hp. unfold register_request, admin_text. rewrite plain_display by done.
  cbn [admin_request_to_json field app compact map fst snd sep_by].
  rewrite (plain_quoted name), (plain_quoted path), !bytes_app by done.
  repeat (simpl; rewrite <-?app_assoc). done.
Qed.

Lemma get_request_text name :
  plain name = true → bytes (get_request name) = project_text (Get name).
Proof.
  intros Hn. unfold get_request, project_text.
  cbn [project_request_to_json field app compact map fst snd sep_by].
  rewrite (plain_quoted name), !bytes_app by done.
  repeat (simpl; rewrite <-?app_assoc). done.
Qed.

(** ** The bytes of a JSON text *)

(** All strings of a tree, keys included, are made of bytes in [P]. *)
Section bytes_over.
Context (P : ascii → bool).

Definition str_over (s : string) : bool := forallb P (bytes s).
Fixpoint json_over (j : json) : bool :=
  match j with
  | JStr s => str_over s
  | JArr l => forallb json_over l
  | JObj fs => forallb (λ kv, str_over kv.1 && json_over kv.2) fs
  | _ => true
  end.

(** A class of bytes with the punctuation, digits and literals of JSON, closed
    under escaping. *)
Definition json_bytes : string := dq "{}[]:,'-0123456789nulltruefalse".
Context (Hsyn : str_over json_bytes = true).
Context (Hesc : ∀ b, P b = true → forallb P (escape_byte b) = true).

Lemma syntax_byte l : forallb (λ b, bool_decide (b ∈ bytes json_bytes)) l = true → forallb P l = true.
Proof.
  unfold str_over in Hsyn. rewrite !forallb_forall in *. intros Hl b Hb.
  by apply Hsyn, list_elem_of_In, (bool_decide_eq_true_1 _), Hl.
Qed.

Lemma quoted_over s : str_over s = true → forallb P (Json.quoted s) = true.
Proof.
  unfold str_over, Json.quoted. intros Hs. rewrite app_comm_cons, forallb_app. apply andb_true_iff.
  split; [|by apply syntax_byte]. cbn [forallb]. apply andb_true_iff. split.
  - pose proof (syntax_byte [QUOTE] eq_refl) as Hq. simpl in Hq. by rewrite andb_true_r in Hq.
  - induction (bytes s) as [|b bs IH]; [done|]. simpl in *. apply andb_true_iff in Hs as [Hb Hs].
    rewrite forallb_app, Hesc, IH by done. done.
Qed.

Lemma dec_over n : forallb P (bytes (dec n)) = true.
Proof.
  assert (Hpos : ∀ m, 0 ≤ m → forallb P (bytes (dec m)) = true).
  { intros m Hm. apply syntax_byte. pose proof (dec_digits m Hm) as Hd. rewrite forallb_forall in *.
    intros b Hb%Hd. revert Hb. clear. destruct b as [[] [] [] [] [] [] [] []]; vm_compute; done. }
  destruct (decide (0 ≤ n)); [by apply Hpos|]. destruct n as [|p|p]; [lia..|].
  rewrite dec_neg, bytes_app, forallb_app, Hpos by lia. by rewrite (syntax_byte (bytes "-")).
Qed.

Lemma sep_by_over sep l :
  forallb P sep = true → Forall (λ x, forallb P x = true) l → forallb P (sep_by sep l) = true.
Proof.
  intros Hs. induction 1 as [|x l Hx Hl IH]; [done|]. cbn [sep_by].
  destruct l; [done|]. by rewrite !forallb_app, Hx, Hs.
Qed.

Lemma compact_over j : json_over j = true → forallb P (compact j) = true.
Proof.
  induction j as [|b|n|s|l IH|fs IH] using json_ind'; cbn [json_over compact]; intros Hj.
  - by apply syntax_byte.
  - destruct b; by apply syntax_byte.
  - apply dec_over.
  - by apply quoted_over.
  - rewrite !forallb_app. apply andb_true_iff. split; [by apply syntax_byte|]. apply andb_true_iff.
    split; [|by apply syntax_byte]. apply sep_by_over; [by apply syntax_byte|].
    apply Forall_fmap. rewrite forallb_forall in Hj. rewrite Forall_forall in *.
    intros x Hx. apply (IH x Hx), Hj. by apply list_elem_of_In.
  - rewrite !forallb_app. apply andb_true_iff. split; [by apply syntax_byte|]. apply andb_true_iff.
    split; [|by apply syntax_byte]. apply sep_by_over; [by apply syntax_byte|].
    apply Forall_fmap. rewrite forallb_forall in Hj. rewrite Forall_forall in *. intros x Hx.
    change (forallb P (Json.quoted x.1 ++ bytes ":" ++ compact x.2) = true).
    specialize (Hj x (proj1 (list_elem_of_In _ _) Hx)). apply andb_true_iff in Hj as [Hk Hv].
    by rewrite !forallb_app, quoted_over, syntax_byte, (IH x Hx) by done.
Qed.

End bytes_over.

(** *** ASCII *)

Definition ascii_byte (b : ascii) : bool := byte_val b <? 128.
Abbreviation ascii_str := (str_over ascii_byte).
Abbreviation ascii_json := (json_over ascii_byte).

Lemma ascii_Forall l : forallb ascii_byte l = true ↔ Forall is_ascii l.
Proof.
  unfold ascii_byte, is_ascii. rewrite forallb_forall, Forall_forall. setoid_rewrite Z.ltb_lt.
  by setoid_rewrite <-list_elem_of_In.
Qed.

Lemma plain_ascii_str s : plain s = true → ascii_str s = true.
Proof. intros Hp. by apply ascii_Forall, plain_ascii. Qed.

Lemma compact_ascii j : ascii_json j = true → Forall is_ascii (compact j).
Proof.
  intros Hj. apply ascii_Forall, compact_over; [done| |done].
  intros b. destruct b as [[] [] [] [] [] [] [] []]; vm_compute; done.
Qed.

(** The line a client reads. *)
Definition line_text (j : json) : string := of_bytes (compact j ++ [NL]).

Lemma read_line_frame {J : SerdeJson} {HJ : SerdeText J} j :
  serde_value j = true → ascii_json j = true → read_line (frame j) = Ok (line_text j).
Proof.
  intros Hv Ha. unfold read_line, frame, line_text. rewrite to_string_compact, bytes_of_bytes by done.
  rewrite read_until_line; [|apply compact_no_nl|rewrite length_app; simpl; lia]. cbn [fst].
  rewrite from_utf8_ascii; [done|]. apply Forall_app. split; [by apply compact_ascii|by repeat constructor].
Qed.

(** ** What a response line contains *)

Lemma object_text k v fs t :
  ∃ b, compact (JObj ((k, v) :: fs)) ++ t = bytes "{" ++ (Json.quoted k ++ bytes ":" ++ compact v) ++ b.
Proof.
  cbn [compact map fst snd]. destruct fs as [|f fs]; cbn [map sep_by]; eexists;
    rewrite <-!app_assoc; reflexivity.
Qed.

Lemma ok_line fs : contains (bytes OK_TRUE) (bytes (line_text (JObj (("ok", JBool true) :: fs)))) = true.
Proof.
  apply contains_iff. unfold line_text. rewrite bytes_of_bytes.
  destruct (object_text "ok" (JBool true) fs [NL]) as [b ->]. by exists (bytes "{"), b.
Qed.

Lemma value_line v ttl :
  plain v = true →
  contains (bytes v) (bytes (line_text (get_response_to_json (get_utf8 v ttl)))) = true ∧
  contains (bytes (dq "'value':'" +:+ v +:+ dquote))
    (bytes (line_text (get_response_to_json (get_utf8 v ttl)))) = true.
Proof.
  intros Hv. unfold line_text. rewrite bytes_of_bytes, !contains_iff.
  cbn [get_response_to_json get_utf8 gr_ok gr_value gr_value_b64 gr_ttl_seconds opt_field field fmap
    option_fmap option_map app compact map fst snd sep_by]. rewrite (plain_quoted v) by done.
  rewrite !bytes_app. split.
  - eexists (bytes (dq "{'ok':true,'value':'")), _. repeat (simpl; rewrite <-?app_assoc). done.
  - eexists (bytes (dq "{'ok':true,")), _. repeat (simpl; rewrite <-?app_assoc). done.
Qed.

Lemma plain_app a b : plain a = true → plain b = true → plain (a +:+ b) = true.
Proof. unfold plain. intros Ha Hb. by rewrite bytes_app, forallb_app, Ha, Hb. Qed.

Lemma plain_join p q : plain_name q → plain p = true → plain q = true → plain (join p q) = true.
Proof.
  intros Hq Hp Hpq. destruct (join_plain p q Hq) as [-> | ->]; repeat apply plain_app; done.
Qed.

Lemma join_length p q : plain_name q → (length (bytes (join p q)) ≤ S (length (bytes p) + length (bytes q)))%nat.
Proof. intros Hq. destruct (join_plain p q Hq) as [-> | ->]; rewrite !bytes_app, !length_app; simpl; lia. Qed.

Lemma cap_value : Z.of_nat MESSAGE_CAP = 65536.
Proof. vm_compute. reflexivity. Qed.

Lemma terminated_newline payload text :
  bytes payload = text → bytes (payload +:+ newline) = terminated text.
Proof. intros <-. by rewrite bytes_app. Qed.

Lemma get_line_ascii v ttl : plain v = true → ascii_json (get_response_to_json (get_utf8 v ttl)) = true.
Proof.
  intros Hv. unfold get_response_to_json, get_utf8.
  cbn [gr_ok gr_value gr_value_b64 gr_ttl_seconds opt_field field fmap option_fmap option_map app json_over forallb fst snd].
  by rewrite (plain_ascii_str v Hv).
Qed.

(** ** The files a driver prepares *)

Lemma join_nested p a b :
  is_absolute a = false → is_absolute b = false → needs_sep a = true → is_absolute (a +:+ "/" +:+ b) = false →
  join (join p a) b = join p (a +:+ "/" +:+ b).
Proof.
  intros Ha Hb Hs Hab. unfold join. rewrite Ha, Hb, Hab.
  assert (Hns : ∀ q, needs_sep (q +:+ a) = true).
  { intros q. unfold needs_sep in *. rewrite bytes_app. destruct (bytes a) as [|c l]; [done|].
    by rewrite last_app_cons. }
  assert (Hassoc : ∀ q r t, (q +:+ r) +:+ t = q +:+ r +:+ t).
  { intros q r t. apply bytes_inj. by rewrite !bytes_app, app_assoc. }
  destruct (needs_sep p).
  - change ("/" +:+ a) with (String "/" a).
    assert (needs_sep (p +:+ String "/" a) = true) as ->.
    { change (String "/" a) with ("/" +:+ a). rewrite <-Hassoc. apply Hns. }
    change (String "/" a) with ("/" +:+ a). by rewrite !Hassoc.
  - rewrite Hns. by rewrite !Hassoc.
Qed.

Definition manifest_file (dir : string) : string := join (join dir ".remo") "broker.toml".

Lemma manifest_file_eq dir : manifest_file dir = join dir ".remo/broker.toml".
Proof. by apply (join_nested dir ".remo" "broker.toml"). Qed.

Section disk.
Context `{Os, TomlManifest}.

(** The one manifest under [dir] has the text [text], which says [raw]. *)
Record manifest_on_disk (dir text : string) (raw : RawManifest) : Prop := {
  md_other : ∀ n, is_file (os_disk n) (join dir ".devcontainer/remo-broker.toml") = false;
  md_file : ∀ n, is_file (os_disk n) (manifest_file dir) = true;
  md_text : ∀ n, read_to_string (os_disk n) (manifest_file dir) = Ok text;
  md_toml : toml_manifest text = Ok raw;
}.

Lemma load_on_disk base name text raw m n :
  plain name = true → plain_name name → manifest_on_disk (join base name) text raw →
  validate raw (Some name) = Ok m →
  Manifest.load (os_disk n) (join base name) = Ok (m, manifest_file (join base name)).
Proof.
  intros Hpl Hpn [Ho Hf Ht Hm] Hv. unfold Manifest.load, Manifest.discover, MANIFEST_CANDIDATES.
  cbn [map List.find]. rewrite Ho, <-manifest_file_eq, Hf. simpl. rewrite Ht. simpl. rewrite Hm. simpl.
  unfold file_name_str. rewrite file_name_join by done. simpl.
  rewrite from_utf8_ascii, of_bytes_bytes by (by apply plain_ascii). by rewrite Hv.
Qed.

End disk.

(** ** One exchange is one request *)

Section served.
Context {Fnox : Type} `{Os, Outside, TomlManifest, TomlConfig, UnicodeTables, HashOrder, FnoxCore Fnox}.
Context {J : SerdeJson} {HJ : SerdeText J}.
Context (serde_error : list ascii → string) (peer : Peer) (server : Server).
Implicit Types (s : ServerState Fnox).
Local Abbreviation reg := (sv_registry server).

Lemma connection_one {S} (handle : list ascii → ST S json) l (s : S) :
  fits l →
  connection handle (λ _, None) (mkStream (terminated l) None) s =
  let '(j, s') := handle (terminated l) s in ((frame j, Ok tt), s').
Proof.
  intros Hl. pose proof (connection_framing handle (λ _, None) [l] s (λ _, eq_refl)
    (proj2 (Forall_singleton _ _) Hl)) as Hc.
  cbn [map handle_all concat] in Hc. rewrite !ST_bind_unfold, app_nil_r in Hc.
  destruct (handle (terminated l) s) as [j s']. destruct Hc as (-> & _). simpl.
  by rewrite app_nil_r.
Qed.

Lemma exchange_project socket id payload r s :
  (connect socket s).1 = Ok (ProjectListener id) →
  bytes payload = terminated (project_text r) → (length (project_text r) < MESSAGE_CAP)%nat →
  let '(j, s') := serve server (ProjectReq id r peer) s in
  serde_value j = true → ascii_json j = true →
  exchange serde_error peer server socket payload s = (Ok (line_text j), s').
Proof.
  intros Hc Hp Hlen. destruct (serve _ _ s) as [j s'] eqn:Hs. intros Hv Ha.
  unfold exchange. rewrite bind_res_unfold, Hc, Hp. unfold handle_project_connection. cbn [default connect gets snd].
  rewrite ST_bind_unfold, connection_one by (by apply text_fits).
  rewrite (project_line_serves server serde_error id peer r s), Hs. cbn [fst snd].
  unfold mret, ST_ret. by rewrite read_line_frame.
Qed.

Lemma exchange_admin socket payload r s :
  (connect socket s).1 = Ok AdminListener →
  bytes payload = terminated (admin_text r) → (length (admin_text r) < MESSAGE_CAP)%nat →
  let '(j, s') := serve server (AdminReq r) s in
  serde_value j = true → ascii_json j = true →
  exchange serde_error peer server socket payload s = (Ok (line_text j), s').
Proof.
  intros Hc Hp Hlen. destruct (serve _ _ s) as [j s'] eqn:Hs. intros Hv Ha.
  unfold exchange. rewrite bind_res_unfold, Hc, Hp. unfold handle_admin_connection. cbn [connect gets snd].
  rewrite ST_bind_unfold, connection_one by (by apply text_fits).
  rewrite (admin_line_serves server serde_error r s), Hs. cbn [fst snd].
  unfold mret, ST_ret. by rewrite read_line_frame.
Qed.

Lemma connect_project name id s :
  server_inv server s → s.(ss_reg).(rs_map) !! name = Some id →
  (connect (socket_path_for reg name) s).1 = Ok (ProjectListener id).
Proof.
  intros Hinv Hid. destruct (ri_map _ _ (si_reg _ _ Hinv) name id Hid) as (p & _ & _ & Hn).
  unfold connect, gets, nodes_of. simpl. rewrite Hn, decide_True; [done|].
  apply (si_loops _ _ Hinv). exists name. by rewrite (si_tasks _ _ Hinv).
Qed.

Lemma connect_admin s : admin_safe server s → (connect (admin_path server) s).1 = Ok AdminListener.
Proof. intros [_ Hn]. unfold connect, gets. simpl. by rewrite Hn. Qed.

(** ** A daemon that has the values and serves them *)

Context (vals : list (string * string)) (fnox : Fnox).

Definition honest (c : BoundedCache) : Prop :=
  ∀ name e, c.(c_map) !! name = Some e → (name, e.(ce_value)) ∈ vals.

Record serving s : Prop := mk_serving {
  sg_inv : server_inv server s;
  sg_backend : s.(ss_backend) = Some (mkBackendSession fnox);
  sg_allow : ∀ id p, s.(ss_reg).(rs_heap) !! id = Some p → p.(p_manifest).(allowlist).(secrets) = vals.*1;
  sg_cache : ∀ id p, s.(ss_reg).(rs_heap) !! id = Some p → honest p.(p_cache);
}.

Definition all_honest s : Prop := ∀ id p, s.(ss_reg).(rs_heap) !! id = Some p → honest p.(p_cache).

Lemma honest_get t name c : honest c → honest (Cache.get t name c).2.
Proof.
  intros Hc. unfold Cache.get. destruct (c_map c !! name) as [e|]; [|done].
  destruct (is_expired e t); [|done]. intros n' e'. simpl. intros [_ He]%lookup_delete_Some. by apply Hc.
Qed.

Lemma honest_insert it t name v c : honest c → (name, v) ∈ vals → honest (Cache.insert it t name v None c).2.
Proof.
  intros Hc Hv n e. rewrite insert_kept. simpl. intros [[<- <-]|[_ He]]%lookup_insert_Some; [done|].
  by eapply Hc, lookup_weaken; [exact He|apply kept_subseteq].
Qed.

Lemma put_honest id c s : all_honest s → (is_Some (s.(ss_reg).(rs_heap) !! id) → honest c) → all_honest (put_cache id c s).
Proof.
  intros Hs Hc i p. unfold put_cache. simpl. destruct (decide (i = id)) as [->|].
  - rewrite lookup_alter_eq, fmap_Some. intros (q & Hq & ->). simpl. apply Hc. eauto.
  - rewrite lookup_alter_ne by done. apply Hs.
Qed.

Context (Hget : ∀ n name v, (name, v) ∈ vals → fnox_get n fnox name = Ok (Some v)).
Context (Hnodup : NoDup vals.*1).

Lemma vals_inj name v v' : (name, v) ∈ vals → (name, v') ∈ vals → v = v'.
Proof.
  intros Hv Hv'. apply (inj Some).
  rewrite <-(proj1 (elem_of_list_to_map (M := gmap string) vals name v Hnodup) Hv).
  by apply elem_of_list_to_map.
Qed.

Lemma cache_get_entry t name c h :
  (Cache.get t name c).1 = Some h → ∃ e, c.(c_map) !! name = Some e ∧ hit_value h = e.(ce_value) ∧ is_u32 (hit_ttl_seconds h).
Proof.
  intros Hg. destruct (Cache.get t name c) as [h' c'] eqn:He. simpl in Hg. subst.
  apply cache_get_hit in He as (e & ? & ? & _ & Ht & _). exists e. rewrite Ht. split_and!; [done..|apply as_u32_bounds].
Qed.

(** A [get] of a secret that is there brings its value, from the cache or from
    the backend. *)
Lemma dispatch_get_serving id p name v start s :
  serving s → s.(ss_reg).(rs_heap) !! id = Some p → (name, v) ∈ vals →
  (∃ ttl, is_u32 ttl ∧
     (dispatch_get id name peer start s).1 = get_response_to_json (get_utf8 v ttl)) ∧
  all_honest (dispatch_get id name peer start s).2.
Proof.
  intros Hs Hp Hv. assert (Ha : allowed id name s).
  { unfold allowed. rewrite (heap_deref id p), (sg_allow _ Hs id p) by done. apply list_elem_of_fmap.
    by exists (name, v). }
  rewrite get_allowed by done. cbv zeta. rewrite (heap_deref id p) by done.
  pose proof (sg_cache _ Hs id p Hp) as Hc. pose proof (honest_get (os_now (tick_of s)) name _ Hc) as Hc'.
  pose proof (cache_get_entry (os_now (tick_of s)) name (p_cache p)) as Hhit.
  destruct (Cache.get _ _ _) as [[h|] c]; simpl in Hhit, Hc'.
  - destruct (Hhit h eq_refl) as (e & He & Hval & Httl). split; [|by apply (put_honest id c (later 1 s)); [exact (sg_cache _ Hs)|]].
    exists (hit_ttl_seconds h). split; [done|]. rewrite Hval.
    by rewrite (vals_inj name (ce_value e) v (Hc _ _ He) Hv).
  - rewrite (sg_backend _ Hs). cbn [inner]. rewrite get_after_eq. cbv zeta. rewrite (Hget _ name v Hv). split.
    + eexists. split; [|done]. apply saturate_u32_bounds.
    + apply (put_honest id _ (later 1 _)).
      * apply (put_honest id c (later 1 s)); [exact (sg_cache _ Hs)|done].
      * intros _. apply honest_insert; [|done]. unfold deref. simpl. by rewrite lookup_alter_eq, Hp.
Qed.

(** What every request on a project socket keeps. *)
Definition same_sockets s s' : Prop :=
  nodes_of s' = nodes_of s ∧ s'.(ss_reg).(rs_map) = s.(ss_reg).(rs_map) ∧ s'.(ss_loops) = s.(ss_loops).

Lemma serve_project_frame id r s : cache_only id s (serve server (ProjectReq id r peer) s).2.
Proof.
  simpl. unfold serve_project. rewrite ST_bind_unfold.
  eapply cache_only_trans; [apply (cache_only_later id 1)|]. apply dispatch_project_frame.
Qed.

Lemma cache_only_sockets id s s' : cache_only id s s' → same_sockets s s'.
Proof. intros [_ _ Hl (k & c & Hr & _)]. unfold same_sockets, nodes_of. by rewrite Hr, Hl. Qed.

Lemma cache_only_serving id s s' : cache_only id s s' → serving s → all_honest s' → serving s'.
Proof.
  intros Hco Hs Hh. split; [by eapply cache_only_inv; [|apply sg_inv]| | |done].
  - rewrite (co_backend _ _ _ Hco). apply sg_backend, Hs.
  - destruct Hco as [_ _ _ (k & c & Hr & _)]. intros i p. rewrite Hr. simpl.
    destruct (decide (i = id)) as [->|]; [rewrite lookup_alter_eq, fmap_Some|rewrite lookup_alter_ne by done].
    + intros (q & Hq & ->). simpl. by apply (sg_allow _ Hs id).
    + apply (sg_allow _ Hs).
Qed.

Lemma serving_later k s : serving s → serving (later k s).
Proof. intros Hs. destruct Hs. split; try done. by apply later_inv. Qed.

Lemma serve_get_serving id p name v s :
  serving s → s.(ss_reg).(rs_heap) !! id = Some p → (name, v) ∈ vals →
  (∃ ttl, is_u32 ttl ∧
     (serve server (ProjectReq id (Get name) peer) s).1 = get_response_to_json (get_utf8 v ttl)) ∧
  serving (serve server (ProjectReq id (Get name) peer) s).2.
Proof.
  intros Hs Hp Hv.
  destruct (dispatch_get_serving id p name v (os_now (tick_of s)) (later 1 s) (serving_later 1 s Hs) Hp Hv)
    as [Hres Hh]. split; [exact Hres|].
  eapply cache_only_serving; [apply (serve_project_frame id)|done|exact Hh].
Qed.

(** The other two operations read only. *)
Lemma serve_other_serving id r s :
  serving s → (∀ name, r ≠ Get name) → serving (serve server (ProjectReq id r peer) s).2.
Proof.
  intros Hs Hr. destruct r as [name| |]; [by destruct (Hr name)|..];
    exact (serving_later 1 s Hs).
Qed.

(** ** Registering *)

Context (Hfault : ∀ n, os_fault n = None).

Lemma register_serving name path m mp s :
  serving s → Manifest.load (os_disk (tick_of s)) path = Ok (m, mp) →
  m.(project).(project_name) = name → m.(allowlist).(secrets) = vals.*1 →
  s.(ss_reg).(rs_map) !! name = None → (∀ md, nodes_of s !! socket_path_for reg name ≠ Some (Dir md)) →
  let '(j, s') := serve server (AdminReq (Register name path)) s in
  j = register_to_json (register_new (socket_path_for reg name)) ∧ serving s' ∧
  s'.(ss_reg).(rs_heap) !! s.(ss_reg).(rs_next) = Some (new_project reg name path mp m) ∧
  s'.(ss_reg).(rs_map) = <[name := s.(ss_reg).(rs_next)]> s.(ss_reg).(rs_map) ∧
  nodes_of s' = <[socket_path_for reg name := Socket 432 (ProjectListener s.(ss_reg).(rs_next))]> (nodes_of s).
Proof.
  intros Hs Hl Hn Ha Hfree Hdir.
  pose proof (serve_inv server (AdminReq (Register name path)) s (sg_inv _ Hs)) as Hinv.
  revert Hinv. cbn [serve dispatch_admin].
  unfold dispatch_register, in_registry, zoom, mbind, ST_bind. rewrite register_eq.
  change (rs_tick (ss_reg s)) with (tick_of s). rewrite Hl, decide_False by (by intros ?).
  rewrite Hfree.
  pose proof (bind_socket_succeeds (S (tick_of s)) (socket_path_for reg name) PROJECT_SOCKET_MODE
    (ProjectListener (rs_next (ss_reg s))) (nodes_of s) ltac:(auto) Hdir) as Hok.
  pose proof (bind_socket_ok (S (tick_of s)) (socket_path_for reg name) PROJECT_SOCKET_MODE
    (ProjectListener (rs_next (ss_reg s))) (nodes_of s)) as Hns.
  unfold nodes_of in *. destruct (bind_socket _ _ _ _ _) as [[u|e] ns]; [|done].
  simpl in Hns. specialize (Hns u eq_refl). subst ns.
  unfold gets, spawn_loop, modify, mret, ST_ret. simpl. intros Hinv.
  unfold deref. simpl. rewrite lookup_insert_eq. split; [done|]. split.
  2:{ done. }
  split; simpl.
  - exact Hinv.
  - apply (sg_backend _ Hs).
  - intros id p [[<- <-]|[_ Hp]]%lookup_insert_Some; [done|by apply (sg_allow _ Hs id)].
  - intros id p [[<- <-]|[_ Hp]]%lookup_insert_Some; [|by apply (sg_cache _ Hs id)].
    intros nm e. simpl. by rewrite lookup_empty.
Qed.

(** ** The same over the wire *)

Lemma register_audit name path s :
  (serve server (AdminReq (Register name path)) s).2.(ss_audit) = s.(ss_audit).
Proof.
  cbn [serve dispatch_admin]. unfold dispatch_register, in_registry, zoom, mbind, ST_bind.
  by destruct (Registry.register _ _ _ _) as [[id|e] r].
Qed.

Lemma wait_connectable path s l : (connect path s).1 = Ok l → wait_for_socket path s = (Ok tt, s).
Proof. intros Hc. unfold wait_for_socket. by rewrite ST_bind_unfold, Hc. Qed.

Context (Hsame : same_dir server).

(** Registering over the admin socket a project whose manifest is fine. *)
Lemma register_exchange base name text raw m s :
  serving s → admin_safe server s →
  plain base = true → plain name = true → plain_name name → plain server.(sv_config).(socket_dir) = true →
  (length (bytes base) + length (bytes name) + length (bytes name) < 4900)%nat →
  plain_name (name +:+ ".sock") →
  manifest_on_disk (join base name) text raw → validate raw (Some name) = Ok m →
  m.(project).(project_name) = name → m.(allowlist).(secrets) = vals.*1 →
  s.(ss_reg).(rs_map) !! name = None → (∀ md, nodes_of s !! socket_path_for reg name ≠ Some (Dir md)) →
  ∃ s', exchange serde_error peer server (admin_path server)
      (register_request name (join base name) +:+ newline) s =
      (Ok (line_text (register_to_json (register_new (socket_path_for reg name)))), s') ∧
    s' = (serve server (AdminReq (Register name (join base name))) s).2 ∧
    serving s' ∧
    s'.(ss_reg).(rs_heap) !! s.(ss_reg).(rs_next) =
      Some (new_project reg name (join base name) (manifest_file (join base name)) m) ∧
    s'.(ss_reg).(rs_map) = <[name := s.(ss_reg).(rs_next)]> s.(ss_reg).(rs_map) ∧
    nodes_of s' = <[socket_path_for reg name := Socket 432 (ProjectListener s.(ss_reg).(rs_next))]> (nodes_of s).
Proof.
  intros Hs Hadm Hbase Hname Hpn Hpdir Hlen Hpsock Hdisk Hv Hmn Hms Hfree Hdir.
  pose proof (load_on_disk base name _ _ _ (tick_of s) Hname Hpn Hdisk Hv) as Hl.
  pose proof (register_serving name (join base name) _ _ s Hs Hl Hmn Hms Hfree Hdir) as Hreg.
  pose proof (plain_join base name Hpn Hbase Hname) as Hpath.
  pose proof (exchange_admin (admin_path server) (register_request name (join base name) +:+ newline)
    (Register name (join base name)) s (connect_admin s Hadm)
    (terminated_newline _ _ (register_request_text name _ Hname Hpath))) as Hex.
  destruct (serve _ _ s) as [j s']. destruct Hreg as (-> & Hs' & Hp & Hm & Hn).
  exists s'. split; [apply Hex|done].
  - rewrite <-register_request_text by done. unfold register_request. rewrite plain_display by done.
    rewrite !bytes_app, !length_app. pose proof (join_length base name Hpn) as Hl'.
    change (length (bytes (dq "{'op':'register','name':'"))) with 25%nat.
    change (length (bytes (dq "','project_path':'"))) with 18%nat.
    change (length (bytes (dq "'}"))) with 2%nat. pose proof cap_value. lia.
  - done.
  - unfold register_to_json, register_new.
    cbn [rr_ok rr_socket_path field app json_over forallb fst snd].
    rewrite (plain_ascii_str (socket_path_for reg name)); [done|]. unfold socket_path_for. rewrite Hsame.
    apply plain_join; [done..|]. by apply plain_app.
Qed.

(** The event of a [get] of [name] from [project]. *)
Record fetch_of (pname name : string) (e : FetchEvent) : Prop := {
  fo_time : ∃ n, e.(fe_timestamp) = os_utc n;
  fo_project : e.(fe_project) = pname;
  fo_name : e.(fe_secret_name) = name;
  fo_pid : e.(fe_peer_pid) = peer.(peer_pid);
  fo_uid : e.(fe_peer_uid) = peer.(peer_uid);
  fo_latency : is_u32 e.(fe_latency_ms);
  fo_backend : e.(fe_backend) ∈ [None; Some "cache"; Some "fnox"];
  fo_reason : e.(fe_reason) ∈ [None; Some "allowlist"];
}.

Local Ltac solve_in := by (apply (bool_decide_unpack _); vm_compute).

Lemma record_get id name start s :
  ∃ e, (dispatch_get id name peer start s).2.(ss_audit) = record (Fetch e) s.(ss_audit) ∧
    fetch_of (deref id s).(p_name) name e.
Proof.
  assert (Hev : ∀ pn n d o backend reason, pn = (deref id s).(p_name) →
    backend ∈ [None; Some "cache"; Some "fnox"] → reason ∈ [None; Some "allowlist"] →
    ∃ e, record (fetch_event n pn name d o peer start backend reason) s.(ss_audit) =
         record (Fetch e) s.(ss_audit) ∧ fetch_of (deref id s).(p_name) name e).
  { intros pn n d o backend reason -> Hb Hr. eexists. split; [done|]. split; try done; [by eexists|].
    apply saturate_u32_bounds. }
  rewrite dispatch_get_eq, get_before_eq. cbv zeta. case_decide; [|apply Hev; [done|solve_in..]].
  destruct (Cache.get _ _ _) as [[h|] c]; [apply Hev; [done|solve_in..]|].
  destruct (ss_backend s); [|apply Hev; [done|solve_in..]]. rewrite get_after_eq. cbv zeta.
  assert (p_name (deref id (later 1 (put_cache id c (later 1 s)))) = p_name (deref id s)) as Hn
    by apply (deref_put_cache_name id c (later 1 s)).
  destruct (fnox_get _ _ _) as [[v|]|msg]; (apply Hev; [done|solve_in..]).
Qed.

(** The project [pname] is registered and can be asked. *)
Definition listed (pname : string) s : Prop :=
  ∃ id, s.(ss_reg).(rs_map) !! pname = Some id ∧ is_Some (s.(ss_reg).(rs_heap) !! id).

Lemma cache_only_listed pname id s s' : cache_only id s s' → listed pname s → listed pname s'.
Proof.
  intros [_ _ _ (k & c & Hr & _)] (i & Hi & p & Hp). exists i. rewrite Hr. simpl. split; [done|].
  destruct (decide (i = id)) as [->|]; [rewrite lookup_alter_eq, Hp|rewrite lookup_alter_ne by done]; by eexists.
Qed.

(** A [get] over the project's socket brings the value and leaves one event. *)
Lemma get_exchange pname name v s :
  serving s → listed pname s → (name, v) ∈ vals → plain name = true → plain v = true →
  (length (project_text (Get name)) < 1000)%nat →
  ∃ ttl s' id e,
    exchange serde_error peer server (socket_path_for reg pname) (get_request name +:+ newline) s =
      (Ok (line_text (get_response_to_json (get_utf8 v ttl))), s') ∧
    is_u32 ttl ∧ serving s' ∧ cache_only id s s' ∧ s'.(ss_audit) = record (Fetch e) s.(ss_audit) ∧
    fetch_of pname name e ∧ s.(ss_reg).(rs_map) !! pname = Some id ∧ s' = (serve server (ProjectReq id (Get name) peer) s).2.
Proof.
  intros Hs (id & Hid & p & Hp) Hin Hpn Hpv Hlen.
  destruct (serve_get_serving id p name v s Hs Hp Hin) as [(ttl & Httl & Hj) Hs'].
  pose proof (serve_project_frame id (Get name) s) as Hco.
  destruct (record_get id name (os_now (tick_of s)) (later 1 s)) as (e & He & Hfo).
  assert (Hpn' : p_name (deref id (later 1 s)) = pname).
  { destruct (ri_map _ _ (si_reg _ _ (sg_inv _ Hs)) pname id Hid) as (q & Hq & <- & _).
    by rewrite (heap_deref id q). }
  rewrite Hpn' in Hfo.
  pose proof (connect_project pname id s (sg_inv _ Hs) Hid) as Hc. pose proof cap_value as Hcap.
  pose proof (exchange_project _ id (get_request name +:+ newline) (Get name) s Hc
    (terminated_newline _ _ (get_request_text name Hpn)) ltac:(lia)) as Hex.
  change ((dispatch_get id name peer (os_now (tick_of s)) (later 1 s)).2)
    with ((serve server (ProjectReq id (Get name) peer) s).2) in He.
  destruct (serve server (ProjectReq id (Get name) peer) s) as [j s'] eqn:Hserve. cbn [fst snd] in *. subst j.
  exists ttl, s', id, e. rewrite Hserve. split_and!; [|exact Httl|exact Hs'|exact Hco|exact He|exact Hfo|exact Hid|reflexivity].
  apply Hex; [by apply get_response_value|by apply get_line_ascii].
Qed.

End served.

