(* ===== verification/LogText.v ===== *)
(** * The audit lines of a driver's requests

    What the [get]s of the drivers leave in the log, as text: JSON lines of
    plain characters, one per event.  [time]'s RFC 3339 form is a parameter of
    which only the alphabet is used. *)

From S2P Require Import Prelude Str Path Json JsonText Os Manifest Cache Config AuditLog Backend Proto Registry Bootstrap Server Fetch Admin Client Conn EndToEnd Daemon Main Harness Drivers.
Open Scope Z_scope.

(** ASCII without a capital K: the alphabet of these lines. *)
Definition log_byte (b : ascii) : bool := ascii_byte b && negb (bool_decide (b = "K"%char)).

(** RFC 3339: digits and punctuation. *)
Definition timestamp_byte (b : ascii) : bool := is_ascii_digit b || bool_decide (b ∈ bytes "-:.+TZ").

Lemma timestamp_log s : str_over timestamp_byte s = true → str_over log_byte s = true.
Proof.
  unfold str_over. rewrite !forallb_forall. intros Hs b Hb%Hs. revert Hb. clear.
  destruct b as [[] [] [] [] [] [] [] []]; vm_compute; done.
Qed.

Lemma compact_log j : json_over log_byte j = true → forallb log_byte (compact j) = true.
Proof.
  apply compact_over; [done|]. intros b. destruct b as [[] [] [] [] [] [] [] []]; vm_compute; done.
Qed.

Lemma log_byte_ascii l : forallb log_byte l = true → Forall is_ascii l.
Proof.
  intros Hl. apply ascii_Forall. rewrite forallb_forall in *. intros b Hb%Hl.
  by apply andb_true_iff in Hb as [? _].
Qed.

Lemma filter_id {A} (P : A → Prop) `{!∀ x, Decision (P x)} l : Forall P l → filter P l = l.
Proof. induction 1; [done|]. by rewrite filter_cons_True, IHForall. Qed.

Section log_text.
Context `{Os, Rfc3339} {J : SerdeJson} {HJ : SerdeText J} (peer : Peer).
(** Clocks show times RFC 3339 can write, and the kernel's credentials are
    numbers JSON can. *)
Context (Hclock : ∀ n, ∃ ts, rfc3339 (os_utc n) = Some ts ∧ str_over timestamp_byte ts = true).
Context (Hpid : ∀ n, peer.(peer_pid) = Some n → serde_number n = true).
Context (Huid : ∀ n, peer.(peer_uid) = Some n → serde_number n = true).

(** The event of a [get] whose project and secret are in the alphabet. *)
Definition logged_event (e : AuditEvent) : Prop :=
  ∃ f pname name, e = Fetch f ∧ fetch_of peer pname name f ∧ str_over log_byte pname = true ∧
    str_over log_byte name = true.

Lemma logged_json e :
  logged_event e → ∃ fs, event_to_json e = Some (JObj fs) ∧ serde_value (JObj fs) = true ∧
    json_over log_byte (JObj fs) = true.
Proof.
  intros (f & pname & name & -> & [(n & Ht) Hp Hn Hpi Hui Hlat Hb Hr] & HpK & HnK).
  destruct (Hclock n) as (ts & Hts & HtK). apply timestamp_log in HtK.
  destruct f as [t pr nm d o pid uid lat be re]. simpl in *. subst.
  apply serde_number_u32 in Hlat. rewrite Hts. eexists. split; [done|].
  assert (Hd : str_over log_byte (decision_wire d) = true) by by destruct d.
  assert (Ho : str_over log_byte (outcome_wire o) = true) by by destruct o.
  assert (Hbr : (∀ b, be = Some b → str_over log_byte b = true) ∧ (∀ r, re = Some r → str_over log_byte r = true)).
  { apply list_elem_of_In in Hb, Hr. simpl in Hb, Hr. split; [intros b ->|intros r ->].
    - by destruct Hb as [?|[?|[?|[]]]]; simplify_eq.
    - by destruct Hr as [?|[?|[]]]; simplify_eq. }
  clear Hb Hr Hts. destruct Hbr as [Hb Hr].
  destruct (peer_pid peer) as [pid|], (peer_uid peer) as [uid|], be as [be|], re as [re|];
    cbn -[serde_number str_over]; unfold serde_value; cbn -[serde_number str_over];
    rewrite ?Hlat, ?HtK, ?HpK, ?HnK, ?Hd, ?Ho, ?(Hpid _ eq_refl), ?(Huid _ eq_refl), ?(Hb _ eq_refl), ?(Hr _ eq_refl);
    split; reflexivity.
Qed.

Lemma logged_readable es : Forall logged_event es → Forall readable es.
Proof.
  intros Hes. eapply Forall_impl; [exact Hes|]. intros e (fs & Hj & Hv & _)%logged_json. exists (JObj fs). split; [done|].
  rewrite to_string_compact, bytes_of_bytes by done. split.
  - rewrite <-(app_nil_r (compact _)), from_slice_compact by done. by eexists.
  - cbn [compact]. rewrite app_assoc. change (bytes "}") with ["}"%char]. by rewrite last_snoc.
Qed.

Lemma logged_bytes es : Forall logged_event es → forallb log_byte (log_bytes es) = true.
Proof.
  induction 1 as [|e es He Hes IH]; [done|]. unfold log_bytes in *. cbn [map concat].
  rewrite forallb_app, IH, andb_true_r.
  destruct (logged_json e He) as (fs & Hj & Hv & HK). unfold line_of, event_line. rewrite Hj.
  change (forallb log_byte (bytes (to_string (JObj fs)) ++ [NL]) = true).
  rewrite forallb_app, to_string_compact, bytes_of_bytes, compact_log by done. done.
Qed.

Lemma forallb_take {A} (f : A → bool) k l : forallb f l = true → forallb f (take k l) = true.
Proof.
  intros Hl. rewrite <-(take_drop k l), forallb_app in Hl. by apply andb_true_iff in Hl as [? _].
Qed.

(** Torn or not, what the writer leaves of such events are such bytes. *)
Lemma on_disk_logged tried log b :
  Forall logged_event tried → on_disk tried log b → forallb log_byte b = true.
Proof.
  intros Htried. assert (Hline : ∀ e, e ∈ tried → forallb log_byte (line_of e) = true).
  { intros e He. rewrite <-log_bytes_one. apply logged_bytes, Forall_singleton.
    rewrite Forall_forall in Htried. by apply Htried. }
  induction 1 as [|log b e He _ IH|log b e k He _ IH]; [done|..]; rewrite forallb_app, IH; simpl;
    [by apply Hline|by apply forallb_take, Hline].
Qed.

Lemma run_bytes_logged d : Forall logged_event d.2 → forallb log_byte (run_bytes d) = true.
Proof.
  intros Hd. destruct (accounted_run d.1 [] [] [] writer_init d.2 (accounted_init d.1)) as (log & popped & Hacc).
  by eapply on_disk_logged, ac_file.
Qed.

(** A log of such events has a line for each. *)
Lemma logged_lines es : Forall logged_event es → audit_lines (Some (log_bytes es)) = Z.of_nat (length es).
Proof.
  intros Hes. pose proof (logged_readable es Hes) as Hread. unfold audit_lines, read_text. simpl.
  rewrite from_utf8_ascii by (by apply log_byte_ascii, logged_bytes). f_equal. unfold lines.
  rewrite bytes_of_bytes, log_bytes_lines, log_lines by (done || by apply readable_serializable).
  assert (Hne : Forall (λ line, line ≠ "") (map of_bytes (map AuditLog.line_text es))).
  { apply Forall_map, Forall_map. eapply Forall_impl; [exact Hes|].
    intros e (fs & Hj & Hv & _)%logged_json. unfold AuditLog.line_text. rewrite Hj.
    rewrite to_string_compact, bytes_of_bytes by done. intros Heq%(f_equal bytes).
    rewrite bytes_of_bytes in Heq. by cbn [compact] in Heq. }
  rewrite filter_id by done. by rewrite !length_map.
Qed.

End log_text.
