(* ===== verification/Recovery.v ===== *)
(** * The kill test against the daemon ([examples/killtest.rs])

    Each round starts the daemon over what the last one left behind, registers
    the project, fires a burst of [get]s and kills the daemon during one of
    them.  [drive_round_ok]: the daemon comes back, registers and answers, and
    what reaches the audit writer is the events of those [get]s.  The rounds
    are put together in [Killtest]. *)

From S2P Require Import Prelude Str Path Json JsonText Os Manifest Cache Config AuditLog Backend Proto Registry Bootstrap Server Fetch Admin Client Conn EndToEnd Daemon Main Harness Drivers.
Open Scope Z_scope.

Section rounds.
Context {Fnox : Type} `{Os, Outside, TomlManifest, TomlConfig, UnicodeTables, HashOrder, FnoxCore Fnox} {J : SerdeJson}.
Context (serde_error : list ascii → string) (peer : Peer).
Local Abbreviation M := (ST (ServerState Fnox)).
Local Abbreviation round_trip := (round_trip serde_error peer).
Local Abbreviation register_project := (register_project serde_error peer).

(** ** A round of the kill test *)

Definition tripwire (i : nat) : string * string :=
  default ("", "") (TRIPWIRE_VALUES !! (i mod length TRIPWIRE_VALUES)%nat).

(** What the world brings in a round: at which interaction the daemon starts,
    which round trip of the burst it is killed in, whether it has served that
    request by then and what the client is left with; how many events the audit
    writer takes after each request, and what the disk does to its writes. *)
Record KillPlan : Type := mkKillPlan {
  kp_start : nat;
  kp_kill : nat;
  kp_served : bool;
  kp_cut : result IoError string;
  kp_takes : nat → nat;
  kp_disk : nat → FileOutcome;
}.

(** The writer task receives up to [k] events. *)
Definition writer_takes (k : nat) : M (list AuditEvent) := λ s,
  let ch := s.(ss_audit) in
  (take k ch.(ch_queue), set_audit (mkChannel (drop k ch.(ch_queue)) ch.(ch_rx_open) ch.(ch_dropped)) s).

Definition burst_get (server : Server) (socket : string) (plan : KillPlan) (i : nat)
    : M (result IoError string * list AuditEvent) :=
  r ← round_trip server socket (get_request (tripwire i).1);
  es ← writer_takes (plan.(kp_takes) i);
  mret (r, es).

(** [kill(pid, 9)]. *)
Definition sigkill : M unit := modify (λ s, with_nodes (kill_nodes (nodes_of s)) s).

(** The round trip numbered [i]: once the daemon is dead, it finds a socket
    nobody listens on. *)
Definition burst_step (server : Server) (socket : string) (plan : KillPlan) (i : nat)
    : M (result IoError string * list AuditEvent) :=
  if (i <? plan.(kp_kill))%nat then burst_get server socket plan i
  else if (i =? plan.(kp_kill))%nat then
    es ← (if plan.(kp_served) then '(_, es) ← burst_get server socket plan i; mret es else mret []);
    sigkill;; mret (plan.(kp_cut), es)
  else
    r ← connect socket;
    mret (match r with Ok _ => plan.(kp_cut) | Err e => Err e end, []).

(** The answers, and the events the writer has taken. *)
Fixpoint burst (server : Server) (socket : string) (plan : KillPlan) (i ops : nat)
    : M (list (result IoError string) * list AuditEvent) :=
  match ops with
  | O =>
      es ← (if (i <=? plan.(kp_kill))%nat then writer_takes (plan.(kp_takes) i) else mret []);
      mret ([], es)
  | S ops =>
      '(r, es) ← burst_step server socket plan i;
      '(rs, es') ← burst server socket plan (S i) ops;
      mret (r :: rs, es ++ es')
  end.

Definition admin_sock (sandbox : string) : string := join (join sandbox "run") "admin.sock".
Definition victim_sock (sandbox : string) : string := join (join sandbox "run") "victim.sock".

Definition live_round (server : Server) (sandbox : string) (plan : KillPlan) (ops : nat)
    : M (result DriverPanic (list (result IoError string) * list AuditEvent)) :=
  _ ←? wait_for_socket (admin_sock sandbox);
  _ ←? register_project server (admin_sock sandbox) "victim" (join sandbox "victim");
  _ ←? wait_for_socket (victim_sock sandbox);
  r ← burst server (victim_sock sandbox) plan 0 ops;
  mret (Ok r).

(** A round over the files the last one left: the answers of the burst, the
    events that reached the writer, and the files it leaves. *)
Definition drive_round (sandbox : string) (burst_ops : nat) (plan : KillPlan) (ns : Nodes)
    : result DriverPanic (list (result IoError string) * list AuditEvent * Nodes) :=
  match boot (spawn_cli sandbox) ns plan.(kp_start) with
  | Err _ => Err (NeverConnectable (admin_sock sandbox))
  | Ok (server, s) =>
      let '(r, s') := live_round server sandbox plan burst_ops s in
      '(answers, es) ← r; Ok (answers, es, kill_nodes (nodes_of s'))
  end.

End rounds.

(** ** The daemon comes back *)

Section recovery.
Context {Fnox : Type} `{Os, Outside, TomlManifest, TomlConfig, UnicodeTables, HashOrder, FnoxCore Fnox}.
Context {J : SerdeJson} {HJ : SerdeText J}.
Context (serde_error : list ascii → string) (peer : Peer).
Context (sandbox : string) (fnox : Fnox).
Implicit Types (s : ServerState Fnox).

Definition victim_toml : string := broker_toml "victim" TRIPWIRE_VALUES.*1.

(** What the kill test has prepared: the token, the manifest, a backend that
    has the values, no configuration of the machine's own; and I/O works. *)
Record kill_world : Prop := {
  kw_fault : ∀ n, os_fault n = None;
  kw_config : ∀ n, read_to_string (os_disk n) DEFAULT_CONFIG_PATH = Err not_found;
  kw_token : ∀ n, read_to_string (os_disk n) (join sandbox "token") = Ok "killtest-token";
  kw_manifest : manifest_on_disk (join sandbox "victim") victim_toml (broker_raw "victim" TRIPWIRE_VALUES.*1);
  kw_open : ∀ n, fnox_open n (join sandbox "fnox.toml") = Ok fnox;
  kw_get : ∀ n name v, (name, v) ∈ TRIPWIRE_VALUES → fnox_get n fnox name = Ok (Some v);
  kw_plain : plain sandbox = true;
  kw_short : (length (bytes sandbox) < 4096)%nat;
}.

Context (W : kill_world).

(** What may be there when a round starts. *)
Record leftovers (ns : Nodes) : Prop := {
  lo_dir : ns !! join sandbox "run" = None ∨ ∃ m, ns !! join sandbox "run" = Some (Dir m);
  lo_admin : ∀ m, ns !! admin_sock sandbox ≠ Some (Dir m);
  lo_victim : ∀ m, ns !! victim_sock sandbox ≠ Some (Dir m);
}.

Lemma kill_nodes_lookup ns p : kill_nodes ns !! p = kill_node <$> ns !! p.
Proof. apply lookup_fmap. Qed.

Lemma kill_nodes_dir ns p m : kill_nodes ns !! p = Some (Dir m) ↔ ns !! p = Some (Dir m).
Proof. rewrite kill_nodes_lookup. by destruct (ns !! p) as [[]|]. Qed.

Lemma leftovers_kill ns : leftovers ns → leftovers (kill_nodes ns).
Proof.
  intros [Hd Ha Hv]. split.
  - setoid_rewrite kill_nodes_dir. rewrite kill_nodes_lookup. destruct Hd as [->|Hd]; [by left|by right].
  - intros m. by rewrite kill_nodes_dir.
  - intros m. by rewrite kill_nodes_dir.
Qed.

Lemma leftovers_empty : leftovers ∅.
Proof. split; [by left|done..]. Qed.

Definition kill_config : Config :=
  mkConfig (SourceFile (join sandbox "token")) (join sandbox "run") (join sandbox "audit.log")
    (from_secs 900) 32 (from_millis 5000) (Some (join sandbox "fnox.toml")).

Lemma start_kill n :
  (start (spawn_cli sandbox) n).1 =
    Ok (server_new kill_config (os_now (3 + n)),
        mkServerState (mkRegState (4 + n) ∅ ∅ 0 ∅) channel_new (Some (mkBackendSession fnox)) ∅ ∅).
Proof.
  unfold start, into_overrides, spawn_cli. rewrite ST_bind_unfold, bind_res_unfold. simpl.
  unfold Config.load. rewrite (kw_config W). simpl.
  rewrite ST_bind_unfold. unfold fetch_file. rewrite ST_bind_unfold. simpl.
  rewrite (kw_token W). rewrite decide_False by (vm_compute; discriminate). simpl.
  rewrite bind_res_unfold. unfold open_backend. rewrite ST_bind_unfold. simpl.
  unfold Backend.open. by rewrite (kw_open W).
Qed.

(** The daemon of a round, before anything is registered. *)
Record fresh (server : Server) s : Prop := {
  fr_dir : sv_config server = kill_config;
  fr_same : same_dir server;
  fr_serving : serving server TRIPWIRE_VALUES fnox s;
  fr_admin : admin_safe server s;
  fr_map : s.(ss_reg).(rs_map) = ∅;
  fr_audit : s.(ss_audit) = channel_new;
}.

Lemma boot_fresh ns n :
  leftovers ns →
  ∃ server s, boot (spawn_cli sandbox) ns n = Ok (server, s) ∧ fresh server s ∧
    nodes_of s = <[admin_sock sandbox := Socket 384 AdminListener]> (<[join sandbox "run" := Dir 493]> ns).
Proof.
  intros [Hd Ha _]. unfold boot. rewrite start_kill. cbn [mbind result_bind].
  set (server := server_new kill_config _). set (s0 := mkServerState _ _ _ _ _).
  destruct (setup_over_stale server (with_nodes ns s0) (kw_fault W) Hd Ha) as (s1 & Hset & Hn).
  destruct (setup_frame server (with_nodes ns s0)) as (k & ns1 & Hf).
  rewrite Hset in Hf |- *. simpl in Hf. exists server, s1. split; [done|]. split; [|exact Hn].
  pose proof (setup_empty_inv server (with_nodes ns s0) (conj eq_refl (conj eq_refl (conj eq_refl eq_refl)))) as Hinv.
  rewrite Hset in Hinv. simpl in Hinv. split; [done..| | | |].
  - split; [done|by rewrite Hf|..]; rewrite Hf; simpl; intros id p; by rewrite lookup_empty.
  - split; [by rewrite Hf|]. rewrite Hn. apply lookup_insert_eq.
  - by rewrite Hf.
  - by rewrite Hf.
Qed.

Lemma victim_plain : plain_name "victim" ∧ plain_name "victim.sock" ∧ plain_name "run".
Proof. split_and!; try done; vm_compute; set_solver. Qed.

Lemma tripwire_in i : tripwire i ∈ TRIPWIRE_VALUES.
Proof.
  unfold tripwire. assert (Hlt : (i mod length TRIPWIRE_VALUES < length TRIPWIRE_VALUES)%nat)
    by (apply Nat.mod_upper_bound; done).
  destruct (lookup_lt_is_Some_2 _ _ Hlt) as [x Hx]. rewrite Hx. by apply list_elem_of_lookup_2 in Hx.
Qed.

Lemma tripwires_plain : Forall (λ nv, plain nv.1 = true ∧ plain nv.2 = true ∧ (length (project_text (Get nv.1)) < 40)%nat) TRIPWIRE_VALUES.
Proof. apply (bool_decide_unpack _). vm_compute. exact I. Qed.

Lemma tripwire_names_nodup : NoDup TRIPWIRE_VALUES.*1.
Proof. apply (bool_decide_unpack _). vm_compute. exact I. Qed.

(** What the audit log may come to hold. *)
Definition kill_event (e : AuditEvent) : Prop :=
  ∃ f nv, e = Fetch f ∧ nv ∈ TRIPWIRE_VALUES ∧ fetch_of peer "victim" nv.1 f.

(** The daemon with the project registered. *)
Record live (server : Server) s : Prop := {
  lv_serving : serving server TRIPWIRE_VALUES fnox s;
  lv_socket : socket_path_for (sv_registry server) "victim" = victim_sock sandbox;
  lv_listed : listed "victim" s;
  lv_events : Forall kill_event s.(ss_audit).(ch_queue);
}.

(** Registering the project over the admin socket succeeds. *)
Lemma register_fresh server s :
  fresh server s → (∀ m, nodes_of s !! victim_sock sandbox ≠ Some (Dir m)) →
  ∃ id s', register_project serde_error peer server (admin_sock sandbox) "victim" (join sandbox "victim") s = (Ok tt, s') ∧
    live server s' ∧ s'.(ss_reg).(rs_map) !! "victim" = Some id ∧
    nodes_of s' = <[victim_sock sandbox := Socket 432 (ProjectListener id)]> (nodes_of s).
Proof.
  intros [Hcfg Hsame Hs Hadm Hmap Haud] Hdir.
  assert (Hsock : socket_path_for (sv_registry server) "victim" = victim_sock sandbox).
  { unfold socket_path_for. by rewrite Hsame, Hcfg. }
  destruct victim_plain as (Hpn & Hpn' & Hrun). pose proof (kw_short W) as Hshort.
  destruct (register_exchange serde_error peer server TRIPWIRE_VALUES fnox (kw_fault W) Hsame sandbox "victim"
    victim_toml (broker_raw "victim" TRIPWIRE_VALUES.*1) (manifest_of (broker_raw "victim" TRIPWIRE_VALUES.*1)) s Hs Hadm)
    as (s' & Hex & Heq & Hs' & Hp & Hm & Hn); try done.
  - apply W.
  - rewrite Hcfg. apply plain_join; [done|apply W|done].
  - change (length (bytes "victim")) with 6%nat. lia.
  - apply W.
  - by rewrite Hmap.
  - by rewrite Hsock.
  - rewrite Hsock in Hn, Hex. assert (Hap : admin_path server = admin_sock sandbox) by (unfold admin_path; by rewrite Hcfg).
    rewrite Hap in Hex. exists (rs_next (ss_reg s)), s'. unfold register_project, round_trip.
    rewrite ST_bind_unfold, Hex. cbn [fst snd]. unfold register_to_json, register_new.
    cbn [rr_ok rr_socket_path field app]. rewrite ok_line.
    assert (Hv : rs_map (ss_reg s') !! "victim" = Some (rs_next (ss_reg s))) by (by rewrite Hm, lookup_insert_eq).
    split_and!; [done| |done..]. split; [done..|by eexists|].
    by rewrite Heq, (register_audit server "victim" (join sandbox "victim")), Haud.
Qed.

(** ** The burst *)

(** What the round trip numbered [i] brings. *)
Definition answer_ok (plan : KillPlan) (i : nat) (r : result IoError string) : Prop :=
  if (i <? plan.(kp_kill))%nat then
    ∃ ttl, is_u32 ttl ∧ r = Ok (line_text (get_response_to_json (get_utf8 (tripwire i).2 ttl)))
  else if (i =? plan.(kp_kill))%nat then r = plan.(kp_cut)
  else r = Err connection_refused.

Lemma record_events e ch :
  kill_event e → Forall kill_event ch.(ch_queue) → Forall kill_event (record e ch).(ch_queue).
Proof.
  intros He Hq. unfold record. repeat case_match; simpl; try done. by apply Forall_app; split; [|constructor].
Qed.

(** A [get] while the daemon lives brings the value. *)
Lemma live_get server i s :
  live server s →
  ∃ ttl s', is_u32 ttl ∧ live server s' ∧ nodes_of s' = nodes_of s ∧
    round_trip serde_error peer server (victim_sock sandbox) (get_request (tripwire i).1) s =
      (Ok (line_text (get_response_to_json (get_utf8 (tripwire i).2 ttl))), s').
Proof.
  intros [Hs Hsock Hl Hev]. pose proof (tripwire_in i) as Hin.
  pose proof tripwires_plain as Hplain. rewrite Forall_forall in Hplain.
  destruct (Hplain _ Hin) as (Hpn & Hpv & Hlen). destruct (tripwire i) as [name v]. cbn [fst snd] in *.
  destruct (get_exchange serde_error peer server TRIPWIRE_VALUES fnox (kw_get W) tripwire_names_nodup
    "victim" name v s Hs Hl Hin Hpn Hpv ltac:(lia)) as (ttl & s' & id & e & Hex & Httl & Hs' & Hco & Ha & Hfo & _).
  rewrite Hsock in Hex. exists ttl, s'. split_and!; [done| |by apply (cache_only_sockets _ _ _ Hco)|exact Hex].
  split; [done..|by eapply cache_only_listed|]. rewrite Ha. apply record_events; [|done].
  by exists e, (name, v).
Qed.

Lemma live_set_audit server ch s :
  live server s → Forall kill_event ch.(ch_queue) → live server (set_audit ch s).
Proof. intros [[[] ? ? ?] ? ? ?] Hev. split; done. Qed.

Lemma writer_takes_live server k s :
  live server s →
  let '(es, s') := writer_takes k s in live server s' ∧ nodes_of s' = nodes_of s ∧ Forall kill_event es.
Proof.
  intros Hl. pose proof (lv_events _ _ Hl) as He. simpl. split_and!; [|done|by apply Forall_take].
  apply live_set_audit; [done|by apply Forall_drop].
Qed.

Lemma burst_get_live server plan i s :
  live server s →
  ∃ ttl es s', burst_get serde_error peer server (victim_sock sandbox) plan i s =
      ((Ok (line_text (get_response_to_json (get_utf8 (tripwire i).2 ttl))), es), s') ∧
    is_u32 ttl ∧ live server s' ∧ nodes_of s' = nodes_of s ∧ Forall kill_event es.
Proof.
  intros Hl. destruct (live_get server i s Hl) as (ttl & s1 & Httl & Hl1 & Hn & Hr).
  unfold burst_get. rewrite ST_bind_unfold, Hr. cbn [fst snd]. rewrite ST_bind_unfold.
  pose proof (writer_takes_live server (plan.(kp_takes) i) s1 Hl1) as Hw.
  destruct (writer_takes _ s1) as [es s2]. destruct Hw as (Hl2 & Hn2 & Hes).
  exists ttl, es, s2. split; [done|]. by rewrite Hn2, Hn.
Qed.

Definition dead s : Prop := nodes_of s !! victim_sock sandbox = Some Stale.

Lemma kill_dead server s : live server s → dead (with_nodes (kill_nodes (nodes_of s)) s).
Proof.
  intros [Hs Hsock (id & Hid & _) _]. unfold dead, with_nodes, nodes_of. simpl.
  destruct (ri_map _ _ (si_reg _ _ (sg_inv _ _ _ _ Hs)) "victim" id Hid) as (q & _ & _ & Hn).
  rewrite Hsock in Hn. rewrite kill_nodes_lookup, Hn. done.
Qed.

Lemma kill_nodes_twice ns : kill_nodes (kill_nodes ns) = kill_nodes ns.
Proof.
  apply map_eq. intros p. rewrite !kill_nodes_lookup. by destruct (ns !! p) as [[]|].
Qed.

(** Before the round trip numbered [i]. *)
Definition at_trip (server : Server) (plan : KillPlan) (i : nat) s : Prop :=
  ((i ≤ plan.(kp_kill))%nat ∧ live server s) ∨ ((plan.(kp_kill) < i)%nat ∧ dead s).

Lemma burst_step_ok server plan i s :
  at_trip server plan i s →
  ∃ r es s', burst_step serde_error peer server (victim_sock sandbox) plan i s = ((r, es), s') ∧
    answer_ok plan i r ∧ kill_nodes (nodes_of s') = kill_nodes (nodes_of s) ∧
    at_trip server plan (S i) s' ∧ Forall kill_event es.
Proof.
  intros Hs. unfold answer_ok, burst_step, at_trip.
  destruct (i <? kp_kill plan)%nat eqn:Hlt; [apply Nat.ltb_lt in Hlt|apply Nat.ltb_ge in Hlt].
  - destruct Hs as [[_ Hl]|[? _]]; [|lia].
    destruct (burst_get_live server plan i s Hl) as (ttl & es & s1 & -> & Httl & Hl1 & Hn & Hes).
    eexists _, _, s1. split; [done|]. rewrite Hn. split; [eauto|]. split; [done|]. split; [left; by split|done].
  - destruct (i =? kp_kill plan)%nat eqn:Heq; [apply Nat.eqb_eq in Heq|apply Nat.eqb_neq in Heq].
    + destruct Hs as [[_ Hl]|[? _]]; [|lia].
      assert (∃ es s1, (if kp_served plan then '(_, es) ← burst_get serde_error peer server (victim_sock sandbox) plan i;
        mret es else mret []) s = (es, s1) ∧ live server s1 ∧ nodes_of s1 = nodes_of s ∧ Forall kill_event es)
        as (es & s1 & Hb & Hl1 & Hn & Hes).
      { destruct (kp_served plan); [|by exists [], s].
        destruct (burst_get_live server plan i s Hl) as (ttl & es & s1 & Hb & _ & Hl1 & Hn & Hes).
        exists es, s1. by rewrite ST_bind_unfold, Hb. }
      rewrite ST_bind_unfold, Hb. cbn [fst snd]. eexists _, _, _. split; [done|]. split; [done|].
      split; [rewrite <-Hn; apply kill_nodes_twice|]. split; [|done]. right. split; [lia|by eapply kill_dead].
    + destruct Hs as [[? _]|[_ Hd]]; [lia|]. eexists _, _, s.
      unfold connect, gets, mbind, ST_bind. rewrite Hd. split; [done|]. split; [done|]. split; [done|].
      split; [right; split; [lia|done]|done].
Qed.

Lemma burst_answers server plan ops i s :
  at_trip server plan i s →
  ∃ answers es s',
    burst serde_error peer server (victim_sock sandbox) plan i ops s = ((answers, es), s') ∧
    kill_nodes (nodes_of s') = kill_nodes (nodes_of s) ∧ Forall kill_event es ∧ length answers = ops ∧
    ∀ k r, answers !! k = Some r → answer_ok plan (i + k) r.
Proof.
  revert i s. induction ops as [|ops IH]; intros i s Hs; cbn [burst]; rewrite ST_bind_unfold.
  - destruct (i <=? kp_kill plan)%nat eqn:Hi; [apply Nat.leb_le in Hi|by exists [], [], s].
    destruct Hs as [[_ Hl]|[? _]]; [|lia].
    pose proof (writer_takes_live server (plan.(kp_takes) i) s Hl) as Hw.
    destruct (writer_takes _ s) as [es s1]. destruct Hw as (_ & Hn & Hes).
    exists [], es, s1. split; [done|]. by rewrite Hn.
  - destruct (burst_step_ok server plan i s Hs) as (r & es & s1 & -> & Hr & Hk & Hs1 & Hes). cbn [fst snd].
    destruct (IH (S i) s1 Hs1) as (answers & es' & s' & Hb & Hn & Hes' & Hlen & Hall).
    rewrite ST_bind_unfold, Hb. exists (r :: answers), (es ++ es'), s'. split; [done|].
    rewrite Hn, Hk, Forall_app. split; [done|]. split; [done|]. split; [simpl; by rewrite Hlen|].
    intros [|k] r' Hk'; simplify_eq/=; [by rewrite Nat.add_0_r|].
    replace (i + S k)%nat with (S i + k)%nat by lia. by apply Hall.
Qed.

(** ** The rounds *)

Definition round_ok (ops : nat) (plan : KillPlan) (answers : list (result IoError string)) : Prop :=
  length answers = ops ∧ ∀ k r, answers !! k = Some r → answer_ok plan k r.

Lemma drive_round_ok ops plan ns :
  leftovers ns →
  ∃ answers es ns', drive_round serde_error peer sandbox ops plan ns = Ok (answers, es, ns') ∧
    leftovers ns' ∧ Forall kill_event es ∧ round_ok ops plan answers.
Proof.
  intros Hlo. unfold drive_round. destruct (boot_fresh ns plan.(kp_start) Hlo) as (server & s & -> & Hf & Hn).
  destruct victim_plain as (_ & Hvs & Hrun).
  assert (Hne1 : join sandbox "run" ≠ admin_sock sandbox).
  { intros Heq. symmetry in Heq. by eapply (join_longer _ _ admin_file_plain). }
  assert (Hne2 : join sandbox "run" ≠ victim_sock sandbox).
  { intros Heq. symmetry in Heq. by eapply (join_longer _ _ Hvs). }
  assert (Hne3 : victim_sock sandbox ≠ admin_sock sandbox).
  { intros Heq. by apply join_inj in Heq; [|done|apply admin_file_plain]. }
  assert (Hvic : ∀ m, nodes_of s !! victim_sock sandbox ≠ Some (Dir m)).
  { intros m. rewrite Hn, !lookup_insert_ne by done. apply Hlo. }
  destruct (register_fresh server s Hf Hvic) as (id & s1 & Hreg & Hlive & Hmap & Hn1).
  assert (Hsock : socket_path_for (sv_registry server) "victim" = victim_sock sandbox).
  { unfold socket_path_for. by rewrite (fr_same _ _ Hf), (fr_dir _ _ Hf). }
  destruct (burst_answers server plan ops 0 s1) as (answers & es & s2 & Hb & Hk & Hes & Hlen & Hall);
    [left; split; [lia|done]|].
  unfold live_round. rewrite bind_res_unfold.
  pose proof (connect_admin server s (fr_admin _ _ Hf)) as Hca.
  assert (Hap : admin_path server = admin_sock sandbox) by (unfold admin_path; by rewrite (fr_dir _ _ Hf)).
  rewrite Hap in Hca. rewrite (wait_connectable _ _ _ Hca). cbn [fst snd].
  rewrite bind_res_unfold, Hreg. cbn [fst snd]. rewrite bind_res_unfold. pose proof (connect_project server "victim" id s1 (sg_inv _ _ _ _ (lv_serving _ _ Hlive)) Hmap) as Hcp.
  rewrite Hsock in Hcp. rewrite (wait_connectable _ _ _ Hcp). cbn [fst snd].
  rewrite ST_bind_unfold, Hb. cbn [fst snd mret ST_ret mbind result_bind].
  eexists _, _, _. split; [done|]. split; [|done]. rewrite Hk, Hn1, Hn. apply leftovers_kill.
  destruct Hlo as [Hd Ha Hv]. split.
  - right. exists 493. rewrite !lookup_insert_ne by done. apply lookup_insert_eq.
  - intros m. rewrite lookup_insert_ne by done. by rewrite lookup_insert_eq.
  - intros m. by rewrite lookup_insert_eq.
Qed.

End recovery.
