(* ===== verification/Killtest.v ===== *)
(** * The kill test as a whole ([examples/killtest.rs], [main])

    [main]: the knobs, the sandbox, and the rounds, each of which drives the
    daemon ([Recovery]), kills it, and looks at what is on disk ([Harness]): the
    files of the sandbox, with the audit log the daemons have appended to so
    far.  [killtest_passes]: against the modelled daemon it passes, wherever
    the kills fall, unless a torn write leaves a line that is not JSON. *)

From S2P Require Import Prelude Str Path Json JsonText Os Manifest Cache Config AuditLog Backend Proto Registry Bootstrap Server Fetch Admin Client Conn EndToEnd Daemon Main Harness Drivers LogText Recovery.
Open Scope Z_scope.

Inductive MainPanic : Type :=
  | BinaryMissing
  | DriverFailed (p : DriverPanic)
  | CheckFailed (p : KillPanic).

(** What [main] prints in the end, and the answers of the bursts. *)
Record Report : Type := mkReport {
  rp_totals : Totals;
  rp_audit_lines : Z;
  rp_answers : list (list (result IoError string));
}.

Definition scratch_dir (temp_dir : string) (pid nanos : Z) : string :=
  join temp_dir ("remo-broker-killtest-" +:+ dec pid +:+ "-" +:+ dec nanos).

(** ** The sandbox after a kill *)

Definition node_tree (nd : node) : tree := match nd with Dir _ => DirNode (Some []) | _ => OtherNode end.

Definition run_entries (sandbox : string) (ns : Nodes) : list (string * tree) :=
  option_list ((λ nd, ("admin.sock", node_tree nd)) <$> ns !! admin_sock sandbox) ++
  option_list ((λ nd, ("victim.sock", node_tree nd)) <$> ns !! victim_sock sandbox).

(** The token, the backend's configuration and the manifest are as [main] wrote
    them; a log nothing was written to yet counts as empty. *)
Definition sandbox_entries (sandbox : string) (ns : Nodes) (log : list ascii) : list (string * tree) :=
  [("token", FileNode (Some (bytes "killtest-token")));
   ("fnox.toml", FileNode (Some (bytes fnox_toml)));
   ("victim", DirNode (Some [(".remo", DirNode (Some [("broker.toml", FileNode (Some (bytes victim_toml)))]))]));
   ("run", DirNode (Some (run_entries sandbox ns)));
   ("audit.log", FileNode (Some log))].

Section main.
Context {Fnox : Type} `{Os, Outside, TomlManifest, TomlConfig, UnicodeTables, HashOrder, FnoxCore Fnox, Rfc3339} {J : SerdeJson}.
Context (serde_error : list ascii → string) (peer : Peer).
(** The order in which [read_dir] lists the sandbox, round by round. *)
Context (order : Z → list (string * tree) → list (string * tree)).

(** The rounds from number [round] on, over the files and the log of the
    earlier ones. *)
Fixpoint main_rounds (sandbox : string) (burst_ops : nat) (round : Z) (plans : list KillPlan) (ns : Nodes)
    (log : list ascii) (t : Totals) : result MainPanic Report :=
  match plans with
  | [] => Ok (mkReport t (audit_lines (Some log)) [])
  | plan :: plans =>
      '(answers, events, ns') ← map_err DriverFailed (drive_round serde_error peer sandbox burst_ops plan ns);
      let log' := log ++ run_bytes (plan.(kp_disk), events) in
      let found := mkRound (map is_ok answers) (Some (order round (sandbox_entries sandbox ns' log'))) (Some log') in
      t' ← map_err CheckFailed (kill_round sandbox round found t);
      rest ← main_rounds sandbox burst_ops (round + 1) plans ns' log' t';
      Ok (mkReport rest.(rp_totals) rest.(rp_audit_lines) (answers :: rest.(rp_answers)))
  end.

(** [KILLTEST_KILL_DELAY_MS] shows in the plans: when the kills fall. *)
Definition main (env : string → option string) (binary_exists : bool) (temp_dir : string) (pid nanos : Z)
    (plan : nat → KillPlan) : result MainPanic Report :=
  let rounds := env_u64 env "KILLTEST_ROUNDS" 5 in
  let burst_ops := env_u64 env "KILLTEST_BURST_OPS" 50 in
  if negb binary_exists then Err BinaryMissing
  else
    let sandbox := scratch_dir temp_dir pid nanos in
    main_rounds sandbox (Z.to_nat burst_ops) 1 (map plan (seq 1 (Z.to_nat rounds))) ∅ [] (mkTotals 0 0 0).

End main.

(** ** What the log holds *)

(** The values have a capital K, which nothing the daemon logs here has. *)
Lemma values_have_K n v s : (n, v) ∈ TRIPWIRE_VALUES → substring v s → str_over log_byte s = false.
Proof.
  intros Hv (a & b & Hs). unfold str_over. rewrite Hs, !forallb_app.
  assert (forallb log_byte (bytes v) = false) as ->.
  { repeat (apply elem_of_cons in Hv as [[= -> ->]|Hv]; [reflexivity|]). by apply not_elem_of_nil in Hv. }
  by rewrite andb_false_l, andb_false_r.
Qed.

(** ** Walking the sandbox *)

Lemma walk_elem path l fc :
  fc ∈ walk_entry path (DirNode (Some l)) ↔ ∃ e, e ∈ l ∧ fc ∈ walk_entry (join path e.1) e.2.
Proof.
  simpl. induction l as [|[name t] l IH]; [set_solver|]. rewrite elem_of_app, IH.
  setoid_rewrite elem_of_cons. split.
  - intros [Hf|(e & He & Hf)]; [exists (name, t)|exists e]; auto.
  - intros (e & [->|He] & Hf); [by left|right; eauto].
Qed.

Section found.
Context (sandbox : string).

Lemma run_entries_empty ns fc :
  fc ∉ walk_entry (join sandbox "run") (DirNode (Some (run_entries sandbox ns))).
Proof.
  intros (e & He & Hf)%walk_elem. unfold run_entries in He. apply elem_of_app in He.
  destruct He as [He|He]; revert He;
    [destruct (ns !! admin_sock sandbox) as [[m| |]|] eqn:Hn|destruct (ns !! victim_sock sandbox) as [[m| |]|] eqn:Hn];
    simpl; rewrite ?list_elem_of_singleton, ?elem_of_nil; try done; intros ->; by apply not_elem_of_nil in Hf.
Qed.

(** Every file of the sandbox is an input that is excluded, or has no K. *)
Lemma sandbox_clean ns log l :
  forallb log_byte log = true → l ≡ₚ sandbox_entries sandbox ns log →
  ∀ f v, ¬ leaks (excluded_files sandbox) (walk_entry sandbox (DirNode (Some l))) f v.
Proof.
  intros Hlog Hl f v (c & s & n & Hf & Hex & Hr & Hv & Hsub).
  apply walk_elem in Hf as (e & He & Hf). rewrite Hl in He.
  assert (Hno : ∀ bs, c = Some bs → forallb log_byte bs = true → False).
  { intros bs -> Hbs. apply read_text_bytes in Hr. pose proof (values_have_K n v s Hv Hsub) as HK.
    unfold str_over in HK. rewrite Hr in HK. congruence. }
  unfold sandbox_entries in He.
  repeat (apply elem_of_cons in He as [->|He]); [..|by apply not_elem_of_nil in He]; cbn [fst snd] in Hf.
  - apply list_elem_of_singleton in Hf as [= -> ->]. by eapply Hno.
  - apply list_elem_of_singleton in Hf as [= -> ->]. apply Hex. left.
  - apply walk_elem in Hf as (? & ->%list_elem_of_singleton & Hf). cbn [fst snd] in Hf.
    apply walk_elem in Hf as (? & ->%list_elem_of_singleton & Hf). cbn [fst snd] in Hf.
    apply list_elem_of_singleton in Hf as [= -> ->]. apply Hex. right. left.
  - by eapply run_entries_empty in Hf.
  - apply list_elem_of_singleton in Hf as [= -> ->]. by eapply Hno.
Qed.

(** A round that leaks nothing counts its answers, or finds a line of the log
    that is not JSON. *)
Lemma kill_round_passes `{SerdeJson} round r t :
  (∀ f v, ¬ leaks (excluded_files sandbox) (files_of sandbox r) f v) →
  (kill_round sandbox round r t =
    let '(gets, errs) := foldl count_answer (0, 0) r.(rd_answers) in
    Ok (mkTotals (t.(total_kills) + 1) (t.(total_gets) + gets) (t.(errors_across_rounds) + errs))) ∨
  (∃ i line, kill_round sandbox round r t = Err (NotJson i line) ∧ ¬ log_good r.(rd_log)).
Proof.
  intros Hleak. pose proof (kill_round_spec sandbox round r t) as Hspec. revert Hspec. unfold kill_round.
  destruct (foldl count_answer (0, 0) (rd_answers r)) as [g e].
  destruct (grep_tripwires_under _ _ _) as [[f v]|]; [intros [_ Hl]; by destruct (Hleak f v)|].
  destruct (assert_audit_log_parseable _) as [?|[i line]]; simpl; [by left|].
  intros (content & Hc & _ & Hlk & Hbad). right. exists i, line. split; [done|].
  intros Hlog. specialize (Hlog content Hc). rewrite Forall_lookup in Hlog. by apply Hlog in Hlk.
Qed.

End found.

(** ** Counting *)

Lemma answers_pattern (l : list (result IoError string)) f :
  (∀ k r, l !! k = Some r → is_ok r = f k) → map is_ok l = map f (seq 0 (length l)).
Proof.
  intros Hl. apply list_eq. intros k. rewrite !list_lookup_fmap. destruct (l !! k) as [r|] eqn:Hk.
  - pose proof (lookup_lt_Some _ _ _ Hk). rewrite lookup_seq_lt by done. simpl. f_equal. by apply Hl.
  - rewrite lookup_seq_ge by (by apply lookup_ge_None). done.
Qed.

(** The round trips of a round that count as a [get] answered. *)
Definition round_gets (ops : nat) (plan : KillPlan) : Z :=
  Z.of_nat (Nat.min plan.(kp_kill) ops) + (if (plan.(kp_kill) <? ops)%nat && is_ok plan.(kp_cut) then 1 else 0).

Definition counted (plan : KillPlan) (k : nat) : bool :=
  (k <? plan.(kp_kill))%nat || ((k =? plan.(kp_kill))%nat && is_ok plan.(kp_cut)).

Lemma count_counted plan ops :
  foldl count_answer (0, 0) (map (counted plan) (seq 0 ops)) =
    (round_gets ops plan, Z.of_nat ops - round_gets ops plan).
Proof.
  induction ops as [|ops IH]; [unfold round_gets; rewrite Nat.min_0_r; done|].
  rewrite seq_S, map_app, foldl_app, IH. cbn [map foldl]. rewrite Nat.add_0_l.
  unfold count_answer, counted, round_gets. cbn [fst snd].
  destruct (ops <? kp_kill plan)%nat eqn:H1; [apply Nat.ltb_lt in H1|apply Nat.ltb_ge in H1];
    destruct (ops =? kp_kill plan)%nat eqn:H2; [apply Nat.eqb_eq in H2|apply Nat.eqb_neq in H2|
      apply Nat.eqb_eq in H2|apply Nat.eqb_neq in H2]; try lia; cbn [orb andb].
  - rewrite !(proj2 (Nat.ltb_ge _ _)) by lia. simpl. f_equal; lia.
  - rewrite (proj2 (Nat.ltb_ge (kp_kill plan) ops)), (proj2 (Nat.ltb_lt (kp_kill plan) (S ops))) by lia.
    simpl. destruct (is_ok (kp_cut plan)); f_equal; lia.
  - rewrite !(proj2 (Nat.ltb_lt _ _)) by lia. simpl. destruct (is_ok (kp_cut plan)); f_equal; lia.
Qed.

Lemma round_ok_counts ops plan answers :
  round_ok ops plan answers →
  foldl count_answer (0, 0) (map is_ok answers) = (round_gets ops plan, Z.of_nat ops - round_gets ops plan).
Proof.
  intros [Hlen Hall]. rewrite (answers_pattern answers (counted plan)), Hlen; [apply count_counted|].
  intros k r Hk%Hall. unfold answer_ok, counted in *. destruct (k <? kp_kill plan)%nat; [by destruct Hk as (? & _ & ->)|].
  destruct (k =? kp_kill plan)%nat; by rewrite Hk.
Qed.

(** ** The kill test passes *)

Section passes.
Context {Fnox : Type} `{Os, Outside, TomlManifest, TomlConfig, UnicodeTables, HashOrder, FnoxCore Fnox, Rfc3339}.
Context {J : SerdeJson} {HJ : SerdeText J}.
Context (serde_error : list ascii → string) (peer : Peer) (order : Z → list (string * tree) → list (string * tree)).
Context (Horder : ∀ n l, order n l ≡ₚ l).
(** Clocks show times RFC 3339 can write, and the kernel's credentials are
    numbers JSON can. *)
Context (Hclock : ∀ n, ∃ ts, rfc3339 (os_utc n) = Some ts ∧ str_over timestamp_byte ts = true).
Context (Hpid : ∀ n, peer.(peer_pid) = Some n → serde_number n = true).
Context (Huid : ∀ n, peer.(peer_uid) = Some n → serde_number n = true).

Lemma kill_event_logged e : kill_event peer e → logged_event peer e.
Proof.
  intros (f & nv & -> & Hin & Hf). exists f, "victim", nv.1. split_and!; [done..|].
  repeat (apply elem_of_cons in Hin as [->|Hin]; [reflexivity|]). by apply not_elem_of_nil in Hin.
Qed.

Lemma kill_log_logged log : Forall (kill_event peer) log → Forall (logged_event peer) log.
Proof. intros Hl. eapply Forall_impl; [exact Hl|]. apply kill_event_logged. Qed.

Context (temp_dir : string) (pid nanos : Z) (fnox : Fnox).
Local Abbreviation sandbox := (scratch_dir temp_dir pid nanos).
Context (W : kill_world sandbox fnox).

(** The log so far is whole lines of the daemon's events. *)
Local Abbreviation whole_log bs := (∃ log, Forall (kill_event peer) log ∧ bs = log_bytes log).

Lemma whole_log_step bs plan es :
  whole_log bs → torn_free (kp_disk plan) → Forall (kill_event peer) es →
  whole_log (bs ++ run_bytes (kp_disk plan, es)) ∧ log_good (Some (bs ++ run_bytes (kp_disk plan, es))).
Proof.
  intros (log & Hlog & ->) Htf Hes.
  destruct (run_bytes_log (kill_event peer) (kp_disk plan, es) Hes Htf) as (log1 & Hlog1 & ->).
  pose proof (proj2 (Forall_app (kill_event peer) log log1) (conj Hlog Hlog1)) as Hlog'.
  rewrite <-log_bytes_app. split; [by exists (log ++ log1)|].
  apply log_bytes_good, (logged_readable peer); [done..|by apply kill_log_logged].
Qed.

(** What the rounds come to, from the totals [t] over the log [bs]. *)
Definition rounds_verdict (ops : nat) (plans : list KillPlan) (bs : list ascii) (t : Totals)
    (res : result MainPanic Report) : Prop :=
  (∃ t' lines answers,
    res = Ok (mkReport t' lines answers) ∧
    Forall2 (round_ok ops) plans answers ∧
    t'.(total_kills) = t.(total_kills) + Z.of_nat (length plans) ∧
    t'.(total_gets) = t.(total_gets) + foldr Z.add 0 (map (round_gets ops) plans) ∧
    t'.(total_gets) + t'.(errors_across_rounds) =
      t.(total_gets) + t.(errors_across_rounds) + Z.of_nat (ops * length plans)) ∨
  (∃ i line, res = Err (CheckFailed (NotJson i line)) ∧
    ¬ (whole_log bs ∧ Forall (λ p, torn_free (kp_disk p)) plans)).

Lemma main_rounds_pass ops round plans ns bs t :
  leftovers sandbox ns → forallb log_byte bs = true →
  rounds_verdict ops plans bs t (main_rounds serde_error peer order sandbox ops round plans ns bs t).
Proof.
  revert round ns bs t. induction plans as [|plan plans IH]; intros round ns bs t Hlo Hbs.
  { left. eexists _, _, []. split; [done|]. split; [constructor|]. simpl. split_and!; lia. }
  destruct (drive_round_ok serde_error peer sandbox fnox W ops plan ns Hlo) as (answers & es & ns' & Hd & Hlo' & Hes & Hok).
  cbn [main_rounds]. rewrite Hd. cbn [map_err mbind result_bind].
  assert (Hbs' : forallb log_byte (bs ++ run_bytes (kp_disk plan, es)) = true).
  { rewrite forallb_app, Hbs. by apply (run_bytes_logged peer), kill_log_logged. }
  pose proof (whole_log_step bs plan es) as Hstep. set (bs' := bs ++ _) in *. clearbody bs'.
  edestruct (kill_round_passes sandbox round) as [->|(i & line & -> & Hbad)];
    [apply (sandbox_clean sandbox ns' bs' _ Hbs' (Horder _ _))|..|]; cbn [rd_answers rd_log] in *.
  - rewrite (round_ok_counts ops plan) by done. cbn [map_err mbind result_bind].
    edestruct (IH (round + 1) ns' bs') as [(t' & lines & rest & Hr & Hall & Hk & Hg & Hs)|(i & line & Hr & Hbad)];
      [done..|rewrite Hr|rewrite Hr].
    + left. eexists _, _, _. split; [done|]. cbn [total_kills total_gets errors_across_rounds map foldr length] in *.
      split; [by constructor|]. rewrite Nat.mul_succ_r. cbn [rp_totals]. split_and!; lia.
    + right. exists i, line. split; [done|]. intros [Hw [Htf Htfs]%Forall_cons]. apply Hbad.
      split; [by apply Hstep|done].
  - right. exists i, line. split; [done|]. intros [Hw [Htf _]%Forall_cons]. by apply Hbad, Hstep.
Qed.

(** C14: the kill test against this daemon, given its sandbox and working I/O,
    with the daemon killed at any point of any round, before, while or after it
    serves a request, and with the audit writer anywhere behind and the log
    failing to open or to be written as it may.  Either it passes: every round
    came up over what the last one left, every [get] before the kill brought its
    secret's value and every later one was refused, no file but the two inputs
    ever held one of the values, every line of the log was JSON, and the totals
    are the kills made and the round trips answered and failed.  Or it stops
    with the complaint that a line of the log is not JSON, which happens only if
    a write of some round was torn, the line cut short; it never fails
    otherwise: no driver step panics and no value is ever found. *)
Theorem killtest_passes env plan :
  let rounds := Z.to_nat (env_u64 env "KILLTEST_ROUNDS" 5) in
  let ops := Z.to_nat (env_u64 env "KILLTEST_BURST_OPS" 50) in
  let plans := map plan (seq 1 rounds) in
  let res := main serde_error peer order env true temp_dir pid nanos plan in
  (∃ t lines answers,
    res = Ok (mkReport t lines answers) ∧
    Forall2 (round_ok ops) plans answers ∧
    t.(total_kills) = Z.of_nat rounds ∧
    t.(total_gets) = foldr Z.add 0 (map (round_gets ops) plans) ∧
    t.(total_gets) + t.(errors_across_rounds) = Z.of_nat (ops * rounds)) ∨
  (∃ i line, res = Err (CheckFailed (NotJson i line)) ∧
    ¬ Forall (λ p, torn_free (kp_disk p)) plans).
Proof.
  intros rounds ops plans res. unfold res, main. cbn [negb]. fold rounds ops plans.
  assert (Hlen : length plans = rounds) by (unfold plans; by rewrite length_map, length_seq).
  destruct (main_rounds_pass ops 1 plans ∅ [] (mkTotals 0 0 0) (leftovers_empty sandbox) eq_refl)
    as [(t & lines & answers & Hm & Hall & Hk & Hg & Hs)|(i & line & Hm & Hbad)]; [left|right].
  - exists t, lines, answers. rewrite Hlen in *. simpl in *. split_and!; [exact Hm|done|lia..].
  - exists i, line. split; [exact Hm|]. intros Htf. apply Hbad. split; [by exists []|done].
Qed.

End passes.

(** ** Witness *)

Local Abbreviation kill_box := (scratch_dir "/tmp" 7 1).
Local Abbreviation kill_manifest := (manifest_file (join kill_box "victim")).

Definition kill_disk : Disk := mkDisk
  (λ p, bool_decide (p = kill_manifest))
  (λ p, if decide (p = join kill_box "token") then Ok "killtest-token"
        else if decide (p = kill_manifest) then Ok victim_toml
        else Err not_found).
Definition kill_os : Os := {|
  os_now n := Z.of_nat n; os_utc n := Z.of_nat n; os_disk _ := kill_disk; os_fault _ := None;
  os_bind_mode := 493 |}.
Definition kill_toml : TomlManifest := λ text,
  if decide (text = victim_toml) then Ok (broker_raw "victim" TRIPWIRE_VALUES.*1) else Err "unexpected".
Definition kill_fnox : FnoxCore string := mkFnoxCore _
  (λ _ path, if decide (path = join kill_box "fnox.toml") then Ok "plain" else Err "no such file")
  (λ _, Err "no configuration")
  (λ _ _ name, Ok (snd <$> List.find (λ nv, bool_decide (nv.1 = name)) TRIPWIRE_VALUES)).

(** Two rounds of four requests: a kill right after the fourth was served, with
    a disk that refused the first write, and a kill before the first. *)
Definition kill_env (name : string) : option string :=
  if decide (name = "KILLTEST_ROUNDS") then Some "2"
  else if decide (name = "KILLTEST_BURST_OPS") then Some "4" else None.
Definition kill_plan (k : nat) : KillPlan :=
  if (k =? 1)%nat
  then mkKillPlan 0 3 true (Ok "") (λ _, 1%nat) (λ n, match n with O => OpenFails demo_enospc | _ => WriteOk end)
  else mkKillPlan 100 0 false (Err connection_refused) (λ _, 0%nat) (λ _, WriteOk).

Lemma kill_world_demo : @kill_world string kill_os kill_toml kill_fnox kill_box "plain".
Proof.
  split; try (intros n; vm_compute; reflexivity).
  - split; try (intros n; vm_compute; reflexivity). vm_compute. reflexivity.
  - intros n name v Hin. repeat (apply elem_of_cons in Hin as [[= -> ->]|Hin]; [vm_compute; reflexivity|]).
    by apply not_elem_of_nil in Hin.
  - vm_compute. reflexivity.
  - apply Nat.ltb_lt. vm_compute. reflexivity.
Qed.

Lemma kill_plan_torn_free k : torn_free (kp_disk (kill_plan k)).
Proof. intros n j err. unfold kill_plan. destruct (k =? 1)%nat; [destruct n|]; discriminate. Qed.

Lemma killtest_passes_witness :
  ∃ t lines answers,
    @main string kill_os (demo_imds "{}") kill_toml demo_toml_config demo_unicode demo_order kill_fnox demo_clock
      text_json no_serde_error demo_peer (λ _ l, reverse l) kill_env true "/tmp" 7 1 kill_plan =
      Ok (mkReport t lines answers) ∧
    total_kills t = 2 ∧ total_gets t = 4 ∧ errors_across_rounds t = 4.
Proof.
  destruct (@killtest_passes string kill_os (demo_imds "{}") kill_toml demo_toml_config demo_unicode demo_order
    kill_fnox demo_clock text_json text_json_laws no_serde_error demo_peer (λ _ l, reverse l)
    ltac:(intros n l; apply reverse_Permutation)
    ltac:(intros n; eexists; split; [reflexivity|vm_compute; reflexivity])
    ltac:(intros n [= <-]; reflexivity) ltac:(intros n [= <-]; reflexivity)
    "/tmp" 7 1 "plain" kill_world_demo kill_env kill_plan)
    as [(t & lines & answers & Hm & _ & Hk & Hg & Hs)|(i & line & _ & Htorn)];
    [|exfalso; apply Htorn, Forall_fmap, Forall_true; apply kill_plan_torn_free].
  change (foldr Z.add 0 _) with 4 in Hg. change (Z.of_nat (_ * _)) with 8 in Hs.
  exists t, lines, answers. split; [exact Hm|]. split; [exact Hk|]. split; [exact Hg|lia].
Defined.

(** The same run, evaluated: of the four events that reached the writer, which
    failed once and caught up, four lines are in the log. *)
Example kill_run_evaluated :
  (rp_audit_lines <$> @main string kill_os (demo_imds "{}") kill_toml demo_toml_config demo_unicode demo_order
     kill_fnox demo_clock text_json no_serde_error demo_peer (λ _ l, l) kill_env true "/tmp" 7 1 kill_plan) = Ok 4.
Proof. vm_compute. reflexivity. Qed.

(** The complaint of the other branch does come: one write cut short after three
    bytes leaves a line that is not JSON. *)
Definition torn_plan (_ : nat) : KillPlan :=
  mkKillPlan 0 3 true (Ok "") (λ _, 1%nat) (λ n, match n with O => WriteFails 3 demo_enospc | _ => WriteOk end).

Example kill_run_torn :
  match @main string kill_os (demo_imds "{}") kill_toml demo_toml_config demo_unicode demo_order
     kill_fnox demo_clock text_json no_serde_error demo_peer (λ _ l, l) kill_env true "/tmp" 7 1 torn_plan with
  | Err (CheckFailed (NotJson i _)) => i = 1
  | _ => False
  end.
Proof. vm_compute. reflexivity. Qed.
