(* ===== verification/Load.v ===== *)
(** * The soak test and the benchmark against the daemon ([examples/soak.rs], [benches/latency.rs])

    Both run the server inside their own process, register their projects over
    the admin socket and send requests on fresh connections.  The requests of the
    workers are served one at a time, in any order; the audit writer is anywhere
    behind.  [soak_passes]: what the soak test does for every setting of its
    knobs, and its verdict.  [cold_bench_is_warm]: the benchmark of a
    "cold" [get] asks the backend once; every later iteration is a cache hit. *)

From S2P Require Import Prelude Str Path Json JsonText Os Manifest Cache Config AuditLog Backend Proto Registry Bootstrap Server Fetch Admin Client Conn EndToEnd Daemon Main Harness Drivers LogText Recovery.
Open Scope Z_scope.

(** The ten secrets both use. *)
Definition ten : list Z := [0; 1; 2; 3; 4; 5; 6; 7; 8; 9].
Definition ten_secrets : list (string * string) := map (λ i, ("S" +:+ dec i, "v" +:+ dec i)) ten.

Definition soak_fnox_toml : string :=
  foldl (λ acc i, acc +:+ "S" +:+ dec i +:+ " = { provider = " +:+ Harness.quoted "plain" +:+ ", value = "
                    +:+ Harness.quoted ("v" +:+ dec i) +:+ " }" +:+ newline)
    ("[providers]" +:+ newline +:+ "plain = { type = " +:+ Harness.quoted "plain" +:+ " }" +:+ newline +:+ newline
       +:+ "[secrets]" +:+ newline)
    ten.

(** The manifest of the benchmark has blank lines the others do not have. *)
Definition bench_toml : string :=
  "schema_version = 1" +:+ newline +:+ newline +:+ "[project]" +:+ newline +:+
  "name = " +:+ Harness.quoted "bench" +:+ newline +:+ newline +:+ "[allowlist]" +:+ newline +:+
  "secrets = [" +:+ of_bytes (sep_by (bytes ",") (map (bytes ∘ Harness.quoted) ten_secrets.*1)) +:+ "]" +:+ newline.

Definition harness_overrides (scratch : string) : Overrides :=
  mkOverrides (Some KindFile) (Some (join scratch "token")) (Some (join scratch "run"))
    (Some (join scratch "audit.log")) None None None None.

Section load.
Context {Fnox : Type} `{Os, Outside, TomlManifest, TomlConfig, UnicodeTables, HashOrder, FnoxCore Fnox} {J : SerdeJson}.
Context (serde_error : list ascii → string) (peer : Peer).
Local Abbreviation State := (ServerState Fnox).
Local Abbreviation M := (ST State).
Local Abbreviation exchange := (exchange serde_error peer).
Local Abbreviation one_fetch := (one_fetch serde_error peer).

(** [AuditWriter::spawn], [Server::new] and [run] in a task, whose result nobody
    looks at; the scratch directory is new. *)
Definition start_server (config : Config) (backend : BackendSession Fnox) (n : nat) : Server * State :=
  let server := server_new config (os_now (S n)) in
  let s0 := mkServerState (mkRegState (2 + n) ∅ ∅ 0 ∅) channel_new (Some backend) ∅ ∅ in
  (server, (setup server s0).2).

Definition admin_of (scratch : string) : string := join (join scratch "run") "admin.sock".
Definition socket_of (scratch name : string) : string := join (join scratch "run") (name +:+ ".sock").

(** [connect(..).unwrap()], the write, the read, [assert!(line.contains(..))]. *)
Definition register_unwrap (server : Server) (scratch name : string) : M (result DriverPanic string) :=
  r ← exchange server (admin_of scratch) (register_request name (join scratch name) +:+ newline);
  mret match r with
       | Err e => Err (UnwrapIo e)
       | Ok line =>
           if contains (bytes OK_TRUE) (bytes line) then Ok (socket_of scratch name)
           else Err (RegisterFailed line)
       end.

(** ** soak.rs *)

Definition soak_project (i : nat) : string := "p" +:+ dec (Z.of_nat i).

(** Projects [i], [i + 1], .. : their sockets. *)
Fixpoint soak_register (server : Server) (scratch : string) (i num_projects : nat)
    : M (result DriverPanic (list string)) :=
  match num_projects with
  | O => mret (Ok [])
  | S k =>
      socket ←? register_unwrap server scratch (soak_project i);
      sockets ←? soak_register server scratch (S i) k;
      mret (Ok (socket :: sockets))
  end.

(** The operations of worker [w], which has the project [w / per]. *)
Fixpoint soak_ticks (project : nat) (tick : Z) (count : nat) : list (nat * worker_op) :=
  match count with
  | O => []
  | S k => (project, pick tick) :: soak_ticks project (tick + 1) k
  end.

(** All workers from number [w] on, [counts] operations each. *)
Fixpoint soak_schedule (per : nat) (w : nat) (counts : list nat) : list (nat * worker_op) :=
  match counts with
  | [] => []
  | c :: counts => soak_ticks (w / per) (Z.of_nat w) c ++ soak_schedule per (S w) counts
  end.

(** What goes on around a run: how many events the writer handles after each
    request and before the log is read, what the disk does, how many workers
    panicked, and the text of /proc/<pid>/status at the end. *)
Record SoakPlan : Type := mkSoakPlan {
  sp_takes : nat → nat;
  sp_disk : nat → FileOutcome;
  sp_panics : Z;
  sp_status : option string;
}.

(** The answers from request number [i] on, and the events the writer has
    handled. *)
Fixpoint soak_ops (server : Server) (sockets : list string) (plan : SoakPlan) (i : nat) (ops : list (nat * worker_op))
    : M (list (result IoError string) * list AuditEvent) :=
  match ops with
  | [] => es ← writer_takes (plan.(sp_takes) i); mret ([], es)
  | (project, op) :: ops =>
      r ← exchange server (default "" (sockets !! project)) (payload op);
      es ← writer_takes (plan.(sp_takes) i);
      '(rs, es') ← soak_ops server sockets plan (S i) ops;
      mret (r :: rs, es ++ es')
  end.

Definition soak_boot (scratch : string) (n : nat) : result DriverPanic (Server * State) :=
  backend ← map_err UnwrapBackend (Backend.open n (join scratch "fnox.toml"));
  config ← map_err UnwrapConfig (Config.from_toml_str "" (harness_overrides scratch));
  Ok (start_server config backend n).

(** [Vec::with_capacity] of paths, three words each. *)
Definition ISIZE_MAX : Z := 2 ^ 63 - 1.
(** The seconds of an [Instant]. *)
Definition I64_MAX : Z := 2 ^ 63 - 1.

(** [main] up to the end of the workers.  The knobs panic where they must: a
    vector that cannot be allocated, a clock that overflows, and
    [from_secs_f64(1.0 / 0.0)]. *)
Definition soak_run (env : string → option string) (scratch : string) (ops : list (nat * worker_op))
    (plan : SoakPlan) (n : nat)
    : result DriverPanic (list (result IoError string) * list AuditEvent * State) :=
  let num_projects := env_u64 env "SOAK_PROJECTS" 5 in
  let ops_per_sec := env_u64 env "SOAK_OPS_PER_SEC" 10 in
  let duration := from_secs (env_u64 env "SOAK_DURATION_SECS" 5) in
  '(server, s) ← soak_boot scratch n;
  _ ← ensure (num_projects * 24 <=? ISIZE_MAX) CapacityOverflow;
  let '(r, s1) := soak_register server scratch 0 (Z.to_nat num_projects) s in
  sockets ← r;
  let '(t, s2) := now s1 in
  _ ← ensure (as_secs t + as_secs duration <=? I64_MAX) InstantOverflow;
  _ ← ensure (negb (ops_per_sec =? 0)) InfiniteInterval;
  let '(answers, handled, s3) := soak_ops server sockets plan 0 ops s2 in
  Ok (answers, handled, s3).

(** The whole of [main]: the complaints, and the exit code.  The log is read
    while the server still runs. *)
Definition soak_main `{Rfc3339} (env : string → option string) (scratch : string) (ops : list (nat * worker_op))
    (plan : SoakPlan) (n : nat) : result DriverPanic (list string * Z) :=
  let rss_cap_mib := env_u64 env "SOAK_RSS_CAP_MIB" 60 in
  '(answers, handled, _) ← soak_run env scratch ops plan n;
  let '(total, errs) := foldl count_op (0, 0) (zip (map snd ops) (map is_ok answers)) in
  let final_rss_kib := default 0 (read_rss_kib plan.(sp_status)) in
  let lines := audit_lines (Some (run_bytes (plan.(sp_disk), handled))) in
  let failures := verdict plan.(sp_panics) errs total (final_rss_kib / 1024) rss_cap_mib lines in
  Ok (failures, match failures with [] => 0 | _ => 1 end).

(** ** latency.rs *)

Definition boot_server (scratch : string) (n : nat) : result DriverPanic (Server * string * State) :=
  config ← map_err UnwrapConfig (Config.from_toml_str "" (harness_overrides scratch));
  _ ← (match config.(bootstrap) with SourceFile _ => Ok tt | _ => Err WrongSource end);
  backend ← map_err UnwrapBackend (Backend.open n (join scratch "fnox.toml"));
  let '(server, s) := start_server config backend n in
  let '(r, s1) := register_unwrap server scratch "bench" s in
  socket ← r;
  Ok (server, socket, s1).

(** One measured iteration. *)
Definition bench_iter (server : Server) (socket : string) : M (result DriverPanic unit) :=
  r ← one_fetch server socket "S0";
  mret match r with
       | Err e => Err (UnwrapIo e)
       | Ok resp =>
           if contains (bytes (dq "'value':'v0'")) (bytes resp) then Ok tt else Err (WrongValue resp)
       end.

Fixpoint iterate (server : Server) (socket : string) (k : nat) : M (result DriverPanic unit) :=
  match k with
  | O => mret (Ok tt)
  | S k => _ ←? bench_iter server socket; iterate server socket k
  end.

Fixpoint prime (server : Server) (socket : string) (names : list string) : M (result DriverPanic unit) :=
  match names with
  | [] => mret (Ok tt)
  | name :: names =>
      r ← one_fetch server socket name;
      match r with
      | Err e => mret (Err (UnwrapIo e))
      | Ok _ => prime server socket names
      end
  end.

(** [k] iterations of either benchmark. *)
Definition bench_warm_cache_get (scratch : string) (k n : nat) : result DriverPanic State :=
  '(server, socket, s) ← boot_server scratch n;
  match (_ ←? prime server socket ten_secrets.*1; iterate server socket k) s with
  | (Err e, _) => Err e
  | (Ok _, s') => Ok s'
  end.

Definition bench_cold_get (scratch : string) (k n : nat) : result DriverPanic State :=
  '(server, socket, s) ← boot_server scratch n;
  match iterate server socket k s with
  | (Err e, _) => Err e
  | (Ok _, s') => Ok s'
  end.

End load.

(** ** Names *)

Lemma ten_plain : Forall (λ nv, plain nv.1 = true ∧ plain nv.2 = true ∧ (length (project_text (Get nv.1)) < 1000)%nat) ten_secrets.
Proof. apply (bool_decide_unpack _). vm_compute. exact I. Qed.
Lemma ten_nodup : NoDup ten_secrets.*1.
Proof. apply (bool_decide_unpack _). vm_compute. exact I. Qed.

Lemma dec_inj a b : 0 ≤ a → 0 ≤ b → dec a = dec b → a = b.
Proof. intros Ha Hb Heq. by rewrite <-(digits_val_dec a Ha), Heq, digits_val_dec. Qed.

Lemma soak_project_inj i j : soak_project i = soak_project j → i = j.
Proof.
  unfold soak_project. intros Heq. apply (f_equal bytes) in Heq. rewrite !bytes_app in Heq.
  apply app_inv_head, bytes_inj, dec_inj in Heq; lia.
Qed.

Lemma soak_project_not_admin i : soak_project i ≠ "admin".
Proof. unfold soak_project. intros Heq. by apply (f_equal bytes) in Heq; rewrite bytes_app in Heq. Qed.

(** A project directory a driver may make: its manifest is valid, and its name
    needs no escaping anywhere. *)
Record good_project (name : string) : Prop := {
  gp_plain : plain name = true;
  gp_name : plain_name name;
  gp_sock : plain_name (name +:+ ".sock");
  gp_short : (length (bytes name) ≤ 64)%nat;
  gp_valid : re_match project_name_re (bytes name);
}.

Lemma name_byte_plain b : cls_name b = true → plain_byte b = true ∧ b ≠ SEP.
Proof. destruct b as [[] [] [] [] [] [] [] []]; vm_compute; naive_solver. Qed.

(** Every name the manifest rules admit is one. *)
Lemma valid_name_good name :
  re_match project_name_re (bytes name) → good_project name.
Proof.
  intros Hre. pose proof (socket_file_plain name Hre) as Hsock.
  destruct (re_project_name_bytes _ Hre) as (b & rest & Hb & Hcls).
  assert (Hlen : (length (bytes name) ≤ 64)%nat).
  { inversion Hre as [|? ? s1 s2 H1 H2|]; subst. apply re_match_cls_inv in H1 as (c & -> & _).
    apply re_match_rep_cls in H2 as [Hl _]. simpl. lia. }
  split; [| |done..].
  - unfold plain. apply forallb_forall. intros c Hc%list_elem_of_In. rewrite Forall_forall in Hcls.
    by apply name_byte_plain, Hcls.
  - split_and!.
    + intros Hin. rewrite Forall_forall in Hcls. specialize (Hcls _ Hin). by apply name_byte_plain in Hcls as [_ ?].
    + intros ->. done.
    + intros ->. simpl in Hb. injection Hb as <- _. inversion Hcls as [|? ? Hc _]. done.
    + intros ->. simpl in Hb. injection Hb as <- _. inversion Hcls as [|? ? Hc _]. done.
Qed.

Lemma digit_name_byte b : is_ascii_digit b = true → cls_name b = true.
Proof. destruct b as [[] [] [] [] [] [] [] []]; vm_compute; naive_solver. Qed.

Lemma soak_project_good i : Z.of_nat i < 10 ^ 63 → good_project (soak_project i).
Proof.
  intros Hi. apply valid_name_good. unfold soak_project. rewrite bytes_app.
  change (bytes "p") with (["p"%char] : list ascii).
  apply (match_seq _ _ ["p"%char]); [by constructor|]. apply re_match_rep_cls. split.
  - split; [lia|]. apply dec_length; lia.
  - pose proof (dec_digits (Z.of_nat i) ltac:(lia)) as Hd. rewrite forallb_forall in Hd.
    apply forallb_forall. intros b Hb. by apply digit_name_byte, Hd.
Qed.

(** The manifest of such a project is accepted. *)
Lemma good_project_validates name :
  good_project name →
  validate (broker_raw name ten_secrets.*1) (Some name) = Ok (manifest_of (broker_raw name ten_secrets.*1)).
Proof.
  intros Hg. assert (Hv : valid_manifest (broker_raw name ten_secrets.*1) (Some name)).
  { split; try done.
    - by vm_compute; left.
    - apply Hg.
    - by intros d [= <-].
    - assert (Hb : valid_manifest (broker_raw "bench" ten_secrets.*1) (Some "bench")); [|apply Hb].
      pose proof (validate_cases (broker_raw "bench" ten_secrets.*1) (Some "bench")) as Hc.
      destruct (validate _ _) as [m|e] eqn:He; [apply Hc|]. vm_compute in He. discriminate. }
  pose proof (validate_cases (broker_raw name ten_secrets.*1) (Some name)) as Hc.
  destruct (validate _ _) as [m|e]; [by destruct Hc as [_ ->]|]. by apply first_violation_not_valid in Hc.
Qed.

(** ** The server in the driver's process *)

Section proofs.
Context {Fnox : Type} `{Os, Outside, TomlManifest, TomlConfig, UnicodeTables, HashOrder, FnoxCore Fnox}.
Context {J : SerdeJson} {HJ : SerdeText J}.
Context (serde_error : list ascii → string) (peer : Peer).
Context (scratch : string) (fnox : Fnox).
Implicit Types (s : ServerState Fnox).

(** What the driver has prepared: an empty configuration text is no setting,
    the backend opens and has the ten values; and I/O works. *)
Record load_world : Prop := {
  lw_fault : ∀ n, os_fault n = None;
  lw_config : toml_config "" = Ok RawConfig_default;
  lw_open : ∀ n, fnox_open n (join scratch "fnox.toml") = Ok fnox;
  lw_get : ∀ n name v, (name, v) ∈ ten_secrets → fnox_get n fnox name = Ok (Some v);
  lw_plain : plain scratch = true;
  lw_short : (length (bytes scratch) < 4096)%nat;
}.

Context (W : load_world).

(** While projects are being registered. *)
Record up (server : Server) s : Prop := {
  up_dir : server.(sv_config).(socket_dir) = join scratch "run";
  up_same : same_dir server;
  up_ttl : server.(sv_registry).(rg_cache_defaults) = mkCacheDefaults 32 (from_secs 900);
  up_serving : serving server ten_secrets fnox s;
  up_admin : admin_safe server s;
  up_dirs : ∀ p m, nodes_of s !! p = Some (Dir m) → p = join scratch "run";
  up_audit : s.(ss_audit) = channel_new;
}.

Lemma run_plain : plain_name "run".
Proof. split_and!; try done; vm_compute; set_solver. Qed.

Definition load_config : Config :=
  mkConfig (SourceFile (join scratch "token")) (join scratch "run") (join scratch "audit.log")
    (from_secs 900) 32 (from_millis 5000) None.

Lemma load_config_resolves : Config.from_toml_str "" (harness_overrides scratch) = Ok load_config.
Proof.
  unfold Config.from_toml_str. rewrite (lw_config W). cbn [map_err mbind result_bind]. by rewrite resolve_cases.
Qed.

Lemma load_backend_opens n : Backend.open n (join scratch "fnox.toml") = Ok (mkBackendSession fnox).
Proof. unfold Backend.open. by rewrite (lw_open W). Qed.

Lemma boot_up n :
  ∃ server s, start_server load_config (mkBackendSession fnox) n = (server, s) ∧ up server s ∧
    s.(ss_reg).(rs_map) = ∅.
Proof.
  unfold start_server.
  set (server := server_new _ _). set (s0 := mkServerState _ _ _ _ _). eexists server, _. split; [done|].
  destruct (setup_over_stale server s0 (lw_fault W)) as (s1 & Hset & Hn); [by left|done|].
  destruct (setup_frame server s0) as (k & ns1 & Hf).
  pose proof (setup_empty_inv server s0 (conj eq_refl (conj eq_refl (conj eq_refl eq_refl)))) as Hinv.
  rewrite Hset in Hf, Hinv |- *. simpl in Hf, Hinv |- *. split; [|by rewrite Hf]. split; [done..| | | |].
  - split; [done|by rewrite Hf|..]; rewrite Hf; simpl; intros id p; by rewrite lookup_empty.
  - split; [by rewrite Hf|]. rewrite Hn. apply lookup_insert_eq.
  - intros p m. rewrite Hn. intros [[_ ?]|[_ Hp]]%lookup_insert_Some; [done|].
    apply lookup_insert_Some in Hp as [[<- _]|[_ Hp]]; [done|].
    by rewrite (lookup_empty p : nodes_of s0 !! p = None) in Hp.
  - by rewrite Hf.
Qed.

Lemma socket_not_run name : plain_name (name +:+ ".sock") → socket_of scratch name ≠ join scratch "run".
Proof. intros Hn. by apply join_longer. Qed.

Lemma up_socket server s name : up server s → socket_path_for (sv_registry server) name = socket_of scratch name.
Proof. intros Hu. unfold socket_path_for, socket_of. by rewrite (up_same _ _ Hu), (up_dir _ _ Hu). Qed.

(** Registering one more project. *)
Lemma register_unwrap_up server s name text :
  up server s → good_project name → name ≠ "admin" → s.(ss_reg).(rs_map) !! name = None →
  manifest_on_disk (join scratch name) text (broker_raw name ten_secrets.*1) →
  ∃ s', register_unwrap serde_error peer server scratch name s = (Ok (socket_of scratch name), s') ∧ up server s' ∧
    s'.(ss_reg).(rs_map) = <[name := s.(ss_reg).(rs_next)]> s.(ss_reg).(rs_map) ∧
    ∃ p, s'.(ss_reg).(rs_heap) !! s.(ss_reg).(rs_next) = Some p ∧
      p.(p_cache) = Cache.new 32 (from_secs 900).
Proof.
  intros Hu [Hpl Hpn Hps Hlen Hre] Hna Hfree Hdisk. pose proof (up_socket server s name Hu) as Hsock.
  pose proof (good_project_validates name ltac:(by split)) as Hv. pose proof (lw_short W).
  assert (Hpdir : plain (socket_dir (sv_config server)) = true).
  { rewrite (up_dir _ _ Hu). apply plain_join; [apply run_plain|apply W|done]. }
  assert (Hnodir : ∀ md, nodes_of s !! socket_path_for (sv_registry server) name ≠ Some (Dir md)).
  { intros md Hd. rewrite Hsock in Hd. by apply (up_dirs _ _ Hu), socket_not_run in Hd. }
  destruct (register_exchange serde_error peer server ten_secrets fnox (lw_fault W) (up_same _ _ Hu) scratch name
    text _ _ s (up_serving _ _ Hu) (up_admin _ _ Hu) (lw_plain W) Hpl Hpn Hpdir ltac:(lia) Hps Hdisk Hv
    eq_refl eq_refl Hfree Hnodir) as (s' & Hex & Heq & Hs' & Hp & Hm & Hn).
  assert (Hap : admin_path server = admin_of scratch) by (unfold admin_path; by rewrite (up_dir _ _ Hu)).
  rewrite Hap in Hex. exists s'. split_and!; [| |done|].
  - unfold register_unwrap. rewrite ST_bind_unfold, Hex. cbn [fst snd].
    unfold register_to_json, register_new. cbn [rr_ok rr_socket_path field app]. by rewrite ok_line.
  - split; [by apply Hu..|done| | |].
    + rewrite Heq. apply serve_admin_safe; [by apply Hu|by apply bool_decide_false|by apply Hu|by apply Hu].
    + intros p m. rewrite Hn. intros [[_ ?]|[_ Hp']]%lookup_insert_Some; [done|]. by eapply (up_dirs _ _ Hu).
    + rewrite Heq. rewrite (register_audit server name (join scratch name) s). apply Hu.
  - eexists. split; [exact Hp|]. simpl. unfold resolve_cache_bounds. by rewrite (up_ttl _ _ Hu).
Qed.

(** ** The soak test *)

Definition soak_manifests (num_projects : nat) : Prop := ∀ i, (i < num_projects)%nat →
  manifest_on_disk (join scratch (soak_project i)) (broker_toml (soak_project i) ten_secrets.*1)
    (broker_raw (soak_project i) ten_secrets.*1).

Lemma listed_map server nm s : server_inv server s → is_Some (s.(ss_reg).(rs_map) !! nm) → listed nm s.
Proof.
  intros Hinv [id Hid]. exists id. split; [done|].
  destruct (ri_map _ _ (si_reg _ _ Hinv) nm id Hid) as (p & Hp & _). by eexists.
Qed.

Lemma soak_register_up server total i num s :
  up server s → (i + num ≤ total)%nat → Z.of_nat total < 10 ^ 63 → soak_manifests total →
  (∀ j, (i ≤ j)%nat → s.(ss_reg).(rs_map) !! soak_project j = None) →
  ∃ s', soak_register serde_error peer server scratch i num s =
      (Ok (map (λ j, socket_of scratch (soak_project j)) (seq i num)), s') ∧ up server s' ∧
    (∀ nm, is_Some (s.(ss_reg).(rs_map) !! nm) → is_Some (s'.(ss_reg).(rs_map) !! nm)) ∧
    ∀ j, (i ≤ j < i + num)%nat → is_Some (s'.(ss_reg).(rs_map) !! soak_project j).
Proof.
  revert i s. induction num as [|num IH]; intros i s Hu Hle Htot Hman Hfree.
  { exists s. split_and!; [done..|]. intros j Hj. lia. }
  destruct (register_unwrap_up server s (soak_project i) _ Hu (soak_project_good i ltac:(lia))
    (soak_project_not_admin i) (Hfree i ltac:(lia)) (Hman i ltac:(lia))) as (s1 & Hr & Hu1 & Hm & _).
  destruct (IH (S i) s1 Hu1 ltac:(lia) Htot Hman) as (s2 & Hr2 & Hu2 & Hkeep & Hall).
  { intros j Hj. rewrite Hm, lookup_insert_ne; [apply Hfree; lia|]. intros Heq%soak_project_inj. lia. }
  exists s2. cbn [soak_register]. rewrite bind_res_unfold, Hr. cbn [fst snd].
  rewrite bind_res_unfold, Hr2. cbn [fst snd]. split_and!; [done|done| |].
  - intros nm Hnm. apply Hkeep. rewrite Hm. destruct (decide (nm = soak_project i)) as [->|].
    + by rewrite lookup_insert_eq.
    + by rewrite lookup_insert_ne.
  - intros j Hj. destruct (decide (j = i)) as [->|]; [|apply Hall; lia].
    apply Hkeep. by rewrite Hm, lookup_insert_eq.
Qed.

Lemma pick_in tick k : pick tick = OpGet k → ("S" +:+ dec k, "v" +:+ dec k) ∈ ten_secrets.
Proof.
  unfold pick. destruct (_ <=? 2); [|by destruct (_ =? 3)]. intros [= <-].
  pose proof (Z.mod_pos_bound (tick / 5) 10 ltac:(lia)) as Hb. set (m := (tick / 5) mod 10) in *.
  unfold ten_secrets. apply list_elem_of_fmap. exists m. split; [done|].
  unfold ten. rewrite !elem_of_cons. lia.
Qed.

Lemma payload_get_text k : payload (OpGet k) = get_request ("S" +:+ dec k) +:+ newline.
Proof.
  apply bytes_inj. unfold payload, get_request, Harness.quoted. rewrite !bytes_app.
  repeat (simpl; rewrite <-?app_assoc). done.
Qed.

Lemma project_name_plain server id p s :
  server_inv server s → s.(ss_reg).(rs_heap) !! id = Some p → ascii_str p.(p_name) = true.
Proof.
  intros Hinv Hp. apply plain_ascii_str, gp_plain, valid_name_good.
  destruct (ri_heap _ _ (si_reg _ _ Hinv) id p Hp) as [Hok _]. by eapply project_ok_valid_name.
Qed.

(** [ping] and [info] are answered and leave no trace. *)
Lemma other_exchange server pname r s :
  r = Ping ∨ r = Info → serving server ten_secrets fnox s → listed pname s →
  ∃ line s' id, exchange serde_error peer server (socket_path_for (sv_registry server) pname)
      (of_bytes (terminated (project_text r))) s = (Ok line, s') ∧
    serving server ten_secrets fnox s' ∧ cache_only id s s' ∧ s'.(ss_audit) = s.(ss_audit).
Proof.
  intros Hr Hs (id & Hid & p & Hp).
  pose proof (connect_project server pname id s (sg_inv _ _ _ _ Hs) Hid) as Hc. pose proof cap_value as Hcap.
  assert (Hlen : (length (project_text r) < 100)%nat) by (apply Nat.ltb_lt; destruct Hr as [-> | ->]; reflexivity).
  pose proof (exchange_project serde_error peer server _ id (of_bytes (terminated (project_text r))) r s Hc
    (bytes_of_bytes _) ltac:(lia)) as Hex.
  pose proof (serve_project_frame peer server id r s) as Hco.
  pose proof (serve_other_serving peer server ten_secrets fnox id r s Hs ltac:(intros nm; by destruct Hr as [-> | ->])) as Hs'.
  pose proof (project_name_plain server id p s (sg_inv _ _ _ _ Hs) Hp) as Hname.
  pose proof (sg_allow _ _ _ _ Hs id p Hp) as Hallow.
  pose proof (schema_version_u32 server id s (sg_inv _ _ _ _ Hs)) as Hver.
  assert (Haud : (serve server (ProjectReq id r peer) s).2.(ss_audit) = s.(ss_audit)) by by destruct Hr as [-> | ->].
  assert (Hj : serde_value (serve server (ProjectReq id r peer) s).1 = true ∧
               ascii_json (serve server (ProjectReq id r peer) s).1 = true).
  { destruct Hr as [-> | ->]; cbn [serve serve_project].
    - split; [done|]. change (ascii_json (ping_to_json (ping_new BROKER_VERSION (p_name (deref id s)))) = true).
      rewrite (heap_deref id p) by done. unfold ping_to_json, ping_new.
      cbn [pr_ok pr_broker_version pr_protocol_version pr_project field app json_over forallb fst snd].
      by rewrite Hname.
    - split; [by apply info_value|].
      change (ascii_json (info_to_json (info_new (p_name (deref id s))
        (secrets (allowlist (p_manifest (deref id s)))) (schema_version (p_manifest (deref id s))))) = true).
      rewrite (heap_deref id p), Hallow by done. unfold info_to_json, info_new.
      cbn [ir_ok ir_project ir_allowlist ir_schema_version field app json_over forallb fst snd].
      by rewrite Hname. }
  destruct (serve server (ProjectReq id r peer) s) as [j s']. destruct Hj as [Hv Ha].
  exists (line_text j), s', id. split_and!; [by apply Hex|done..].
Qed.

(** The requests of a schedule that are [get]s. *)
Definition gets_in (ops : list (nat * worker_op)) : Z := count_if sent_get (map (λ x, (x.2, true)) ops).

Definition op_ok (num_projects : nat) (x : nat * worker_op) : Prop :=
  (x.1 < num_projects)%nat ∧ ∃ tick, x.2 = pick tick.

Definition record_all (ch : Channel) (es : list AuditEvent) : Channel := foldl (λ ch e, record e ch) ch es.

Lemma log_name pre n : str_over log_byte pre = true → str_over log_byte (pre +:+ dec n) = true.
Proof.
  unfold str_over. intros Hp. rewrite bytes_app, forallb_app, Hp, dec_over; [done|].
  apply (bool_decide_unpack _). vm_compute. exact I.
Qed.

(** One operation of a worker: an answer, and one event for a [get]. *)
Lemma soak_op server op pname s :
  serving server ten_secrets fnox s → listed pname s → str_over log_byte pname = true → (∃ tick, op = pick tick) →
  ∃ line s' id es,
    exchange serde_error peer server (socket_path_for (sv_registry server) pname) (payload op) s = (Ok line, s') ∧
    serving server ten_secrets fnox s' ∧ cache_only id s s' ∧
    s'.(ss_audit) = record_all s.(ss_audit) es ∧ length es = (if is_get op then 1 else 0)%nat ∧
    Forall (logged_event peer) es.
Proof.
  intros Hs Hl Hpl [tick Hop]. destruct op as [k| |].
  - pose proof (pick_in tick k (eq_sym Hop)) as Hin. pose proof ten_plain as Hp. rewrite Forall_forall in Hp.
    destruct (Hp _ Hin) as (Hpn & Hpv & Hlen). rewrite payload_get_text.
    destruct (get_exchange serde_error peer server ten_secrets fnox (lw_get W) ten_nodup pname _ _ s Hs Hl Hin Hpn Hpv Hlen)
      as (ttl & s' & id & e & Hex & _ & Hs' & Hco & He & Hfo & _).
    eexists _, s', id, [Fetch e]. split; [exact Hex|]. split_and!; [done..|]. constructor; [|done].
    eexists e, pname, _. split_and!; [done..|by apply log_name].
  - destruct (other_exchange server pname Ping s (or_introl eq_refl) Hs Hl) as (line & s' & id & Hex & Hs' & Hco & He).
    exists line, s', id, []. split; [exact Hex|]. split_and!; [done..|constructor].
  - destruct (other_exchange server pname Info s (or_intror eq_refl) Hs Hl) as (line & s' & id & Hex & Hs' & Hco & He).
    exists line, s', id, []. split; [exact Hex|]. split_and!; [done..|constructor].
Qed.

(** Where the events recorded so far are: handled by the writer, queued, or lost
    to a full channel. *)
Record tallied (es handled : list AuditEvent) (ch : Channel) : Prop := {
  ty_open : ch.(ch_rx_open) = true;
  ty_events : ∃ lost, interleaved (handled ++ ch.(ch_queue)) lost es ∧
    ch.(ch_dropped) = wrap_u64 (Z.of_nat (length lost));
}.

Lemma tallied_record es handled ch e : tallied es handled ch → tallied (es ++ [e]) handled (record e ch).
Proof.
  intros [Ho (lost & Hi & Hd)]. unfold record. rewrite Ho. destruct (_ <? _); (split; [done|]); simpl.
  - exists lost. split; [|done]. rewrite app_assoc. by apply interleaved_l.
  - exists (lost ++ [e]). split; [by apply interleaved_r|]. rewrite Hd, wrap_u64_add, length_app. f_equal. simpl. lia.
Qed.

Lemma tallied_records es handled ch es' :
  tallied es handled ch → tallied (es ++ es') handled (record_all ch es').
Proof.
  revert es ch. induction es' as [|e es' IH]; intros es ch Ht; [by rewrite app_nil_r|].
  change (e :: es') with ([e] ++ es'). rewrite app_assoc. by apply IH, tallied_record.
Qed.

Lemma tallied_takes es handled s k :
  tallied es handled s.(ss_audit) →
  let '(taken, s') := writer_takes k s in tallied es (handled ++ taken) s'.(ss_audit).
Proof.
  intros [Ho (lost & Hi & Hd)]. split; [done|]. exists lost. split; [|done]. simpl.
  by rewrite <-app_assoc, take_drop.
Qed.

Lemma tallied_handled (P : AuditEvent → Prop) es handled ch : tallied es handled ch → Forall P es → Forall P handled.
Proof.
  intros [_ (lost & Hi%interleaved_Permutation & _)] Hes. rewrite Hi in Hes.
  by apply Forall_app in Hes as [[? _]%Forall_app _].
Qed.

Lemma serving_set_audit server ch s :
  serving server ten_secrets fnox s → serving server ten_secrets fnox (set_audit ch s).
Proof. intros [[] ? ? ?]. split; done. Qed.

Lemma soak_ops_answered server num plan i ops s es0 handled0 :
  serving server ten_secrets fnox s → (∀ name, socket_path_for (sv_registry server) name = socket_of scratch name) →
  (∀ i, (i < num)%nat → listed (soak_project i) s) → Forall (op_ok num) ops →
  tallied es0 handled0 s.(ss_audit) →
  ∃ answers handled s' es,
    soak_ops serde_error peer server (map (λ j, socket_of scratch (soak_project j)) (seq 0 num)) plan i ops s =
      (answers, handled, s') ∧
    Forall (λ r, is_ok r = true) answers ∧ length answers = length ops ∧
    tallied (es0 ++ es) (handled0 ++ handled) s'.(ss_audit) ∧ Z.of_nat (length es) = gets_in ops ∧
    Forall (logged_event peer) es.
Proof.
  intros Hs Hsock Hl Hops. revert i s es0 handled0 Hs Hl.
  induction Hops as [|[pr op] ops [Hi Hop] Hops IH]; intros i s es0 handled0 Hs Hl Ht.
  { pose proof (tallied_takes es0 handled0 s (plan.(sp_takes) i) Ht) as Ht'. cbn [soak_ops]. rewrite ST_bind_unfold.
    destruct (writer_takes _ s) as [taken s']. exists [], taken, s', []. rewrite app_nil_r. by split_and!. }
  simpl in Hi, Hop. destruct (soak_op server op (soak_project pr) s Hs (Hl pr Hi) (log_name "p" _ eq_refl) Hop)
    as (line & s1 & id & es1 & Hex & Hs1 & Hco & Ha1 & He1 & Hlog1).
  apply (tallied_records _ _ _ es1) in Ht. rewrite <-Ha1 in Ht.
  pose proof (tallied_takes _ _ s1 (plan.(sp_takes) i) Ht) as Ht1.
  assert (Hs1' : serving server ten_secrets fnox (writer_takes (plan.(sp_takes) i) s1).2) by by apply serving_set_audit.
  assert (Hl1 : ∀ j, (j < num)%nat → listed (soak_project j) (writer_takes (plan.(sp_takes) i) s1).2).
  { intros j Hj. change (listed (soak_project j) s1). by eapply cache_only_listed, Hl. }
  destruct (writer_takes _ s1) as [taken s1'] eqn:Htk. cbn [snd] in Hs1', Hl1.
  destruct (IH (S i) s1' _ _ Hs1' Hl1 Ht1) as (answers & handled & s2 & es2 & Hr & Hok & Hlen & Ht2 & He2 & Hlog2).
  exists (Ok line :: answers), (taken ++ handled), s2, (es1 ++ es2). cbn [soak_ops].
  assert (Hlook : map (λ j, socket_of scratch (soak_project j)) (seq 0 num) !! pr = Some (socket_of scratch (soak_project pr))).
  { rewrite list_lookup_fmap, lookup_seq_lt by done. done. }
  rewrite Hsock in Hex. rewrite ST_bind_unfold, Hlook. change (default "" (Some ?x)) with x. rewrite Hex. cbn [fst snd].
  rewrite ST_bind_unfold, Htk. cbn [fst snd]. rewrite ST_bind_unfold, Hr. split; [done|]. split_and!.
  - by constructor.
  - simpl. by rewrite Hlen.
  - by rewrite !app_assoc.
  - unfold gets_in in *. cbn [map]. rewrite count_if_cons, length_app, Nat2Z.inj_add, He2, He1. unfold sent_get at 2. cbn [fst snd]. by destruct (is_get op).
  - by apply Forall_app.
Qed.

(** The schedule of all workers, whatever order it is brought in. *)
Lemma soak_ticks_ok num project tick c :
  (project < num)%nat → Forall (op_ok num) (soak_ticks project tick c).
Proof. intros Hp. revert tick. induction c as [|c IH]; intros tick; constructor; [split; eauto|apply IH]. Qed.

Lemma soak_schedule_ok num per w counts :
  (w + length counts ≤ num * per)%nat → Forall (op_ok num) (soak_schedule per w counts).
Proof.
  revert w. induction counts as [|c counts IH]; intros w Hw; [constructor|]. simpl in *.
  apply Forall_app. split; [|apply IH; lia]. apply soak_ticks_ok.
  apply Nat.Div0.div_lt_upper_bound. lia.
Qed.

(** The schedule as the soak test counts it, every operation answered. *)
Lemma workers_schedule per w counts :
  workers (Z.of_nat w) (map (λ c, replicate c true) counts) = map (λ x, (x.2, true)) (soak_schedule per w counts).
Proof.
  assert (Hw : ∀ p c tick, worker tick (replicate c true) = map (λ x, (x.2, true)) (soak_ticks p tick c)).
  { intros p c. induction c as [|c IH]; intros tick; [done|]. simpl. by rewrite IH. }
  revert w. induction counts as [|c counts IH]; intros w; [done|]. simpl. rewrite map_app, (Hw (w / per)%nat).
  f_equal. rewrite <-(IH (S w)). by rewrite Nat2Z.inj_succ.
Qed.

Lemma answered_all (l : list (nat * worker_op)) :
  count_if answered (map (λ x, (x.2, true)) l) = Z.of_nat (length l).
Proof. induction l as [|x l IH]; [done|]. cbn [map length]. rewrite count_if_cons, IH. cbn. lia. Qed.

Lemma answered_gets_all (l : list (nat * worker_op)) :
  count_if answered_get (map (λ x, (x.2, true)) l) = gets_in l.
Proof.
  unfold gets_in. induction l as [|x l IH]; [done|]. cbn [map]. rewrite !count_if_cons, IH.
  unfold answered_get, sent_get. cbn. by rewrite andb_true_r.
Qed.

Section audited.
Context `{Rfc3339}.
Context (Hclock : ∀ n, ∃ ts, rfc3339 (os_utc n) = Some ts ∧ str_over timestamp_byte ts = true).
Context (Hpid : ∀ n, peer.(peer_pid) = Some n → serde_number n = true).
Context (Huid : ∀ n, peer.(peer_uid) = Some n → serde_number n = true).

#[local] Instance gets_in_perm : Proper ((≡ₚ) ==> (=)) gets_in.
Proof. intros l l' Hp. unfold gets_in, count_if. by rewrite Hp. Qed.

(** The verdict on a run in which everything was answered. *)
Lemma verdict_answered per counts (ops : list (nat * worker_op)) rss cap audit :
  Forall (λ c, (7 ≤ c)%nat) counts → Z.of_nat (length ops) < 2 ^ 57 → ops ≡ₚ soak_schedule per 0 counts →
  rss / 1024 ≤ cap → gets_in ops ≤ audit →
  verdict 0 0 (Z.of_nat (length ops)) (rss / 1024) cap audit = [].
Proof.
  intros Hseven Hbig Hperm Hrss Hgets.
  assert (Hlen : length (workers 0 (map (λ c, replicate c true) counts)) = length ops).
  { by rewrite (workers_schedule per 0), length_map, Hperm. }
  assert (Hans : count_if answered (workers 0 (map (λ c, replicate c true) counts)) = Z.of_nat (length ops)).
  { by rewrite (workers_schedule per 0), answered_all, Hperm. }
  assert (Hs : soak (map (λ c, replicate c true) counts) 0 rss cap audit = []).
  { apply soak_sound; rewrite ?Hlen, ?Hans; [|lia..|done|].
    - apply Forall_fmap. eapply Forall_impl; [exact Hseven|]. intros c Hc. simpl. by rewrite length_replicate.
    - by rewrite (workers_schedule per 0), answered_gets_all, <-Hperm. }
  unfold soak in Hs. rewrite count_op_spec, Hlen, Hans in Hs by (rewrite ?Hlen; lia).
  by rewrite Z.add_0_l, Z.sub_diag in Hs.
Qed.

Lemma zip_answered (ops : list (nat * worker_op)) (answers : list (result IoError string)) :
  Forall (λ r, is_ok r = true) answers → length answers = length ops →
  zip (map snd ops) (map is_ok answers) = map (λ x, (x.2, true)) ops.
Proof.
  intros Hok. revert ops. induction Hok as [|r answers Hr Hok IH]; intros [|x ops] Hlen; simplify_eq/=; [done|].
  rewrite Hr. f_equal. by apply IH.
Qed.

(** The verdict when no request failed and no worker panicked: only memory and
    the number of audit lines are left to complain about. *)
Lemma verdict_cases total rss cap lines :
  0 ≤ total < 2 ^ 57 →
  verdict 0 0 total rss cap lines = [] ↔ rss ≤ cap ∧ (5 ≤ total → total * 2 / 5 ≤ lines).
Proof.
  intros Ht. unfold verdict. assert (wrap_u64 (total * 2) = total * 2) as -> by (apply Z.mod_small; lia).
  change (wrap_u64 (0 * 100)) with 0. rewrite (proj2 (Z.ltb_ge total 0)) by lia. simpl.
  destruct (cap <? rss) eqn:Hc; [apply Z.ltb_lt in Hc|apply Z.ltb_ge in Hc]; simpl; [split; [done|lia]|].
  destruct (5 <=? total) eqn:Hfive; [apply Z.leb_le in Hfive|apply Z.leb_gt in Hfive]; [|naive_solver lia].
  destruct (lines <? total * 2 / 5) eqn:Hl; [apply Z.ltb_lt in Hl|apply Z.ltb_ge in Hl]; [|naive_solver].
  split; [done|]. intros [_ Hle]. specialize (Hle Hfive). lia.
Qed.

(** While the disk works, the log has a line for each event handled. *)
Lemma run_lines disk handled :
  Forall (logged_event peer) handled → (∀ i, disk i = WriteOk) →
  audit_lines (Some (run_bytes (disk, handled))) = Z.of_nat (length handled).
Proof.
  intros Hh Hd. rewrite <-(logged_lines peer Hclock Hpid Huid handled Hh). do 2 f_equal.
  unfold run_bytes, writer_init. cbn [fst snd]. change 0 with (wrap_u64 0).
  rewrite writer_run_ok; [done| |done]. apply readable_serializable. by apply (logged_readable peer).
Qed.

(** C34: what the soak test does against this daemon, given its scratch directory
    and working I/O, for every setting of its knobs for which the vector of
    sockets can be allocated, whatever number of operations each worker gets
    through, in whatever order their requests are served (one at a time), and
    wherever the audit writer is.  If the clock cannot hold the end of the run or
    the rate is zero, it panics, after it has registered its projects.  Otherwise
    every request is answered, and every [get] leaves one event, which the writer
    has handled, or is queued, or was dropped by a full channel and counted.  Of
    the four complaints only two can come: memory above the cap, and fewer lines
    in the log than two fifths of the operations.  With a disk that works the
    lines are the events handled so far; so once the writer has caught up, every
    worker got through seven operations and memory is within the cap, the test
    passes. *)
Theorem soak_passes env counts ops plan n :
  let num_projects := env_u64 env "SOAK_PROJECTS" 5 in
  let per := Z.to_nat (env_u64 env "SOAK_WORKERS_PER_PROJ" 2) in
  let rss_mib := default 0 (read_rss_kib plan.(sp_status)) / 1024 in
  let total := Z.of_nat (length ops) in
  num_projects * 24 ≤ ISIZE_MAX → length counts = (Z.to_nat num_projects * per)%nat →
  soak_manifests (Z.to_nat num_projects) → ops ≡ₚ soak_schedule per 0 counts →
  total < 2 ^ 57 → plan.(sp_panics) = 0 →
  ∃ server s sockets s1,
  soak_boot scratch n = Ok (server, s) ∧
  soak_register serde_error peer server scratch 0 (Z.to_nat num_projects) s = (Ok sockets, s1) ∧
  if negb (as_secs (os_now (tick_of s1)) + env_u64 env "SOAK_DURATION_SECS" 5 <=? I64_MAX)
  then soak_main serde_error peer env scratch ops plan n = Err InstantOverflow
  else if env_u64 env "SOAK_OPS_PER_SEC" 10 =? 0
  then soak_main serde_error peer env scratch ops plan n = Err InfiniteInterval
  else ∃ answers handled s3 es failures,
    soak_run serde_error peer env scratch ops plan n = Ok (answers, handled, s3) ∧
    Forall (λ r, is_ok r = true) answers ∧ length answers = length ops ∧
    Z.of_nat (length es) = gets_in ops ∧ tallied es handled s3.(ss_audit) ∧
    soak_main serde_error peer env scratch ops plan n =
      Ok (failures, match failures with [] => 0 | _ => 1 end) ∧
    let lines := audit_lines (Some (run_bytes (plan.(sp_disk), handled))) in
    failures = verdict 0 0 total rss_mib (env_u64 env "SOAK_RSS_CAP_MIB" 60) lines ∧
    (failures = [] ↔ rss_mib ≤ env_u64 env "SOAK_RSS_CAP_MIB" 60 ∧ (5 ≤ total → total * 2 / 5 ≤ lines)) ∧
    ((∀ i, plan.(sp_disk) i = WriteOk) → lines = Z.of_nat (length handled)) ∧
    ((∀ i, plan.(sp_disk) i = WriteOk) → length handled = length es → Forall (λ c, (7 ≤ c)%nat) counts →
     rss_mib ≤ env_u64 env "SOAK_RSS_CAP_MIB" 60 → failures = []).
Proof.
  intros num per rss total Hnum Hlen Hman Hperm Hbig Hpan. destruct (boot_up n) as (server & s & Hboot & Hu & Hmap).
  assert (Hsmall : Z.of_nat (Z.to_nat num) < 10 ^ 63) by (unfold ISIZE_MAX in Hnum; lia).
  destruct (soak_register_up server (Z.to_nat num) 0 (Z.to_nat num) s Hu ltac:(lia) Hsmall Hman)
    as (s1 & Hr & Hu1 & _ & Hall); [intros j _; by rewrite Hmap|].
  assert (Hb : soak_boot scratch n = Ok (server, s)).
  { unfold soak_boot. rewrite load_backend_opens, load_config_resolves. cbn [map_err mbind result_bind]. by rewrite Hboot. }
  exists server, s. eexists _, s1. split; [done|]. split; [exact Hr|].
  assert (Hrun : soak_run serde_error peer env scratch ops plan n =
    (_ ← ensure (as_secs (os_now (tick_of s1)) + env_u64 env "SOAK_DURATION_SECS" 5 <=? I64_MAX) InstantOverflow;
     _ ← ensure (negb (env_u64 env "SOAK_OPS_PER_SEC" 10 =? 0)) InfiniteInterval;
     let '(answers, handled, s3) := soak_ops serde_error peer server
       (map (λ j, socket_of scratch (soak_project j)) (seq 0 (Z.to_nat num))) plan 0 ops (later 1 s1) in
     Ok (answers, handled, s3))).
  { unfold soak_run. rewrite Hb. cbn [mbind result_bind]. fold num. rewrite (proj2 (Z.leb_le _ _)) by lia.
    cbn [ensure mbind result_bind]. rewrite Hr, as_secs_from_secs. done. }
  unfold soak_main. rewrite Hrun. destruct (_ <=? I64_MAX); cbn [negb ensure mbind result_bind]; [|done].
  destruct (_ =? 0); cbn [negb ensure mbind result_bind]; [done|].
  destruct (soak_ops_answered server (Z.to_nat num) plan 0 ops (later 1 s1) [] []
    (serving_later server ten_secrets fnox 1 s1 (up_serving _ _ Hu1)))
    as (answers & handled & s3 & es & Ho & Hok & Hla & Htal & He & Hlog).
  { intros name. by eapply up_socket. }
  { intros i Hi. change (listed (soak_project i) s1). eapply listed_map; [apply (up_serving _ _ Hu1)|]. apply Hall. lia. }
  { rewrite Hperm. apply soak_schedule_ok. simpl. lia. }
  { change (ss_audit (later 1 s1)) with (ss_audit s1). rewrite (up_audit _ _ Hu1). split; [done|]. exists [].
    split; [constructor|done]. }
  rewrite Ho. cbn [mbind result_bind]. rewrite Hpan.
  rewrite zip_answered, count_op_spec, answered_all, length_map by (rewrite ?length_map; done || lia).
  rewrite Z.add_0_l, Z.sub_diag. fold total rss. eexists answers, handled, s3, es, _. do 6 (split; [done|]). cbv zeta.
  pose proof (tallied_handled _ _ _ _ Htal Hlog) as Hhlog. split_and!.
  - done.
  - apply verdict_cases. lia.
  - intros Hd. by apply run_lines.
  - intros Hd Heq Hseven Hrss. rewrite run_lines by done. apply (verdict_answered per counts ops); try done.
    rewrite Heq, He. done.
Qed.

End audited.

(** ** The benchmark *)

(** Where a value came from, by the audit event. *)
Definition event_backend (e : AuditEvent) : option string :=
  match e with Fetch e => e.(fe_backend) | _ => None end.
Definition sources s : list (option string) := map event_backend s.(ss_audit).(ch_queue).

(** The whole run takes less than the default TTL of 900 seconds. *)
Context (Hrun : ∀ i j, os_now j < os_now i + from_secs 900).

(** An entry made during the run never expires in it. *)
Definition entry_fresh (e : CacheEntry) : Prop := ∃ i, e.(ce_fetched_at) = os_now i ∧ e.(ce_ttl) = from_secs 900.

Lemma entry_fresh_live e i : entry_fresh e → is_expired e (os_now i) = false.
Proof.
  intros (k & Hf & Ht). unfold is_expired, duration_since. rewrite Hf, Ht. apply Z.leb_gt.
  specialize (Hrun k i). unfold from_secs, NANOS_PER_SEC in *. lia.
Qed.

Record cached (names : gset string) (c : BoundedCache) : Prop := {
  cd_dom : dom c.(c_map) = names;
  cd_fresh : map_Forall (λ _ e, entry_fresh e) c.(c_map);
  cd_max : c.(c_max_entries) = 32;
  cd_ttl' : c.(c_default_ttl) = from_secs 900;
}.

Lemma cached_insert names it i name v c :
  cached names c → (size names < 32)%nat → cached ({[name]} ∪ names) (Cache.insert it (os_now i) name v None c).2.
Proof.
  intros [Hd Hf Hm Ht] Hsz. rewrite insert_kept. unfold kept. rewrite bool_decide_false.
  2:{ intros [_ Hle]. rewrite Hm in Hle. rewrite <-Hd, size_dom in Hsz. lia. }
  split; simpl; [| |done..].
  - rewrite dom_insert_L, dom_delete_L, Hd. apply set_eq. intros x.
    destruct (decide (x = name)) as [->|]; set_solver.
  - apply map_Forall_insert_2; [by exists i|]. by apply map_Forall_delete.
Qed.

(** The cache of the project of the benchmark holds [names]. *)
Record warm (server : Server) (names : gset string) s : Prop := {
  wm_serving : serving server ten_secrets fnox s;
  wm_socket : ∀ name, socket_path_for (sv_registry server) name = socket_of scratch name;
  wm_open : s.(ss_audit).(ch_rx_open) = true;
  wm_cache : ∃ id p, s.(ss_reg).(rs_map) !! "bench" = Some id ∧ s.(ss_reg).(rs_heap) !! id = Some p ∧
    cached names p.(p_cache);
}.

Lemma get_source server id p name v start names s :
  serving server ten_secrets fnox s → s.(ss_reg).(rs_heap) !! id = Some p → (name, v) ∈ ten_secrets →
  cached names p.(p_cache) → (size names < 32)%nat →
  ∃ e p', (dispatch_get id name peer start s).2.(ss_audit) = record (Fetch e) s.(ss_audit) ∧
    fe_backend e = Some (if decide (name ∈ names) then "cache" else "fnox") ∧
    (dispatch_get id name peer start s).2.(ss_reg).(rs_heap) !! id = Some p' ∧
    cached ({[name]} ∪ names) p'.(p_cache).
Proof.
  intros Hs Hp Hv Hc Hsz. assert (Ha : allowed id name s).
  { unfold allowed. rewrite (heap_deref id p), (sg_allow _ _ _ _ Hs id p) by done. apply list_elem_of_fmap.
    by exists (name, v). }
  rewrite get_allowed by done. cbv zeta. rewrite (heap_deref id p) by done. unfold Cache.get.
  destruct (c_map (p_cache p) !! name) as [e|] eqn:He.
  - assert (Hin : name ∈ names) by (rewrite <-(cd_dom _ _ Hc); by apply elem_of_dom).
    rewrite entry_fresh_live by (by eapply (cd_fresh _ _ Hc)). eexists _, _. split; [done|].
    rewrite decide_True by done. split; [done|]. simpl. rewrite lookup_alter_eq, Hp. split; [done|]. simpl.
    replace ({[name]} ∪ names) with names; [done|]. set_solver.
  - assert (Hin : name ∉ names) by (rewrite <-(cd_dom _ _ Hc); by apply not_elem_of_dom).
    rewrite (sg_backend _ _ _ _ Hs). cbn [inner]. rewrite get_after_eq. cbv zeta. rewrite (lw_get W _ name v Hv).
    eexists _, _. split; [done|]. rewrite decide_False by done. split; [done|].
    unfold inserted, put_cache. cbn -[Cache.insert].
    rewrite !lookup_alter_eq, Hp. split; [done|]. cbn -[Cache.insert]. apply cached_insert; [|done].
    unfold deref. cbn -[Cache.insert]. by rewrite lookup_alter_eq, Hp.
Qed.

(** One fetch of a secret, with where it came from. *)
Lemma fetch_source server names name v s :
  warm server names s → (name, v) ∈ ten_secrets → (size names < 32)%nat →
  ∃ ttl e s', one_fetch serde_error peer server (socket_of scratch "bench") name s =
      (Ok (line_text (get_response_to_json (get_utf8 v ttl))), s') ∧
    warm server ({[name]} ∪ names) s' ∧ s'.(ss_audit) = record (Fetch e) s.(ss_audit) ∧
    fe_backend e = Some (if decide (name ∈ names) then "cache" else "fnox").
Proof.
  intros [Hs Hsock Hopen (id & p & Hid & Hp & Hc)] Hv Hsz.
  pose proof ten_plain as Hpl. rewrite Forall_forall in Hpl. destruct (Hpl _ Hv) as (Hpn & Hpv & Hlen).
  destruct (get_exchange serde_error peer server ten_secrets fnox (lw_get W) ten_nodup "bench" name v s Hs
    ltac:(exists id; split; [done|by eexists]) Hv Hpn Hpv Hlen)
    as (ttl & s' & id' & e' & Hex & _ & Hs' & Hco & _ & _ & Hid' & Heq).
  rewrite Hid in Hid'. injection Hid' as <-.
  destruct (get_source server id p name v (os_now (tick_of s)) names (later 1 s)
    (serving_later server ten_secrets fnox 1 s Hs) Hp Hv Hc Hsz) as (e & p' & Haud & Hb & Hp' & Hc').
  change ((dispatch_get id name peer (os_now (tick_of s)) (later 1 s)).2)
    with ((serve server (ProjectReq id (Get name) peer) s).2) in Haud, Hp'. rewrite <-Heq in Haud, Hp'.
  rewrite Hsock in Hex. exists ttl, e, s'. split_and!; [exact Hex| |exact Haud|exact Hb].
  split; [done|done| |].
  - rewrite Haud. unfold record. change (ss_audit (later 1 s)) with (ss_audit s). rewrite Hopen. by destruct (_ <? _).
  - exists id, p'. split_and!; [|done..]. destruct (cache_only_sockets _ _ _ Hco) as (_ & -> & _). done.
Qed.

Lemma record_sources e s s' :
  s'.(ss_audit) = record (Fetch e) s.(ss_audit) → s.(ss_audit).(ch_rx_open) = true →
  (length (sources s) < 1000)%nat → sources s' = sources s ++ [e.(fe_backend)].
Proof.
  intros Ha Ho Hlen. unfold sources in *. rewrite length_map in Hlen. rewrite Ha. unfold record. rewrite Ho.
  rewrite (proj2 (Z.ltb_lt _ _)) by (unfold CHANNEL_CAP; lia). simpl. by rewrite map_app.
Qed.

Lemma iterate_warm server names k s :
  warm server names s → "S0" ∈ names → (size names < 32)%nat → (length (sources s) + k ≤ 1000)%nat →
  ∃ s', iterate serde_error peer server (socket_of scratch "bench") k s = (Ok tt, s') ∧
    sources s' = sources s ++ replicate k (Some "cache").
Proof.
  intros Hw Hin Hsz. revert s Hw. induction k as [|k IH]; intros s Hw Hlen.
  { exists s. by rewrite app_nil_r. }
  destruct (fetch_source server names "S0" "v0" s Hw ltac:(by left) Hsz) as (ttl & e & s1 & Hf & Hw1 & Ha & He).
  rewrite decide_True in He by done. replace ({[ "S0" ]} ∪ names) with names in Hw1 by set_solver.
  pose proof (record_sources e s s1 Ha (wm_open _ _ _ Hw) ltac:(lia)) as Hsrc. rewrite He in Hsrc.
  destruct (IH s1 Hw1) as (s2 & Hi & Hs2); [rewrite Hsrc, length_app; simpl; lia|].
  exists s2. cbn [iterate]. rewrite bind_res_unfold. unfold bench_iter. rewrite ST_bind_unfold, Hf. cbn [fst snd].
  change (dq "'value':'v0'") with (dq "'value':'" +:+ "v0" +:+ dquote).
  rewrite (proj2 (value_line "v0" ttl eq_refl)). cbn [fst snd mret ST_ret]. rewrite Hi. split; [done|].
  by rewrite Hs2, Hsrc, <-app_assoc.
Qed.

(** The first iteration over an empty cache, then the rest. *)
Lemma iterate_cold server k s :
  warm server ∅ s → (length (sources s) + S k ≤ 1000)%nat →
  ∃ s', iterate serde_error peer server (socket_of scratch "bench") (S k) s = (Ok tt, s') ∧
    sources s' = sources s ++ Some "fnox" :: replicate k (Some "cache").
Proof.
  intros Hw Hlen.
  destruct (fetch_source server ∅ "S0" "v0" s Hw ltac:(by left)) as (ttl & e & s1 & Hf & Hw1 & Ha & He);
    [rewrite size_empty; lia|].
  rewrite decide_False in He by set_solver.
  pose proof (record_sources e s s1 Ha (wm_open _ _ _ Hw) ltac:(lia)) as Hsrc. rewrite He in Hsrc.
  destruct (iterate_warm server _ k s1 Hw1) as (s2 & Hi & Hs2); [set_solver| | |].
  - rewrite union_empty_r_L, size_singleton. lia.
  - rewrite Hsrc, length_app. simpl. lia.
  - exists s2. cbn [iterate]. rewrite bind_res_unfold. unfold bench_iter. rewrite ST_bind_unfold, Hf. cbn [fst snd].
    change (dq "'value':'v0'") with (dq "'value':'" +:+ "v0" +:+ dquote).
    rewrite (proj2 (value_line "v0" ttl eq_refl)). cbn [fst snd mret ST_ret]. rewrite Hi. split; [done|].
    by rewrite Hs2, Hsrc, <-app_assoc.
Qed.

Lemma prime_cold server todo done_ s :
  warm server done_ s → NoDup todo → (∀ x, x ∈ todo → x ∉ done_) → Forall (λ x, x ∈ ten_secrets.*1) todo →
  (size done_ + length todo < 32)%nat → (length (sources s) + length todo ≤ 1000)%nat →
  ∃ s', prime serde_error peer server (socket_of scratch "bench") todo s = (Ok tt, s') ∧
    warm server (list_to_set todo ∪ done_) s' ∧
    sources s' = sources s ++ replicate (length todo) (Some "fnox").
Proof.
  intros Hw Hnd. revert done_ s Hw. induction Hnd as [|x todo Hx Hnd IH]; intros done_ s Hw Hout Hten Hsz Hlen.
  { exists s. rewrite app_nil_r. split; [done|]. split; [|done]. by rewrite list_to_set_nil, union_empty_l_L. }
  inversion Hten as [|? ? Hxt Hten']; subst. apply list_elem_of_fmap in Hxt as ([nm v] & -> & Hv). simpl in *.
  destruct (fetch_source server done_ nm v s Hw Hv ltac:(lia)) as (ttl & e & s1 & Hf & Hw1 & Ha & He).
  rewrite decide_False in He by (apply Hout; by left).
  pose proof (record_sources e s s1 Ha (wm_open _ _ _ Hw) ltac:(lia)) as Hsrc. rewrite He in Hsrc.
  destruct (IH _ s1 Hw1) as (s2 & Hp & Hw2 & Hs2); [|done| | |].
  - intros y Hy. apply not_elem_of_union. split; [|apply Hout; by right].
    rewrite not_elem_of_singleton. by intros ->.
  - rewrite size_union, size_singleton by (apply disjoint_singleton_l, Hout; by left). lia.
  - rewrite Hsrc, length_app. simpl. lia.
  - exists s2. rewrite ST_bind_unfold, Hf. cbn [fst snd]. rewrite Hp. split_and!; [done| |].
    + by rewrite (union_comm_L {[nm]} (list_to_set todo)), <-union_assoc_L.
    + by rewrite Hs2, Hsrc, <-app_assoc.
Qed.

Definition bench_manifest : Prop :=
  manifest_on_disk (join scratch "bench") bench_toml (broker_raw "bench" ten_secrets.*1).

Lemma boot_server_warm n :
  bench_manifest →
  ∃ server s, boot_server serde_error peer scratch n = Ok (server, socket_of scratch "bench", s) ∧
    warm server ∅ s ∧ sources s = [].
Proof.
  intros Hman. destruct (boot_up n) as (server & s & Hboot & Hu & Hmap).
  destruct (register_unwrap_up server s "bench" bench_toml Hu) as (s1 & Hr & Hu1 & Hm & p & Hp & Hc); try done.
  { apply valid_name_good, project_name_iff. vm_compute. reflexivity. }
  { by rewrite Hmap. }
  exists server, s1. unfold boot_server. rewrite load_backend_opens, load_config_resolves.
  cbn [map_err mbind result_bind bootstrap load_config]. rewrite Hboot, Hr. split; [done|].
  split; [|unfold sources; by rewrite (up_audit _ _ Hu1)]. split; [by apply Hu1| | |].
  - intros name. by eapply up_socket.
  - by rewrite (up_audit _ _ Hu1).
  - exists (rs_next (ss_reg s)), p. rewrite Hm, lookup_insert_eq. split_and!; [done..|]. rewrite Hc.
    split; [done| |done..]. apply map_Forall_empty.
Qed.

(** What the benchmark of a cold [get] measures: of its iterations only the
    first reaches the backend, every later one is answered from the cache, as in
    the benchmark of a warm one, which asks the backend for the ten secrets
    before it starts to measure and never after.  No iteration of either sees
    another value than the one it asserts. *)
Theorem cold_bench_is_warm k n :
  bench_manifest → (k < 990)%nat →
  (∃ s, bench_cold_get serde_error peer scratch (S k) n = Ok s ∧
     sources s = Some "fnox" :: replicate k (Some "cache")) ∧
  (∃ s, bench_warm_cache_get serde_error peer scratch k n = Ok s ∧
     sources s = replicate 10 (Some "fnox") ++ replicate k (Some "cache")).
Proof.
  intros Hman Hk. destruct (boot_server_warm n Hman) as (server & s & Hboot & Hw & Hs). split.
  - destruct (iterate_cold server k s Hw) as (s1 & Hi & Hs1); [rewrite Hs; simpl; lia|].
    exists s1. unfold bench_cold_get. rewrite Hboot. cbn [mbind result_bind]. rewrite Hi. by rewrite Hs1, Hs.
  - destruct (prime_cold server ten_secrets.*1 ∅ s Hw ten_nodup) as (s1 & Hp & Hw1 & Hs1).
    + intros x _. set_solver.
    + by apply Forall_forall.
    + rewrite size_empty. simpl. lia.
    + rewrite Hs. simpl. lia.
    + destruct (iterate_warm server _ k s1 Hw1) as (s2 & Hi & Hs2).
      * set_solver.
      * rewrite union_empty_r_L, size_list_to_set by apply ten_nodup. simpl. lia.
      * rewrite Hs1, Hs. simpl. lia.
      * exists s2. unfold bench_warm_cache_get. rewrite Hboot. cbn [mbind result_bind].
        rewrite bind_res_unfold, Hp. cbn [fst snd]. rewrite Hi. split; [done|]. by rewrite Hs2, Hs1, Hs.
Qed.

End proofs.

(** ** Witnesses *)

Definition load_names : list string := ["p0"; "p1"].
Definition load_file (name : string) : string := "/tmp/l/" +:+ name +:+ "/.remo/broker.toml".
Definition load_disk : Disk := mkDisk
  (λ p, bool_decide (p ∈ map load_file ("bench" :: load_names)))
  (λ p, if decide (p = load_file "bench") then Ok bench_toml
        else match List.find (λ nm, bool_decide (p = load_file nm)) load_names with
             | Some nm => Ok (broker_toml nm ten_secrets.*1)
             | None => Err not_found
             end).
Definition load_os : Os := {|
  os_now _ := from_secs 12; os_utc n := Z.of_nat n; os_disk _ := load_disk; os_fault _ := None;
  os_bind_mode := 493 |}.
Definition load_toml : TomlManifest := λ text,
  if decide (text = bench_toml) then Ok (broker_raw "bench" ten_secrets.*1)
  else match List.find (λ nm, bool_decide (text = broker_toml nm ten_secrets.*1)) load_names with
       | Some nm => Ok (broker_raw nm ten_secrets.*1)
       | None => Err "unexpected"
       end.
Definition load_toml_config : TomlConfig := λ text,
  if decide (text = "") then Ok RawConfig_default else Err "unexpected".
Definition load_fnox : FnoxCore string := mkFnoxCore _
  (λ _ path, if decide (path = "/tmp/l/fnox.toml") then Ok "plain" else Err "no such file")
  (λ _, Err "no configuration")
  (λ _ _ name, Ok (snd <$> List.find (λ nv, bool_decide (nv.1 = name)) ten_secrets)).

Lemma load_world_demo : @load_world string load_os load_toml_config load_fnox "/tmp/l" "plain".
Proof.
  split; try (intros n; vm_compute; reflexivity); try (vm_compute; reflexivity).
  - intros n name v Hin. repeat (apply elem_of_cons in Hin as [[= -> ->]|Hin]; [vm_compute; reflexivity|]).
    by apply not_elem_of_nil in Hin.
  - apply Nat.ltb_lt. vm_compute. reflexivity.
Qed.

Lemma load_manifests_demo : @soak_manifests load_os load_toml "/tmp/l" 2.
Proof.
  intros [|[|i]] Hi; [..|lia]; split; try (intros n; vm_compute; reflexivity); vm_compute; reflexivity.
Qed.

Lemma bench_manifest_demo : @bench_manifest load_os load_toml "/tmp/l".
Proof. split; try (intros n; vm_compute; reflexivity); vm_compute; reflexivity. Qed.

(** Two projects of one worker each, seven operations, the workers' requests
    in reverse order; the writer handles each event at once. *)
Definition load_ops : list (nat * worker_op) := reverse (soak_schedule 1 0 [7; 7]%nat).

Definition load_env (name : string) : option string :=
  if decide (name = "SOAK_PROJECTS") then Some "2"
  else if decide (name = "SOAK_WORKERS_PER_PROJ") then Some "1" else None.
Definition load_plan : SoakPlan :=
  mkSoakPlan (λ _, 1%nat) (λ _, WriteOk) 0 (Some ("VmRSS:    20480 kB" +:+ newline)).

Local Abbreviation load_main env plan :=
  (@soak_main string load_os (demo_imds "{}") load_toml load_toml_config demo_unicode demo_order load_fnox text_json
     no_serde_error demo_peer demo_clock env "/tmp/l" load_ops plan 0).

Lemma soak_passes_witness :
  ∃ failures, load_main load_env load_plan = Ok (failures, match failures with [] => 0 | _ => 1 end).
Proof.
  destruct (@soak_passes string load_os (demo_imds "{}") load_toml load_toml_config demo_unicode demo_order load_fnox
    text_json text_json_laws no_serde_error demo_peer "/tmp/l" "plain" load_world_demo demo_clock
    ltac:(intros n; eexists; split; [reflexivity|vm_compute; reflexivity])
    ltac:(intros n [= <-]; reflexivity) ltac:(intros n [= <-]; reflexivity)
    load_env [7; 7]%nat load_ops load_plan 0
    ltac:(vm_compute; discriminate) eq_refl load_manifests_demo (reverse_Permutation _)
    ltac:(vm_compute; reflexivity) eq_refl) as (server & s & sockets & s1 & Hboot & Hreg & Hif).
  do 2 match type of Hif with if ?b then _ else _ => replace b with false in Hif by (vm_compute; reflexivity) end.
  destruct Hif as (answers & handled & s3 & es & failures & _ & _ & _ & _ & _ & Hmain & _).
  exists failures. exact Hmain.
Defined.

(** The same run evaluated; the same with a writer that has handled nothing yet
    when the log is read; and with a rate of zero. *)
Example soak_evaluated : load_main load_env load_plan = Ok ([], 0).
Proof. vm_compute. reflexivity. Qed.

Example soak_late_writer :
  load_main load_env (mkSoakPlan (λ _, O) (λ _, WriteOk) 0 None) =
    Ok (["audit lines 0 less than expected floor 5 (~3/5 of 14 ops)"], 1).
Proof. vm_compute. reflexivity. Qed.

Example soak_rate_zero :
  load_main (λ name, if decide (name = "SOAK_OPS_PER_SEC") then Some "0" else load_env name) load_plan
    = Err InfiniteInterval.
Proof. vm_compute. reflexivity. Qed.

Lemma cold_bench_is_warm_witness :
  ∃ s, @bench_cold_get string load_os (demo_imds "{}") load_toml load_toml_config demo_unicode demo_order load_fnox text_json
      no_serde_error demo_peer "/tmp/l" 5 0 = Ok s ∧
    sources s = [Some "fnox"; Some "cache"; Some "cache"; Some "cache"; Some "cache"].
Proof.
  apply (@cold_bench_is_warm string load_os (demo_imds "{}") load_toml load_toml_config demo_unicode demo_order load_fnox
    text_json text_json_laws no_serde_error demo_peer "/tmp/l" "plain" load_world_demo
    ltac:(intros i j; vm_compute; reflexivity) 4 0 bench_manifest_demo ltac:(lia)).
Defined.
