(* ===== verification/Fuzz.v ===== *)
(** * The smoke fuzz of the request parsers ([src/proto/mod.rs])

    The generator is SplitMix64 on 64-bit words, kept at their width; [fill]
    writes its words as little-endian bytes, eight at a time, the last chunk
    cut to what is left.  An index out of range would panic in the source, so
    [fill] and the first byte of a buffer are partial here.
    [fuzz_inputs_fit]: the harness itself never panics, whatever the seed, and
    every input it makes has between one byte and the length asked for, within
    the limit of the wire.  That no input derails the daemon is
    [EndToEnd.any_bytes_safe]. *)

From S2P Require Import Prelude Str Json JsonText Proto.
Open Scope Z_scope.

(** ** SplitMix64 *)

Definition wrapping_add (a b : Z) : Z := wrap_u64 (a + b).
Definition wrapping_mul (a b : Z) : Z := wrap_u64 (a * b).

Definition next_u64 : ST Z Z := λ st,
  let st' := wrapping_add st 11400714819323198485 in
  let z := wrapping_mul (Z.lxor st' (Z.shiftr st' 30)) 13787848793156543929 in
  let z := wrapping_mul (Z.lxor z (Z.shiftr z 27)) 10723151780598845931 in
  (Z.lxor z (Z.shiftr z 31), st').

(** [u64::to_le_bytes]. *)
Fixpoint le_bytes (n : nat) (w : Z) : list ascii :=
  match n with
  | O => []
  | S n => byte_of (Z.land w 255) :: le_bytes n (Z.shiftr w 8)
  end.
Definition to_le_bytes (w : Z) : list ascii := le_bytes 8 w.

(** [&bytes[..n]], which panics when there are fewer. *)
Definition slice_to {A} (n : nat) (l : list A) : option (list A) :=
  if (n <=? length l)%nat then Some (take n l) else None.

(** The chunks of a buffer of [len] bytes, from the first; each takes at least
    one byte, so [len] is enough fuel. *)
Fixpoint fill_chunks (fuel len : nat) : ST Z (option (list ascii)) :=
  match fuel with
  | O => mret (Some [])
  | S fuel =>
      if (len =? 0)%nat then mret (Some [])
      else
        w ← next_u64;
        rest ← fill_chunks fuel (len - 8);
        mret (chunk ← slice_to (Nat.min 8 len) (to_le_bytes w); tail ← rest; Some (chunk ++ tail))
  end.
Definition fill (len : nat) : ST Z (option (list ascii)) := fill_chunks len len.

(** ** The harnesses *)

(** [(rng.next_u64() as usize % max_len) + 1]. *)
Definition pick_len (max_len : nat) : ST Z nat :=
  w ← next_u64; mret (Z.to_nat (w mod Z.of_nat max_len) + 1)%nat.

(** [&mut buf[..len]], refilled. *)
Definition fuzz_input (max_len : nat) : ST Z (option (list ascii)) :=
  len ← pick_len max_len;
  if (len <=? max_len)%nat then fill len else mret None.

(** [slice[0] = b'{']. *)
Definition json_shaped_input (max_len : nat) : ST Z (option (list ascii)) :=
  r ← fuzz_input max_len;
  mret (bs ← r; match bs with _ :: bs => Some ("{"%char :: bs) | [] => None end).

(** The inputs of [iterations] rounds; [None] for a panic. *)
Fixpoint fuzz_run (input : ST Z (option (list ascii))) (iterations : nat) : ST Z (option (list (list ascii))) :=
  match iterations with
  | O => mret (Some [])
  | S k =>
      r ← input;
      rest ← fuzz_run input k;
      mret (bs ← r; l ← rest; Some (bs :: l))
  end.

(** What a parser makes of them: [Some] and [None] are both fine. *)
Definition fuzz_parser {T} (parse : list ascii → option T) (seed : Z) (iterations max_len : nat)
    : option (list (option T)) :=
  map parse <$> (fuzz_run (fuzz_input max_len) iterations seed).1.
Definition fuzz_json_shaped {T} (parse : list ascii → option T) (seed : Z) (iterations max_len : nat)
    : option (list (option T)) :=
  map parse <$> (fuzz_run (json_shaped_input max_len) iterations seed).1.

(** ** The harness never panics *)

Lemma length_le_bytes n w : length (le_bytes n w) = n.
Proof. revert w. induction n as [|n IH]; intros w; simpl; [done|]. by rewrite IH. Qed.

Lemma fill_chunks_ok fuel len st :
  (len ≤ fuel)%nat → ∃ bs, (fill_chunks fuel len st).1 = Some bs ∧ length bs = len.
Proof.
  revert len st. induction fuel as [|fuel IH]; intros len st Hl.
  { exists []. split; [done|]. simpl. lia. }
  cbn [fill_chunks]. destruct (len =? 0)%nat eqn:H0; [apply Nat.eqb_eq in H0; exists []; by rewrite H0|].
  apply Nat.eqb_neq in H0. rewrite !ST_bind_unfold.
  destruct (IH (len - 8)%nat (next_u64 st).2 ltac:(lia)) as (bs & -> & Hbs). cbn [fst mret ST_ret].
  unfold slice_to, to_le_bytes. rewrite length_le_bytes.
  rewrite (proj2 (Nat.leb_le _ _)) by lia. cbn [mbind option_bind]. eexists. split; [done|].
  rewrite length_app, length_take, length_le_bytes, Hbs. lia.
Qed.

Lemma fuzz_input_ok max_len st :
  (0 < max_len)%nat → ∃ bs, (fuzz_input max_len st).1 = Some bs ∧ (1 ≤ length bs ≤ max_len)%nat.
Proof.
  intros Hm. unfold fuzz_input, pick_len. rewrite !ST_bind_unfold. cbn [fst snd mret ST_ret].
  pose proof (Z.mod_pos_bound (next_u64 st).1 (Z.of_nat max_len) ltac:(lia)) as Hb.
  set (len := (Z.to_nat ((next_u64 st).1 mod Z.of_nat max_len) + 1)%nat).
  assert (Hlen : (1 ≤ len ≤ max_len)%nat) by lia. rewrite (proj2 (Nat.leb_le _ _)) by lia.
  destruct (fill_chunks_ok len len (next_u64 st).2 ltac:(lia)) as (bs & Hf & Hl).
  exists bs. split; [exact Hf|lia].
Qed.

Lemma json_shaped_ok max_len st :
  (0 < max_len)%nat →
  ∃ bs, (json_shaped_input max_len st).1 = Some ("{"%char :: bs) ∧ (S (length bs) ≤ max_len)%nat.
Proof.
  intros Hm. unfold json_shaped_input. rewrite ST_bind_unfold.
  destruct (fuzz_input_ok max_len st Hm) as ([|b bs] & -> & Hl); simpl in *; [lia|]. exists bs. split; [done|lia].
Qed.

Lemma fuzz_run_ok (P : list ascii → Prop) input k st :
  (∀ st, ∃ bs, (input st).1 = Some bs ∧ P bs) →
  ∃ l, (fuzz_run input k st).1 = Some l ∧ length l = k ∧ Forall P l.
Proof.
  intros Hi. revert st. induction k as [|k IH]; intros st; [by exists []|]. cbn [fuzz_run].
  rewrite !ST_bind_unfold. destruct (Hi st) as (bs & -> & Hb). destruct (IH (input st).2) as (l & -> & Hl & Hf).
  exists (bs :: l). simpl. rewrite Hl. split_and!; [done..|by constructor].
Qed.

(** The fuzz harnesses never panic, for any seed: the slices are in range,
    every parser gets as many inputs as iterations, each of one byte to
    [max_len], hence within the wire's limit for the lengths the tests use, and
    those of the second kind start with an opening brace. *)
Theorem fuzz_inputs_fit {T} (parse : list ascii → option T) seed iterations max_len :
  (0 < max_len)%nat →
  (∃ l, fuzz_parser parse seed iterations max_len = Some (map parse l) ∧ length l = iterations ∧
     Forall (λ bs, (1 ≤ length bs ≤ max_len)%nat) l) ∧
  (∃ l, fuzz_json_shaped parse seed iterations max_len = Some (map parse l) ∧ length l = iterations ∧
     Forall (λ bs, head bs = Some "{"%char ∧ (1 ≤ length bs ≤ max_len)%nat) l).
Proof.
  intros Hm. split.
  - destruct (fuzz_run_ok (λ bs, (1 ≤ length bs ≤ max_len)%nat) (fuzz_input max_len) iterations seed)
      as (l & Hl & Hlen & Hf); [intros st; by apply fuzz_input_ok|].
    exists l. unfold fuzz_parser. rewrite Hl. done.
  - destruct (fuzz_run_ok (λ bs, head bs = Some "{"%char ∧ (1 ≤ length bs ≤ max_len)%nat)
      (json_shaped_input max_len) iterations seed) as (l & Hl & Hlen & Hf).
    { intros st. destruct (json_shaped_ok max_len st Hm) as (bs & Hb & Hl). eexists. split; [exact Hb|].
      simpl. split; [done|lia]. }
    exists l. unfold fuzz_json_shaped. rewrite Hl. done.
Qed.

(** ** The tests *)

(** SplitMix64 from seed 0 starts with the published value. *)
Example splitmix_first : (next_u64 0).1 = 16294208416658607535.
Proof. vm_compute. reflexivity. Qed.

Definition parse_project (bs : list ascii) : option ProjectRequest := read bs ≫= project_request_of_json.
Definition parse_admin (bs : list ascii) : option AdminRequest := read bs ≫= admin_request_of_json.

(** A test passes when it gets through all its iterations. *)
Definition finishes {T} (r : option (list (option T))) (n : nat) : bool :=
  match r with Some l => (length l =? n)%nat | None => false end.

Definition ITERATIONS : nat := Z.to_nat 10000.

Definition project_request_random_bytes_never_panic : bool :=
  finishes (fuzz_parser parse_project 2834330505035503 ITERATIONS 4096) ITERATIONS.
Definition admin_request_random_bytes_never_panic : bool :=
  finishes (fuzz_parser parse_admin 205461586370221 ITERATIONS 4096) ITERATIONS.
Definition project_request_json_shaped_bytes_never_panic : bool :=
  finishes (fuzz_json_shaped parse_project 12648430 ITERATIONS 2048) ITERATIONS.
Definition admin_request_json_shaped_bytes_never_panic : bool :=
  finishes (fuzz_json_shaped parse_admin 3737844653 ITERATIONS 2048) ITERATIONS.

Lemma run_finishes {T} (parse : list ascii → option T) input seed k :
  (∀ st, ∃ bs, (input st).1 = Some bs) → finishes (map parse <$> (fuzz_run input k seed).1) k = true.
Proof.
  intros Hi. destruct (fuzz_run_ok (λ _, True) input k seed) as (l & -> & Hl & _).
  { intros st. destruct (Hi st) as [bs Hb]. by exists bs. }
  simpl. rewrite length_map, Hl. apply Nat.eqb_refl.
Qed.

(** The four tests pass, by the theorem on the generator and not by running
    forty thousand parses. *)
Lemma smoke_fuzz :
  project_request_random_bytes_never_panic = true ∧ admin_request_random_bytes_never_panic = true ∧
  project_request_json_shaped_bytes_never_panic = true ∧ admin_request_json_shaped_bytes_never_panic = true.
Proof.
  split_and!; apply run_finishes; intros st.
  1,2: destruct (fuzz_input_ok 4096 st ltac:(lia)) as (bs & Hb & _); by exists bs.
  all: destruct (json_shaped_ok 2048 st ltac:(lia)) as (bs & Hb & _); by eexists.
Qed.

(** A shorter run, evaluated. *)
Example smoke_fuzz_short :
  finishes (fuzz_parser parse_project 2834330505035503 50 256) 50 &&
  finishes (fuzz_parser parse_admin 205461586370221 50 256) 50 &&
  finishes (fuzz_json_shaped parse_project 12648430 50 256) 50 &&
  finishes (fuzz_json_shaped parse_admin 3737844653 50 256) 50 = true.
Proof. vm_compute. reflexivity. Qed.

Lemma fuzz_inputs_fit_witness :
  ∃ l, fuzz_parser parse_project 12648430 3 4096 = Some (map parse_project l) ∧ length l = 3%nat.
Proof.
  destruct (fuzz_inputs_fit parse_project 12648430 3 4096 ltac:(lia)) as [(l & Hl & Hlen & _) _].
  exists l. split; [exact Hl|exact Hlen].
Defined.
