(* ===== verification/UnitTests.v ===== *)
(** * The unit tests of the sources, run on the model

    The sources carry unit tests ([mod tests] of cache.rs, manifest.rs,
    config.rs, audit.rs, bootstrap.rs and proto/).  Each is translated here to
    a boolean that makes the same calls and the same assertions on the model,
    and evaluated.  A test that says something of the model's parameters is
    given them: a TOML text appears as what the parser makes of it, a JSON text
    as its tree, a temporary directory as a [Disk], the metadata mock as an
    [Outside].  The clock moves by one millisecond between two calls.  The
    fuzz tests of proto/mod.rs are in [Fuzz]. *)

From S2P Require Import Prelude Str Path Json JsonText Os Manifest Cache Config AuditLog Backend Redact Proto Registry Bootstrap Server Client Schema SchemaText.
Open Scope Z_scope.

(** [assert!(matches!(r.unwrap_err(), ..))] and [assert!(.. r.unwrap() ..)]. *)
Definition fails_with {E A} (f : E → bool) (r : result E A) : bool :=
  match r with Err e => f e | Ok _ => false end.
Definition passes_with {E A} (f : A → bool) (r : result E A) : bool :=
  match r with Ok a => f a | Err _ => false end.
Definition some_with {A} (f : A → bool) (o : option A) : bool :=
  match o with Some a => f a | None => false end.
Definition none {A} (o : option A) : bool := match o with None => true | Some _ => false end.
Definition all_pass (tests : list bool) : bool := forallb id tests.
Definition same {A} `{EqDecision A} (x y : A) : bool := bool_decide (x = y).

(** [Value] equality, on the trees the encoders build. *)
Fixpoint json_eqb (a b : json) : bool :=
  match a, b with
  | JNull, JNull => true
  | JBool x, JBool y => Bool.eqb x y
  | JNum x, JNum y => x =? y
  | JStr x, JStr y => String.eqb x y
  | JArr l, JArr l' =>
      (fix go (l l' : list json) : bool :=
         match l, l' with
         | [], [] => true
         | x :: l, y :: l' => json_eqb x y && go l l'
         | _, _ => false
         end) l l'
  | JObj fs, JObj fs' =>
      (fix go (fs fs' : list (string * json)) : bool :=
         match fs, fs' with
         | [], [] => true
         | (k, x) :: fs, (k', y) :: fs' => String.eqb k k' && json_eqb x y && go fs fs'
         | _, _ => false
         end) fs fs'
  | _, _ => false
  end.
Definition field_is (k : string) (v : json) (j : json) : bool := some_with (json_eqb v) (json_field k j).

(** ** cache.rs *)

Definition ms (n : Z) : Instant := from_millis n.
Definition make (max : Z) (default_ttl : Duration) : BoundedCache := Cache.new max default_ttl.
Definition put (t : Z) (name value : string) (ttl : option Duration) : ST BoundedCache unit :=
  Cache.insert default_iter (ms t) name value ttl.
Definition got (t : Z) (name : string) : ST BoundedCache (option CacheHit) := Cache.get (ms t) name.
Definition run_cache (m : ST BoundedCache bool) (c : BoundedCache) : bool := (m c).1.

Definition miss_on_empty_cache : bool :=
  run_cache (h ← got 0 "X"; n ← gets Cache.len; mret (none h && (n =? 0))) (make 4 (from_secs 60)).

Definition hit_returns_value_and_ttl : bool :=
  run_cache (put 0 "FOO" "bar" None;; hit ← got 1 "FOO";
             mret (some_with (λ h, same h.(hit_value) "bar" && (59 <=? h.(hit_ttl_seconds)) &&
                                   (h.(hit_ttl_seconds) <=? 60)) hit))
            (make 4 (from_secs 60)).

Definition expired_entry_is_dropped_on_get : bool :=
  run_cache (put 0 "FOO" "bar" (Some 0);; n ← gets Cache.len; hit ← got 1 "FOO"; n' ← gets Cache.len;
             mret ((n =? 1) && none hit && (n' =? 0)))
            (make 4 (from_secs 60)).

Definition insert_at_cap_evicts_oldest : bool :=
  run_cache (put 0 "A" "1" None;; put 2 "B" "2" None;; put 4 "C" "3" None;;
             a ← got 5 "A"; b ← got 6 "B"; c ← got 7 "C"; n ← gets Cache.len;
             mret (none a && negb (none b) && negb (none c) && (n =? 2)))
            (make 2 (from_secs 60)).

Definition reinsert_replaces_in_place_without_evicting_others : bool :=
  run_cache (put 0 "A" "1" None;; put 1 "B" "2" None;; put 2 "A" "1-updated" None;;
             a ← got 3 "A"; b ← got 4 "B";
             mret (some_with (λ h, same h.(hit_value) "1-updated") a &&
                   some_with (λ h, same h.(hit_value) "2") b))
            (make 2 (from_secs 60)).

Definition clear_drops_all_entries : bool :=
  run_cache (put 0 "A" "1" None;; put 1 "B" "2" None;; Cache.clear;;
             e ← gets Cache.is_empty; a ← got 2 "A"; mret (e && none a))
            (make 4 (from_secs 60)).

Definition set_config_applies_to_new_inserts_only : bool :=
  run_cache (put 0 "A" "1" None;; a ← got 1 "A";
             Cache.set_config 4 (from_secs 10);; a' ← got 2 "A";
             put 3 "B" "2" None;; b ← got 4 "B";
             mret (some_with (λ h, 59 <=? h.(hit_ttl_seconds)) a &&
                   some_with (λ h, 59 <=? h.(hit_ttl_seconds)) a' &&
                   some_with (λ h, h.(hit_ttl_seconds) <=? 10) b))
            (make 4 (from_secs 60)).

Definition set_config_smaller_cap_does_not_actively_evict : bool :=
  run_cache (put 0 "A" "1" None;; put 1 "B" "2" None;; put 2 "C" "3" None;;
             Cache.set_config 1 (from_secs 60);; n ← gets Cache.len;
             put 3 "D" "4" None;; n' ← gets Cache.len; mret ((n =? 3) && (n' =? 3)))
            (make 4 (from_secs 60)).

Definition explicit_ttl_overrides_default : bool :=
  run_cache (put 0 "FOO" "bar" (Some (from_secs 5));; hit ← got 1 "FOO";
             mret (some_with (λ h, h.(hit_ttl_seconds) <=? 5) hit))
            (make 4 (from_secs 60)).

(** [{:?}] of a string with nothing to escape; of an instant, as Linux has it. *)
Definition plain_fmt : DebugFmt := {|
  fmt_str s := of_bytes (Json.quoted s);
  fmt_instant t := "Instant { tv_sec: " +:+ dec (as_secs t) +:+ ", tv_nsec: 0 }";
  fmt_duration d := dec (as_secs d) +:+ "s" |}.
Definition text_in (text s : string) : bool := negb (none (split_at_sep (bytes text) (bytes s))).

Definition debug_redacts_value : bool :=
  run_cache (put 0 "FOO" "super-secret" None;;
             dbg ← gets (@BoundedCache_fmt plain_fmt default_iter);
             mret (negb (text_in "super-secret" dbg) && text_in "[REDACTED]" dbg))
            (make 4 (from_secs 60)).

Example cache_tests : all_pass
  [miss_on_empty_cache; hit_returns_value_and_ttl; expired_entry_is_dropped_on_get;
   insert_at_cap_evicts_oldest; reinsert_replaces_in_place_without_evicting_others;
   clear_drops_all_entries; set_config_applies_to_new_inserts_only;
   set_config_smaller_cap_does_not_actively_evict; explicit_ttl_overrides_default;
   debug_redacts_value] = true.
Proof. vm_compute. reflexivity. Qed.

(** ** manifest.rs *)

Definition manifest_with (name : string) (secrets : list string) : RawManifest :=
  mkRawManifest 1 (mkRawProject name None) (mkRawAllowlist secrets) None.
Definition MINIMAL : RawManifest := manifest_with "myrepo" ["GITHUB_TOKEN"].
Definition with_cache (c : RawCache) (m : RawManifest) : RawManifest :=
  mkRawManifest m.(raw_schema_version) m.(raw_project) m.(raw_allowlist) (Some c).
Definition repeat (s : string) (n : nat) : string := of_bytes (concat (replicate n (bytes s))).
Definition from_toml (m : RawManifest) (dir : option string) : result ManifestError Manifest :=
  @Manifest.from_toml_str (λ _, Ok m) "" dir.

Definition parses_minimal_manifest : bool :=
  passes_with (λ m, (m.(schema_version) =? 1) && same m.(project).(project_name) "myrepo" &&
                    same m.(allowlist).(secrets) ["GITHUB_TOKEN"] &&
                    same m.(cache).(ttl_seconds) None && same m.(cache).(max_entries) None)
    (from_toml MINIMAL (Some "myrepo")).

Definition parses_full_manifest : bool :=
  passes_with (λ m, same m.(project).(project_description) (Some "Has a description.") &&
                    (length m.(allowlist).(secrets) =? 3)%nat &&
                    same m.(cache).(ttl_seconds) (Some 600) && same m.(cache).(max_entries) (Some 16))
    (from_toml (mkRawManifest 1 (mkRawProject "internal-tool" (Some "Has a description."))
                  (mkRawAllowlist ["GITHUB_TOKEN"; "NPM_TOKEN"; "ANTHROPIC_API_KEY"])
                  (Some (mkRawCache (Some 600) (Some 16)))) (Some "internal-tool")).

Definition empty_allowlist_is_valid : bool :=
  passes_with (λ m, same m.(allowlist).(secrets) []) (from_toml (manifest_with "myrepo" []) (Some "myrepo")).

Definition rejects_unsupported_schema_version : bool :=
  fails_with (λ e, same e (UnsupportedSchemaVersion 2))
    (from_toml (mkRawManifest 2 MINIMAL.(raw_project) MINIMAL.(raw_allowlist) None) (Some "myrepo")).

Definition bad_name (e : ManifestError) : bool := match e with InvalidProjectName _ => true | _ => false end.
Definition rejects_invalid_project_name_uppercase : bool :=
  fails_with bad_name (from_toml (manifest_with "MyRepo" ["GITHUB_TOKEN"]) None).
Definition rejects_invalid_project_name_leading_dash : bool :=
  fails_with bad_name (from_toml (manifest_with "-foo" ["GITHUB_TOKEN"]) None).
Definition rejects_invalid_project_name_too_long : bool :=
  fails_with bad_name (from_toml (manifest_with (repeat "a" 65) ["GITHUB_TOKEN"]) None).

Definition accepts_project_name_at_max_length : bool :=
  let long := repeat "a" 64 in
  passes_with (λ m, (length (bytes m.(project).(project_name)) =? 64)%nat)
    (from_toml (manifest_with long ["GITHUB_TOKEN"]) (Some long)).

Definition rejects_name_dir_mismatch : bool :=
  fails_with (λ e, match e with NameDirMismatch _ _ => true | _ => false end)
    (from_toml MINIMAL (Some "other")).

Definition bad_secret (e : ManifestError) : bool := match e with InvalidSecretName _ => true | _ => false end.
Definition rejects_invalid_secret_name_hyphen : bool :=
  fails_with bad_secret (from_toml (manifest_with "myrepo" ["NOT-OK"]) (Some "myrepo")).
Definition rejects_invalid_secret_name_too_long : bool :=
  fails_with bad_secret (from_toml (manifest_with "myrepo" [repeat "A" 129]) (Some "myrepo")).

Definition rejects_duplicate_secrets : bool :=
  fails_with (λ e, same e (DuplicateSecret "FOO"))
    (from_toml (manifest_with "myrepo" ["FOO"; "FOO"]) (Some "myrepo")).

Definition rejects_cache_ttl_out_of_range_zero : bool :=
  fails_with (λ e, same e (ManifestCacheTtlOutOfRange 0))
    (from_toml (with_cache (mkRawCache (Some 0) None) MINIMAL) (Some "myrepo")).
Definition rejects_cache_ttl_out_of_range_high : bool :=
  fails_with (λ e, same e (ManifestCacheTtlOutOfRange 86401))
    (from_toml (with_cache (mkRawCache (Some 86401) None) MINIMAL) (Some "myrepo")).
Definition rejects_cache_max_entries_out_of_range : bool :=
  fails_with (λ e, same e (ManifestCacheMaxEntriesOutOfRange 2048))
    (from_toml (with_cache (mkRawCache None (Some 2048)) MINIMAL) (Some "myrepo")).

Definition rejects_description_too_long : bool :=
  fails_with (λ e, match e with DescriptionTooLong _ => true | _ => false end)
    (from_toml (mkRawManifest 1 (mkRawProject "myrepo" (Some (repeat "x" 257)))
                  MINIMAL.(raw_allowlist) None) (Some "myrepo")).

(** A disk with some files; each text stands for the manifest that it is. *)
Definition disk_with (files : list (string * string)) : Disk := mkDisk
  (λ p, existsb (λ f, String.eqb p f.1) files)
  (λ p, match List.find (λ f, String.eqb p f.1) files with Some f => Ok f.2 | None => Err not_found end).
Definition texts (l : list (string * RawManifest)) : TomlManifest := λ src,
  match List.find (λ f, String.eqb src f.1) l with Some f => Ok f.2 | None => Err "expected `.`, `=`" end.

Definition tmp_project : string := "/tmp/remo-broker-test-1-2".
Definition tmp_texts : TomlManifest :=
  texts [("dc", manifest_with "remo-broker-test-1-2" ["GITHUB_TOKEN"]);
         ("remo", manifest_with "remo-broker-test-1-2" ["NPM_TOKEN"])].

Definition load_discovers_devcontainer_path_first : bool :=
  passes_with (λ mp, same mp.2 (tmp_project +:+ "/.devcontainer/remo-broker.toml") &&
                     same mp.1.(allowlist).(secrets) ["GITHUB_TOKEN"])
    (@Manifest.load tmp_texts (disk_with [(tmp_project +:+ "/.devcontainer/remo-broker.toml", "dc");
                                          (tmp_project +:+ "/.remo/broker.toml", "remo")]) tmp_project).
Definition load_falls_back_to_remo_path : bool :=
  passes_with (λ mp, same mp.2 (tmp_project +:+ "/.remo/broker.toml"))
    (@Manifest.load tmp_texts (disk_with [(tmp_project +:+ "/.remo/broker.toml", "remo")]) tmp_project).
Definition load_errors_when_no_manifest_present : bool :=
  fails_with (λ e, match e with ManifestNotFound _ => true | _ => false end)
    (@Manifest.load tmp_texts (disk_with []) tmp_project).

(** Where a test is about what serde accepts: the manifest as the tree the TOML
    parser makes of the text. *)
Definition from_tree (j : json) (dir : option string) : result ManifestError Manifest :=
  @Manifest.from_toml_str (λ _, match raw_manifest_of_json j with Some m => Ok m | None => Err "unknown field" end) "" dir.
Definition MINIMAL_tree (project extra : list (string * json)) : json :=
  JObj ([("schema_version", JNum 1); ("project", JObj (project ++ [("name", JStr "myrepo")]));
         ("allowlist", JObj [("secrets", JArr [JStr "GITHUB_TOKEN"])])] ++ extra).
Definition parse_error (e : ManifestError) : bool := match e with ManifestParse _ _ => true | _ => false end.

Definition rejects_unknown_top_level_key : bool :=
  passes_with (λ _, true) (from_tree (MINIMAL_tree [] []) (Some "myrepo")) &&
  fails_with parse_error (from_tree (MINIMAL_tree [] [("extra", JObj [("foo", JNum 1)])]) (Some "myrepo")).
Definition rejects_unknown_key_in_known_table : bool :=
  fails_with parse_error (from_tree (MINIMAL_tree [("bogus", JBool true)] []) (Some "myrepo")).

(** The artifact in the repository. *)
Definition manifest_json_schema_matches_published_artifact : bool :=
  is_ok (compare_schema (Ok committed_schema)).

Example manifest_tree_tests : all_pass
  [rejects_unknown_top_level_key; rejects_unknown_key_in_known_table;
   manifest_json_schema_matches_published_artifact] = true.
Proof. vm_compute. reflexivity. Qed.

Example manifest_tests : all_pass
  [parses_minimal_manifest; parses_full_manifest; empty_allowlist_is_valid;
   rejects_unsupported_schema_version; rejects_invalid_project_name_uppercase;
   rejects_invalid_project_name_leading_dash; rejects_invalid_project_name_too_long;
   accepts_project_name_at_max_length; rejects_name_dir_mismatch; rejects_invalid_secret_name_hyphen;
   rejects_invalid_secret_name_too_long; rejects_duplicate_secrets; rejects_cache_ttl_out_of_range_zero;
   rejects_cache_ttl_out_of_range_high; rejects_cache_max_entries_out_of_range;
   rejects_description_too_long; load_discovers_devcontainer_path_first; load_falls_back_to_remo_path;
   load_errors_when_no_manifest_present] = true.
Proof. vm_compute. reflexivity. Qed.

(** ** config.rs *)

Definition config_from (raw : RawConfig) (o : Overrides) : result ConfigError Config :=
  @Config.from_toml_str (λ _, Ok raw) "" o.
Definition raw_source (k : BootstrapSourceKind) (token_path : option string) : RawConfig :=
  mkRawConfig (Some k) token_path None None None None None None.
Definition raw_numbers (ttl max timeout : option Z) : RawConfig :=
  mkRawConfig None None None None ttl max timeout None.

Definition defaults_match_documented_values : bool :=
  passes_with (λ c, same c.(bootstrap) (SourceFile DEFAULT_BOOTSTRAP_TOKEN_PATH) &&
                    same c.(socket_dir) DEFAULT_SOCKET_DIR &&
                    same c.(audit_log_path) DEFAULT_AUDIT_LOG_PATH &&
                    (c.(cache_default_ttl) =? from_secs 900) && (c.(cache_default_max_entries) =? 32) &&
                    (c.(backend_fetch_timeout) =? from_millis 5000))
    Config_default.

Definition parses_full_config : bool :=
  passes_with (λ c, same c.(bootstrap) SourceImds && same c.(socket_dir) "/var/run/broker" &&
                    same c.(audit_log_path) "/tmp/audit.log" && (c.(cache_default_ttl) =? from_secs 60) &&
                    (c.(cache_default_max_entries) =? 4) && (c.(backend_fetch_timeout) =? from_millis 1000))
    (config_from (mkRawConfig (Some KindImds) (Some "/tmp/ignored-when-imds") (Some "/var/run/broker")
                    (Some "/tmp/audit.log") (Some 60) (Some 4) (Some 1000) None) Overrides_default).

Definition empty_toml_yields_defaults : bool :=
  passes_with (λ c, same (Ok c) Config_default) (config_from RawConfig_default Overrides_default).

Definition file_source_uses_default_token_path_when_omitted : bool :=
  passes_with (λ c, same c.(bootstrap) (SourceFile DEFAULT_BOOTSTRAP_TOKEN_PATH))
    (config_from (raw_source KindFile None) Overrides_default).
Definition file_source_honors_custom_token_path : bool :=
  passes_with (λ c, same c.(bootstrap) (SourceFile "/run/secrets/bt"))
    (config_from (raw_source KindFile (Some "/run/secrets/bt")) Overrides_default).
Definition env_source_parses : bool :=
  passes_with (λ c, same c.(bootstrap) SourceEnv) (config_from (raw_source KindEnv None) Overrides_default).

Definition config_rejects_cache_ttl_out_of_range_zero : bool :=
  fails_with (λ e, same e (CacheTtlOutOfRange 0))
    (config_from (raw_numbers (Some 0) None None) Overrides_default).
Definition config_rejects_cache_ttl_out_of_range_high : bool :=
  fails_with (λ e, same e (CacheTtlOutOfRange 86401))
    (config_from (raw_numbers (Some 86401) None None) Overrides_default).
Definition config_rejects_cache_max_entries_out_of_range : bool :=
  fails_with (λ e, same e (CacheMaxEntriesOutOfRange 2048))
    (config_from (raw_numbers None (Some 2048) None) Overrides_default).
Definition rejects_zero_backend_timeout : bool :=
  fails_with (λ e, same e BackendTimeoutZero)
    (config_from (raw_numbers None None (Some 0)) Overrides_default).

Definition cli_overrides_beat_file_and_defaults : bool :=
  passes_with (λ c, same c.(bootstrap) SourceImds && (c.(cache_default_ttl) =? from_secs 120) &&
                    same c.(socket_dir) "/custom/sock" && same c.(audit_log_path) DEFAULT_AUDIT_LOG_PATH)
    (config_from (mkRawConfig (Some KindFile) None None None (Some 60) None None None)
       (mkOverrides (Some KindImds) None (Some "/custom/sock") None (Some 120) None None None)).

Definition load_missing_default_path_returns_defaults : bool :=
  fails_with (λ e, match e with ConfigFileNotFound _ => true | _ => false end)
    (@Config.load (λ _, Ok RawConfig_default) (disk_with []) (Some "/tmp/missing.toml") Overrides_default).
Definition load_with_temp_file_round_trips : bool :=
  passes_with (λ c, same c.(bootstrap) SourceImds && (c.(cache_default_ttl) =? from_secs 120))
    (@Config.load (λ _, Ok (mkRawConfig (Some KindImds) None None None (Some 120) None None None))
       (disk_with [("/tmp/d/config.toml", "..")]) (Some "/tmp/d/config.toml") Overrides_default).

Definition config_from_tree (j : json) : result ConfigError Config :=
  @Config.from_toml_str (λ _, match raw_config_of_json j with Some c => Ok c | None => Err "unknown" end) ""
    Overrides_default.
Definition config_parse_error (e : ConfigError) : bool := match e with ConfigParse _ _ => true | _ => false end.

Definition rejects_unknown_bootstrap_source : bool :=
  fails_with config_parse_error (config_from_tree (JObj [("bootstrap_source", JStr "vault")])) &&
  is_ok (config_from_tree (JObj [("bootstrap_source", JStr "env")])).
Definition config_rejects_unknown_top_level_key : bool :=
  fails_with config_parse_error (config_from_tree (JObj [("nonsense", JNum 1)])).

Example config_tree_tests : all_pass
  [rejects_unknown_bootstrap_source; config_rejects_unknown_top_level_key] = true.
Proof. vm_compute. reflexivity. Qed.

Example config_tests : all_pass
  [defaults_match_documented_values; parses_full_config; empty_toml_yields_defaults;
   file_source_uses_default_token_path_when_omitted; file_source_honors_custom_token_path;
   env_source_parses; config_rejects_cache_ttl_out_of_range_zero;
   config_rejects_cache_ttl_out_of_range_high; config_rejects_cache_max_entries_out_of_range;
   rejects_zero_backend_timeout; cli_overrides_beat_file_and_defaults;
   load_missing_default_path_returns_defaults; load_with_temp_file_round_trips] = true.
Proof. vm_compute. reflexivity. Qed.

(** ** audit.rs *)

(** [fixed_ts()] and its text. *)
Definition fixed_ts : Timestamp := 1779626096789.
Definition fixed_rfc3339 : Rfc3339 := λ t, if t =? fixed_ts then Some "2026-05-24T12:34:56.789Z" else None.

Definition sample_fetch_allow : FetchEvent :=
  mkFetchEvent fixed_ts "myrepo" "GITHUB_TOKEN" Allow OutcomeOk (Some 12345) (Some 1000) 4
    (Some "vault") None.
Definition sample_fetch_deny : FetchEvent :=
  mkFetchEvent fixed_ts "myrepo" "NPM_TOKEN" Deny OutcomeOk (Some 12345) (Some 1000) 0
    None (Some "allowlist").
Definition to_value (e : AuditEvent) : json := default JNull (@event_to_json fixed_rfc3339 e).

Definition fetch_allow_event_serializes_with_all_required_fields : bool :=
  json_eqb (to_value (Fetch sample_fetch_allow))
    (JObj [("event", JStr "fetch"); ("timestamp", JStr "2026-05-24T12:34:56.789Z");
           ("project", JStr "myrepo"); ("secret_name", JStr "GITHUB_TOKEN"); ("decision", JStr "allow");
           ("outcome", JStr "ok"); ("peer_pid", JNum 12345); ("peer_uid", JNum 1000);
           ("latency_ms", JNum 4); ("backend", JStr "vault")]).
Definition fetch_deny_event_omits_backend_and_includes_reason : bool :=
  json_eqb (to_value (Fetch sample_fetch_deny))
    (JObj [("event", JStr "fetch"); ("timestamp", JStr "2026-05-24T12:34:56.789Z");
           ("project", JStr "myrepo"); ("secret_name", JStr "NPM_TOKEN"); ("decision", JStr "deny");
           ("outcome", JStr "ok"); ("peer_pid", JNum 12345); ("peer_uid", JNum 1000);
           ("latency_ms", JNum 0); ("reason", JStr "allowlist")]).
Definition manifest_invalid_event_serializes_with_dotted_name : bool :=
  json_eqb (to_value (ManifestInvalid (mkManifestInvalidEvent fixed_ts "myrepo"
                        "/projects/myrepo/.devcontainer/remo-broker.toml" "invalid project.name")))
    (JObj [("event", JStr "manifest.invalid"); ("timestamp", JStr "2026-05-24T12:34:56.789Z");
           ("project", JStr "myrepo");
           ("manifest_path", JStr "/projects/myrepo/.devcontainer/remo-broker.toml");
           ("error", JStr "invalid project.name")]).
Definition socket_recovered_event_serializes : bool :=
  let v := to_value (SocketRecovered (mkSocketRecoveredEvent fixed_ts "myrepo" "/run/remo-broker/myrepo.sock")) in
  field_is "event" (JStr "socket.recovered") v && field_is "socket_path" (JStr "/run/remo-broker/myrepo.sock") v.
Definition shutdown_event_serializes_with_tallies : bool :=
  let v := to_value (Shutdown (mkShutdownEvent fixed_ts "SIGTERM" 3 17)) in
  field_is "event" (JStr "shutdown") v && field_is "events_dropped" (JNum 3) v &&
  field_is "events_in_degraded_buffer" (JNum 17) v.
Definition fetch_event_does_not_serialize_a_value_field : bool :=
  let v := to_value (Fetch sample_fetch_allow) in
  none (json_field "value" v) && none (json_field "value_b64" v).

Local Abbreviation tested_write d := (@write_event fixed_rfc3339 compact_json d).
Definition enoent : FileOutcome := OpenFails not_found.
Definition line_count (bs : list ascii) : nat := length (lines (of_bytes bs)).

Definition audit_file_writes_each_event_as_one_jsonl_line : bool :=
  let f1 := (tested_write (λ _, WriteOk) (Fetch sample_fetch_allow) (mkLogFile [] 0)).2 in
  let f2 := (tested_write (λ _, WriteOk) (Fetch sample_fetch_deny) f1).2 in
  (line_count f2.(lf_bytes) =? 2)%nat.
(** The file at the path is opened for each write: after a rename the path has
    no bytes yet, and what was written stays in the renamed file. *)
Definition audit_file_reopens_at_path_after_rotation : bool :=
  let f1 := (tested_write (λ _, WriteOk) (Fetch sample_fetch_allow) (mkLogFile [] 0)).2 in
  let rotated_contents := f1.(lf_bytes) in
  let after := (tested_write (λ _, WriteOk) (Fetch sample_fetch_deny) (mkLogFile [] f1.(lf_attempts))).2.(lf_bytes) in
  let text e := default [] (@event_line fixed_rfc3339 compact_json (Fetch e)) in
  (line_count after =? 1)%nat && (line_count rotated_contents =? 1)%nat &&
  same after (text sample_fetch_deny) && same rotated_contents (text sample_fetch_allow).
Definition audit_file_errors_when_parent_directory_is_missing : bool :=
  fails_with (λ _, true) (tested_write (λ _, enoent) (Fetch sample_fetch_allow) (mkLogFile [] 0)).1.

(** The events sent on the channel, then received until it is closed. *)
Definition write_all_sent (disk : nat → FileOutcome) (events : list AuditEvent) : Writer :=
  @writer_run fixed_rfc3339 compact_json disk
    (foldl (λ ch e, record e ch) channel_new events).(ch_queue) writer_init.

Definition writer_writes_events_to_file : bool :=
  let w := write_all_sent (λ _, WriteOk) [Fetch sample_fetch_allow; Fetch sample_fetch_deny] in
  same (writer_shutdown w).(events_written) 2 && same (writer_shutdown w).(degraded_buffer_remaining) 0 &&
  (line_count w.(w_file).(lf_bytes) =? 2)%nat.
Definition writer_buffers_events_when_file_path_is_unwritable : bool :=
  let w := write_all_sent (λ _, enoent) [Fetch sample_fetch_allow; Fetch sample_fetch_deny] in
  same (writer_shutdown w).(events_written) 0 && same (writer_shutdown w).(degraded_buffer_remaining) 2.
(** The writer keeps up with the producer, as the yields are there for. *)
Definition writer_drops_oldest_when_degraded_buffer_full : bool :=
  let w := @writer_run fixed_rfc3339 compact_json (λ _, enoent)
             (replicate 1005 (Fetch sample_fetch_allow)) writer_init in
  (writer_shutdown w).(degraded_buffer_remaining) <=? DEGRADED_BUFFER_CAP.

Example audit_tests : all_pass
  [fetch_allow_event_serializes_with_all_required_fields;
   fetch_deny_event_omits_backend_and_includes_reason;
   manifest_invalid_event_serializes_with_dotted_name; socket_recovered_event_serializes;
   shutdown_event_serializes_with_tallies; fetch_event_does_not_serialize_a_value_field;
   audit_file_writes_each_event_as_one_jsonl_line; audit_file_reopens_at_path_after_rotation;
   audit_file_errors_when_parent_directory_is_missing;
   writer_writes_events_to_file; writer_buffers_events_when_file_path_is_unwritable;
   writer_drops_oldest_when_degraded_buffer_full] = true.
Proof. vm_compute. reflexivity. Qed.

(** ** bootstrap.rs *)

Definition os_with (files : list (string * string)) : Os := {|
  os_now _ := 0; os_utc _ := 0; os_fault _ := None; os_bind_mode := 493;
  os_disk _ := disk_with files;
|}.
Definition no_network : Outside := {|
  env_var _ _ := Err NotPresent;
  tcp_connect _ _ _ := Finished (Err (mkIoError OtherKind "Connection refused (os error 111)"));
  tcp_exchange _ _ _ _ := Elapsed;
|}.
Definition env_with (var value : string) : Outside := {|
  env_var _ v := if decide (v = var) then Ok value else Err NotPresent;
  tcp_connect _ _ _ := Elapsed;
  tcp_exchange _ _ _ _ := Elapsed;
|}.
Definition newlines (n : nat) : string := of_bytes (replicate n NL).
Definition exposes (v : string) (t : BootstrapToken) : bool := same t.(expose) v.

Definition file_present_returns_trimmed_token : bool :=
  passes_with (exposes "hello-token")
    (@fetch_token (os_with [("/t/token", "  hello-token" +:+ newlines 2)]) no_network (SourceFile "/t/token") 0%nat).1.
Definition file_missing_errors_with_file_not_found : bool :=
  fails_with (λ e, same e (FileNotFound "/t/missing-token"))
    (@fetch_token (os_with []) no_network (SourceFile "/t/missing-token") 0%nat).1.
Definition file_empty_errors_with_file_empty : bool :=
  fails_with (λ e, match e with FileEmpty _ => true | _ => false end)
    (@fetch_token (os_with [("/t/token", "   " +:+ of_bytes [NL; "009"%char; NL])]) no_network
       (SourceFile "/t/token") 0%nat).1.
Definition env_present_returns_token : bool :=
  passes_with (exposes "env-token-value") (@fetch_env_with_var (env_with "VAR" "env-token-value") "VAR" 0%nat).1.
Definition env_unset_errors_with_env_unset : bool :=
  fails_with (λ e, same e (EnvUnset "VAR")) (@fetch_env_with_var no_network "VAR" 0%nat).1.
Definition env_empty_errors_with_env_empty : bool :=
  fails_with (λ e, same e (EnvEmpty "VAR")) (@fetch_env_with_var (env_with "VAR" "") "VAR" 0%nat).1.

(** [MockImds]: answers by the path of the request. *)
Record MockResponse : Type := mkMockResponse { mr_status : Z; mr_reason : string; mr_body : string }.
Definition mock_ok (body : string) : MockResponse := mkMockResponse 200 "OK" body.
Definition request_path (request : list ascii) : string :=
  default "" (head (lines (from_utf8_lossy request)) ≫= λ l, split_whitespace l !! 1%nat).
Definition mock_reply (responses : list (string * MockResponse)) (request : list ascii) : list ascii :=
  let path := request_path request in
  let r := default (mkMockResponse 404 "Not Found" "") (snd <$> List.find (λ pr, String.eqb pr.1 path) responses) in
  bytes ("HTTP/1.1 " +:+ dec r.(mr_status) +:+ " " +:+ r.(mr_reason) +:+ crlf +:+
         "Content-Length: " +:+ dec (Z.of_nat (length (bytes r.(mr_body)))) +:+ crlf +:+
         "Connection: close" +:+ crlf +:+ crlf +:+ r.(mr_body)).
Definition MockImds (responses : list (string * MockResponse)) : Outside := {|
  env_var _ _ := Err NotPresent;
  tcp_connect _ _ _ := Finished (Ok tt);
  tcp_exchange _ _ _ request := Finished (Ok (mock_reply responses request));
|}.
Definition mock_url : string := "http://127.0.0.1:40123".
Definition from_mock (responses : list (string * MockResponse)) : result BootstrapError BootstrapToken :=
  (@fetch_imds_at (MockImds responses) mock_url (from_secs 2) 0%nat).1.

Definition credentials : string :=
  dq ("{" +:+ newlines 1 +:+ "  'Code': 'Success'," +:+ newlines 1 +:+
      "  'AccessKeyId': 'AKIAEXAMPLE'," +:+ newlines 1 +:+
      "  'SecretAccessKey': 'wJalrXUtnFEMI/K7MDENG/bPxRfiCYEXAMPLEKEY'," +:+ newlines 1 +:+
      "  'Token': 'AQoEXAMPLEsessiontoken'," +:+ newlines 1 +:+
      "  'Expiration': '2026-05-24T12:00:00Z'" +:+ newlines 1 +:+ "}").
Definition imds_happy_path_responses : list (string * MockResponse) :=
  [("/latest/api/token", mock_ok "mock-imds-token");
   ("/latest/meta-data/iam/security-credentials/", mock_ok "remo-broker-role");
   ("/latest/meta-data/iam/security-credentials/remo-broker-role", mock_ok credentials)].

(** The mock that answers the [k]-th request only if it is for the [k]-th path:
    to get through is to have been seen asking for these paths in this order. *)
Definition MockImds_in_order (responses : list (string * MockResponse)) : Outside := {|
  env_var _ _ := Err NotPresent;
  tcp_connect _ _ _ := Finished (Ok tt);
  tcp_exchange n _ _ request :=
    if same (fst <$> responses !! Nat.div2 n) (Some (request_path request))
    then Finished (Ok (mock_reply responses request)) else Elapsed;
|}.
Definition has_text (text s : string) : bool := negb (none (split_at_sep (bytes text) (bytes s))).

Definition imds_happy_path_returns_credentials_token : bool :=
  passes_with (λ t, has_text "AKIAEXAMPLE" t.(expose) && has_text "AQoEXAMPLEsessiontoken" t.(expose))
    (from_mock imds_happy_path_responses) &&
  is_ok (@fetch_imds_at (MockImds_in_order imds_happy_path_responses) mock_url (from_secs 2) 0%nat).1.
Definition imds_500_on_token_endpoint_surfaces_imds_http : bool :=
  fails_with (λ e, match e with ImdsHttp _ status body => (status =? 500) && same body "boom" | _ => false end)
    (from_mock [("/latest/api/token", mkMockResponse 500 "Internal Server Error" "boom")]).
Definition imds_empty_role_list_returns_no_instance_role : bool :=
  fails_with (λ e, same e ImdsNoInstanceRole)
    (from_mock [("/latest/api/token", mock_ok "tok");
                ("/latest/meta-data/iam/security-credentials/", mock_ok (newlines 2))]).
Definition imds_empty_token_body_is_rejected : bool :=
  fails_with (λ e, same e ImdsEmptyToken) (from_mock [("/latest/api/token", mock_ok "")]).
Definition imds_connection_refused_returns_connect_error : bool :=
  fails_with (λ e, match e with ImdsConnect _ _ | ImdsIo _ | ImdsMalformedResponse _ => true | _ => false end)
    (@fetch_imds_at no_network mock_url (from_secs 2) 0%nat).1.
Definition fetch_token_routes_imds_variant_to_real_path : bool :=
  fails_with (λ e, negb (none (strip_prefix (bytes "imds bootstrap:")
                                  (bytes (@display_bootstrap_error demo_unicode e)))))
    (@fetch_token (os_with []) no_network SourceImds 0%nat).1.

Definition parse_base_url_accepts_host_only : bool :=
  passes_with (λ hp, same hp ("example.com", 80)) (parse_base_url "http://example.com").
Definition parse_base_url_accepts_host_port : bool :=
  passes_with (λ hp, same hp ("127.0.0.1", 12345)) (parse_base_url "http://127.0.0.1:12345").
Definition bad_url (e : BootstrapError) : bool := match e with ImdsInvalidBaseUrl _ => true | _ => false end.
Definition parse_base_url_rejects_https : bool := fails_with bad_url (parse_base_url "https://example.com").
Definition parse_base_url_rejects_bad_port : bool :=
  fails_with bad_url (parse_base_url "http://example.com:notaport").

Definition parse_http_response_extracts_body_on_200 : bool :=
  passes_with (λ body, same body "hello")
    (parse_http_response "/x" (bytes ("HTTP/1.1 200 OK" +:+ crlf +:+ "Content-Length: 5" +:+ crlf +:+ crlf +:+ "hello"))).
Definition parse_http_response_surfaces_non_2xx_as_http_error : bool :=
  fails_with (λ e, match e with ImdsHttp _ status body => (status =? 401) && same body "nay" | _ => false end)
    (parse_http_response "/x"
       (bytes ("HTTP/1.1 401 Unauthorized" +:+ crlf +:+ "Content-Length: 3" +:+ crlf +:+ crlf +:+ "nay"))).
Definition parse_http_response_rejects_no_headers_separator : bool :=
  fails_with (λ e, match e with ImdsMalformedResponse _ => true | _ => false end)
    (parse_http_response "/x" (bytes "not even close to HTTP")).

Definition debug_output_does_not_leak_value : bool :=
  let dbg := @debug_token demo_unicode (mkBootstrapToken "super-secret-value-xyz") in
  negb (has_text "super-secret-value-xyz" dbg) && has_text "REDACTED" dbg.

Example bootstrap_tests : all_pass
  [file_present_returns_trimmed_token; file_missing_errors_with_file_not_found;
   file_empty_errors_with_file_empty; env_present_returns_token; env_unset_errors_with_env_unset;
   env_empty_errors_with_env_empty; imds_happy_path_returns_credentials_token;
   imds_500_on_token_endpoint_surfaces_imds_http; imds_empty_role_list_returns_no_instance_role;
   imds_empty_token_body_is_rejected; imds_connection_refused_returns_connect_error;
   fetch_token_routes_imds_variant_to_real_path; parse_base_url_accepts_host_only;
   parse_base_url_accepts_host_port; parse_base_url_rejects_https; parse_base_url_rejects_bad_port;
   parse_http_response_extracts_body_on_200; parse_http_response_surfaces_non_2xx_as_http_error;
   parse_http_response_rejects_no_headers_separator; debug_output_does_not_leak_value] = true.
Proof. vm_compute. reflexivity. Qed.

(** ** proto/project.rs *)

Definition op (name : string) (fields : list (string * json)) : json := JObj (("op", JStr name) :: fields).

Definition parses_get_request : bool :=
  same (project_request_of_json (op "get" [("name", JStr "GITHUB_TOKEN")])) (Some (Get "GITHUB_TOKEN")).
Definition parses_ping_request : bool := same (project_request_of_json (op "ping" [])) (Some Ping).
Definition parses_info_request : bool := same (project_request_of_json (op "info" [])) (Some Info).
Definition rejects_unknown_op : bool := none (project_request_of_json (op "nope" [])).
Definition tolerates_unknown_field_on_request : bool :=
  same (project_request_of_json (op "ping" [("extra", JNum 1)])) (Some Ping).

Definition get_utf8_response_matches_doc_example : bool :=
  json_eqb (get_response_to_json (get_utf8 "ghp_xxxxxxxxxxxxxxxxxxxx" 542))
    (JObj [("ok", JBool true); ("value", JStr "ghp_xxxxxxxxxxxxxxxxxxxx"); ("ttl_seconds", JNum 542)]).
Definition get_binary_response_matches_doc_example : bool :=
  json_eqb (get_response_to_json (get_binary "ZGVhZGJlZWY=" 542))
    (JObj [("ok", JBool true); ("value_b64", JStr "ZGVhZGJlZWY="); ("ttl_seconds", JNum 542)]).
Definition ping_response_matches_doc_example : bool :=
  json_eqb (ping_to_json (ping_new "0.3.1" "myrepo"))
    (JObj [("ok", JBool true); ("broker_version", JStr "0.3.1"); ("protocol_version", JNum 1);
           ("project", JStr "myrepo")]).
Definition info_response_matches_doc_example : bool :=
  json_eqb (info_to_json (info_new "myrepo" ["GITHUB_TOKEN"; "NPM_TOKEN"] 1))
    (JObj [("ok", JBool true); ("project", JStr "myrepo");
           ("allowlist", JArr [JStr "GITHUB_TOKEN"; JStr "NPM_TOKEN"]); ("schema_version", JNum 1)]).

Definition denied_error_matches_doc_example : bool :=
  json_eqb (project_error_to_json (error_new Denied "Secret 'NPM_TOKEN' is not in this project's allowlist."))
    (JObj [("ok", JBool false); ("code", JStr "denied");
           ("message", JStr "Secret 'NPM_TOKEN' is not in this project's allowlist.")]).
Definition rate_limited_error_includes_retry_after : bool :=
  json_eqb (project_error_to_json (with_retry_after (error_new RateLimited "Too many fetches in window.") 10))
    (JObj [("ok", JBool false); ("code", JStr "rate_limited");
           ("message", JStr "Too many fetches in window."); ("retry_after_seconds", JNum 10)]).
Definition all_error_codes_round_trip : bool :=
  forallb (λ cw, same (project_code_wire cw.1) cw.2 &&
                 same (as_variant project_codes project_code_wire (JStr cw.2)) (Some cw.1))
    [(Denied, "denied"); (CodeNotFound, "not_found"); (BackendErrorCode, "backend_error");
     (BackendUnreachable, "backend_unreachable"); (RateLimited, "rate_limited");
     (ProjectProtocolError, "protocol_error"); (ProjectInternalError, "internal_error");
     (PeerUnexpected, "peer_unexpected")].

(** ** proto/admin.rs *)

Definition parses_register_request : bool :=
  same (admin_request_of_json (op "register" [("name", JStr "myrepo"); ("project_path", JStr "/projects/myrepo")]))
    (Some (Register "myrepo" "/projects/myrepo")).
Definition parses_unregister_request : bool :=
  same (admin_request_of_json (op "unregister" [("name", JStr "myrepo")])) (Some (Unregister "myrepo")).
Definition parses_reload_request : bool :=
  same (admin_request_of_json (op "reload" [("name", JStr "myrepo")])) (Some (Reload "myrepo")).
Definition parses_status_request : bool := same (admin_request_of_json (op "status" [])) (Some Status).
Definition parses_rotate_bootstrap_request_kebab_case : bool :=
  same (admin_request_of_json (op "rotate-bootstrap" [])) (Some RotateBootstrap).
Definition rejects_unknown_admin_op : bool := none (admin_request_of_json (op "shutdown" [])).

Definition register_response_matches_doc_example : bool :=
  json_eqb (register_to_json (register_new "/run/remo-broker/myrepo.sock"))
    (JObj [("ok", JBool true); ("socket_path", JStr "/run/remo-broker/myrepo.sock")]).
Definition unregister_response_matches_doc_example : bool :=
  json_eqb (ok_to_json ok_new) (JObj [("ok", JBool true)]).
Definition reload_response_matches_doc_example : bool :=
  json_eqb (reload_to_json (reload_new ["GITHUB_TOKEN"; "NPM_TOKEN"; "ANTHROPIC_API_KEY"]))
    (JObj [("ok", JBool true);
           ("allowlist", JArr [JStr "GITHUB_TOKEN"; JStr "NPM_TOKEN"; JStr "ANTHROPIC_API_KEY"])]).
Definition status_response_matches_doc_example : bool :=
  json_eqb (status_to_json (status_new "0.3.1" 84273 ModeImds
              [mkProjectStatus "myrepo" "/run/remo-broker/myrepo.sock" 3 2;
               mkProjectStatus "other" "/run/remo-broker/other.sock" 1 0]))
    (JObj [("ok", JBool true); ("broker_version", JStr "0.3.1"); ("protocol_version", JNum 1);
           ("uptime_seconds", JNum 84273); ("bootstrap_mode", JStr "imds");
           ("projects", JArr
              [JObj [("name", JStr "myrepo"); ("socket_path", JStr "/run/remo-broker/myrepo.sock");
                     ("allowlist_size", JNum 3); ("cache_entries", JNum 2)];
               JObj [("name", JStr "other"); ("socket_path", JStr "/run/remo-broker/other.sock");
                     ("allowlist_size", JNum 1); ("cache_entries", JNum 0)]])]).
Definition rotate_bootstrap_response_matches_doc_example : bool :=
  json_eqb (rotate_to_json rotate_ok) (JObj [("ok", JBool true); ("backend_auth", JStr "ok")]).
Definition manifest_invalid_error_matches_doc_example : bool :=
  json_eqb (admin_error_to_json (error_new CodeManifestInvalid "details here"))
    (JObj [("ok", JBool false); ("code", JStr "manifest_invalid"); ("message", JStr "details here")]).
Definition all_admin_error_codes_round_trip : bool :=
  forallb (λ cw, same (admin_code_wire cw.1) cw.2 &&
                 same (as_variant admin_codes admin_code_wire (JStr cw.2)) (Some cw.1))
    [(CodeManifestInvalid, "manifest_invalid"); (CodeManifestNotFound, "manifest_not_found");
     (CodeProjectUnknown, "project_unknown"); (CodeProjectExists, "project_exists");
     (CodeBootstrapError, "bootstrap_error"); (AdminProtocolError, "protocol_error");
     (AdminInternalError, "internal_error")].

Example proto_tests : all_pass
  [parses_get_request; parses_ping_request; parses_info_request; rejects_unknown_op;
   tolerates_unknown_field_on_request; get_utf8_response_matches_doc_example;
   get_binary_response_matches_doc_example; ping_response_matches_doc_example;
   info_response_matches_doc_example; denied_error_matches_doc_example;
   rate_limited_error_includes_retry_after; all_error_codes_round_trip; parses_register_request;
   parses_unregister_request; parses_reload_request; parses_status_request;
   parses_rotate_bootstrap_request_kebab_case; rejects_unknown_admin_op;
   register_response_matches_doc_example; unregister_response_matches_doc_example;
   reload_response_matches_doc_example; status_response_matches_doc_example;
   rotate_bootstrap_response_matches_doc_example; manifest_invalid_error_matches_doc_example;
   all_admin_error_codes_round_trip] = true.
Proof. vm_compute. reflexivity. Qed.
