(* ===== verification/ServerTests.v ===== *)
(** * The tests of the registry and the server, run on the model

    The tests of registry.rs and server.rs, translated like those of
    [UnitTests].  A test of the server starts it ([Daemon.setup]), then sends
    requests: [send_admin] and [send_project] pass one line to the connection
    handlers of [Conn], the latter to the project whose listener is bound at
    the path.  Files that a test writes are the disk of the environment the
    following calls run in; the clock moves by one millisecond per interaction.
    Of the tests that end with the audit log on disk the events recorded are
    looked at. *)

From S2P Require Import Prelude Str Path Json JsonText Os Manifest Cache Config AuditLog Backend Proto Registry Bootstrap Server Conn Daemon UnitTests.
Open Scope Z_scope.

Definition os_of (files : list (string * string)) : Os := {|
  os_now n := from_millis (Z.of_nat n); os_utc n := Z.of_nat n; os_fault _ := None;
  os_bind_mode := 493; os_disk _ := disk_with files;
|}.

(** [write_project]: the file, and what its text means. *)
Definition write_project (name text : string) : string * string :=
  ("/t/" +:+ name +:+ "/.remo/broker.toml", text).
Definition test_texts : TomlManifest :=
  texts [("alpha: FOO", manifest_with "alpha" ["FOO"]);
         ("alpha: FOO, BAR", manifest_with "alpha" ["FOO"; "BAR"]);
         ("hello: HELLO", manifest_with "hello" ["HELLO"])].

Definition alpha : list (string * string) := [write_project "alpha" "alpha: FOO"].
Definition alpha_rewritten : list (string * string) := [write_project "alpha" "alpha: FOO, BAR"].
Definition alpha_broken : list (string * string) := [write_project "alpha" "!!! not toml !!!"].
Definition alpha_dir : string := "/t/alpha".

(** ** registry.rs *)

Definition test_registry : ProjectRegistry :=
  mkProjectRegistry "/t/run" (mkCacheDefaults 32 (from_secs 900)).
Definition reg_register files name path : ST RegState (result RegistryError nat) :=
  @register (os_of files) test_texts test_registry name path.
Definition reg_reload files name : ST RegState (result RegistryError Manifest) :=
  @reload (os_of files) test_texts test_registry name.
Definition project_at (id : result RegistryError nat) (s : RegState) : option Project :=
  match id with Ok id => s.(rs_heap) !! id | Err _ => None end.
Definition mode_at (path : string) (s : RegState) : option Z :=
  match s.(rs_nodes) !! path with Some (Socket mode _) => Some mode | _ => None end.
Definition allowed_names (p : Project) : list string := p.(p_manifest).(allowlist).(secrets).
Definition run_reg (m : ST RegState bool) : bool := (m registry_new).1.

Definition register_creates_socket_with_0660 : bool :=
  run_reg (id ← reg_register alpha "alpha" alpha_dir;
           p ← gets (project_at id);
           mode ← gets (mode_at "/t/run/alpha.sock");
           mret (some_with (λ p, same p.(p_name) "alpha" && same p.(p_socket_path) "/t/run/alpha.sock" &&
                                 same (allowed_names p) ["FOO"]) p && same mode (Some 432))).
Definition registry_duplicate_register_returns_project_exists : bool :=
  run_reg (_ ← reg_register alpha "alpha" alpha_dir; r ← reg_register alpha "alpha" alpha_dir;
           mret (fails_with (λ e, same e (ProjectExists "alpha")) r)).
Definition register_rejects_name_mismatch : bool :=
  run_reg (r ← reg_register alpha "beta" alpha_dir;
           mret (fails_with (λ e, match e with RegManifestInvalid _ => true | _ => false end) r)).
Definition register_missing_manifest_returns_manifest_not_found : bool :=
  run_reg (r ← reg_register [] "alpha" alpha_dir;
           mret (fails_with (λ e, match e with RegManifestNotFound _ => true | _ => false end) r)).
Definition unregister_returns_handle_and_removes_from_map : bool :=
  run_reg (_ ← reg_register alpha "alpha" alpha_dir;
           id ← unregister "alpha"; p ← gets (project_at id);
           left ← gets (snapshot default_iter);
           r ← unregister "alpha";
           mret (some_with (λ p, same p.(p_name) "alpha") p && (length left =? 0)%nat &&
                 fails_with (λ e, same e (ProjectUnknown "alpha")) r)).
Definition reload_swaps_manifest_atomically : bool :=
  run_reg (id ← reg_register alpha "alpha" alpha_dir; p ← gets (project_at id);
           m ← reg_reload alpha_rewritten "alpha"; p' ← gets (project_at id);
           mret (some_with (λ p, same (allowed_names p) ["FOO"]) p &&
                 passes_with (λ m, same m.(allowlist).(secrets) ["FOO"; "BAR"]) m &&
                 some_with (λ p, same (allowed_names p) ["FOO"; "BAR"]) p')).
Definition reload_unknown_project_returns_project_unknown : bool :=
  run_reg (r ← reg_reload [] "nope"; mret (fails_with (λ e, same e (ProjectUnknown "nope")) r)).
Definition reload_after_manifest_becomes_invalid_returns_manifest_invalid : bool :=
  run_reg (_ ← reg_register alpha "alpha" alpha_dir; r ← reg_reload alpha_broken "alpha";
           mret (fails_with (λ e, match e with RegManifestInvalid _ => true | _ => false end) r)).
Definition register_replaces_stale_socket_file : bool :=
  run_reg (modify (set_nodes {["/t/run/alpha.sock" := Stale]});;
           r ← reg_register alpha "alpha" alpha_dir;
           mode ← gets (mode_at "/t/run/alpha.sock");
           mret (is_ok r && same mode (Some 432))).

Example registry_tests : all_pass
  [register_creates_socket_with_0660; registry_duplicate_register_returns_project_exists;
   register_rejects_name_mismatch; register_missing_manifest_returns_manifest_not_found;
   unregister_returns_handle_and_removes_from_map; reload_swaps_manifest_atomically;
   reload_unknown_project_returns_project_unknown;
   reload_after_manifest_becomes_invalid_returns_manifest_invalid;
   register_replaces_stale_socket_file] = true.
Proof. vm_compute. reflexivity. Qed.

(** ** server.rs *)

Definition test_json : SerdeJson := text_json.

(** [plain] provider: the session is the value of HELLO, if it has one. *)
Definition plain_fnox : FnoxCore string := mkFnoxCore _ (λ _ path, Ok "world") (λ _, Err "no config")
  (λ _ v name, if decide (name = "HELLO") then Ok (Some v) else Ok None).

Definition test_config : Config :=
  default (mkConfig SourceImds "" "" 0 0 0 None)
    (ok (config_from RawConfig_default
           (mkOverrides (Some KindFile) (Some "/tmp/unused-in-this-test") (Some "/t/run") (Some "/t/audit.log")
              None None None None))).
Definition test_server : Server := server_new test_config 0.
Definition peer : Peer := mkPeer (Some 4242) (Some 1000).
Local Abbreviation T := (ST (ServerState string)).

Definition send_admin (files : list (string * string)) (request : json) : T json :=
  @admin_line string (os_of files) no_network test_texts demo_unicode demo_order plain_fnox test_json
    test_server (λ _, "unknown variant") (bytes (@to_string test_json request) ++ [NL]).
Definition listener_at (path : string) (s : ServerState string) : option nat :=
  match s.(ss_reg).(rs_nodes) !! path with Some (Socket _ (ProjectListener id)) => Some id | _ => None end.
Definition send_project (path : string) (request : json) : T json :=
  id ← gets (listener_at path);
  match id with
  | Some id => @project_line string (os_of []) demo_unicode demo_order plain_fnox test_json
                 (λ _, "unknown variant") id peer (bytes (@to_string test_json request) ++ [NL])
  | None => mret JNull
  end.
Definition exists_at (path : string) (s : ServerState string) : bool :=
  negb (none (s.(ss_reg).(rs_nodes) !! path)).
(** The cache of the first project of the snapshot, filled or cleared. *)
Definition on_first_cache (m : ST BoundedCache unit) : T unit :=
  ps ← gets (λ s, snapshot default_iter s.(ss_reg));
  match ps with (id, _) :: _ => on_cache id m | [] => mret tt end.
(** The texts of the events recorded so far, as values. *)
Definition read_audit_events (s : ServerState string) : list json :=
  map (λ e, default JNull (@event_to_json (λ _, Some "2026-05-24T12:34:56Z") e)) s.(ss_audit).(ch_queue).

Definition started : T bool :=
  r ← @setup string (os_of []) test_server; mret (is_ok r).
Definition run_server (backend : option string) (m : T bool) : bool :=
  ((up ← started; b ← m; mret (up && b)) (server_init (mkBackendSession <$> backend))).1.

Definition admin_sock : string := "/t/run/admin.sock".
Definition alpha_sock : string := "/t/run/alpha.sock".
Definition register_alpha : json := op "register" [("name", JStr "alpha"); ("project_path", JStr alpha_dir)].
Definition get_req (name : string) : json := op "get" [("name", JStr name)].
Definition is_true (k : string) := field_is k (JBool true).
Definition is_false (k : string) := field_is k (JBool false).
Definition code_is (c : string) (j : json) : bool := is_false "ok" j && field_is "code" (JStr c) j.
Definition mentions (text : string) (j : json) : bool :=
  some_with (λ m, match m with JStr m => has_text text m | _ => false end) (json_field "message" j).
Definition no_field (k : string) (j : json) : bool := none (json_field k j).

Definition status_round_trip : bool :=
  run_server None
    (there ← gets (exists_at admin_sock);
     v ← send_admin [] (op "status" []);
     mret (there && is_true "ok" v && field_is "protocol_version" (JNum PROTOCOL_VERSION) v &&
           field_is "broker_version" (JStr BROKER_VERSION) v && field_is "bootstrap_mode" (JStr "file") v &&
           field_is "projects" (JArr []) v)).

Definition unknown_op_returns_protocol_error : bool :=
  run_server None (v ← send_admin [] (op "shutdown" []); mret (code_is "protocol_error" v)).

Definition rotate_bootstrap_with_no_backend_returns_bootstrap_error : bool :=
  run_server None (v ← send_admin [] (op "rotate-bootstrap" []);
                   mret (code_is "bootstrap_error" v && mentions "--fnox-config" v)).

Definition get_with_no_backend_returns_backend_error_with_hint : bool :=
  run_server None (_ ← send_admin alpha register_alpha; v ← send_project alpha_sock (get_req "FOO");
                   mret (code_is "backend_error" v && mentions "--fnox-config" v)).

Definition register_lifecycle_end_to_end : bool :=
  run_server None
    (v ← send_admin alpha register_alpha;
     there ← gets (exists_at alpha_sock);
     ping ← send_project alpha_sock (op "ping" []);
     info ← send_project alpha_sock (op "info" []);
     denied ← send_project alpha_sock (get_req "BAR");
     allowed ← send_project alpha_sock (get_req "FOO");
     status ← send_admin alpha (op "status" []);
     u ← send_admin alpha (op "unregister" [("name", JStr "alpha")]);
     still ← gets (exists_at alpha_sock);
     status' ← send_admin alpha (op "status" []);
     mret (is_true "ok" v && field_is "socket_path" (JStr alpha_sock) v && there &&
           is_true "ok" ping && field_is "project" (JStr "alpha") ping &&
           field_is "broker_version" (JStr BROKER_VERSION) ping &&
           is_true "ok" info && field_is "allowlist" (JArr [JStr "FOO"]) info &&
           field_is "schema_version" (JNum 1) info &&
           code_is "denied" denied && code_is "backend_error" allowed &&
           some_with (λ ps, match ps with
                            | JArr [p] => field_is "name" (JStr "alpha") p && field_is "allowlist_size" (JNum 1) p
                            | _ => false
                            end) (json_field "projects" status) &&
           is_true "ok" u && negb still && field_is "projects" (JArr []) status')).

Definition duplicate_register_returns_project_exists : bool :=
  run_server None (_ ← send_admin alpha register_alpha; v ← send_admin alpha register_alpha;
                   mret (code_is "project_exists" v)).

Definition register_with_missing_manifest_returns_manifest_not_found : bool :=
  run_server None (v ← send_admin [] register_alpha; mret (code_is "manifest_not_found" v)).

Definition reload_propagates_new_allowlist : bool :=
  run_server None
    (_ ← send_admin alpha register_alpha;
     v ← send_admin alpha_rewritten (op "reload" [("name", JStr "alpha")]);
     info ← send_project alpha_sock (op "info" []);
     g ← send_project alpha_sock (get_req "BAR");
     mret (is_true "ok" v && field_is "allowlist" (JArr [JStr "FOO"; JStr "BAR"]) v &&
           field_is "allowlist" (JArr [JStr "FOO"; JStr "BAR"]) info && code_is "backend_error" g)).

Definition warm (name value : string) : T unit :=
  on_first_cache (Cache.insert default_iter 0 name value None).

Definition cache_hit_returns_get_response_and_status_counts_entry : bool :=
  run_server None
    (_ ← send_admin alpha register_alpha; warm "FOO" "hello";;
     v ← send_project alpha_sock (get_req "FOO");
     status ← send_admin alpha (op "status" []);
     _ ← send_admin alpha (op "unregister" [("name", JStr "alpha")]);
     status' ← send_admin alpha (op "status" []);
     mret (is_true "ok" v && field_is "value" (JStr "hello") v &&
           some_with (λ t, match t with JNum t => 0 <? t | _ => false end) (json_field "ttl_seconds" v) &&
           some_with (λ ps, match ps with
                            | JArr (p :: _) => field_is "name" (JStr "alpha") p && field_is "cache_entries" (JNum 1) p
                            | _ => false
                            end) (json_field "projects" status) &&
           field_is "projects" (JArr []) status')).

Definition allowlist_denial_does_not_consult_cache : bool :=
  run_server None
    (_ ← send_admin alpha register_alpha; warm "BAR" "oops";;
     v ← send_project alpha_sock (get_req "BAR");
     mret (code_is "denied" v && no_field "value" v)).

Definition get_emits_fetch_event_per_request : bool :=
  run_server None
    (_ ← send_admin alpha register_alpha; warm "FOO" "v1";;
     _ ← send_project alpha_sock (get_req "FOO");
     _ ← send_project alpha_sock (get_req "BAR");
     on_first_cache Cache.clear;;
     _ ← send_project alpha_sock (get_req "FOO");
     _ ← send_project alpha_sock (op "ping" []);
     _ ← send_project alpha_sock (op "info" []);
     events ← gets read_audit_events;
     mret (forallb (λ e, field_is "event" (JStr "fetch") e && field_is "project" (JStr "alpha") e &&
                         field_is "peer_pid" (JNum 4242) e && negb (no_field "peer_uid" e) &&
                         negb (no_field "latency_ms" e) && no_field "value" e) events &&
           match events with
           | [e0; e1; e2] =>
               field_is "secret_name" (JStr "FOO") e0 && field_is "decision" (JStr "allow") e0 &&
               field_is "outcome" (JStr "ok") e0 && field_is "backend" (JStr "cache") e0 && no_field "reason" e0 &&
               field_is "secret_name" (JStr "BAR") e1 && field_is "decision" (JStr "deny") e1 &&
               field_is "outcome" (JStr "ok") e1 && field_is "reason" (JStr "allowlist") e1 && no_field "backend" e1 &&
               field_is "secret_name" (JStr "FOO") e2 && field_is "decision" (JStr "allow") e2 &&
               field_is "outcome" (JStr "backend_error") e2 && no_field "backend" e2
           | _ => false
           end)).

Definition tripwire : string := "tripwire-DO-NOT-LEAK-7f3a".
Definition text_has (text : string) (j : json) : bool := has_text text (of_bytes (compact j)).
Definition audit_never_contains_secret_value : bool :=
  run_server None
    (_ ← send_admin alpha register_alpha; warm "FOO" tripwire;;
     v ← send_project alpha_sock (get_req "FOO");
     events ← gets read_audit_events;
     mret (text_has tripwire v && (length events =? 1)%nat && forallb (λ e, negb (text_has tripwire e)) events)).

Definition stale_admin_socket_is_replaced_on_bind : bool :=
  let s := server_init (Fnox := string) None in
  let s := set_reg (set_nodes {[admin_sock := Stale]} s.(ss_reg)) s in
  ((up ← started;
    n ← gets (λ s, s.(ss_reg).(rs_nodes) !! admin_sock);
    mret (up && same n (Some (Socket 384 AdminListener)))) s).1.

Definition end_to_end_fnox_backend_resolves_a_secret : bool :=
  run_server (Some "world")
    (r ← send_admin [write_project "hello" "hello: HELLO"]
           (op "register" [("name", JStr "hello"); ("project_path", JStr "/t/hello")]);
     v ← send_project "/t/run/hello.sock" (get_req "HELLO");
     v2 ← send_project "/t/run/hello.sock" (get_req "HELLO");
     events ← gets read_audit_events;
     mret (is_true "ok" r && is_true "ok" v && field_is "value" (JStr "world") v &&
           is_true "ok" v2 && field_is "value" (JStr "world") v2 &&
           match json_field "ttl_seconds" v, json_field "ttl_seconds" v2 with
           | Some (JNum t), Some (JNum t2) => t2 <=? t
           | _, _ => false
           end &&
           match events with
           | [e0; e1] => field_is "backend" (JStr "fnox") e0 && field_is "backend" (JStr "cache") e1
           | _ => false
           end &&
           forallb (λ e, field_is "outcome" (JStr "ok") e && field_is "decision" (JStr "allow") e &&
                         no_field "value" e && negb (text_has "world" e)) events)).

Example server_tests : all_pass
  [status_round_trip; unknown_op_returns_protocol_error;
   rotate_bootstrap_with_no_backend_returns_bootstrap_error;
   get_with_no_backend_returns_backend_error_with_hint; register_lifecycle_end_to_end;
   duplicate_register_returns_project_exists;
   register_with_missing_manifest_returns_manifest_not_found; reload_propagates_new_allowlist;
   cache_hit_returns_get_response_and_status_counts_entry; allowlist_denial_does_not_consult_cache;
   get_emits_fetch_event_per_request; audit_never_contains_secret_value;
   stale_admin_socket_is_replaced_on_bind; end_to_end_fnox_backend_resolves_a_secret] = true.
Proof. vm_compute. reflexivity. Qed.
